(* ===== verification/_CoqProject ===== *)
-Q . S2P
Prelude.v
Shared.v
Hex.v
RBTree.v
Kernel.v
Ring.v
Tickets.v
TicketsSpec.v
CacheModel.v
Access.v
Crypto.v
Concrete.v
CacheTheorems.v
PayloadIO.v
FileIO.v
Shm.v
Hooks.v
AccessSpec.v
AccessTheorems.v
Invariants.v
RealmTheorems.v
LabelSpec.v
ProtocolSpec.v
ProtocolTheorems.v
ShmTheorems.v
InterfaceTheorems.v
LibState.v
Printing.v
LibCache.v
LibIpc.v
LibClient.v
Shim.v
LibCacheSpec.v
LibCacheOps.v
LibCacheTheorems.v
LibIpcTheorems.v
LibClientSpec.v
LibPaths.v
LibTheorems.v
LibConcrete.v
EndToEnd.v
Ltc.v
LtcRsa.v
LtcSpec.v
LtcTheorems.v
LtcConcrete.v
Der.v
DerSeq.v
LtcKeys.v
DerSpec.v
DerPrims.v
DerBits.v
DerOid.v
DerSafety.v
DerSafeSeq.v
DerSeqSpec.v
LtcKeysSpec.v
LtcKeysTheorems.v
LtcKeysConcrete.v
Enclave.v
Preparatory.v
Daemon.v
EnclaveSpec.v
EnclaveTheorems.v
System.v
Boot.v
SystemSpec.v
SystemServe.v
SystemTheorems.v
Registration.v
PreparatoryTheorems.v
DaemonTheorems.v
Platform.v
PlatformSpec.v
PlatformCache.v
PlatformServe.v
PlatformTheorems.v
Sessions.v
SystemConcrete.v
PlatformConcrete.v
