(* ===== verification/Prelude.v ===== *)
(** * Citadel: a verification development

    Citadel confines programs on Linux with the help of an SGX enclave.  It has
    three parts that talk to each other:

    - a Linux security module (src/lsm), which labels inodes, taints processes
      and lets a process touch a labelled object only with a recent ticket;
    - a user-space library (src/libcitadel), which programs link to ask for
      permissions, with a cache of permissions and a shim of system calls;
    - a daemon with an enclave (src/daemon), which decides requests by a policy
      and sends tickets to the module.

    The enclave registers with the module by answering a challenge, then sends
    updates (lists of tickets) and labelling requests, sealed under a session
    key that advances with every message.  A process reads a process token from
    the module and presents it, sealed, with its requests to the daemon.

    ** Conventions

    C code is translated into functions of the state-and-fault monad [M] below:
    a function returns a value and a new state, or one of the [fault]s.
    Undefined behaviour (a NULL or dangling pointer, an access out of bounds, an
    unassigned variable, a division by zero, a return where none is declared) is a
    fault, so a theorem that a function returns [Ok] excludes it.  Three
    exceptions: [memcmp_eq] of the library compares up to the first difference and
    does not fault on bytes behind it; [frame_slack] and [null_load_traps], below,
    are parameters.  Integers are [Z], with [int32], [uint8] .. [uint64] where the
    code can wrap.  Heap objects that are linked by pointers live in finite maps
    from addresses.  Loops that are not structural take fuel; the fault
    [OutOfFuel] marks its exhaustion.  The fuel is one more than the number of
    live heap cells for list walks ([heap_fuel], [list_fuel]) and the number of
    attempts for the send and receive loops; the theorems prove that it is not
    exhausted ([ticket_loops_terminate] on every heap, the others on well-formed
    lists, on whose cyclic counterparts the code does not end either).  The
    redrawing of zero padding bytes in libtomcrypt ends only when the random
    source yields another byte: [rng_patience] bounds the draws, and [LtcLaws]
    states that the source keeps to it.  The loop of the daemon's socket does not
    end by design, and [run_server] takes the number of rounds.  The DER decoders
    loop over a count they have read and over the items of a template, and need
    no fuel but for UTF8 strings, whose rounds each read a byte ([utf8_chars] gets
    one more than there are bytes).  Log
    messages are not modelled (they are compiled out unless CITADELDEBUG is
    defined), and neither are locks: operations run one after the other.

    What is not in the repository is a parameter with laws, stated as a class:
    the kernel's clock, allocator, random bytes and attribute storage ([Kernel],
    [KernelLaws]); the rebalancing of red-black trees ([RbTree]); the kernel's
    ciphers ([KernelCrypto], [CryptoLaws]: decryption inverts encryption, and
    what is accepted under a key was sealed under it); the operating system
    under the library ([Posix], [PosixLaws]); the random sources and allocations
    of libtomcrypt ([LtcEnv], [LtcLaws]); the SGX runtime ([Sgx], [SgxLaws]), and
    that its AES-GCM agrees with the kernel's ([GcmInterop]), as does the kernel's
    PKCS #1 v1.5 with libtomcrypt's ([rsa_interop]); the operating system under
    the daemon ([DaemonOS]); sealing and the files of the key tool ([Sealer],
    [SealLaws]).  What the enclave calls outside is a parameter of the
    enclave ([Untrusted]) so that its theorems hold for a hostile daemon; the
    functions of lsm_io.cpp are an instance.  Concrete, LibConcrete, LtcConcrete,
    LtcKeysConcrete, SystemConcrete and PlatformConcrete instantiate all of them,
    and the witnesses apply the theorems there.

    The library and the daemon meet on the [platform]: the operating system under
    the library is there made of the daemon, the module and one connection between
    them.  The daemon gets to run while the process polls for a reply; [schedule]
    says at which polls, and the theorems ask that it does so within the polls of
    one receive loop ([fair], less than [ipc_timeout]).  One round of the server
    needs fuel 2, for the message and for the reply.  The hooks that the kernel
    runs on the process's own socket and on its access to the token file, and
    connections of other processes, are left out there.

    Two functions of the enclave write twelve bytes past an array of their frame.
    [frame_slack], the number of unused bytes behind it, decides between a fault
    and the intended result; theorems on tickets assume at least twelve.

    [check_ticket_cache] ends with a load through the reservation of the process,
    which is NULL for a process that has none; nothing uses what is loaded.
    [null_load_traps] says whether the compiler keeps the load.  If it does, the
    check faults for such a process ([check_without_reservation_faults]); theorems
    that run a check ask for a reservation or for a compiler that drops the load
    ([resv_read]), unless a ticket was inserted for the process before, which
    makes the reservation.

    The enclave ignores the status of AES-GCM, so what the SGX runtime leaves in
    the output of a message it rejects is a parameter ([sgx_gcm_rejected]); the
    law [sgx_gcm_clears] says that it clears the output, as the runtime of the SDK
    does.

    ** Files

    Shared ground:
    - Prelude: the monad, faults, machine integers, byte strings, tactics.
    - Shared: _citadel_shared.h, the constants, the message structs, their x86-64
      layout: what the casts and copies of their memory mean.
    - Hex: to_hexstring and hexstring_to_bytes of common.c.

    The security module:
    - RBTree: search, link and update of the kernel's trees; Kernel: security
      blobs (includes/common.h), ticket heap, statics, the state [kstate];
    - Tickets (ticket_cache.c), Access (common.c), Crypto (aes.c, rsa.c),
      PayloadIO (payload_io.c), FileIO (file_io.c), Shm (shm_tracking.c), Hooks
      (lsm_functions/*.c and citadel.c): one definition per C function, under
      its name; parts of long functions are definitions of their own.
      [citadel_hooks] dispatches an [lsm_event] to its hook as the hook table of
      citadel.c does, and [run_events] runs a history of events.
    - Ring and TicketsSpec: the rings of tickets and what the cache operations
      do to them; CacheModel: the abstract ticket cache; AccessSpec, LabelSpec,
      ProtocolSpec, Invariants: lemmas on the hooks, on labels on disk, on the
      protocol handlers, and on what every entry point preserves.

    The library:
    - LibState: heap of cache items, statics, system calls with a trace; Printing
      (common.c, and Enclave.cpp of the enclave); LibCache (cache.c), LibIpc (ipc.c), LibClient (init.c, file.c, shm.c, socket.c and
      citadel_validate_fd), Shim (shim.c).
    - LibCacheSpec and LibCacheOps: the linked lists and the effect of each
      operation; LibCacheTheorems: the abstract cache and the simulation;
      LibClientSpec: lemmas on validation; LibPaths: lemmas on paths, and what the
      library does before and after a request about a path.

    The daemon and its enclave:
    - Ltc: libtomcrypt's tables of hashes and generators, its wrappers of GMP and
      its random bytes; LtcRsa: rsa_exptmod.c, PKCS #1 v1.5 encoding and decoding,
      rsa_encrypt_key_ex and rsa_decrypt_key_ex; LtcSpec: the arithmetic.
    - Der: the length fields and primitive types of DER (pk/asn1/der); DerSeq:
      sequences, as lists of [item]s (ltc_asn1_list); LtcKeys: rsa_import,
      rsa_export, SubjectPublicKeyInfo (pk/asn1/x509) and the names of algorithms
      (pk/asn1/oid).  DerSpec, DerPrims, DerBits and DerOid relate each primitive
      to its encoding; DerSeqSpec has the reference encoding [der] of nested
      values and the lemmas on sequences; DerSafety and DerSafeSeq have what the
      decoders do on arbitrary input; LtcKeysSpec has the encodings of keys.
    - Preparatory: the tool that seals the keys of a build
      (scripts/preparatory_enclave) and the key file of generate_keys.sh.
    - Enclave: aes.cpp, rsa_encrypt.cpp, rsa_decrypt.cpp, lsm_communication.cpp,
      userspace_io.cpp and the basic policy, on the state [estate]; Daemon:
      lsm_io.cpp, identifier_cache.cpp, socket.cpp, sgx_utils.cpp and app.cpp, on
      [dstate]; EnclaveSpec: the effect of each operation.

    The whole system:
    - System: the machine of the daemon, an instance of [DaemonOS] whose calls on
      the module's files run the handlers of FileIO and Hooks; Boot: the start of
      the module (citadel.c), its files and its table of hooks; SystemSpec: the
      invariant [in_step] that ties the enclave to the module; SystemServe: what
      a request does between the socket and the module.
    - Platform: the machine with one process, the daemon and the module, an
      instance of [Posix] and of [DaemonOS] at once; PlatformSpec: one transaction
      of the library with one round of the server; PlatformCache: the identifier
      cache of the daemon against the labels on disk; PlatformServe: the state
      [joined] of a process and the requests it makes.

    ** What the theorems show

    - CacheTheorems: the rings and the reservation tree implement the abstract
      ticket cache over any sequence of insertions and checks; the exact effect
      of a check on any well-formed state; the check of a process without a
      reservation; allocation failures; termination.
    - AccessTheorems: the decision of can_access; complete mediation of
      inode_permission (access exactly when it is exempt or with a ticket younger
      than fifteen seconds); from a grant to the access, and its expiry.
    - RealmTheorems: taint and labels stick through any history of events; what
      a forked process inherits; socket hooks never refuse; threads that share
      credentials lose grants.
    - ProtocolTheorems: registration, replay, updates, forged messages, labels
      that survive eviction, process tokens, and two faulting paths.
    - ShmTheorems and InterfaceTheorems: shared memory, attribute protection,
      sealed keys, sealing, message layout.
    - LibTheorems and LibIpcTheorems: the library's cache implements lists of
      permissions; validation of descriptors, mediation by the shim, caching of
      granted paths; when a transaction succeeds; a use after free and a
      corrupted retransmission.
    - EndToEnd: the process token from the module into the library.
    - LtcTheorems: the private operation computes the power modulo the key's
      modulus with and without the Chinese remainder optimisation, and never
      releases a result that fails its check; the padding is recognised exactly;
      what is encrypted for a key is decrypted with it.
    - LtcKeysTheorems: sequences are encoded exactly as the reference encoding,
      and decoded to what was encoded; an exported key is imported again; on
      arbitrary input the decoder stays within the input, one byte behind it, and
      the buffers of the template, and rsa_import returns if the input is not empty.  The byte behind
      is real: LtcKeysConcrete has the inputs that read it.
    - EnclaveTheorems: only a caller with a token the module sealed under the
      session key is served; a claim without a path, a frame without slack and a
      key without memory fault; no sequence of calls by a hostile daemon breaks the shape of the
      enclave's keys.
    - Boot: the paths that daemon and library use lead to the handlers of the
      module, with the intended access rights.
    - SystemTheorems: enclave and module advance their keys together through any
      sequence of requests of correct clients; after one lost message they hold
      different keys; a request to open a file ends in a ticket the module honours.
    - Registration, PreparatoryTheorems and DaemonTheorems: a daemon that starts
      ends with enclave and module sharing a session key and its socket labelled,
      when the sealed file holds the DER encodings of the keys; the key tool writes such a file; paths
      are translated to the identifiers the module keeps on disk; the creation of
      the enclave and the main loop of the daemon end; a client that disconnects
      stops the server.
    - PlatformTheorems: through the library, the socket, the daemon, the enclave
      and the module, a process joins with [citadel_init], opens a labelled file,
      claims a file, and is refused, with the effect on every component.
    - Sessions: any sequence of claims and opens by a joined process succeeds, and
      all components agree after each.

    ** Not modelled

    - The vendored libtomcrypt beyond what the enclave reaches: ciphers, hashes,
      elliptic curves, tests, notes and demonstrations.  Of what it reaches, the
      OAEP padding, which it never selects, and the ASN.1 types that no template
      of the RSA code has (times, teletex strings, sets, choices, custom types).
      GMP, under libtomcrypt, is not in the repository: its numbers are [Z].
    - The demonstration programs and benchmarks (userspace_demo), which only call
      the library, the test function of identifier_cache.cpp, and scripts.
    - daemon/enclave_core/crypto/aes_encrypt.cpp, an older copy of aes.cpp, and the
      two ecalls of Sealing/Sealing.cpp, which hand their arguments on to the SGX
      SDK and which nothing calls.
    - Log output, and formatted printing of the enclave (vsnprintf and an ocall).
    - Threads and locks: hooks, requests and calls of a process run one after the
      other.  A signal to the daemon is seen as an interrupted sleep, and its
      server thread and main thread do not interleave.
    - The hooks that the kernel runs on the daemon's own accesses to files, and on
      the process's accesses to its socket and its token file. *)

From stdpp Require Export base tactics list numbers gmap strings fin_maps functions sorting.
From Stdlib Require Export ZArith Lia.

#[global] Open Scope Z_scope.

(** ** Faults and results

    A C function either returns, or runs into undefined behaviour; the model
    keeps the second case as a value.  [OutOfFuel] is not a behaviour of the
    program: it marks a loop that was not given enough iterations, and every
    result about a loop proves that it does not occur. *)
Inductive fault :=
  | NullDeref      (** a load or a store through a NULL pointer *)
  | BadAccess      (** a load or a store through a pointer to no live object *)
  | OutOfBounds    (** an access past the end of a buffer *)
  | Indeterminate  (** a use of an uninitialised automatic variable *)
  | DivByZero      (** a division by zero *)
  | NoReturn       (** a return from a function that is declared not to return *)
  | OutOfFuel.     (** not a behaviour: the loop bound of the model *)

Inductive result (A : Type) :=
  | Ok (a : A)
  | Fault (f : fault).
Arguments Ok {_} _.
Arguments Fault {_} _.

#[export] Instance fault_eq_dec : EqDecision fault.
Proof. solve_decision. Defined.

(** ** The state-and-fault monad of stateful code *)
Definition M (S A : Type) : Type := S → result (A * S).

#[export] Instance M_ret {S} : MRet (M S) := λ A a s, Ok (a, s).
#[export] Instance M_bind {S} : MBind (M S) := λ A B k m s,
  match m s with
  | Ok (a, s') => k a s'
  | Fault f => Fault f
  end.

Definition get {S} : M S S := λ s, Ok (s, s).
Definition gets {S A} (f : S → A) : M S A := λ s, Ok (f s, s).
Definition modify {S} (f : S → S) : M S unit := λ s, Ok (tt, f s).
Definition crash {S A} (f : fault) : M S A := λ _, Fault f.
Definition when {S} (b : bool) (m : M S unit) : M S unit := if b then m else mret tt.

(** Total correctness: [wp m Q s] says that [m] started in [s] returns, and
    that its result and final state satisfy [Q]. *)
Definition wp {S A} (m : M S A) (Q : A → S → Prop) (s : S) : Prop :=
  match m s with
  | Ok (a, s') => Q a s'
  | Fault _ => False
  end.

(** ** Machine integers *)

(** The value of a 32-bit two's complement [int] after wrap-around (the kernel
    is built with -fno-strict-overflow, so signed arithmetic wraps). *)
Definition int32 (z : Z) : Z := (z + 2 ^ 31) mod 2 ^ 32 - 2 ^ 31.
Definition uint8 (z : Z) : Z := z mod 2 ^ 8.
Definition uint16 (z : Z) : Z := z mod 2 ^ 16.
Definition uint32 (z : Z) : Z := z mod 2 ^ 32.
Definition uint64 (z : Z) : Z := z mod 2 ^ 64.

(** The value of a [char] (signed on x86-64) that holds the byte [b]. *)
Definition schar (b : Z) : Z := if b <? 128 then b else b - 256.

Abbreviation bytes := (list Z).
Definition byte_ok (b : Z) : Prop := 0 ≤ b < 256.
Definition bytes_ok (l : bytes) : Prop := Forall byte_ok l.

(** Pointers: NULL or an address. *)
Abbreviation addr := positive.
Abbreviation ptr := (option positive).

(** A flag test [x & mask] used as a condition. *)
Definition has_flag (x mask : Z) : bool := negb (Z.land x mask =? 0).

(** Little-endian storage of integers. *)
Fixpoint le_bytes (n : nat) (z : Z) : bytes :=
  match n with
  | O => []
  | S n => (z mod 256) :: le_bytes n (z / 256)
  end.
Fixpoint le_value (l : bytes) : Z :=
  match l with
  | [] => 0
  | b :: l => b + 256 * le_value l
  end.

(** memcmp(a, b, n) == 0 on buffers that hold at least [n] bytes. *)
Fixpoint bytes_eqb (a b : bytes) : bool :=
  match a, b with
  | [], [] => true
  | x :: a, y :: b => if x =? y then bytes_eqb a b else false
  | _, _ => false
  end.

(** The C string held by a buffer: the bytes before the first NUL. *)
Fixpoint cstring (l : bytes) : bytes :=
  match l with
  | [] => []
  | b :: l => if b =? 0 then [] else b :: cstring l
  end.

(** The contents of a zeroed buffer of [len] bytes after [v] was written. *)
Definition fill (len : nat) (v : bytes) : bytes := take len (v ++ replicate (len - length v) 0).

(** The bytewise exclusive or of two keys. *)
Definition xor_bytes (a b : bytes) : bytes := zip_with Z.lxor a b.

(** A buffer after [v] was written at an offset. *)
Definition overwrite (off : nat) (v buf : bytes) : bytes := take off buf ++ v ++ drop (off + length v) buf.

(** ** Monad rules *)

Create HintDb citadel.
Create Rewrite HintDb citadel.
Create Rewrite HintDb monad.

Lemma bind_ok {S A B} (m : M S A) (k : A → M S B) s a s' :
  m s = Ok (a, s') → (m ≫= k) s = k a s'.
Proof. intros H. unfold mbind, M_bind. by rewrite H. Qed.

Lemma bind_fault {S A B} (m : M S A) (k : A → M S B) s f :
  m s = Fault f → (m ≫= k) s = Fault f.
Proof. intros H. unfold mbind, M_bind. by rewrite H. Qed.

Lemma bind_ok_inv {S A B} (m : M S A) (k : A → M S B) s r :
  (m ≫= k) s = Ok r → ∃ a s', m s = Ok (a, s') ∧ k a s' = Ok r.
Proof.
  unfold mbind, M_bind. destruct (m s) as [[a s']|f] eqn:E; [|done]. eauto.
Qed.

Lemma bind_gets {S A B} (f : S → A) (k : A → M S B) s : (gets f ≫= k) s = k (f s) s.
Proof. done. Qed.
Lemma bind_ret {S A B} (a : A) (k : A → M S B) s : (mret a ≫= k) s = k a s.
Proof. done. Qed.
Lemma bind_modify {S B} (f : S → S) (k : unit → M S B) s : (modify f ≫= k) s = k tt (f s).
Proof. done. Qed.
Lemma bind_assoc {S A B C} (m : M S A) (f : A → M S B) (g : B → M S C) s :
  ((m ≫= f) ≫= g) s = (m ≫= λ x, f x ≫= g) s.
Proof. unfold mbind, M_bind. by destruct (m s) as [[a s']|e]. Qed.
Lemma bind_when {S B} (b : bool) (m : M S unit) (k : unit → M S B) s :
  (when b m ≫= k) s = if b then (m ≫= k) s else k tt s.
Proof. by destruct b. Qed.

#[export] Hint Rewrite @bind_gets @bind_ret @bind_modify : monad.

Lemma wp_ret {S A} (a : A) Q (s : S) : Q a s → wp (mret a) Q s.
Proof. done. Qed.

Lemma wp_bind {S A B} (m : M S A) (k : A → M S B) Q s :
  wp m (λ a, wp (k a) Q) s → wp (m ≫= k) Q s.
Proof. unfold wp, mbind, M_bind. by destruct (m s) as [[a s']|f]. Qed.

Lemma wp_mono {S A} (m : M S A) (Q Q' : A → S → Prop) s :
  wp m Q s → (∀ a s', Q a s' → Q' a s') → wp m Q' s.
Proof. unfold wp. destruct (m s) as [[a s']|f]; eauto. Qed.

Lemma wp_ok {S A} (m : M S A) (Q : A → S → Prop) s a s' :
  m s = Ok (a, s') → Q a s' → wp m Q s.
Proof. intros H HQ. unfold wp. by rewrite H. Qed.

Lemma wp_elim {S A} (m : M S A) (Q : A → S → Prop) s :
  wp m Q s → ∃ a s', m s = Ok (a, s') ∧ Q a s'.
Proof. unfold wp. destruct (m s) as [[a s']|f]; [eauto|done]. Qed.

Lemma wp_gets {S A} (f : S → A) Q s : Q (f s) s → wp (gets f) Q s.
Proof. done. Qed.
Lemma wp_modify {S} (f : S → S) Q s : Q tt (f s) → wp (modify f) Q s.
Proof. done. Qed.
Lemma wp_if {S A} (b : bool) (m m' : M S A) Q s :
  (b = true → wp m Q s) → (b = false → wp m' Q s) → wp (if b then m else m') Q s.
Proof. destruct b; auto. Qed.

#[export] Hint Resolve wp_ret wp_gets wp_modify : citadel.

(** ** Tactics *)

(** Turn boolean tests in hypotheses into propositions. *)
Ltac breflect :=
  repeat match goal with
  | H : _ && _ = true |- _ => apply andb_true_iff in H as [? ?]
  | H : _ || _ = false |- _ => apply orb_false_iff in H as [? ?]
  | H : negb _ = true |- _ => apply negb_true_iff in H
  | H : negb _ = false |- _ => apply negb_false_iff in H
  | H : bool_decide _ = true |- _ => apply bool_decide_eq_true in H
  | H : bool_decide _ = false |- _ => apply bool_decide_eq_false in H
  end.

(** Case analysis on the next test of the goal. *)
Ltac case_if :=
  match goal with
  | |- context [if ?b then _ else _] =>
      lazymatch b with
      | context [if _ then _ else _] => fail
      | _ => let E := fresh "E" in destruct b eqn:E
      end
  end.

(** Step through monadic code whose first action has a known result. *)
Ltac mstep H := erewrite (bind_ok _ _ _ _ _ H).
(** Step through the state accesses at the front of the program. *)
Ltac mred := repeat (rewrite ?bind_gets, ?bind_ret, ?bind_modify; cbv beta).

(** ** Integers *)

Lemma int32_id z : - 2 ^ 31 ≤ z < 2 ^ 31 → int32 z = z.
Proof. intros ?. unfold int32. rewrite Z.mod_small; lia. Qed.

Lemma int32_range z : - 2 ^ 31 ≤ int32 z < 2 ^ 31.
Proof. unfold int32. pose proof (Z.mod_pos_bound (z + 2 ^ 31) (2 ^ 32)). lia. Qed.

Lemma has_flag_0_r x : has_flag x 0 = false.
Proof. unfold has_flag. by rewrite Z.land_0_r. Qed.

Lemma le_bytes_length n z : length (le_bytes n z) = n.
Proof. revert z. induction n; intros; simpl; auto. Qed.

Lemma le_bytes_ok n z : bytes_ok (le_bytes n z).
Proof.
  revert z. induction n as [|n IH]; intros z; simpl; constructor; [|apply IH].
  unfold byte_ok. apply Z.mod_pos_bound. lia.
Qed.

Lemma le_value_bytes n z : le_value (le_bytes n z) = z mod 256 ^ Z.of_nat n.
Proof.
  revert z. induction n as [|n IH]; intros z.
  - simpl. by rewrite Z.mod_1_r.
  - cbn [le_bytes le_value]. rewrite IH.
    replace (256 ^ Z.of_nat (S n)) with (256 * 256 ^ Z.of_nat n)
      by (rewrite Nat2Z.inj_succ, Z.pow_succ_r; lia).
    rewrite Z.rem_mul_r; lia.
Qed.

Lemma le_bytes_value l : bytes_ok l → le_bytes (length l) (le_value l) = l.
Proof.
  induction 1 as [|b l Hb Hl IH]; [done|]. cbn [length le_bytes le_value].
  unfold byte_ok in Hb. f_equal.
  - rewrite Z.mul_comm, Z_mod_plus_full. apply Z.mod_small. lia.
  - replace ((b + 256 * le_value l) / 256) with (le_value l); [done|].
    rewrite Z.mul_comm, Z_div_plus_full, Z.div_small; lia.
Qed.

Lemma le_value_range l : bytes_ok l → 0 ≤ le_value l < 256 ^ Z.of_nat (length l).
Proof.
  induction 1 as [|b l Hb _ IH]; [simpl; lia|].
  cbn [le_value length]. unfold byte_ok in Hb.
  rewrite Nat2Z.inj_succ, Z.pow_succ_r by lia. lia.
Qed.

(** ** Byte buffers *)

Lemma bytes_eqb_eq a b : bytes_eqb a b = true ↔ a = b.
Proof.
  revert b. induction a as [|x a IH]; intros [|y b]; simpl; try done.
  destruct (Z.eqb_spec x y) as [->|Hne].
  - rewrite IH. naive_solver.
  - naive_solver.
Qed.

Lemma bytes_eqb_refl a : bytes_eqb a a = true.
Proof. by apply bytes_eqb_eq. Qed.

Lemma bytes_eqb_neq a b : bytes_eqb a b = false ↔ a ≠ b.
Proof. rewrite <- bytes_eqb_eq. by destruct (bytes_eqb a b). Qed.

Lemma bytes_ok_app a b : bytes_ok (a ++ b) ↔ bytes_ok a ∧ bytes_ok b.
Proof. apply Forall_app. Qed.

Lemma cstring_id l : Forall (λ b, b ≠ 0) l → cstring l = l.
Proof.
  induction 1 as [|b l Hb _ IH]; [done|]. simpl.
  destruct (Z.eqb_spec b 0); [done|]. by rewrite IH.
Qed.

Lemma cstring_nul l l' : Forall (λ b, b ≠ 0) l → cstring (l ++ 0 :: l') = l.
Proof.
  induction 1 as [|b l Hb _ IH]; [done|]. simpl.
  destruct (Z.eqb_spec b 0); [done|]. by rewrite IH.
Qed.
(** The terminator is enough. *)
Lemma cstring_take l : (length (cstring l) < length l)%nat → cstring (take (length (cstring l) + 1) l) = cstring l.
Proof.
  induction l as [|b l IH]; simpl; [lia|]. destruct (Z.eqb_spec b 0) as [->|Hb]; [done|]. simpl. intros Hl.
  rewrite (proj2 (Z.eqb_neq _ _) Hb). f_equal. apply IH. lia.
Qed.

#[export] Hint Rewrite @length_app @length_replicate le_bytes_length @length_take @length_drop : citadel.
#[export] Hint Resolve le_bytes_ok bytes_eqb_refl : citadel.

Lemma fill_length n v : length (fill n v) = n.
Proof. unfold fill. rewrite length_take, length_app, length_replicate. lia. Qed.

Lemma take_fill n m v : (length v = m)%nat → (m ≤ n)%nat → take m (fill n v) = v.
Proof.
  intros <- Hle. unfold fill. rewrite take_take, Nat.min_l by lia. by rewrite take_app_le, take_ge by lia.
Qed.

Lemma fill_app (b : bytes) n : fill (length b + n) b = b ++ replicate n 0.
Proof.
  unfold fill. replace (length b + n - length b)%nat with n by lia.
  apply take_ge. rewrite length_app, length_replicate. lia.
Qed.

Lemma xor_bytes_zero key n : length key = n → xor_bytes key (replicate n 0) = key.
Proof.
  intros <-. unfold xor_bytes. induction key as [|x key IH]; [done|]. simpl. by rewrite Z.lxor_0_r, IH.
Qed.
Lemma xor_bytes_length a b : length a = length b → length (xor_bytes a b) = length a.
Proof. intros H. unfold xor_bytes. rewrite length_zip_with. lia. Qed.
Lemma xor_bytes_cancel a b : length a = length b → xor_bytes (xor_bytes a b) b = a.
Proof.
  unfold xor_bytes. revert b. induction a as [|x a IH]; intros [|y b] Hl; try done. simpl in *.
  rewrite IH by lia. by rewrite Z.lxor_assoc, Z.lxor_nilpotent, Z.lxor_0_r.
Qed.

(** ** Lists *)

Lemma filter_all {A} (P : A → Prop) `{!∀ x, Decision (P x)} (l : list A) :
  Forall P l → filter P l = l.
Proof. induction 1 as [|x l Hx _ IH]; [done|]. by rewrite filter_cons_True, IH. Qed.

(** Distinct addresses collected from a finite map: a duplicate-free list of
    keys is no longer than the map. *)
Lemma nodup_dom_length {A} (m : gmap positive A) (l : list positive) :
  NoDup l → (∀ a, a ∈ l → is_Some (m !! a)) → (length l ≤ size m)%nat.
Proof.
  intros Hnd Hin.
  rewrite <- size_dom.
  rewrite <- (size_list_to_set (C := gset positive) l Hnd).
  apply subseteq_size. intros a Ha%elem_of_list_to_set.
  apply elem_of_dom. auto.
Qed.

(** Updating a present key in place. *)
Lemma alter_lookup {A} (f : A → A) (m : gmap positive A) a x :
  m !! a = Some x → alter f a m = <[a := f x]> m.
Proof.
  intros Ha. apply map_eq. intros b. destruct (decide (a = b)) as [<-|Hne].
  - by rewrite lookup_alter_eq, lookup_insert_eq, Ha.
  - by rewrite lookup_alter_ne, lookup_insert_ne.
Qed.

#[global] Arguments le_bytes : simpl never.
#[global] Arguments le_value : simpl never.
#[global] Arguments int32 : simpl never.
