(* ===== verification/Hex.v ===== *)
(** * Hexadecimal identifiers

    [to_hexstring] and [hexstring_to_bytes] of [lsm/src/common.c], whose text
    [libcitadel/src/common.c] ([to_hexstring]) and [libcitadel/src/init.c]
    ([_hex_identifier_to_bytes]) repeat.  Identifiers live in extended
    attributes in this encoding, so what one side writes the other must read
    back.  A string is the list of its bytes, NUL included. *)

From S2P Require Import Prelude Shared.

(** ["0123456789ABCDEF"[n]]. *)
Definition hex_digit (n : Z) : Z := if n <? 10 then 48 + n else 55 + n.

Definition hex_body (buf : bytes) : bytes :=
  flat_map (λ b, [hex_digit (Z.shiftr b 4); hex_digit (Z.land b 0x0F)]) buf.

(** NULL for an empty buffer, otherwise the NUL-terminated digits. *)
Definition to_hexstring (buf : bytes) : option bytes :=
  match buf with
  | [] => None
  | _ => Some (hex_body buf ++ [0])
  end.

(** The value the C expression gives to one character: [(c % 32 + 9) % 25]
    computed on [int], with the remainder of C (sign of the dividend). *)
Definition hex_value (c : Z) : Z := Z.rem (Z.rem (schar c) 32 + 9) 25.

Fixpoint hex_pairs (l : bytes) : bytes :=
  match l with
  | c :: d :: l => uint8 (hex_value c * 16 + hex_value d) :: hex_pairs l
  | _ => []
  end.

(** NULL when the string has an odd length. *)
Definition hexstring_to_bytes (hexstring : bytes) : option bytes :=
  let s := cstring hexstring in
  if Nat.odd (length s) then None else Some (hex_pairs s).

Lemma hex_body_length b : length (hex_body b) = (2 * length b)%nat.
Proof. induction b as [|x b IH]; simpl; [done|]. rewrite IH. lia. Qed.

Lemma nibbles b : byte_ok b →
  0 ≤ Z.shiftr b 4 < 16 ∧ 0 ≤ Z.land b 0x0F < 16 ∧ b = Z.shiftr b 4 * 16 + Z.land b 0x0F.
Proof.
  intros Hb. unfold byte_ok in Hb.
  change 0x0F with (Z.ones 4). rewrite Z.land_ones, Z.shiftr_div_pow2 by lia.
  change (2 ^ 4) with 16. pose proof (Z.div_mod b 16).
  pose proof (Z.mod_pos_bound b 16). lia.
Qed.

Lemma hex_digit_value n : 0 ≤ n < 16 → hex_value (hex_digit n) = n.
Proof.
  intros H. unfold hex_digit, hex_value.
  assert (n = 0 ∨ n = 1 ∨ n = 2 ∨ n = 3 ∨ n = 4 ∨ n = 5 ∨ n = 6 ∨ n = 7 ∨ n = 8 ∨ n = 9 ∨
    n = 10 ∨ n = 11 ∨ n = 12 ∨ n = 13 ∨ n = 14 ∨ n = 15) as Hn by lia.
  destruct_or! Hn; subst; reflexivity.
Qed.

Lemma hex_digit_nonzero n : 0 ≤ n < 16 → hex_digit n ≠ 0.
Proof. unfold hex_digit. destruct (Z.ltb_spec n 10); lia. Qed.

Lemma hex_body_nonzero b : bytes_ok b → Forall (λ c, c ≠ 0) (hex_body b).
Proof.
  induction 1 as [|x b Hx _ IH]; simpl; [done|].
  destruct (nibbles x Hx) as (?&?&_). by repeat constructor; try apply hex_digit_nonzero.
Qed.

Lemma hex_pairs_body b : bytes_ok b → hex_pairs (hex_body b) = b.
Proof.
  induction 1 as [|x b Hx _ IH]; simpl; [done|].
  destruct (nibbles x Hx) as (?&?&Heq).
  rewrite !hex_digit_value, IH by done. rewrite <- Heq.
  unfold uint8. rewrite Z.mod_small; [done|]. unfold byte_ok in Hx. lia.
Qed.

Lemma odd_double n : Nat.odd (2 * n) = false.
Proof. rewrite <- Nat.negb_even, Nat.even_mul. done. Qed.

(** The decoder reads back what the encoder wrote, whatever follows the
    terminator in the buffer. *)
Lemma hexstring_to_bytes_body b rest :
  bytes_ok b → hexstring_to_bytes (hex_body b ++ 0 :: rest) = Some b.
Proof.
  intros Hb. unfold hexstring_to_bytes. cbv zeta.
  rewrite cstring_nul by by apply hex_body_nonzero.
  by rewrite hex_body_length, odd_double, hex_pairs_body.
Qed.

Lemma to_hexstring_some b : b ≠ [] → to_hexstring b = Some (hex_body b ++ [0]).
Proof. by destruct b. Qed.

Lemma hex_pairs_length l : length (hex_pairs l) = (length l / 2)%nat.
Proof.
  induction l as [l IH] using (induction_ltof1 _ (@length Z)). unfold ltof in IH.
  destruct l as [|c [|d l]]; [done..|].
  cbn [hex_pairs length]. rewrite IH by (simpl; lia).
  change (S (S (length l))) with (2 + length l)%nat.
  rewrite (Nat.add_comm 2), <- (Nat.mul_1_l 2), Nat.div_add by lia. lia.
Qed.

(** [hexstring_to_bytes] inverts [to_hexstring] on every non-empty byte
    buffer (an identifier, a shared-memory key, a list of PIDs). *)
Theorem hex_roundtrip b :
  bytes_ok b → b ≠ [] → to_hexstring b ≫= hexstring_to_bytes = Some b.
Proof.
  intros Hb Hne. rewrite to_hexstring_some by done.
  by apply hexstring_to_bytes_body.
Qed.

Lemma hex_roundtrip_witness :
  to_hexstring [0x00; 0x9A; 0xFF] ≫= hexstring_to_bytes = Some [0x00; 0x9A; 0xFF].
Proof.
  apply hex_roundtrip; [|discriminate].
  repeat constructor; vm_compute; congruence.
Defined.
