(* ===== verification/RBTree.v ===== *)
(** * Kernel red-black trees

    [ticket_cache.c] and [shm_tracking.c] index their nodes with the kernel's
    [struct rb_root].  The walks that search and link a node are in the
    sources and are modelled here once, parameterised by the comparison of the
    loop body; [rb_insert_color], which recolours and rotates, is kernel code:
    it is a parameter that keeps the in-order sequence of the nodes, which is
    what rotations do. *)

From S2P Require Import Prelude.

Inductive tree (A : Type) :=
  | Leaf
  | Node (l : tree A) (x : A) (r : tree A).
Arguments Leaf {_}.
Arguments Node {_} _ _ _.

Fixpoint inorder {A} (t : tree A) : list A :=
  match t with
  | Leaf => []
  | Node l x r => inorder l ++ x :: inorder r
  end.

(** The loop of [ticket_search] and [shmid_search]: [result < 0] goes left,
    [result > 0] goes right, otherwise the node is returned. *)
Fixpoint rb_walk {A} (cmp : A → Z) (t : tree A) : option A :=
  match t with
  | Leaf => None
  | Node l x r =>
      if cmp x <? 0 then rb_walk cmp l
      else if cmp x >? 0 then rb_walk cmp r
      else Some x
  end.

(** The loop of [insert_reservation] and [insert_shmid] followed by
    [rb_link_node]: [None] is the [return -1] on an equal key. *)
Fixpoint rb_link {A} (cmp : A → Z) (new : A) (t : tree A) : option (tree A) :=
  match t with
  | Leaf => Some (Node Leaf new Leaf)
  | Node l x r =>
      if cmp x <? 0 then (λ l', Node l' x r) <$> rb_link cmp new l
      else if cmp x >? 0 then (λ r', Node l x r') <$> rb_link cmp new r
      else None
  end.

(** A store through the pointer that [rb_walk] returned. *)
Fixpoint rb_store {A} (cmp : A → Z) (f : A → A) (t : tree A) : tree A :=
  match t with
  | Leaf => Leaf
  | Node l x r =>
      if cmp x <? 0 then Node (rb_store cmp f l) x r
      else if cmp x >? 0 then Node l x (rb_store cmp f r)
      else Node l (f x) r
  end.

(** The kernel's rebalancing. *)
Class RbTree := {
  rb_insert_color : ∀ A, tree A → tree A;
  rb_insert_color_inorder : ∀ A (t : tree A), inorder (rb_insert_color A t) = inorder t;
}.
Arguments rb_insert_color {_ _} _.

(** Two rebalancings that meet the law: none at all, and one left rotation at
    the root. *)
Definition rotate_left {A} (t : tree A) : tree A :=
  match t with
  | Node a x (Node b y c) => Node (Node a x b) y c
  | _ => t
  end.
Definition rb_identity : RbTree := {|
  rb_insert_color := λ _ t, t;
  rb_insert_color_inorder := λ _ _, eq_refl |}.
Definition rb_rotating : RbTree.
Proof.
  refine {| rb_insert_color := λ _ t, rotate_left t |}.
  intros A [|a x [|b y c]]; simpl; [done..|]. by rewrite <- app_assoc.
Defined.

(** ** Search trees over 32-bit keys

    Both indexes compare by subtracting two 32-bit keys, so the comparison is
    an order only on keys whose differences do not overflow: a half-open range
    of length [2^31].  PIDs satisfy this; System V keys need not. *)
Section search.
Context {A : Type} (key : A → Z).

Definition key_cmp (k : Z) (x : A) : Z := int32 (k - key x).

Definition in_window (lo k : Z) : Prop := lo ≤ k < lo + 2 ^ 31.

Definition bst (lo : Z) (t : tree A) : Prop :=
  StronglySorted Z.lt (key <$> inorder t) ∧ Forall (λ x, in_window lo (key x)) (inorder t).

Lemma key_cmp_window lo k x :
  in_window lo k → in_window lo (key x) → key_cmp k x = k - key x.
Proof. unfold in_window, key_cmp. intros ??. apply int32_id. lia. Qed.

Lemma StronglySorted_app_lt (l1 l2 : list Z) :
  StronglySorted Z.lt (l1 ++ l2) ↔
  StronglySorted Z.lt l1 ∧ StronglySorted Z.lt l2 ∧ ∀ x y, x ∈ l1 → y ∈ l2 → x < y.
Proof.
  induction l1 as [|a l1 IH]; simpl.
  - split; [|naive_solver]. intros H. split_and!; [constructor|done|]. intros x y Hx. by apply elem_of_nil in Hx.
  - split.
    + intros [Hs Hf]%StronglySorted_inv. apply IH in Hs as (H1&H2&H3).
      apply Forall_app in Hf as [Hf1 Hf2].
      split_and!; [by constructor|done|]. intros x y [->|Hx]%elem_of_cons Hy; [|eauto].
      rewrite Forall_forall in Hf2. eauto.
    + intros ([H1 Hf]%StronglySorted_inv & H2 & H3). constructor.
      * apply IH. split_and!; [done..|]. intros x y Hx Hy. apply H3; [by constructor|done].
      * apply Forall_app. split; [done|]. apply Forall_forall. intros y Hy. apply H3; [constructor|done].
Qed.

Lemma bst_node lo l x r :
  bst lo (Node l x r) ↔
  bst lo l ∧ bst lo r ∧ in_window lo (key x) ∧
  (∀ y, y ∈ inorder l → key y < key x) ∧ (∀ y, y ∈ inorder r → key x < key y).
Proof.
  unfold bst. simpl. rewrite fmap_app, fmap_cons, StronglySorted_app_lt, Forall_app, Forall_cons.
  split.
  - intros ((H1 & [H2 Hf]%StronglySorted_inv & H3) & H4 & H5 & H6).
    rewrite Forall_fmap, Forall_forall in Hf.
    split_and!; try done.
    intros y Hy. apply H3; [by apply list_elem_of_fmap_2|constructor].
  - intros ([H1 H4] & [H2 H6] & H5 & HL & HR). split_and!; try done.
    + constructor; [done|]. rewrite Forall_fmap, Forall_forall. intros y Hy. by apply HR.
    + intros a b (y & -> & Hy)%list_elem_of_fmap Hb.
      apply elem_of_cons in Hb as [->|(z & -> & Hz)%list_elem_of_fmap]; [by apply HL|].
      specialize (HL y Hy). specialize (HR z Hz). lia.
Qed.

Lemma bst_leaf lo : bst lo Leaf.
Proof. split; constructor. Qed.

(** Every tree with the same in-order sequence is a search tree too. *)
Lemma bst_inorder lo t t' : inorder t = inorder t' → bst lo t → bst lo t'.
Proof. unfold bst. by intros ->. Qed.

Lemma rb_walk_spec lo t k x :
  bst lo t → in_window lo k →
  rb_walk (key_cmp k) t = Some x ↔ x ∈ inorder t ∧ key x = k.
Proof.
  intros Ht Hk. induction t as [|l IHl y r IHr]; simpl.
  { split; [done|]. intros [H _]. by apply elem_of_nil in H. }
  apply bst_node in Ht as (Hl & Hr & Hy & HL & HR).
  rewrite (key_cmp_window lo) by done.
  rewrite elem_of_app, elem_of_cons.
  destruct (Z.ltb_spec (k - key y) 0); [|destruct (Z.gtb_spec (k - key y) 0)].
  - rewrite (IHl Hl). split; [naive_solver|]. intros [[?|[->|Hx]] <-]; [done|lia|].
    specialize (HR _ Hx). lia.
  - rewrite (IHr Hr). split; [naive_solver|]. intros [[Hx|[->|Hx]] <-]; [|lia|done].
    specialize (HL _ Hx). lia.
  - split; [intros [= <-]; split; [auto|lia]|].
    intros [[Hx|[->|Hx]] <-]; [|done|].
    + specialize (HL _ Hx). lia.
    + specialize (HR _ Hx). lia.
Qed.

Lemma rb_walk_none lo t k :
  bst lo t → in_window lo k →
  rb_walk (key_cmp k) t = None ↔ ∀ x, x ∈ inorder t → key x ≠ k.
Proof.
  intros Ht Hk. split.
  - intros H x Hx Hkx. assert (rb_walk (key_cmp k) t = Some x) by (by apply (rb_walk_spec lo)).
    congruence.
  - intros H. destruct (rb_walk (key_cmp k) t) as [x|] eqn:E; [|done].
    apply (rb_walk_spec lo) in E as [Hx Hkx]; [|done..]. by destruct (H x Hx).
Qed.

(** Two search trees with the same nodes answer every search alike. *)
Lemma rb_walk_ext lo t t' k :
  bst lo t → bst lo t' → in_window lo k → (∀ x, x ∈ inorder t ↔ x ∈ inorder t') →
  rb_walk (key_cmp k) t = rb_walk (key_cmp k) t'.
Proof.
  intros Ht Ht' Hk Hext. destruct (rb_walk (key_cmp k) t) as [x|] eqn:E; symmetry.
  - apply (rb_walk_spec lo) in E as [Hx Hkx]; [|done..].
    apply (rb_walk_spec lo); [done..|]. by rewrite <- Hext.
  - rewrite (rb_walk_none lo) in E by done.
    apply (rb_walk_none lo); [done..|]. intros x Hx. apply E. by apply Hext.
Qed.

(** Linking a node with a fresh key succeeds and adds exactly that node. *)
Lemma rb_link_spec lo t new :
  bst lo t → in_window lo (key new) → rb_walk (key_cmp (key new)) t = None →
  ∃ t', rb_link (key_cmp (key new)) new t = Some t' ∧ bst lo t' ∧
    ∀ x, x ∈ inorder t' ↔ x = new ∨ x ∈ inorder t.
Proof.
  intros Ht Hk Hnone. induction t as [|l IHl y r IHr]; simpl in *.
  { eexists. split_and!; [done| |].
    - apply bst_node. split_and!; try done; try apply bst_leaf; intros y Hy; by apply elem_of_nil in Hy.
    - intros x. simpl. set_solver. }
  apply bst_node in Ht as (Hl & Hr & Hy & HL & HR).
  rewrite (key_cmp_window lo) in * by done.
  destruct (Z.ltb_spec (key new - key y) 0); [|destruct (Z.gtb_spec (key new - key y) 0); [|done]].
  - destruct (IHl Hl Hnone) as (l' & -> & Hl' & Hin). eexists. split; [done|]. split.
    + apply bst_node. split_and!; try done. intros z [->|Hz]%Hin; [lia|auto].
    + intros x. simpl. rewrite !elem_of_app, Hin. tauto.
  - destruct (IHr Hr Hnone) as (r' & -> & Hr' & Hin). eexists. split; [done|]. split.
    + apply bst_node. split_and!; try done. intros z [->|Hz]%Hin; [lia|auto].
    + intros x. simpl. rewrite !elem_of_app, !elem_of_cons, Hin. tauto.
Qed.

Lemma rb_store_inorder_keys cmp f t :
  (∀ x, key (f x) = key x) → key <$> inorder (rb_store cmp f t) = key <$> inorder t.
Proof.
  intros Hf. induction t as [|l IHl x r IHr]; simpl; [done|].
  repeat case_if; simpl; rewrite !fmap_app, !fmap_cons; by rewrite ?IHl, ?IHr, ?Hf.
Qed.

(** A store that writes back what it found. *)
Lemma rb_store_id cmp (f : A → A) t :
  (∀ x, rb_walk cmp t = Some x → f x = x) → rb_store cmp f t = t.
Proof.
  induction t as [|l IHl x r IHr]; simpl; [done|]. intros Hf.
  repeat case_if; rewrite ?IHl, ?IHr by done; [done..|]. by rewrite Hf.
Qed.

Lemma bst_store lo cmp f t : (∀ x, key (f x) = key x) → bst lo t → bst lo (rb_store cmp f t).
Proof.
  intros Hf [Hs Hw]. unfold bst. rewrite rb_store_inorder_keys by done. split; [done|].
  rewrite <- (Forall_fmap key (in_window lo)) in *. by rewrite rb_store_inorder_keys.
Qed.

(** A store changes the node of its key and no other. *)
Lemma rb_walk_store lo t k k' f :
  (∀ x, key (f x) = key x) → bst lo t → in_window lo k → in_window lo k' →
  rb_walk (key_cmp k') (rb_store (key_cmp k) f t) =
  if bool_decide (k = k') then f <$> rb_walk (key_cmp k') t else rb_walk (key_cmp k') t.
Proof.
  intros Hf Ht Hk Hk'. induction t as [|l IHl y r IHr]; simpl.
  { by case_bool_decide. }
  apply bst_node in Ht as (Hl & Hr & Hy & HL & HR).
  specialize (IHl Hl). specialize (IHr Hr).
  rewrite (key_cmp_window lo k) by done.
  destruct (Z.ltb_spec (k - key y) 0); [|destruct (Z.gtb_spec (k - key y) 0)]; simpl;
    rewrite ?(key_cmp_window lo k' (f y)), ?(key_cmp_window lo k' y), ?Hf by (by rewrite ?Hf).
  - destruct (Z.ltb_spec (k' - key y) 0); [done|].
    destruct (Z.gtb_spec (k' - key y) 0); case_bool_decide; done || lia.
  - destruct (Z.ltb_spec (k' - key y) 0); [|destruct (Z.gtb_spec (k' - key y) 0); [done|]];
      case_bool_decide; done || lia.
  - destruct (Z.ltb_spec (k' - key y) 0); [|destruct (Z.gtb_spec (k' - key y) 0)];
      case_bool_decide; done || lia.
Qed.
End search.

#[export] Hint Resolve bst_leaf : citadel.

(** Insertion as the sources do it, on a search tree: the new key is found and
    the other keys are found as before. *)
Lemma rb_insert_spec `{RbTree} {A} (key : A → Z) lo t new :
  bst key lo t → in_window lo (key new) → rb_walk (key_cmp key (key new)) t = None →
  ∃ t', rb_link (key_cmp key (key new)) new t = Some t' ∧ bst key lo (rb_insert_color t') ∧
    ∀ k, in_window lo k → rb_walk (key_cmp key k) (rb_insert_color t') =
      if bool_decide (key new = k) then Some new else rb_walk (key_cmp key k) t.
Proof.
  intros Ht Hk Hnone. destruct (rb_link_spec key lo t new) as (t' & Hl & Ht' & Hin); [done..|].
  assert (bst key lo (rb_insert_color t')) as Hb.
  { eapply bst_inorder; [|done]. symmetry. apply rb_insert_color_inorder. }
  exists t'. split_and!; [done..|]. intros k Hk'. case_bool_decide as Hkk.
  - apply (rb_walk_spec _ lo); [done..|]. rewrite rb_insert_color_inorder, Hin. auto.
  - destruct (rb_walk (key_cmp key k) t) as [x|] eqn:E.
    + apply (rb_walk_spec _ lo) in E as [Hx Hkx]; [|done..].
      apply (rb_walk_spec _ lo); [done..|]. rewrite rb_insert_color_inorder, Hin. auto.
    + rewrite (rb_walk_none _ lo) in E by done. apply (rb_walk_none _ lo); [done..|].
      intros x. rewrite rb_insert_color_inorder, Hin. intros [->|Hx]; auto.
Qed.
