(* ===== verification/Kernel.v ===== *)
(** * The state of the security module

    The blobs of [lsm/includes/common.h], the static variables of the module,
    and the kernel services it calls.  Services that are not part of this
    repository (clock, allocator, random bytes, the extended attributes of the
    VFS, the capability checks) are the parameters of the class [Kernel]; a
    service whose answers vary is a sequence of answers, and the state counts
    how many have been consumed.  Ticket cells live in a heap of addresses,
    because the code links them by pointers, splices and frees them. *)

From S2P Require Import Prelude Shared RBTree.

(** ** Blobs and nodes *)
Record citadel_ticket := Ticket {
  tk_identifier : bytes; tk_operation : Z; tk_timestamp : Z; tk_next : ptr; tk_prev : ptr }.
Record citadel_task_data := TaskData {
  td_in_realm : bool; td_granted_pty : bool; td_ticket_head : ptr; td_pid : Z;
  td_identifier : bytes }.
Record citadel_inode_data := InodeData {
  id_in_realm : bool; id_needs_xattr_update : bool; id_checked_disk_xattr : bool;
  id_is_socket : bool; id_anonymous : bool; id_identifier : bytes }.
Record citadel_ipc_data := IpcData { ip_in_realm : bool; ip_identifier : bytes }.
Record ticket_reservation_node := Reservation {
  rn_pid : Z; rn_ticket_head : ptr; rn_granted_pty : bool }.
(** The list of PIDs hanging off a node is reached from that node only. *)
Record citadel_shm_node := ShmNode { sn_shmid : Z; sn_pids : list Z }.

(** The static variables of [payload_io.c]. *)
Record payload_statics := Payload {
  current_challenge : bytes; registered_name : bytes; aes_key : bytes;
  ptoken_aes_key : bytes; registered : bool; enclave_pid : Z }.

(** ** Kernel objects passed to the hooks *)
Record inode := Inode {
  i_ref : positive;         (** identity: the key of its blob *)
  i_ino : Z; i_isdir : bool; i_magic : Z;
  i_security : bool         (** [i_security != NULL] *) }.
Record dentry := Dentry {
  d_ref : positive; d_inode : option inode; d_real_inode : option inode }.
Record kern_ipc_perm := IpcPerm { ipc_ref : positive; ipc_key : Z }.
Record task_struct := Task { ts_pid : Z; ts_cred : positive }.

(** Super block magic numbers ([linux/magic.h]). *)
Definition PIPEFS_MAGIC : Z := 0x50495045.
Definition SOCKFS_MAGIC : Z := 0x534F434B.
Definition SYSFS_MAGIC : Z := 0x62656572.
Definition SECURITYFS_MAGIC : Z := 0x73636673.
Definition TMPFS_MAGIC : Z := 0x01021994.
Definition DEVPTS_SUPER_MAGIC : Z := 0x1cd1.

(** Error codes. *)
Definition EPERM : Z := 1.
Definition EIO : Z := 5.
Definition ENOMEM : Z := 12.
Definition EACCES : Z := 13.
Definition EFAULT : Z := 14.
Definition EINVAL : Z := 22.
Definition EOPNOTSUPP : Z := 95.
Definition ENOMEDIUM : Z := 123.
Definition ECANCELED : Z := 125.

(** ** Kernel services *)
Class Kernel := {
  ktime : nat → Z;                (** successive answers of ktime_get *)
  kmem : nat → bool;              (** whether successive allocations succeed *)
  krand : nat → nat → bytes;      (** successive answers of get_random_bytes *)
  disk : Type;                    (** the extended attributes on disk *)
  vfs_getxattr : disk → dentry → option inode → string → nat → Z * bytes;
  vfs_setxattr_noperm : disk → dentry → string → bytes → Z * disk;
  vfs_removexattr : disk → dentry → string → Z * disk;
  cap_inode_setxattr : dentry → string → bytes → Z → Z;
  cap_inode_removexattr : dentry → string → Z;
  null_load_traps : bool;         (** whether the compiled module makes a load from NULL whose value is not used *)
}.

(** What the module relies on: random bytes are bytes and fill the buffer; a
    successful getxattr fits the caller's buffer; reading back an attribute
    that was stored gives its value and a read of any other attribute is
    unaffected. *)
Class KernelLaws `{Kernel} := {
  krand_length n len : length (krand n len) = len;
  krand_ok n len : bytes_ok (krand n len);
  getxattr_fits d de i name len rc v :
    vfs_getxattr d de i name len = (rc, v) → 0 ≤ rc → (length v ≤ len)%nat;
  get_setxattr d de de' i name len v d' :
    vfs_setxattr_noperm d de name v = (0, d') → d_ref de' = d_ref de → (length v ≤ len)%nat →
    vfs_getxattr d' de' i name len = (Z.of_nat (length v), v);
  get_setxattr_ne d de de' i name name' len v rc d' :
    vfs_setxattr_noperm d de name v = (rc, d') → name ≠ name' →
    vfs_getxattr d' de' i name' len = vfs_getxattr d de' i name' len;
  get_setxattr_other d de de' i name name' len v rc d' :
    vfs_setxattr_noperm d de name v = (rc, d') → d_ref de' ≠ d_ref de →
    vfs_getxattr d' de' i name' len = vfs_getxattr d de' i name' len;
}.

Record kstate `{Kernel} := KState {
  k_heap : gmap positive citadel_ticket;
  k_brk : positive;
  k_resv : tree ticket_reservation_node;       (** ticketing_reservations *)
  k_shm : tree citadel_shm_node;               (** shm_pool *)
  k_creds : gmap positive citadel_task_data;
  k_inodes : gmap positive citadel_inode_data;
  k_ipcs : gmap positive citadel_ipc_data;
  k_disk : disk;
  k_pio : payload_statics;
  k_rsa_available : bool;
  k_aes_available : bool;
  k_nclk : nat;
  k_nmem : nat;
  k_nrnd : nat }.

Section kernel.
Context `{Kernel}.
Implicit Type k : kstate.

(** ** Field updates *)
Definition set_heap (v : gmap positive citadel_ticket) k : kstate :=
  KState _ v (k_brk k) (k_resv k) (k_shm k) (k_creds k) (k_inodes k) (k_ipcs k) (k_disk k) (k_pio k) (k_rsa_available k) (k_aes_available k) (k_nclk k) (k_nmem k) (k_nrnd k).
Definition set_brk (v : positive) k : kstate :=
  KState _ (k_heap k) v (k_resv k) (k_shm k) (k_creds k) (k_inodes k) (k_ipcs k) (k_disk k) (k_pio k) (k_rsa_available k) (k_aes_available k) (k_nclk k) (k_nmem k) (k_nrnd k).
Definition set_resv (v : tree ticket_reservation_node) k : kstate :=
  KState _ (k_heap k) (k_brk k) v (k_shm k) (k_creds k) (k_inodes k) (k_ipcs k) (k_disk k) (k_pio k) (k_rsa_available k) (k_aes_available k) (k_nclk k) (k_nmem k) (k_nrnd k).
Definition set_shm (v : tree citadel_shm_node) k : kstate :=
  KState _ (k_heap k) (k_brk k) (k_resv k) v (k_creds k) (k_inodes k) (k_ipcs k) (k_disk k) (k_pio k) (k_rsa_available k) (k_aes_available k) (k_nclk k) (k_nmem k) (k_nrnd k).
Definition set_creds (v : gmap positive citadel_task_data) k : kstate :=
  KState _ (k_heap k) (k_brk k) (k_resv k) (k_shm k) v (k_inodes k) (k_ipcs k) (k_disk k) (k_pio k) (k_rsa_available k) (k_aes_available k) (k_nclk k) (k_nmem k) (k_nrnd k).
Definition set_inodes (v : gmap positive citadel_inode_data) k : kstate :=
  KState _ (k_heap k) (k_brk k) (k_resv k) (k_shm k) (k_creds k) v (k_ipcs k) (k_disk k) (k_pio k) (k_rsa_available k) (k_aes_available k) (k_nclk k) (k_nmem k) (k_nrnd k).
Definition set_ipcs (v : gmap positive citadel_ipc_data) k : kstate :=
  KState _ (k_heap k) (k_brk k) (k_resv k) (k_shm k) (k_creds k) (k_inodes k) v (k_disk k) (k_pio k) (k_rsa_available k) (k_aes_available k) (k_nclk k) (k_nmem k) (k_nrnd k).
Definition set_disk (v : disk) k : kstate :=
  KState _ (k_heap k) (k_brk k) (k_resv k) (k_shm k) (k_creds k) (k_inodes k) (k_ipcs k) v (k_pio k) (k_rsa_available k) (k_aes_available k) (k_nclk k) (k_nmem k) (k_nrnd k).
Definition set_pio (v : payload_statics) k : kstate :=
  KState _ (k_heap k) (k_brk k) (k_resv k) (k_shm k) (k_creds k) (k_inodes k) (k_ipcs k) (k_disk k) v (k_rsa_available k) (k_aes_available k) (k_nclk k) (k_nmem k) (k_nrnd k).
Definition set_nclk (v : nat) k : kstate :=
  KState _ (k_heap k) (k_brk k) (k_resv k) (k_shm k) (k_creds k) (k_inodes k) (k_ipcs k) (k_disk k) (k_pio k) (k_rsa_available k) (k_aes_available k) v (k_nmem k) (k_nrnd k).
Definition set_nmem (v : nat) k : kstate :=
  KState _ (k_heap k) (k_brk k) (k_resv k) (k_shm k) (k_creds k) (k_inodes k) (k_ipcs k) (k_disk k) (k_pio k) (k_rsa_available k) (k_aes_available k) (k_nclk k) v (k_nrnd k).
Definition set_nrnd (v : nat) k : kstate :=
  KState _ (k_heap k) (k_brk k) (k_resv k) (k_shm k) (k_creds k) (k_inodes k) (k_ipcs k) (k_disk k) (k_pio k) (k_rsa_available k) (k_aes_available k) (k_nclk k) (k_nmem k) v.
Definition set_avail (r a : bool) k : kstate :=
  KState _ (k_heap k) (k_brk k) (k_resv k) (k_shm k) (k_creds k) (k_inodes k) (k_ipcs k) (k_disk k) (k_pio k) r a (k_nclk k) (k_nmem k) (k_nrnd k).

(** ** Services as actions *)
Abbreviation K := (M kstate).

Definition ktime_get : K Z := λ k, Ok (ktime (k_nclk k), set_nclk (S (k_nclk k)) k).
(** kmalloc and kzalloc: whether memory was returned. *)
Definition kmalloc : K bool := λ k, Ok (kmem (k_nmem k), set_nmem (S (k_nmem k)) k).
Definition get_random_bytes (len : nat) : K bytes := λ k,
  Ok (krand (k_nrnd k) len, set_nrnd (S (k_nrnd k)) k).
(** An allocation whose result is used without a test for NULL. *)
Definition kmalloc_unchecked : K unit :=
  ok ← kmalloc; if ok : bool then mret tt else crash NullDeref.

(** ** Ticket cells *)
Definition zero_ticket : citadel_ticket := Ticket (replicate 16 0) 0 0 None None.
Definition with_next (v : ptr) (t : citadel_ticket) : citadel_ticket :=
  Ticket (tk_identifier t) (tk_operation t) (tk_timestamp t) v (tk_prev t).
Definition with_prev (v : ptr) (t : citadel_ticket) : citadel_ticket :=
  Ticket (tk_identifier t) (tk_operation t) (tk_timestamp t) (tk_next t) v.

(** [*p] for a ticket pointer. *)
Definition load (p : ptr) : K citadel_ticket := λ k,
  match p with
  | None => Fault NullDeref
  | Some a => match k_heap k !! a with
              | Some t => Ok (t, k)
              | None => Fault BadAccess
              end
  end.
Definition store (p : ptr) (f : citadel_ticket → citadel_ticket) : K unit := λ k,
  match p with
  | None => Fault NullDeref
  | Some a => match k_heap k !! a with
              | Some _ => Ok (tt, set_heap (alter f a (k_heap k)) k)
              | None => Fault BadAccess
              end
  end.
(** kzalloc(sizeof(citadel_ticket_t)): NULL or a fresh zeroed cell. *)
Definition new_ticket : K ptr := λ k,
  Ok (Some (k_brk k),
      set_brk (k_brk k + 1)%positive (set_heap (<[k_brk k := zero_ticket]> (k_heap k)) k)).
Definition alloc_ticket : K ptr :=
  ok ← kmalloc; if ok : bool then new_ticket else mret None.
Definition kfree_ticket (p : ptr) : K unit := λ k,
  match p with
  | None => Ok (tt, k)
  | Some a => match k_heap k !! a with
              | Some _ => Ok (tt, set_heap (delete a (k_heap k)) k)
              | None => Fault BadAccess
              end
  end.

(** ** Blob access *)

(** citadel_cred(cred): the blob of a live credential. *)
Definition load_cred (c : positive) : K citadel_task_data := λ k,
  match k_creds k !! c with Some t => Ok (t, k) | None => Fault BadAccess end.
Definition store_cred (c : positive) (f : citadel_task_data → citadel_task_data) : K unit := λ k,
  match k_creds k !! c with
  | Some _ => Ok (tt, set_creds (alter f c (k_creds k)) k)
  | None => Fault BadAccess
  end.

(** citadel_inode and citadel_dentry: NULL or the blob. *)
Definition citadel_inode (i : option inode) : ptr :=
  match i with
  | Some i => if i_security i then Some (i_ref i) else None
  | None => None
  end.
Definition citadel_dentry (de : option dentry) : ptr :=
  match de with
  | Some de => match d_inode de with
               | Some _ => citadel_inode (d_real_inode de)
               | None => None
               end
  | None => None
  end.
(** d_backing_inode(dentry). *)
Definition d_backing_inode (de : dentry) : option inode := d_inode de.

Definition load_inode (p : ptr) : K citadel_inode_data := λ k,
  match p with
  | None => Fault NullDeref
  | Some a => match k_inodes k !! a with Some d => Ok (d, k) | None => Fault BadAccess end
  end.
Definition store_inode (p : ptr) (f : citadel_inode_data → citadel_inode_data) : K unit := λ k,
  match p with
  | None => Fault NullDeref
  | Some a => match k_inodes k !! a with
              | Some _ => Ok (tt, set_inodes (alter f a (k_inodes k)) k)
              | None => Fault BadAccess
              end
  end.

Definition citadel_ipc (p : option kern_ipc_perm) : ptr := ipc_ref <$> p.
Definition load_ipc (p : ptr) : K citadel_ipc_data := λ k,
  match p with
  | None => Fault NullDeref
  | Some a => match k_ipcs k !! a with Some d => Ok (d, k) | None => Fault BadAccess end
  end.
Definition store_ipc (p : ptr) (f : citadel_ipc_data → citadel_ipc_data) : K unit := λ k,
  match p with
  | None => Fault NullDeref
  | Some a => match k_ipcs k !! a with
              | Some _ => Ok (tt, set_ipcs (alter f a (k_ipcs k)) k)
              | None => Fault BadAccess
              end
  end.

(** Field writes of the task blob. *)
Definition td_set_in_realm (b : bool) (t : citadel_task_data) : citadel_task_data :=
  TaskData b (td_granted_pty t) (td_ticket_head t) (td_pid t) (td_identifier t).
Definition td_set_granted_pty (b : bool) (t : citadel_task_data) : citadel_task_data :=
  TaskData (td_in_realm t) b (td_ticket_head t) (td_pid t) (td_identifier t).
Definition td_set_ticket_head (p : ptr) (t : citadel_task_data) : citadel_task_data :=
  TaskData (td_in_realm t) (td_granted_pty t) p (td_pid t) (td_identifier t).
Definition td_set_pid (z : Z) (t : citadel_task_data) : citadel_task_data :=
  TaskData (td_in_realm t) (td_granted_pty t) (td_ticket_head t) z (td_identifier t).

(** Field writes of the inode blob. *)
Definition id_set_in_realm (b : bool) (d : citadel_inode_data) : citadel_inode_data :=
  InodeData b (id_needs_xattr_update d) (id_checked_disk_xattr d) (id_is_socket d)
    (id_anonymous d) (id_identifier d).
Definition id_set_needs_xattr_update (b : bool) (d : citadel_inode_data) : citadel_inode_data :=
  InodeData (id_in_realm d) b (id_checked_disk_xattr d) (id_is_socket d)
    (id_anonymous d) (id_identifier d).
Definition id_set_checked_disk_xattr (b : bool) (d : citadel_inode_data) : citadel_inode_data :=
  InodeData (id_in_realm d) (id_needs_xattr_update d) b (id_is_socket d)
    (id_anonymous d) (id_identifier d).
Definition id_set_is_socket (b : bool) (d : citadel_inode_data) : citadel_inode_data :=
  InodeData (id_in_realm d) (id_needs_xattr_update d) (id_checked_disk_xattr d) b
    (id_anonymous d) (id_identifier d).
Definition id_set_anonymous (b : bool) (d : citadel_inode_data) : citadel_inode_data :=
  InodeData (id_in_realm d) (id_needs_xattr_update d) (id_checked_disk_xattr d)
    (id_is_socket d) b (id_identifier d).
Definition id_set_identifier (v : bytes) (d : citadel_inode_data) : citadel_inode_data :=
  InodeData (id_in_realm d) (id_needs_xattr_update d) (id_checked_disk_xattr d)
    (id_is_socket d) (id_anonymous d) v.

(** ** VFS actions *)
Definition getxattr (de : dentry) (i : option inode) (name : string) (len : nat) : K (Z * bytes) :=
  gets (λ k, vfs_getxattr (k_disk k) de i name len).
Definition setxattr_noperm (de : dentry) (name : string) (v : bytes) : K Z := λ k,
  let '(rc, d) := vfs_setxattr_noperm (k_disk k) de name v in Ok (rc, set_disk d k).
Definition removexattr (de : dentry) (name : string) : K Z := λ k,
  let '(rc, d) := vfs_removexattr (k_disk k) de name in Ok (rc, set_disk d k).

(** ** Lemmas *)

Lemma load_some k a t : k_heap k !! a = Some t → load (Some a) k = Ok (t, k).
Proof. intros Ht. unfold load. by rewrite Ht. Qed.
Lemma store_some k a t f :
  k_heap k !! a = Some t → store (Some a) f k = Ok (tt, set_heap (alter f a (k_heap k)) k).
Proof. intros Ht. unfold store. by rewrite Ht. Qed.
Lemma load_cred_some k c t : k_creds k !! c = Some t → load_cred c k = Ok (t, k).
Proof. intros Ht. unfold load_cred. by rewrite Ht. Qed.
Lemma store_cred_some k c t f :
  k_creds k !! c = Some t → store_cred c f k = Ok (tt, set_creds (alter f c (k_creds k)) k).
Proof. intros Ht. unfold store_cred. by rewrite Ht. Qed.
Lemma load_inode_some k a t : k_inodes k !! a = Some t → load_inode (Some a) k = Ok (t, k).
Proof. intros Ht. unfold load_inode. by rewrite Ht. Qed.
Lemma store_inode_some k a t f :
  k_inodes k !! a = Some t →
  store_inode (Some a) f k = Ok (tt, set_inodes (alter f a (k_inodes k)) k).
Proof. intros Ht. unfold store_inode. by rewrite Ht. Qed.
Lemma load_ipc_some k a t : k_ipcs k !! a = Some t → load_ipc (Some a) k = Ok (t, k).
Proof. intros Ht. unfold load_ipc. by rewrite Ht. Qed.
Lemma store_ipc_some k a t f :
  k_ipcs k !! a = Some t → store_ipc (Some a) f k = Ok (tt, set_ipcs (alter f a (k_ipcs k)) k).
Proof. intros Ht. unfold store_ipc. by rewrite Ht. Qed.

Lemma setxattr_ok k de name v rc D :
  vfs_setxattr_noperm (k_disk k) de name v = (rc, D) → setxattr_noperm de name v k = Ok (rc, set_disk D k).
Proof. intros HD. unfold setxattr_noperm. by rewrite HD. Qed.

Lemma alloc_ticket_ok k :
  kmem (k_nmem k) = true →
  alloc_ticket k = Ok (Some (k_brk k),
    set_brk (k_brk k + 1)%positive
      (set_heap (<[k_brk k := zero_ticket]> (k_heap k)) (set_nmem (S (k_nmem k)) k))).
Proof.
  intros Hm. unfold alloc_ticket, mbind, M_bind, kmalloc. rewrite Hm. by destruct k.
Qed.
Lemma alloc_ticket_null k :
  kmem (k_nmem k) = false → alloc_ticket k = Ok (None, set_nmem (S (k_nmem k)) k).
Proof. intros Hm. unfold alloc_ticket, mbind, M_bind, kmalloc. by rewrite Hm. Qed.
Lemma kmalloc_unchecked_ok k :
  kmem (k_nmem k) = true → kmalloc_unchecked k = Ok (tt, set_nmem (S (k_nmem k)) k).
Proof. intros Hm. unfold kmalloc_unchecked, mbind, M_bind, kmalloc. by rewrite Hm. Qed.
End kernel.
