(* ===== verification/Ring.v ===== *)
(** * Rings of tickets

    The ticket lists of [ticket_cache.c] are circular and doubly linked.  This
    file gives the representation predicate that relates a head pointer and the
    ticket heap to the list of tickets it stands for, and the effect on it of
    the pointer writes the code makes: linking a cell at the end, splicing two
    rings, cutting off a prefix. *)

From S2P Require Import Prelude Kernel.

(** The contents of a ticket, without its links. *)
Record ticket_info := Info { ti_identifier : bytes; ti_operation : Z; ti_timestamp : Z }.
Definition cell (t : ticket_info) (next prev : ptr) : citadel_ticket :=
  Ticket (ti_identifier t) (ti_operation t) (ti_timestamp t) next prev.

(** A list of tickets with the addresses of their cells. *)
Abbreviation cells := (list (positive * ticket_info)).
Abbreviation theap := (gmap positive citadel_ticket).

Definition hd_addr (l : cells) (d : positive) : positive :=
  match l with [] => d | (a, _) :: _ => a end.
Fixpoint last_addr (l : cells) (d : positive) : positive :=
  match l with [] => d | (a, _) :: l => last_addr l a end.

(** [dseg h prv l nxt]: the cells of [l] are linked in order; the first points
    back to [prv] and the last points on to [nxt]. *)
Fixpoint dseg (h : theap) (prv : positive) (l : cells) (nxt : positive) : Prop :=
  match l with
  | [] => True
  | (a, t) :: l =>
      h !! a = Some (cell t (Some (hd_addr l nxt)) (Some prv)) ∧ dseg h a l nxt
  end.

(** [ring h p l]: [p] is the head of a circular list that holds [l]. *)
Definition ring (h : theap) (p : ptr) (l : cells) : Prop :=
  match l with
  | [] => p = None
  | (a, _) :: _ => p = Some a ∧ NoDup l.*1 ∧ dseg h (last_addr l a) l a
  end.

(** ** Segments *)

Lemma hd_addr_app l1 l2 d : hd_addr (l1 ++ l2) d = hd_addr l1 (hd_addr l2 d).
Proof. by destruct l1 as [|[a t] l1]. Qed.
Lemma last_addr_app l1 l2 d : last_addr (l1 ++ l2) d = last_addr l2 (last_addr l1 d).
Proof. revert d. induction l1 as [|[a t] l1 IH]; simpl; auto. Qed.
Lemma last_addr_cons l d d' : l ≠ [] → last_addr l d = last_addr l d'.
Proof. by destruct l as [|[a t] l]. Qed.
Lemma last_addr_in l d : l ≠ [] → last_addr l d ∈ l.*1.
Proof.
  revert d. induction l as [|[a t] [|[b t'] l] IH]; intros d Hne; [done|simpl; constructor|].
  change (last_addr ((a, t) :: (b, t') :: l) d) with (last_addr ((b, t') :: l) a).
  rewrite fmap_cons. apply elem_of_cons. right. by apply IH.
Qed.
Lemma hd_addr_in l d : l ≠ [] → hd_addr l d ∈ l.*1.
Proof. destruct l as [|[a t] l]; [done|]. simpl. constructor. Qed.

Lemma dseg_app h p l1 l2 n :
  dseg h p (l1 ++ l2) n ↔ dseg h p l1 (hd_addr l2 n) ∧ dseg h (last_addr l1 p) l2 n.
Proof.
  revert p. induction l1 as [|[a t] l1 IH]; intros p; simpl; [tauto|].
  rewrite IH, hd_addr_app. tauto.
Qed.

Lemma dseg_frame h h' p l n :
  (∀ a, a ∈ l.*1 → h' !! a = h !! a) → dseg h p l n → dseg h' p l n.
Proof.
  revert p. induction l as [|[a t] l IH]; intros p Hh; simpl; [done|].
  intros [Ha Hl]. split.
  - rewrite Hh; [done|]. simpl. constructor.
  - apply IH; [|done]. intros b Hb. apply Hh. simpl. by constructor.
Qed.

Lemma dseg_lookup h p l n a : dseg h p l n → a ∈ l.*1 → is_Some (h !! a).
Proof.
  revert p. induction l as [|[b t] l IH]; intros p; simpl; [set_solver|].
  intros [Hb Hl] [->|Ha]%elem_of_cons; [eauto|]. by eapply IH.
Qed.

(** Redirecting the back pointer of the first cell. *)
Lemma dseg_set_prev h p q l n d :
  l ≠ [] → NoDup l.*1 → dseg h p l n → dseg (alter (with_prev (Some q)) (hd_addr l d) h) q l n.
Proof.
  destruct l as [|[a t] l]; intros Hne Hnd Hs; [done|].
  simpl in *. apply NoDup_cons in Hnd as [Ha Hnd]. destruct Hs as [Hc Hs]. split.
  - rewrite lookup_alter_eq, Hc. done.
  - eapply dseg_frame; [|exact Hs]. intros b Hb. apply lookup_alter_ne. by intros ->.
Qed.

(** Redirecting the forward pointer of the last cell. *)
Lemma dseg_set_next h p l n m d :
  l ≠ [] → NoDup l.*1 → dseg h p l n → dseg (alter (with_next (Some m)) (last_addr l d) h) p l m.
Proof.
  revert p d. induction l as [|[a t] l IH]; intros p d Hne Hnd Hs; [done|].
  simpl in *. apply NoDup_cons in Hnd as [Ha Hnd]. destruct Hs as [Hc Hs].
  destruct l as [|[b t'] l].
  - simpl in *. split; [|done]. rewrite lookup_alter_eq, Hc. done.
  - split.
    + rewrite lookup_alter_ne; [exact Hc|].
      intros He. apply Ha. rewrite <- He. by apply last_addr_in.
    + by apply IH.
Qed.

(** A pointer write outside a segment. *)
Lemma dseg_alter_other h p l n f a :
  a ∉ l.*1 → dseg h p l n → dseg (alter f a h) p l n.
Proof.
  intros Ha. apply dseg_frame. intros b Hb. apply lookup_alter_ne. by intros ->.
Qed.
Lemma dseg_insert_other h p l n c a :
  a ∉ l.*1 → dseg h p l n → dseg (<[a := c]> h) p l n.
Proof.
  intros Ha. apply dseg_frame. intros b Hb. apply lookup_insert_ne. by intros ->.
Qed.
Lemma dseg_delete_other h p l n a :
  a ∉ l.*1 → dseg h p l n → dseg (delete a h) p l n.
Proof.
  intros Ha. apply dseg_frame. intros b Hb. apply lookup_delete_ne. by intros ->.
Qed.

(** ** Rings *)

Lemma ring_nil h : ring h None [].
Proof. done. Qed.

Lemma ring_cons_inv h p l : l ≠ [] → ring h p l →
  p = Some (hd_addr l 1%positive) ∧ NoDup l.*1 ∧ dseg h (last_addr l 1%positive) l (hd_addr l 1%positive).
Proof.
  destruct l as [|[a t] l]; [done|]. intros _ (Hp & Hnd & Hs). done.
Qed.

Lemma ring_intro h l d d' :
  l ≠ [] → NoDup l.*1 → dseg h (last_addr l d) l (hd_addr l d') → ring h (Some (hd_addr l d')) l.
Proof. destruct l as [|[a t] l]; [done|]. simpl. done. Qed.

Lemma ring_nodup h p l : ring h p l → NoDup l.*1.
Proof. destruct l as [|[a t] l]; [intros _; constructor|]. intros (_ & Hnd & _). done. Qed.

Lemma ring_null h p l : ring h p l → p = None ↔ l = [].
Proof. destruct l as [|[a t] l]; simpl; [naive_solver|]. intros (-> & _). naive_solver. Qed.

Lemma ring_lookup h p l a : ring h p l → a ∈ l.*1 → is_Some (h !! a).
Proof.
  destruct l as [|[b t] l]; [intros _; simpl; set_solver|]. intros (_ & _ & Hs). by eapply dseg_lookup.
Qed.

Lemma ring_frame h h' p l :
  (∀ a, a ∈ l.*1 → h' !! a = h !! a) → ring h p l → ring h' p l.
Proof.
  destruct l as [|[a t] l]; [done|]. intros Hh (Hp & Hnd & Hs).
  split_and!; [done..|]. by eapply dseg_frame.
Qed.

(** A cell of the ring, with its neighbours. *)
Lemma ring_head_cell h a t l :
  ring h (Some a) ((a, t) :: l) →
  h !! a = Some (cell t (Some (hd_addr l a)) (Some (last_addr l a))).
Proof. intros (_ & _ & [Hc _]). done. Qed.

Lemma dseg_last_cell h p l n d :
  l ≠ [] → dseg h p l n → ∃ t prv, h !! last_addr l d = Some (cell t (Some n) prv).
Proof.
  revert p d. induction l as [|[a t] l IH]; intros p d Hne Hs; [done|].
  simpl in *. destruct Hs as [Hc Hs]. destruct l as [|x l]; simpl in *; [eauto|].
  eapply (IH a a); done.
Qed.

(** *** Linking a new cell at the end (insert_ticket) *)
Lemma ring_single h a t : h !! a = Some (cell t (Some a) (Some a)) → ring h (Some a) [(a, t)].
Proof.
  intros Hc. split_and!; [done| |by split]. simpl. apply NoDup_singleton.
Qed.

Lemma ring_snoc h a0 t0 l n t :
  let L := (a0, t0) :: l in
  let tail := last_addr l a0 in
  ring h (Some a0) L → n ∉ L.*1 → h !! n = Some (cell t (Some a0) (Some tail)) →
  ring (alter (with_next (Some n)) tail (alter (with_prev (Some n)) a0 h)) (Some a0) (L ++ [(n, t)]).
Proof.
  intros L tail HR Hn Hc. destruct HR as (_ & Hnd & Hs).
  set (h2 := alter (with_next (Some n)) tail (alter (with_prev (Some n)) a0 h)).
  assert (tail ∈ L.*1) as Htl by (apply (last_addr_in L a0); done).
  assert (a0 ∈ L.*1) as Ha0 by (unfold L; simpl; constructor).
  assert (dseg h2 n L n) as HL.
  { apply (dseg_set_next _ n L a0 n a0); [done..|].
    apply (dseg_set_prev h (last_addr L a0) n L a0 a0); done. }
  change (Some a0) with (Some (hd_addr (L ++ [(n, t)]) a0)).
  apply (ring_intro _ _ a0); [done| |].
  - rewrite fmap_app. apply NoDup_app. split_and!; [done| |simpl; apply NoDup_singleton].
    intros x Hx. simpl. intros ->%list_elem_of_singleton. done.
  - rewrite last_addr_app. change (hd_addr (L ++ [(n, t)]) a0) with a0.
    apply dseg_app. split; [exact HL|]. simpl. split; [|done].
    unfold h2. rewrite !lookup_alter_ne by (intros ->; done). done.
Qed.

(** *** Splicing a ring [R] behind a ring [T] (check_ticket_cache) *)
Lemma ring_splice h a tr R d td T :
  let RR := (a, tr) :: R in
  let TT := (d, td) :: T in
  let c := last_addr R a in
  let e := last_addr T d in
  ring h (Some a) RR → ring h (Some d) TT → (∀ x, x ∈ RR.*1 → x ∉ TT.*1) →
  ring (alter (with_prev (Some c)) d (alter (with_next (Some a)) e
         (alter (with_next (Some d)) c (alter (with_prev (Some e)) a h))))
       (Some d) (TT ++ RR).
Proof.
  intros RR TT c e (_ & HndR & HsR) (_ & HndT & HsT) Hdisj.
  assert (c ∈ RR.*1) as Hc by (apply (last_addr_in RR a); done).
  assert (a ∈ RR.*1) as Ha by (unfold RR; simpl; constructor).
  assert (e ∈ TT.*1) as He by (apply (last_addr_in TT d); done).
  assert (d ∈ TT.*1) as Hd by (unfold TT; simpl; constructor).
  refine (ring_intro _ (TT ++ RR) d d _ _ _); [done| |].
  - rewrite fmap_app. apply NoDup_app. split_and!; [done| |done].
    intros x Hx Hx'. by destruct (Hdisj x).
  - rewrite last_addr_app. change (hd_addr (TT ++ RR) d) with d.
    apply dseg_app. change (hd_addr RR d) with a.
    change (last_addr RR (last_addr TT d)) with c.
    change (last_addr TT (last_addr RR (last_addr TT d))) with e.
    change (last_addr TT c) with e.
    split.
    + apply (dseg_set_prev _ e c TT a d); [done..|].
      apply (dseg_set_next _ e TT d a d); [done..|].
      apply dseg_alter_other; [by apply Hdisj|].
      apply dseg_alter_other; [by apply Hdisj|]. exact HsT.
    + apply dseg_alter_other; [intros Hx; by destruct (Hdisj d)|].
      apply dseg_alter_other; [intros Hx; by destruct (Hdisj e)|].
      apply (dseg_set_next _ e RR a d a); [done..|].
      apply (dseg_set_prev _ c e RR a a); done.
Qed.

(** *** Cutting off a prefix (expiry) *)
Lemma ring_cut h a0 t0 l1 b t l2 :
  let L := (a0, t0) :: l1 ++ (b, t) :: l2 in
  let tail := last_addr l2 b in
  ring h (Some a0) L →
  let h' := alter (with_next (Some b)) tail (alter (with_prev (Some tail)) b h) in
  ring h' (Some b) ((b, t) :: l2) ∧ dseg h' tail ((a0, t0) :: l1) b.
Proof.
  intros L tail (_ & Hnd & Hs) h'.
  assert (L = ((a0, t0) :: l1) ++ (b, t) :: l2) as HL by done.
  assert (last_addr L a0 = tail) as Htail.
  { rewrite HL, last_addr_app. done. }
  rewrite Htail in Hs. rewrite HL in Hs, Hnd.
  rewrite fmap_app in Hnd. apply NoDup_app in Hnd as (Hnd1 & Hdisj & Hnd2).
  apply dseg_app in Hs as [Hs1 Hs2].
  assert (tail ∈ ((b, t) :: l2).*1) as Ht by (apply (last_addr_in ((b, t) :: l2) b); done).
  assert (b ∈ ((b, t) :: l2).*1) as Hb by (simpl; constructor).
  split.
  - change (Some b) with (Some (hd_addr ((b, t) :: l2) b)).
    apply (ring_intro _ _ b); [done..|].
    change (last_addr ((b, t) :: l2) b) with tail. change (hd_addr ((b, t) :: l2) b) with b.
    eapply (dseg_set_next _ _ ((b, t) :: l2) _ _ b); [done..|].
    eapply (dseg_set_prev _ _ _ ((b, t) :: l2) _ b); [done..|]. exact Hs2.
  - apply dseg_alter_other; [intros Hx; by destruct (Hdisj tail)|].
    apply dseg_alter_other; [intros Hx; by destruct (Hdisj b)|]. exact Hs1.
Qed.
