(* ===== verification/Tickets.v ===== *)
(** * The ticket cache

    [lsm/src/ticketing/ticket_cache.c]: the red-black tree of reservations,
    indexed by PID, that holds the tickets the enclave granted until the
    process runs; [insert_ticket], which adds one; and [check_ticket_cache],
    which moves the reservations of the running process to its credentials and
    discards the tickets that are older than fifteen seconds.  The loops of the
    source stop on the timestamps, not on the addresses; they are given the
    size of the heap as fuel, which is always enough. *)

From S2P Require Import Prelude Shared RBTree Kernel Ring.

Section definitions.
Context `{HKer : Kernel} `{HRb : RbTree}.
Abbreviation K := (M kstate).

Definition ticket_search (root : tree ticket_reservation_node) (pid : Z) :
    option ticket_reservation_node :=
  rb_walk (key_cmp rn_pid pid) root.

(** [None] is the [-1] returned on an existing key. *)
Definition insert_reservation (root : tree ticket_reservation_node)
    (data : ticket_reservation_node) : option (tree ticket_reservation_node) :=
  rb_insert_color <$> rb_link (key_cmp rn_pid (rn_pid data)) data root.

(** Access through a [reservation_node] pointer that a search returned. *)
Definition load_resv (pid : Z) : K ticket_reservation_node := λ k,
  match ticket_search (k_resv k) pid with
  | Some n => Ok (n, k)
  | None => Fault BadAccess
  end.
Definition store_resv (pid : Z) (f : ticket_reservation_node → ticket_reservation_node) : K unit :=
  modify (λ k, set_resv (rb_store (key_cmp rn_pid pid) f (k_resv k)) k).
Definition rn_set_head (p : ptr) (n : ticket_reservation_node) : ticket_reservation_node :=
  Reservation (rn_pid n) p (rn_granted_pty n).
Definition rn_set_pty (b : bool) (n : ticket_reservation_node) : ticket_reservation_node :=
  Reservation (rn_pid n) (rn_ticket_head n) b.

(** The fuel of the loops over ticket cells. *)
Definition heap_fuel (k : kstate) : nat := S (size (k_heap k)).

(** Count tickets to install:
    [while (cur->timestamp < cur->next->timestamp) cur = cur->next, count++]. *)
Fixpoint count_tickets (fuel : nat) (cur : ptr) (count : Z) : K Z :=
  match fuel with
  | O => crash OutOfFuel
  | S fuel =>
      t ← load cur;
      n ← load (tk_next t);
      if tk_timestamp t <? tk_timestamp n then count_tickets fuel (tk_next t) (count + 1)
      else mret count
  end.

(** The scan for the first ticket to keep:
    [while (cur->timestamp <= thr && cur->timestamp < cur->next->timestamp)]. *)
Fixpoint skip_expired (fuel : nat) (thr : Z) (cur : ptr) (count : nat) : K (ptr * nat) :=
  match fuel with
  | O => crash OutOfFuel
  | S fuel =>
      t ← load cur;
      if tk_timestamp t <=? thr then
        n ← load (tk_next t);
        if tk_timestamp t <? tk_timestamp n
        then skip_expired fuel thr (tk_next t) (S count)
        else mret (cur, count)
      else mret (cur, count)
  end.

(** Free discarded tickets. *)
Fixpoint free_tickets (count : nat) (initial : ptr) : K unit :=
  match count with
  | O => mret tt
  | S count =>
      t ← load initial;
      kfree_ticket initial;;
      free_tickets count (tk_next t)
  end.

(** The tickets of the reservation are appended to the list of the task. *)
Definition splice_tickets (reservation_head task_head : ptr) : K unit :=
  rh ← load reservation_head;
  let current_ticket := tk_prev rh in
  th ← load task_head;
  store reservation_head (with_prev (tk_prev th));;
  store current_ticket (with_next task_head);;
  th' ← load task_head;
  store (tk_prev th') (with_next reservation_head);;
  store task_head (with_prev current_ticket).

Definition claim_pty (current : task_struct) (node : option ticket_reservation_node) : K unit :=
  match node with
  | Some n =>
      when (rn_granted_pty n)
        (store_resv (ts_pid current) (rn_set_pty false);;
         store_cred (ts_cred current) (td_set_granted_pty true))
  | None => mret tt
  end.

Definition install_pending (current : task_struct) (head : ptr) : K unit :=
  fuel ← gets heap_fuel;
  count_tickets fuel head 1;;
  td ← load_cred (ts_cred current);
  (if decide (td_ticket_head td = None)
   then store_cred (ts_cred current) (td_set_ticket_head head)
   else splice_tickets head (td_ticket_head td));;
  store_resv (ts_pid current) (rn_set_head None).

(** [_CITADEL_TICKET_EXPIRY * 1000000000L] *)
Definition expiry_ns : Z := _CITADEL_TICKET_EXPIRY * 1000000000.

Definition remove_expired (current : task_struct) : K unit :=
  td ← load_cred (ts_cred current);
  let head := td_ticket_head td in
  if decide (head = None) then mret tt else
  now ← ktime_get;
  let expiry_threshold := now - expiry_ns in
  fuel ← gets heap_fuel;
  '(cur, count) ← skip_expired fuel expiry_threshold head 0;
  t ← load cur;
  count' ←
    (if tk_timestamp t <=? expiry_threshold then
       store_cred (ts_cred current) (td_set_ticket_head None);;
       mret (S count)
     else
       when (negb (count =? 0)%nat)
         (h ← load head;
          store cur (with_prev (tk_prev h));;
          h' ← load head;
          store (tk_prev h') (with_next cur);;
          store_cred (ts_cred current) (td_set_ticket_head cur));;
       mret count);
  when (negb (count' =? 0)%nat) (free_tickets count' head).

(** The function ends with a test of [reservation_node->ticket_head] whose
    branch is empty.  For a process without a reservation the load is from NULL;
    [null_load_traps] says whether the compiler keeps it, since nothing uses the
    value. *)
Definition test_reservation (reservation_node : option ticket_reservation_node) : K unit :=
  match reservation_node with
  | Some _ => mret tt
  | None => if null_load_traps then crash NullDeref else mret tt
  end.

Definition check_ticket_cache (current : task_struct) : K unit :=
  root ← gets k_resv;
  let reservation_node := ticket_search root (ts_pid current) in
  claim_pty current reservation_node;;
  match reservation_node with
  | Some n => when (negb (bool_decide (rn_ticket_head n = None)))
                (install_pending current (rn_ticket_head n))
  | None => mret tt
  end;;
  remove_expired current;;
  test_reservation reservation_node.

Definition find_or_create_reservation (pid : Z) : K bool :=
  root ← gets k_resv;
  match ticket_search root pid with
  | Some _ => mret true
  | None =>
      ok ← kmalloc;
      if negb ok then mret false else
      match insert_reservation root (Reservation pid None false) with
      | Some root' => modify (set_resv root');; mret true
      | None => mret false
      end
  end.

(** Wire a filled ticket into the end of the list of the reservation. *)
Definition link_ticket (pid : Z) (ticket : ptr) : K unit :=
  node ← load_resv pid;
  let head := rn_ticket_head node in
  if decide (head = None) then
    store_resv pid (rn_set_head ticket);;
    store ticket (with_next ticket);;
    store ticket (with_prev ticket)
  else
    h ← load head;
    let tmp := tk_prev h in
    store head (with_prev ticket);;
    c ← load tmp;
    store ticket (with_next (tk_next c));;
    store ticket (with_prev tmp);;
    store tmp (with_next ticket).

Definition fill_ticket (record : citadel_update_record) (now : Z) (t : citadel_ticket) :
    citadel_ticket :=
  Ticket (ur_identifier record) (ur_operation record) now (tk_next t) (tk_prev t).

Definition insert_ticket (record : citadel_update_record) : K bool :=
  let pid := ur_pid record in
  found ← find_or_create_reservation pid;
  if negb found then mret false else
  let pty := has_flag (ur_operation record) CITADEL_OP_PTY_ACCESS in
  when pty (store_resv pid (rn_set_pty true));;
  if pty && (ur_operation record =? CITADEL_OP_PTY_ACCESS) then mret true else
  kmalloc_unchecked;;   (* to_hexstring, for the log *)
  ticket ← alloc_ticket;
  if decide (ticket = None) then mret false else
  now ← ktime_get;
  store ticket (fill_ticket record now);;
  link_ticket pid ticket;;
  mret true.
End definitions.

(** ** Termination of the scans

    Every iteration moves to a cell with a larger timestamp, so no scan visits
    more cells than the heap holds, whatever the links are. *)
Section termination.
Context `{HKer : Kernel} `{HRb : RbTree}.

Definition later (h : theap) (z : Z) : theap := filter (λ p, z < tk_timestamp p.2) h.

Lemma later_size h z : (size (later h z) ≤ size h)%nat.
Proof. apply map_subseteq_size, map_filter_subseteq. Qed.

Lemma later_decr h z a t :
  h !! a = Some t → z < tk_timestamp t → (size (later h (tk_timestamp t)) < size (later h z))%nat.
Proof.
  intros Ha Hz. apply map_subset_size. apply map_subset_alt. split.
  - apply map_subseteq_spec. intros b u Hb. unfold later in *.
    apply map_lookup_filter_Some in Hb as [Hb Hlt]. apply map_lookup_filter_Some.
    simpl in *. split; [done|lia].
  - exists a. unfold later. split.
    + apply map_lookup_filter_None. right. intros t' Ht'. simpl. replace t' with t by congruence. lia.
    + exists t. by apply map_lookup_filter_Some.
Qed.

Lemma load_not_fuel p k : load p k ≠ Fault OutOfFuel.
Proof. unfold load. destruct p as [a|]; [|done]. by destruct (k_heap k !! a). Qed.

Lemma load_inv p k t k' : load p k = Ok (t, k') → k' = k ∧ ∃ a, p = Some a ∧ k_heap k !! a = Some t.
Proof.
  unfold load. destruct p as [a|]; [|done].
  destruct (k_heap k !! a) eqn:E; [|done]. intros [= <- <-]. eauto.
Qed.

(** One step of reasoning on [load p ≫= f] when the result is a fuel fault. *)
Lemma load_bind_fuel {A} p (f : citadel_ticket → M kstate A) k :
  (∀ a t, p = Some a → k_heap k !! a = Some t → f t k ≠ Fault OutOfFuel) →
  (load p ≫= f) k ≠ Fault OutOfFuel.
Proof.
  intros Hf. destruct (load p k) as [[t k']|e] eqn:E.
  - rewrite (bind_ok _ _ _ _ _ E). destruct (load_inv _ _ _ _ E) as (-> & a & Hp & Ha). eauto.
  - rewrite (bind_fault _ _ _ _ E). intros [= ->]. by destruct (load_not_fuel p k).
Qed.

Lemma count_tickets_fuel_gen fuel a t c k :
  k_heap k !! a = Some t → (size (later (k_heap k) (tk_timestamp t)) < fuel)%nat →
  count_tickets fuel (Some a) c k ≠ Fault OutOfFuel.
Proof.
  revert a t c. induction fuel as [|fuel IH]; intros a t c Ha Hf; [lia|]. simpl.
  apply load_bind_fuel. intros a' t' [= <-] Ha'. rewrite Ha in Ha'. injection Ha' as <-.
  apply load_bind_fuel. intros b u Hb Hu. rewrite Hb.
  destruct (Z.ltb_spec (tk_timestamp t) (tk_timestamp u)); [|done].
  eapply IH; [done|]. pose proof (later_decr _ _ _ _ Hu ltac:(eassumption)). lia.
Qed.

Lemma skip_expired_fuel_gen fuel thr a t c k :
  k_heap k !! a = Some t → (size (later (k_heap k) (tk_timestamp t)) < fuel)%nat →
  skip_expired fuel thr (Some a) c k ≠ Fault OutOfFuel.
Proof.
  revert a t c. induction fuel as [|fuel IH]; intros a t c Ha Hf; [lia|]. simpl.
  apply load_bind_fuel. intros a' t' [= <-] Ha'. rewrite Ha in Ha'. injection Ha' as <-.
  case_if; [|done].
  apply load_bind_fuel. intros b u Hb Hu. rewrite Hb.
  destruct (Z.ltb_spec (tk_timestamp t) (tk_timestamp u)); [|done].
  eapply IH; [done|]. pose proof (later_decr _ _ _ _ Hu ltac:(eassumption)). lia.
Qed.

(** Scans from any pointer of any heap, however it is linked. *)
Lemma count_tickets_fuel p c k : count_tickets (heap_fuel k) p c k ≠ Fault OutOfFuel.
Proof.
  destruct (load p k) as [[t k']|e] eqn:E.
  - destruct (load_inv _ _ _ _ E) as (-> & a & -> & Ha).
    eapply count_tickets_fuel_gen; [done|]. unfold heap_fuel.
    pose proof (later_size (k_heap k) (tk_timestamp t)). lia.
  - unfold heap_fuel. cbn [count_tickets]. rewrite (bind_fault _ _ _ _ E). intros [= ->].
    by destruct (load_not_fuel p k).
Qed.
Lemma skip_expired_fuel thr p c k : skip_expired (heap_fuel k) thr p c k ≠ Fault OutOfFuel.
Proof.
  destruct (load p k) as [[t k']|e] eqn:E.
  - destruct (load_inv _ _ _ _ E) as (-> & a & -> & Ha).
    eapply skip_expired_fuel_gen; [done|]. unfold heap_fuel.
    pose proof (later_size (k_heap k) (tk_timestamp t)). lia.
  - unfold heap_fuel. cbn [skip_expired]. rewrite (bind_fault _ _ _ _ E). intros [= ->].
    by destruct (load_not_fuel p k).
Qed.
End termination.

(** ** What the scans compute on a ring *)

Definition hd_ts (l : cells) (d : Z) : Z := match l with [] => d | (_, t) :: _ => ti_timestamp t end.

(** The number of tickets that the expiry scan steps over: the longest prefix
    of expired tickets whose timestamps increase strictly. *)
Fixpoint skip_n (thr t0 : Z) (l : cells) : nat :=
  match l with
  | [] => 0
  | (_, t) :: l =>
      if (ti_timestamp t <=? thr) && (ti_timestamp t <? hd_ts l t0) then S (skip_n thr t0 l) else 0
  end.

(** The tickets that survive the expiry. *)
Definition live_tickets (thr : Z) (l : cells) : cells :=
  let rest := drop (skip_n thr (hd_ts l 0) l) l in
  match rest with
  | [] => []
  | (_, t) :: _ => if ti_timestamp t <=? thr then [] else rest
  end.

(** The heap after the cells of [l] have been freed, in order. *)
Fixpoint free_cells (l : cells) (h : theap) : theap :=
  match l with [] => h | (a, _) :: l => free_cells l (delete a h) end.

(** The timestamps of a list of tickets. *)
Definition timestamps (l : cells) : list Z := (λ c, ti_timestamp c.2) <$> l.

Lemma skip_n_lt thr t0 l : l ≠ [] → t0 ≤ hd_ts l t0 → (skip_n thr t0 l < length l)%nat.
Proof.
  induction l as [|[a t] l IH]; intros Hne Hle; [done|]. simpl in *.
  destruct ((ti_timestamp t <=? thr) && (ti_timestamp t <? hd_ts l t0)) eqn:E; [|lia].
  breflect. destruct l as [|x l]; [simpl in *; lia|].
  assert (skip_n thr t0 (x :: l) < length (x :: l))%nat; [|lia].
  apply IH; [done|]. simpl in *. destruct x. simpl in *. lia.
Qed.

Lemma free_cells_lookup l h a :
  free_cells l h !! a = if decide (a ∈ l.*1) then None else h !! a.
Proof.
  revert h. induction l as [|[b t] l IH]; intros h; [done|]. cbn [free_cells]. rewrite IH.
  destruct (decide (a ∈ l.*1)) as [Hin|Hin].
  - rewrite decide_True; [done|]. simpl. by constructor.
  - destruct (decide (a = b)) as [->|Hne].
    + rewrite lookup_delete_eq, decide_True; [done|]. simpl. constructor.
    + rewrite lookup_delete_ne by done. rewrite decide_False; [done|].
      simpl. intros [?|?]%elem_of_cons; done.
Qed.

(** Sorted timestamps: the scan keeps exactly the tickets that are not expired. *)
Lemma live_tickets_sorted thr l :
  StronglySorted Z.lt (timestamps l) →
  live_tickets thr l = filter (λ c, thr < ti_timestamp c.2) l.
Proof.
  unfold live_tickets. generalize (hd_ts l 0) as t0. intros t0 Hs. revert t0 Hs.
  induction l as [|[a t] l IH]; intros t0 Hs; [done|].
  unfold timestamps in *. rewrite fmap_cons in Hs.
  apply StronglySorted_inv in Hs as [Hs Hf]. rewrite filter_cons. cbn [skip_n].
  destruct (Z.leb_spec (ti_timestamp t) thr) as [Hle|Hgt].
  - rewrite decide_False by (simpl; lia). cbn [andb].
    destruct l as [|[b u] l]; simpl in *.
    + destruct (Z.ltb_spec (ti_timestamp t) t0); simpl; [done|].
      by rewrite (proj2 (Z.leb_le _ _) Hle).
    + apply Forall_cons in Hf as [Hlt _].
      rewrite (proj2 (Z.ltb_lt _ _) Hlt). apply (IH t0 Hs).
  - rewrite decide_True by (simpl; lia). cbn [andb drop].
    rewrite (proj2 (Z.leb_gt _ _) Hgt). f_equal.
    rewrite filter_all; [done|]. rewrite Forall_fmap in Hf.
    eapply Forall_impl; [exact Hf|]. intros [b u] Hb. simpl in *. lia.
Qed.

Section scans.
Context `{HKer : Kernel} `{HRb : RbTree}.
Implicit Type k : kstate.

Lemma ring_length k p l : ring (k_heap k) p l → (length l < heap_fuel k)%nat.
Proof.
  intros Hr. unfold heap_fuel. rewrite <- (length_fmap fst). apply Nat.lt_succ_r, nodup_dom_length.
  - by eapply ring_nodup.
  - intros a Ha. by eapply ring_lookup.
Qed.

Lemma load_cell k a t nx pv :
  k_heap k !! a = Some (cell t nx pv) → load (Some a) k = Ok (cell t nx pv, k).
Proof. apply load_some. Qed.

(** The next cell of a segment, or the cell after its end. *)
Lemma dseg_next k p l n tn : dseg (k_heap k) p l n → k_heap k !! n = Some tn →
  ∃ tn', k_heap k !! hd_addr l n = Some tn' ∧ tk_timestamp tn' = hd_ts l (tk_timestamp tn).
Proof. destruct l as [|[a t] l]; simpl; [eauto|]. intros [Ha _] _. eauto. Qed.

Lemma count_tickets_seg k fuel p a t l a0 c0 n :
  dseg (k_heap k) p ((a, t) :: l) a0 → k_heap k !! a0 = Some c0 →
  tk_timestamp c0 ≤ ti_timestamp t → (length l < fuel)%nat →
  ∃ n', count_tickets fuel (Some a) n k = Ok (n', k).
Proof.
  revert fuel p a t n. induction l as [|[b u] l IH]; intros fuel p a t n [Ha Hs] Hz Hle Hf;
    (destruct fuel as [|fuel]; [simpl in *; lia|]); simpl in *;
    rewrite (bind_ok _ _ _ _ _ (load_cell _ _ _ _ _ Ha)); simpl.
  - rewrite (bind_ok _ _ _ _ _ (load_some _ _ _ Hz)).
    destruct (Z.ltb_spec (ti_timestamp t) (tk_timestamp c0)); [lia|]. eexists. done.
  - destruct Hs as [Hb Hs]. rewrite (bind_ok _ _ _ _ _ (load_cell _ _ _ _ _ Hb)). simpl.
    destruct (Z.ltb_spec (ti_timestamp t) (ti_timestamp u)); [|eexists; done].
    eapply (IH fuel a b u); [by split|done|lia|lia].
Qed.

Lemma count_tickets_ring k p l n :
  l ≠ [] → ring (k_heap k) p l → ∃ n', count_tickets (heap_fuel k) p n k = Ok (n', k).
Proof.
  intros Hne Hr. pose proof (ring_length _ _ _ Hr) as Hlen.
  destruct l as [|[a t] l]; [done|]. destruct Hr as (-> & Hnd & Hs).
  eapply count_tickets_seg; [exact Hs|apply Hs|simpl; lia|simpl in *; lia].
Qed.

Lemma skip_expired_seg k fuel thr p a t l a0 c0 n d :
  dseg (k_heap k) p ((a, t) :: l) a0 → k_heap k !! a0 = Some c0 →
  tk_timestamp c0 ≤ ti_timestamp t → (length l < fuel)%nat →
  let m := skip_n thr (tk_timestamp c0) ((a, t) :: l) in
  skip_expired fuel thr (Some a) n k =
  Ok ((Some (hd_addr (drop m ((a, t) :: l)) d), (n + m)%nat), k).
Proof.
  revert fuel p a t n. induction l as [|[b u] l IH]; intros fuel p a t n [Ha Hs] Hz Hle Hf;
    (destruct fuel as [|fuel]; [simpl in *; lia|]); cbn [skip_n];
    cbn [skip_expired]; simpl in Ha, Hs;
    rewrite (bind_ok _ _ _ _ _ (load_cell _ _ _ _ _ Ha)); cbn [tk_timestamp tk_next cell].
  - destruct (Z.leb_spec (ti_timestamp t) thr); cbn [andb]; [|by rewrite Nat.add_0_r].
    rewrite (bind_ok _ _ _ _ _ (load_some _ _ _ Hz)). cbn [hd_ts].
    destruct (Z.ltb_spec (ti_timestamp t) (tk_timestamp c0)); [lia|]. by rewrite Nat.add_0_r.
  - destruct Hs as [Hb Hs]. cbn [hd_ts].
    destruct (Z.leb_spec (ti_timestamp t) thr); cbn [andb]; [|by rewrite Nat.add_0_r].
    rewrite (bind_ok _ _ _ _ _ (load_cell _ _ _ _ _ Hb)). cbn [tk_timestamp tk_next cell].
    destruct (Z.ltb_spec (ti_timestamp t) (ti_timestamp u)); [|by rewrite Nat.add_0_r].
    rewrite (IH fuel a b u (S n)); [|by split|done|lia|simpl in *; lia].
    cbn [drop]. do 2 f_equal. rewrite Nat.add_succ_r. done.
Qed.

Lemma skip_expired_ring k thr p l d :
  l ≠ [] → ring (k_heap k) p l →
  let m := skip_n thr (hd_ts l 0) l in
  skip_expired (heap_fuel k) thr p 0 k = Ok ((Some (hd_addr (drop m l) d), m), k).
Proof.
  intros Hne Hr. pose proof (ring_length _ _ _ Hr) as Hlen.
  destruct l as [|[a t] l]; [done|]. destruct Hr as (-> & Hnd & Hs).
  pose proof (proj1 Hs) as Ha.
  rewrite (skip_expired_seg _ _ thr _ _ _ _ _ _ 0 d Hs Ha); [done|simpl; lia|simpl in *; lia].
Qed.

Lemma free_tickets_seg k p l n :
  NoDup l.*1 → dseg (k_heap k) p l n →
  free_tickets (length l) (Some (hd_addr l n)) k = Ok (tt, set_heap (free_cells l (k_heap k)) k).
Proof.
  revert k p. induction l as [|[a t] l IH]; intros k p Hnd Hs; [by destruct k|].
  simpl in Hnd. apply NoDup_cons in Hnd as [Ha Hnd]. destruct Hs as [Hc Hs].
  cbn [free_tickets length hd_addr]. rewrite (bind_ok _ _ _ _ _ (load_cell _ _ _ _ _ Hc)).
  assert (kfree_ticket (Some a) k = Ok (tt, set_heap (delete a (k_heap k)) k)) as Hk
    by (unfold kfree_ticket; by rewrite Hc).
  rewrite (bind_ok _ _ _ _ _ Hk). cbn [tk_next cell].
  rewrite (IH _ a); [done|done|]. simpl. by apply dseg_delete_other.
Qed.
End scans.

(** ** The representation invariant *)

(** Who a list of tickets belongs to: the reservation of a PID or a set of
    credentials. *)
Inductive owner := Res (pid : Z) | Cred (c : positive).

#[export] Instance owner_eq_dec : EqDecision owner.
Proof. solve_decision. Defined.

Definition is_pid (pid : Z) : Prop := 0 ≤ pid < 2 ^ 31.
Definition valid_owner (o : owner) : Prop :=
  match o with Res pid => is_pid pid | Cred _ => True end.

(** The process has a reservation. *)
Definition reserved `{Kernel} (k : kstate) (pid : Z) : Prop := is_Some (ticket_search (k_resv k) pid).

(** The parts of the state that the ticket cache never touches; and reservations
    are never removed. *)
Record cache_frame `{Kernel} (k k' : kstate) : Prop := CacheFrame {
  cf_resv : ∀ q, is_pid q → reserved k q → reserved k' q;
  cf_shm : k_shm k' = k_shm k; cf_inodes : k_inodes k' = k_inodes k;
  cf_ipcs : k_ipcs k' = k_ipcs k; cf_disk : k_disk k' = k_disk k;
  cf_pio : k_pio k' = k_pio k; cf_rsa : k_rsa_available k' = k_rsa_available k;
  cf_aes : k_aes_available k' = k_aes_available k; cf_rnd : k_nrnd k' = k_nrnd k }.

#[export] Instance cache_frame_po `{Kernel} : PreOrder cache_frame.
Proof. split; [done|]. intros x y z [] []. split; [by auto|congruence..]. Qed.

Section representation.
Context `{HKer : Kernel} `{HRb : RbTree}.
Implicit Type k : kstate.

Definition head_of k (o : owner) : ptr :=
  match o with
  | Res pid => match ticket_search (k_resv k) pid with
               | Some n => rn_ticket_head n
               | None => None
               end
  | Cred c => match k_creds k !! c with Some td => td_ticket_head td | None => None end
  end.

(** [tickets_rep k L]: the heads of every owner are rings that hold [L], no
    cell belongs to two owners, the reservations form a search tree and no
    cell lies beyond the allocation pointer. *)
Record tickets_rep k (L : owner → cells) : Prop := TicketsRep {
  rep_bst : bst rn_pid 0 (k_resv k);
  rep_ring : ∀ o, valid_owner o → ring (k_heap k) (head_of k o) (L o);
  rep_disj : ∀ o o' a, valid_owner o → valid_owner o' → a ∈ (L o).*1 → a ∈ (L o').*1 → o = o';
  rep_fresh : ∀ a, is_Some (k_heap k !! a) → (a < k_brk k)%positive }.

Lemma is_pid_window pid : is_pid pid ↔ in_window 0 pid.
Proof. unfold is_pid, in_window. lia. Qed.

Lemma rep_in_fresh k L o a :
  tickets_rep k L → valid_owner o → a ∈ (L o).*1 → (a < k_brk k)%positive.
Proof.
  intros Hr Ho Ha. eapply rep_fresh; [done|]. eapply ring_lookup; [|done]. by apply Hr.
Qed.

(** Replacing the list of one owner: the new cells are its old ones or cells
    that belong to nobody. *)
Lemma rep_update k k' L o l :
  tickets_rep k L → valid_owner o → bst rn_pid 0 (k_resv k') →
  ring (k_heap k') (head_of k' o) l →
  (∀ o', valid_owner o' → o' ≠ o → head_of k' o' = head_of k o') →
  (∀ o' a, valid_owner o' → o' ≠ o → a ∈ (L o').*1 → k_heap k' !! a = k_heap k !! a ∧ a ∉ l.*1) →
  (∀ a, is_Some (k_heap k' !! a) → (a < k_brk k')%positive) →
  tickets_rep k' (<[o := l]> L).
Proof.
  intros Hr Ho Hb Hl Hh Hheap Hf. split; [done| | |done].
  - intros o' Ho'. destruct (decide (o' = o)) as [->|Hne].
    + by rewrite fn_lookup_insert.
    + rewrite fn_lookup_insert_ne by done. rewrite Hh by done.
      eapply ring_frame; [|by apply Hr]. intros a Ha. by apply (Hheap o').
  - intros o1 o2 a H1 H2 Ha1 Ha2.
    destruct (decide (o1 = o)) as [->|N1], (decide (o2 = o)) as [->|N2];
      rewrite ?fn_lookup_insert, ?fn_lookup_insert_ne in * by done.
    + done.
    + by destruct (Hheap o2 a) as [_ []].
    + by destruct (Hheap o1 a) as [_ []].
    + by eapply (rep_disj k L).
Qed.

(** Changing nothing that the representation depends on. *)
Lemma rep_ext k k' L :
  tickets_rep k L → k_heap k' = k_heap k → k_brk k' = k_brk k → bst rn_pid 0 (k_resv k') →
  (∀ o, valid_owner o → head_of k' o = head_of k o) → tickets_rep k' L.
Proof.
  intros Hr Hh Hb Ht Hd. split; [done| |by apply Hr|].
  - intros o Ho. rewrite Hh, Hd by done. by apply Hr.
  - rewrite Hh, Hb. apply Hr.
Qed.

(** The representation does not distinguish pointwise equal assignments. *)
#[export] Instance tickets_rep_proper k : Proper (pointwise_relation owner eq ==> iff) (tickets_rep k).
Proof.
  assert (∀ L L', pointwise_relation owner eq L L' → tickets_rep k L → tickets_rep k L') as Himp.
  { intros L L' HL [Hb Hr Hd Hf]. split; [done| | |done].
    - intros o Ho. rewrite <- HL. by apply Hr.
    - intros o o' a Ho Ho'. rewrite <- !HL. by apply Hd. }
  intros L L' HL. split; apply Himp; [done|by symmetry].
Qed.

Lemma owners_insert_id (L : owner → cells) o l :
  L o = l → pointwise_relation owner eq (<[o := l]> L) L.
Proof.
  intros <- o'. destruct (decide (o' = o)) as [->|Hne];
    [by rewrite fn_lookup_insert|by rewrite fn_lookup_insert_ne].
Qed.

(** *** Reservation nodes *)
Lemma ticket_search_store k pid pid' f :
  (∀ n, rn_pid (f n) = rn_pid n) → bst rn_pid 0 (k_resv k) → is_pid pid → is_pid pid' →
  ticket_search (rb_store (key_cmp rn_pid pid) f (k_resv k)) pid' =
  if bool_decide (pid = pid') then f <$> ticket_search (k_resv k) pid' else ticket_search (k_resv k) pid'.
Proof.
  intros Hf Hb Hp Hp'. unfold ticket_search. apply (rb_walk_store _ 0); [done..| |]; by apply is_pid_window.
Qed.

Lemma store_resv_rep k L pid f :
  tickets_rep k L → is_pid pid → (∀ n, rn_pid (f n) = rn_pid n) →
  (∀ n, rn_ticket_head (f n) = rn_ticket_head n) →
  tickets_rep (set_resv (rb_store (key_cmp rn_pid pid) f (k_resv k)) k) L.
Proof.
  intros Hr Hp Hf Hh. eapply rep_ext; [done..| |].
  - by apply bst_store, Hr.
  - intros [pid'|c] Ho; [|done]. cbn [head_of set_resv k_resv].
    rewrite ticket_search_store; [|done|by apply Hr|done|done].
    case_bool_decide; [subst|done]. by destruct (ticket_search (k_resv k) pid') eqn:E; simpl; rewrite ?Hh.
Qed.

Lemma store_resv_frame k pid f :
  (∀ n, rn_pid (f n) = rn_pid n) → bst rn_pid 0 (k_resv k) → is_pid pid →
  cache_frame k (set_resv (rb_store (key_cmp rn_pid pid) f (k_resv k)) k).
Proof.
  intros Hf Hb Hp. split; [|done..]. intros q Hq. unfold reserved. cbn [set_resv k_resv].
  rewrite ticket_search_store by done. case_bool_decide; [|done]. by rewrite fmap_is_Some.
Qed.

(** The node of a PID, as a search finds it or as it is created. *)
Definition node_of k (pid : Z) : ticket_reservation_node :=
  default (Reservation pid None false) (ticket_search (k_resv k) pid).

Lemma find_or_create_ok k L pid :
  tickets_rep k L → is_pid pid → kmem (k_nmem k) = true →
  ∃ k', find_or_create_reservation pid k = Ok (true, k') ∧ tickets_rep k' L ∧
    (∀ q, is_pid q → ticket_search (k_resv k') q =
       if bool_decide (pid = q) then Some (node_of k pid) else ticket_search (k_resv k) q) ∧
    k_heap k' = k_heap k ∧ k_brk k' = k_brk k ∧ k_creds k' = k_creds k ∧ k_nclk k' = k_nclk k ∧
    cache_frame k k'.
Proof.
  intros Hr Hp Hm. unfold find_or_create_reservation, node_of. mred.
  destruct (ticket_search (k_resv k) pid) as [n|] eqn:E.
  { exists k. split_and!; try done. intros q _. by case_bool_decide; subst. }
  erewrite (bind_ok kmalloc); [|done]. rewrite Hm. cbn [negb].
  assert (in_window 0 pid) as Hw by by apply is_pid_window.
  destruct (rb_insert_spec rn_pid 0 (k_resv k) (Reservation pid None false)) as (t' & Hl & Hb & Hs);
    [apply Hr|done|exact E|].
  unfold insert_reservation. rewrite Hl. cbn [fmap option_fmap option_map].
  eexists. split; [done|]. cbn [set_resv set_nmem k_resv k_heap k_brk k_creds k_nclk k_nmem].
  assert (∀ q, is_pid q → ticket_search (rb_insert_color t') q =
    if bool_decide (pid = q) then Some (Reservation pid None false) else ticket_search (k_resv k) q) as Hs'.
  { intros q Hq. unfold ticket_search. apply Hs. by apply is_pid_window. }
  split_and!; try done.
  - eapply rep_ext; [done..|]. intros [q|c] Ho; [|done]. cbn [head_of k_resv].
    rewrite Hs' by done. case_bool_decide as Hq; [subst q|done]. by rewrite E.
  - split; [|done..]. intros q Hq. unfold reserved. cbn [set_resv set_nmem k_resv]. rewrite Hs' by done. by case_bool_decide.
Qed.
End representation.
