(* ===== verification/TicketsSpec.v ===== *)
(** * What the ticket cache does

    The specifications of [insert_ticket] and [check_ticket_cache] against the
    lists of tickets that the rings of the heap stand for: inserting appends to
    the reservation of the PID; checking moves the reservation of the running
    process behind the tickets of its credentials, and drops the expired ones.
    The pointer writes never follow a dangling pointer, no list shares a cell
    with another, and nothing else in the kernel state changes. *)

From S2P Require Import Prelude Shared RBTree Kernel Ring Tickets.

Section insert.
Context `{HKer : Kernel} `{HRb : RbTree}.
Implicit Type k : kstate.

Lemma load_resv_ok k pid n : ticket_search (k_resv k) pid = Some n → load_resv pid k = Ok (n, k).
Proof. intros Hn. unfold load_resv. by rewrite Hn. Qed.

(** The first ticket of a reservation. *)
Lemma link_ticket_first k pid n a t :
  ticket_search (k_resv k) pid = Some n → rn_ticket_head n = None →
  k_heap k !! a = Some (cell t None None) →
  ∃ h', link_ticket pid (Some a) k = Ok (tt,
      set_heap h' (set_resv (rb_store (key_cmp rn_pid pid) (rn_set_head (Some a)) (k_resv k)) k)) ∧
    ring h' (Some a) [(a, t)] ∧ ∀ b, b ≠ a → h' !! b = k_heap k !! b.
Proof.
  intros Hn Hh Ha. unfold link_ticket. mstep (load_resv_ok _ _ _ Hn). cbv zeta.
  rewrite decide_True by done. unfold store_resv. mred.
  erewrite (bind_ok (store _ _)); [|by eapply store_some].
  erewrite store_some; [|cbn; by rewrite lookup_alter_eq, Ha].
  cbn [set_heap set_resv k_heap]. eexists. split; [done|]. split.
  - apply ring_single. by rewrite !lookup_alter_eq, Ha.
  - intros b Hb. by rewrite !lookup_alter_ne.
Qed.

(** A further ticket: wired between the last cell and the head. *)
Lemma link_ticket_next k pid n a t a0 t0 l :
  ticket_search (k_resv k) pid = Some n → rn_ticket_head n = Some a0 →
  ring (k_heap k) (Some a0) ((a0, t0) :: l) → a ∉ ((a0, t0) :: l).*1 →
  k_heap k !! a = Some (cell t None None) →
  ∃ h', link_ticket pid (Some a) k = Ok (tt, set_heap h' k) ∧
    ring h' (Some a0) (((a0, t0) :: l) ++ [(a, t)]) ∧
    ∀ b, b ∉ ((a0, t0) :: l).*1 → b ≠ a → h' !! b = k_heap k !! b.
Proof.
  intros Hn Hh HR Hna Ha. unfold link_ticket. mstep (load_resv_ok _ _ _ Hn). cbv zeta.
  rewrite Hh, decide_False by done.
  pose proof (ring_head_cell _ _ _ _ HR) as H0.
  mstep (load_some _ _ _ H0). cbn [tk_prev cell].
  assert (a ≠ a0) as Hne by (intros ->; apply Hna; simpl; constructor).
  set (tail := last_addr l a0) in *.
  assert (tail ∈ ((a0, t0) :: l).*1) as Htl by (apply (last_addr_in ((a0, t0) :: l) a0); done).
  assert (a ≠ tail) as Hnt by (intros ->; done).
  destruct (dseg_last_cell (k_heap k) tail ((a0, t0) :: l) a0 a0) as (tt & pv & Hc); [done|apply HR|].
  change (last_addr ((a0, t0) :: l) a0) with tail in Hc.
  erewrite (bind_ok (store _ _)); [|by eapply store_some].
  assert (∃ c', alter (with_prev (Some a)) a0 (k_heap k) !! tail = Some c' ∧ tk_next c' = Some a0)
    as (c' & Hc' & Hnx).
  { destruct (decide (tail = a0)) as [->|Hta].
    - rewrite lookup_alter_eq, Hc. eexists. done.
    - rewrite lookup_alter_ne, Hc by done. eexists. done. }
  erewrite (bind_ok (load _)); [|by apply load_some]. rewrite Hnx.
  erewrite (bind_ok (store _ _)); [|eapply store_some; cbn; rewrite lookup_alter_ne by done; exact Ha].
  erewrite (bind_ok (store _ _)); [|eapply store_some; cbn; rewrite lookup_alter_eq, lookup_alter_ne, Ha by done; done].
  erewrite store_some; [|cbn; rewrite !lookup_alter_ne by done; exact Hc'].
  cbn [set_heap k_heap].
  eexists. split; [done|]. split.
  - rewrite (alter_alter_ne _ _ (k_heap k) a a0), (alter_alter_ne _ _ _ a a0) by done.
    apply ring_snoc; [|done|].
    + eapply ring_frame; [|exact HR]. intros b Hb. rewrite !lookup_alter_ne; [done|congruence..].
    + by rewrite !lookup_alter_eq, Ha.
  - intros b Hb Hba. rewrite !lookup_alter_ne; try done.
    + intros <-. apply Hb. simpl. constructor.
    + intros <-. done.
Qed.

(** Whether a PTY right is pending for a PID. *)
Definition pty_pending k (pid : Z) : bool := rn_granted_pty (node_of k pid).

(** The state in which the ticket is allocated: the node exists and carries the
    PTY right of the record. *)
Lemma insert_ticket_prepare k L record :
  tickets_rep k L → is_pid (ur_pid record) → kmem (k_nmem k) = true →
  let pty := has_flag (ur_operation record) CITADEL_OP_PTY_ACCESS in
  ∃ k1,
    (∀ A (f : M kstate A) (g : M kstate A),
       (find_or_create_reservation (ur_pid record) ≫= λ found,
          if negb found then g
          else when pty (store_resv (ur_pid record) (rn_set_pty true)) ≫= λ _, f) k = f k1) ∧
    tickets_rep k1 L ∧
    (∀ q, is_pid q → ticket_search (k_resv k1) q =
       if bool_decide (ur_pid record = q)
       then Some ((if pty then rn_set_pty true else id) (node_of k (ur_pid record)))
       else ticket_search (k_resv k) q) ∧
    k_heap k1 = k_heap k ∧ k_brk k1 = k_brk k ∧ k_creds k1 = k_creds k ∧ k_nclk k1 = k_nclk k ∧
    cache_frame k k1.
Proof.
  intros Hr Hp Hm pty.
  destruct (find_or_create_ok k L _ Hr Hp Hm) as (k0 & Hf & Hr0 & Hs & Hh & Hb & Hc & Hn & Hfr).
  exists (if pty then set_resv (rb_store (key_cmp rn_pid (ur_pid record)) (rn_set_pty true) (k_resv k0)) k0
          else k0).
  split; [intros A f g; rewrite (bind_ok _ _ _ _ _ Hf); by destruct pty|].
  destruct pty; [|done]. split; [by apply store_resv_rep|]. split_and!; try done.
  - intros q Hq. cbn [set_resv k_resv]. rewrite ticket_search_store; [|done|apply Hr0|done|done].
    rewrite Hs by done. by case_bool_decide.
  - etrans; [exact Hfr|]. apply store_resv_frame; [done|apply Hr0|done].
Qed.

(** The state in which the list of a reservation is replaced. *)
Definition set_resv_head k (pid : Z) (p : ptr) (h' : theap) : kstate :=
  set_heap h' (set_resv (rb_store (key_cmp rn_pid pid) (rn_set_head p) (k_resv k)) k).

Lemma set_resv_head_search k pid p h' q :
  bst rn_pid 0 (k_resv k) → is_pid pid → is_pid q →
  ticket_search (k_resv (set_resv_head k pid p h')) q =
  if bool_decide (pid = q) then rn_set_head p <$> ticket_search (k_resv k) q
  else ticket_search (k_resv k) q.
Proof. intros. by apply ticket_search_store. Qed.
Lemma set_resv_head_frame k pid p h' :
  bst rn_pid 0 (k_resv k) → is_pid pid → cache_frame k (set_resv_head k pid p h').
Proof. intros. etrans; [by apply (store_resv_frame k pid (rn_set_head p))|done]. Qed.

Lemma set_resv_head_rep k L pid n p l h' :
  tickets_rep k L → is_pid pid → ticket_search (k_resv k) pid = Some n →
  ring h' p l →
  (∀ o b, valid_owner o → o ≠ Res pid → b ∈ (L o).*1 → h' !! b = k_heap k !! b ∧ b ∉ l.*1) →
  (∀ b, is_Some (h' !! b) → is_Some (k_heap k !! b)) →
  tickets_rep (set_resv_head k pid p h') (<[Res pid := l]> L).
Proof.
  intros Hr Hp Hn Hl Hfr Hdom. pose proof (rep_bst _ _ Hr) as Hb.
  apply (rep_update k); [done|done| | | |done|].
  - by apply bst_store.
  - cbn [head_of]. rewrite set_resv_head_search, bool_decide_true, Hn by done. done.
  - intros [q|c] Ho Hne; [|done]. cbn [head_of].
    rewrite set_resv_head_search, bool_decide_false; [done|congruence|done..].
  - intros b Hs. apply (rep_fresh k L Hr). by apply Hdom.
Qed.

(** Linking the filled cell, whether or not the reservation had tickets. *)
Lemma link_ticket_rep k L pid n a t :
  tickets_rep k L → is_pid pid → ticket_search (k_resv k) pid = Some n →
  k_heap k !! a = Some (cell t None None) → (∀ o, valid_owner o → a ∉ (L o).*1) →
  ∃ h' p, link_ticket pid (Some a) k = Ok (tt, set_resv_head k pid p h') ∧
    tickets_rep (set_resv_head k pid p h') (<[Res pid := L (Res pid) ++ [(a, t)]]> L).
Proof.
  intros Hr Hp Hn Ha Hfresh. pose proof (rep_ring _ _ Hr (Res pid) Hp) as HR.
  cbn [head_of] in HR. rewrite Hn in HR.
  assert (∀ (h' : theap) p, ring h' p (L (Res pid) ++ [(a, t)]) →
    (∀ b, b ∉ (L (Res pid)).*1 → b ≠ a → h' !! b = k_heap k !! b) →
    tickets_rep (set_resv_head k pid p h') (<[Res pid := L (Res pid) ++ [(a, t)]]> L)) as Hup.
  { intros h' p Hl Hfr. eapply set_resv_head_rep; [done..| |].
    - intros o b Ho Hne Hb.
      assert (b ∉ (L (Res pid)).*1) as Hb' by (intros Hb'; apply Hne; by eapply (rep_disj k L)).
      assert (b ≠ a) by (intros ->; by apply (Hfresh o)).
      split; [by apply Hfr|]. rewrite fmap_app, elem_of_app. simpl. rewrite list_elem_of_singleton. tauto.
    - intros b Hb. destruct (decide (b = a)) as [->|Hne]; [by rewrite Ha|].
      destruct (decide (b ∈ (L (Res pid)).*1)); [by eapply ring_lookup|]. by rewrite <- Hfr. }
  destruct (L (Res pid)) as [|[a0 t0] l] eqn:EL.
  - simpl in HR. destruct (link_ticket_first k pid n a t) as (h' & He & Hl & Hh); [done..|].
    exists h', (Some a). split; [exact He|]. apply Hup; auto.
  - assert (rn_ticket_head n = Some a0) as Hhd by apply HR. rewrite Hhd in HR.
    destruct (link_ticket_next k pid n a t a0 t0 l) as (h' & He & Hl & Hh); [done..| |done|].
    { rewrite <- EL. by apply (Hfresh (Res pid)). }
    exists h', (Some a0). split; [|by apply Hup].
    rewrite He. do 2 f_equal. unfold set_resv_head. f_equal.
    rewrite rb_store_id; [by destruct k|]. intros x Hx.
    change (ticket_search (k_resv k) pid = Some x) in Hx. rewrite Hn in Hx. injection Hx as <-.
    destruct n; simpl in *; by subst.
Qed.

(** Allocating a cell does not disturb the lists. *)
Lemma rep_alloc k k' L c :
  tickets_rep k L → k_heap k' = <[k_brk k := c]> (k_heap k) → k_brk k' = (k_brk k + 1)%positive →
  k_resv k' = k_resv k → k_creds k' = k_creds k →
  tickets_rep k' L ∧ ∀ o, valid_owner o → k_brk k ∉ (L o).*1.
Proof.
  intros Hr Hh Hb Hs Hc.
  assert (∀ o, valid_owner o → k_brk k ∉ (L o).*1) as Hn.
  { intros o Ho Hin. pose proof (rep_in_fresh _ _ _ _ Hr Ho Hin). lia. }
  split; [|done]. split.
  - rewrite Hs. apply Hr.
  - intros o Ho. replace (head_of k' o) with (head_of k o)
      by (destruct o; simpl; by rewrite ?Hs, ?Hc).
    eapply ring_frame; [|by apply Hr]. intros a Ha. rewrite Hh. apply lookup_insert_ne.
    intros <-. by apply (Hn o).
  - apply Hr.
  - intros a. rewrite Hh, Hb. destruct (decide (a = k_brk k)) as [->|Hne]; [lia|].
    rewrite lookup_insert_ne by done. intros Ha%(rep_fresh _ _ Hr). lia.
Qed.

(** [alloc_ticket], [ktime_get] and the assignments to the new cell. *)
Lemma fresh_ticket_ok k L record :
  tickets_rep k L → (∀ n, kmem n = true) →
  let t := Info (ur_identifier record) (ur_operation record) (ktime (k_nclk k)) in
  ∃ k', (∀ A (f : ptr → M kstate A) (g : M kstate A),
      (kmalloc_unchecked ≫= λ _, alloc_ticket ≫= λ ticket,
        if decide (ticket = None) then g else
        ktime_get ≫= λ now, store ticket (fill_ticket record now) ≫= λ _, f ticket) k =
      f (Some (k_brk k)) k') ∧
    tickets_rep k' L ∧ k_heap k' !! k_brk k = Some (cell t None None) ∧
    (∀ o, valid_owner o → k_brk k ∉ (L o).*1) ∧
    k_resv k' = k_resv k ∧ k_creds k' = k_creds k ∧ k_nclk k' = S (k_nclk k) ∧ cache_frame k k'.
Proof.
  intros Hr Hm t.
  exists (set_heap (alter (fill_ticket record (ktime (k_nclk k))) (k_brk k)
            (<[k_brk k := zero_ticket]> (k_heap k)))
          (set_nclk (S (k_nclk k)) (set_brk (k_brk k + 1)%positive (set_nmem (S (S (k_nmem k))) k)))).
  split.
  { intros A f g. erewrite (bind_ok kmalloc_unchecked); [|by apply kmalloc_unchecked_ok].
    erewrite (bind_ok alloc_ticket); [|apply alloc_ticket_ok; apply Hm].
    rewrite decide_False by done. erewrite (bind_ok ktime_get); [|done].
    erewrite (bind_ok (store _ _)); [|eapply store_some; cbn; apply lookup_insert_eq]. done. }
  cbn [set_heap set_nclk set_brk set_nmem k_heap k_resv k_creds k_nclk].
  destruct (rep_alloc k (set_heap (alter (fill_ticket record (ktime (k_nclk k))) (k_brk k)
            (<[k_brk k := zero_ticket]> (k_heap k)))
          (set_nclk (S (k_nclk k)) (set_brk (k_brk k + 1)%positive (set_nmem (S (S (k_nmem k))) k))))
    L (cell t None None)) as [Hr' Hn]; try done.
  { cbn. by rewrite alter_insert_eq. }
  split_and!; try done. by rewrite lookup_alter_eq, lookup_insert_eq.
Qed.

Lemma insert_ticket_ok k L record :
  tickets_rep k L → is_pid (ur_pid record) → (∀ n, kmem n = true) →
  ur_operation record ≠ CITADEL_OP_PTY_ACCESS →
  let pid := ur_pid record in
  let t := Info (ur_identifier record) (ur_operation record) (ktime (k_nclk k)) in
  ∃ k', insert_ticket record k = Ok (true, k') ∧
    tickets_rep k' (<[Res pid := L (Res pid) ++ [(k_brk k, t)]]> L) ∧
    (∀ q, is_pid q → pty_pending k' q = pty_pending k q ||
       (bool_decide (pid = q) && has_flag (ur_operation record) CITADEL_OP_PTY_ACCESS)) ∧
    k_creds k' = k_creds k ∧ k_nclk k' = S (k_nclk k) ∧ cache_frame k k'.
Proof.
  intros Hr Hp Hm Hop pid t.
  destruct (insert_ticket_prepare k L record Hr Hp (Hm _))
    as (k1 & He1 & Hr1 & Hs1 & Hh1 & Hb1 & Hc1 & Hn1 & Hf1).
  destruct (fresh_ticket_ok k1 L record Hr1 Hm)
    as (k2 & He2 & Hr2 & Hcell & Hfresh & Hs2 & Hc2 & Hn2 & Hf2).
  rewrite Hb1, Hn1 in *.
  edestruct (link_ticket_rep k2 L pid) as (h' & p & He3 & Hr3); [done|done| |done|done|].
  { rewrite Hs2, Hs1, bool_decide_true by done. done. }
  exists (set_resv_head k2 pid p h'). split_and!; [|done| |cbn; congruence|cbn; congruence|].
  - unfold insert_ticket. rewrite He1. rewrite (proj2 (Z.eqb_neq _ _) Hop), andb_false_r.
    rewrite He2. by rewrite (bind_ok _ _ _ _ _ He3).
  - intros q Hq. unfold pty_pending, node_of.
    rewrite set_resv_head_search by (try done; rewrite Hs2; apply Hr1).
    rewrite Hs2, Hs1 by done. unfold pid. case_bool_decide as Hpq; [|by rewrite orb_false_r].
    subst q. unfold node_of. cbn [andb].
    destruct (ticket_search (k_resv k) (ur_pid record)) as [n|];
      by destruct (has_flag (ur_operation record) CITADEL_OP_PTY_ACCESS); simpl; rewrite ?orb_true_r, ?orb_false_r.
  - etrans; [exact Hf1|]. etrans; [exact Hf2|]. apply set_resv_head_frame; [apply Hr2|done].
Qed.

(** A record for the PTY right alone sets the flag and creates no ticket. *)
Lemma insert_ticket_pty k L record :
  tickets_rep k L → is_pid (ur_pid record) → kmem (k_nmem k) = true →
  ur_operation record = CITADEL_OP_PTY_ACCESS →
  ∃ k', insert_ticket record k = Ok (true, k') ∧ tickets_rep k' L ∧
    (∀ q, is_pid q → pty_pending k' q = pty_pending k q || bool_decide (ur_pid record = q)) ∧
    k_creds k' = k_creds k ∧ k_nclk k' = k_nclk k ∧ cache_frame k k'.
Proof.
  intros Hr Hp Hm Hop.
  destruct (insert_ticket_prepare k L record Hr Hp Hm)
    as (k1 & He1 & Hr1 & Hs1 & Hh1 & Hb1 & Hc1 & Hn1 & Hf1).
  exists k1. split_and!; try done.
  - unfold insert_ticket. rewrite He1. rewrite Hop. done.
  - intros q Hq. unfold pty_pending, node_of. rewrite Hs1 by done. rewrite Hop.
    case_bool_decide; [by rewrite orb_true_r|by rewrite orb_false_r].
Qed.

(** Out of memory: the record is dropped and the caller is told. *)
Lemma insert_ticket_oom k L record :
  tickets_rep k L → is_pid (ur_pid record) →
  ticket_search (k_resv k) (ur_pid record) = None → kmem (k_nmem k) = false →
  insert_ticket record k = Ok (false, set_nmem (S (k_nmem k)) k).
Proof.
  intros Hr Hp Hs Hm. unfold insert_ticket.
  assert (find_or_create_reservation (ur_pid record) k = Ok (false, set_nmem (S (k_nmem k)) k)) as He.
  { unfold find_or_create_reservation. mred. rewrite Hs.
    erewrite (bind_ok kmalloc); [|done]. by rewrite Hm. }
  by rewrite (bind_ok _ _ _ _ _ He).
Qed.
End insert.

Section check.
Context `{HKer : Kernel} `{HRb : RbTree}.
Implicit Type k : kstate.

(** ** Moving the reservation to the credentials *)

Lemma splice_tickets_ok k a tr R d td T :
  let RR := (a, tr) :: R in
  let TT := (d, td) :: T in
  ring (k_heap k) (Some a) RR → ring (k_heap k) (Some d) TT → (∀ x, x ∈ RR.*1 → x ∉ TT.*1) →
  ∃ h', splice_tickets (Some a) (Some d) k = Ok (tt, set_heap h' k) ∧
    ring h' (Some d) (TT ++ RR) ∧ ∀ b, b ∉ RR.*1 → b ∉ TT.*1 → h' !! b = k_heap k !! b.
Proof.
  intros RR TT HR HT Hdisj.
  set (c := last_addr R a). set (e := last_addr T d).
  pose proof (ring_splice _ _ _ _ _ _ _ HR HT Hdisj) as Hres. fold c e in Hres.
  assert (c ∈ RR.*1) as Hc by (apply (last_addr_in RR a); done).
  assert (a ∈ RR.*1) as Ha by (unfold RR; simpl; constructor).
  assert (e ∈ TT.*1) as He by (apply (last_addr_in TT d); done).
  assert (d ∈ TT.*1) as Hd by (unfold TT; simpl; constructor).
  assert (∀ x y, x ∈ RR.*1 → y ∈ TT.*1 → x ≠ y) as Hne by (intros x y Hx Hy ->; by destruct (Hdisj y)).
  pose proof (ring_head_cell _ _ _ _ HR) as Ca. pose proof (ring_head_cell _ _ _ _ HT) as Cd.
  destruct (ring_lookup _ _ _ c HR Hc) as [cc Cc]. destruct (ring_lookup _ _ _ e HT He) as [ce Ce].
  eexists. split; [|split; [exact Hres|]].
  - unfold splice_tickets. mstep (load_some _ _ _ Ca). cbn [tk_prev cell]. cbv zeta.
    mstep (load_some _ _ _ Cd). cbn [tk_prev cell]. fold c e.
    erewrite (bind_ok (store _ _)); [|by eapply store_some].
    assert (is_Some (alter (with_prev (Some e)) a (k_heap k) !! c)) as [cc' Cc'].
    { destruct (decide (c = a)) as [->|]; [rewrite lookup_alter_eq, Ca; eauto|].
      rewrite lookup_alter_ne, Cc by done. eauto. }
    erewrite (bind_ok (store _ _)); [|by eapply store_some].
    erewrite (bind_ok (load _)); [|apply load_some; cbn; rewrite !lookup_alter_ne by auto; exact Cd].
    cbn [tk_prev cell]. fold e.
    erewrite (bind_ok (store _ _)); [|eapply store_some; cbn; rewrite !lookup_alter_ne by auto; exact Ce].
    assert (is_Some (alter (with_next (Some a)) e (alter (with_next (Some d)) c
      (alter (with_prev (Some e)) a (k_heap k))) !! d)) as [cd' Cd'].
    { destruct (decide (d = e)) as [<-|].
      - rewrite lookup_alter_eq, !lookup_alter_ne, Cd by auto. eauto.
      - rewrite !lookup_alter_ne, Cd by auto. eauto. }
    erewrite store_some; [|cbn; exact Cd']. done.
  - intros b HbR HbT. rewrite !lookup_alter_ne; [done|intros <-; done..].
Qed.

(** The state in which the list of a set of credentials is replaced. *)
Definition set_cred_head k (c : positive) (p : ptr) (h' : theap) : kstate :=
  set_heap h' (set_creds (alter (td_set_ticket_head p) c (k_creds k)) k).

Lemma set_cred_head_rep k k' L c td p l h' :
  tickets_rep k L → k_creds k !! c = Some td → ring h' p l →
  k_heap k' = h' → k_resv k' = k_resv k → k_brk k' = k_brk k →
  k_creds k' = alter (td_set_ticket_head p) c (k_creds k) →
  (∀ o b, valid_owner o → o ≠ Cred c → b ∈ (L o).*1 → h' !! b = k_heap k !! b ∧ b ∉ l.*1) →
  (∀ b, is_Some (h' !! b) → is_Some (k_heap k !! b)) →
  tickets_rep k' (<[Cred c := l]> L).
Proof.
  intros Hr Hc Hl Hh Hs Hb Hcr Hfr Hdom. eapply (rep_update k); [done|done| | | | |].
  - rewrite Hs. apply Hr.
  - cbn [head_of]. rewrite Hcr, lookup_alter_eq, Hc, Hh. done.
  - intros [q|c'] Ho Hne; cbn [head_of]; [by rewrite Hs|].
    rewrite Hcr, lookup_alter_ne; [done|congruence].
  - rewrite Hh. apply Hfr.
  - intros b. rewrite Hh, Hb. intros Hx%Hdom. by apply (rep_fresh k L Hr).
Qed.

Lemma set_cred_head_same k c td :
  k_creds k !! c = Some td → set_cred_head k c (td_ticket_head td) (k_heap k) = k.
Proof.
  intros Hc. unfold set_cred_head. rewrite alter_id.
  - by destruct k.
  - intros x Hx. rewrite Hc in Hx. injection Hx as <-. by destruct td.
Qed.

(** The list that the installation of a reservation leaves to the task. *)
Lemma install_ring k L c pid td n :
  tickets_rep k L → is_pid pid → k_creds k !! c = Some td →
  ticket_search (k_resv k) pid = Some n → rn_ticket_head n ≠ None →
  ∃ h' p, (if decide (td_ticket_head td = None)
           then store_cred c (td_set_ticket_head (rn_ticket_head n))
           else splice_tickets (rn_ticket_head n) (td_ticket_head td)) k =
          Ok (tt, set_cred_head k c p h') ∧
    ring h' p (L (Cred c) ++ L (Res pid)) ∧
    ∀ b, b ∉ (L (Cred c)).*1 → b ∉ (L (Res pid)).*1 → h' !! b = k_heap k !! b.
Proof.
  intros Hr Hp Hc Hn Hne.
  pose proof (rep_ring _ _ Hr (Res pid) Hp) as HR. pose proof (rep_ring _ _ Hr (Cred c) I) as HT.
  cbn [head_of] in HR, HT. rewrite Hn in HR. rewrite Hc in HT.
  destruct (L (Res pid)) as [|[a tr] R] eqn:ER; [done|].
  pose proof (proj1 HR) as Hh. rewrite Hh in *.
  destruct (L (Cred c)) as [|[d tt] T] eqn:ET.
  - simpl in HT. rewrite HT, decide_True by done.
    exists (k_heap k), (Some a). split; [|done].
    erewrite store_cred_some by done. by destruct k.
  - pose proof (proj1 HT) as Hd. rewrite Hd in *. rewrite decide_False by done.
    destruct (splice_tickets_ok k a tr R d tt T HR HT) as (h' & He & Hl & Hfr).
    { intros x Hx Hx'. assert (Res pid = Cred c); [|done].
      apply (rep_disj k L Hr (Res pid) (Cred c) x); [done|done|by rewrite ER|by rewrite ET]. }
    exists h', (Some d). split_and!; [|done|auto].
    rewrite He. do 2 f_equal. unfold set_cred_head. f_equal.
    pose proof (set_cred_head_same k c td Hc) as Hs. rewrite Hd in Hs. unfold set_cred_head in Hs.
    destruct k; simpl in *. injection Hs as Hs. rewrite Hs. done.
Qed.

Lemma install_pending_ok k L current td n :
  let pid := ts_pid current in
  let c := ts_cred current in
  tickets_rep k L → is_pid pid → k_creds k !! c = Some td →
  ticket_search (k_resv k) pid = Some n → rn_ticket_head n ≠ None →
  ∃ h' p, install_pending current (rn_ticket_head n) k =
      Ok (tt, set_resv_head (set_cred_head k c p h') pid None h') ∧
    tickets_rep (set_resv_head (set_cred_head k c p h') pid None h')
      (<[Cred c := L (Cred c) ++ L (Res pid)]> (<[Res pid := []]> L)).
Proof.
  intros pid c Hr Hp Hc Hn Hne.
  destruct (install_ring k L c pid td n) as (h' & p & He & Hl & Hfr); [done..|].
  assert (tickets_rep (set_resv_head k pid None (k_heap k)) (<[Res pid := []]> L)) as Hr1.
  { eapply set_resv_head_rep; [done..|apply ring_nil| |done].
    intros o b Ho _ Hb. split; [done|]. simpl. apply not_elem_of_nil. }
  exists h', p. split.
  - unfold install_pending. mred. fold c.
    destruct (count_tickets_ring k (rn_ticket_head n) (L (Res pid)) 1) as (cnt & Hcnt).
    { pose proof (rep_ring _ _ Hr (Res pid) Hp) as HR. cbn [head_of] in HR. rewrite Hn in HR.
      intros Hnil. rewrite Hnil in HR. done. }
    { pose proof (rep_ring _ _ Hr (Res pid) Hp) as HR. cbn [head_of] in HR. by rewrite Hn in HR. }
    mstep Hcnt. mstep (load_cred_some _ _ _ Hc). mstep He. done.
  - eapply (set_cred_head_rep _ _ _ c td p); [exact Hr1|done|exact Hl|done|done|done|done| |].
    + intros o b Ho Hoc Hb. destruct (decide (o = Res pid)) as [->|Hor].
      { rewrite fn_lookup_insert in Hb. by apply elem_of_nil in Hb. }
      rewrite fn_lookup_insert_ne in Hb by done.
      assert (b ∉ (L (Cred c)).*1) by (intros Hb'; apply Hoc; by eapply (rep_disj k L)).
      assert (b ∉ (L (Res pid)).*1) by (intros Hb'; apply Hor; by eapply (rep_disj k L)).
      split; [by apply Hfr|]. rewrite fmap_app, elem_of_app. tauto.
    + intros b Hb. cbn. destruct (decide (b ∈ (L (Cred c)).*1)).
      { eapply ring_lookup; [|done]. by apply (rep_ring _ _ Hr (Cred c)). }
      destruct (decide (b ∈ (L (Res pid)).*1)).
      { eapply ring_lookup; [|done]. by apply (rep_ring _ _ Hr (Res pid)). }
      by rewrite <- Hfr.
Qed.

(** ** Discarding the expired tickets *)

(** A ring seen as a prefix and the cells from [b] on. *)
Lemma ring_split h p l1 b t l2 :
  ring h p (l1 ++ (b, t) :: l2) →
  p = Some (hd_addr l1 b) ∧ NoDup (l1.*1 ++ b :: l2.*1) ∧
  dseg h (last_addr l2 b) l1 b ∧
  h !! b = Some (cell t (Some (hd_addr l2 (hd_addr l1 b))) (Some (last_addr l1 (last_addr l2 b)))).
Proof.
  intros HR. destruct (ring_cons_inv h p (l1 ++ (b, t) :: l2)) as (Hp & Hnd & Hs); [by destruct l1|done|].
  rewrite hd_addr_app in Hp, Hs. rewrite last_addr_app in Hs. apply dseg_app in Hs as [Hs1 [Hb _]].
  rewrite fmap_app in Hnd. done.
Qed.

(** Every ticket up to [b] is freed. *)
Lemma free_prefix k p l1 b t l2 :
  ring (k_heap k) p (l1 ++ (b, t) :: l2) →
  free_tickets (S (length l1)) p k =
  Ok (tt, set_heap (free_cells (l1 ++ [(b, t)]) (k_heap k)) k).
Proof.
  intros HR. destruct (ring_split _ _ _ _ _ _ HR) as (-> & Hnd & Hs & Hb).
  replace (S (length l1)) with (length (l1 ++ [(b, t)])) by (rewrite length_app; simpl; lia).
  replace (hd_addr l1 b) with (hd_addr (l1 ++ [(b, t)]) (hd_addr l2 (hd_addr l1 b)))
    by by destruct l1 as [|[]].
  eapply free_tickets_seg.
  - rewrite cons_middle, app_assoc in Hnd. rewrite fmap_app. by apply NoDup_app in Hnd as [? _].
  - apply dseg_app. split; [exact Hs|]. simpl. done.
Qed.

(** The head moves from the first ticket to [b] and the prefix is freed. *)
Lemma drop_prefix k c td a0 t0 l1 b t l2 :
  let L1 := (a0, t0) :: l1 in
  k_creds k !! c = Some td → ring (k_heap k) (Some a0) (L1 ++ (b, t) :: l2) →
  ∃ h',
    (load (Some a0) ≫= λ h,
     store (Some b) (with_prev (tk_prev h)) ≫= λ _,
     load (Some a0) ≫= λ h',
     store (tk_prev h') (with_next (Some b)) ≫= λ _,
     store_cred c (td_set_ticket_head (Some b)) ≫= λ _,
     free_tickets (length L1) (Some a0)) k = Ok (tt, set_cred_head k c (Some b) h') ∧
    ring h' (Some b) ((b, t) :: l2) ∧
    (∀ x, x ∉ (L1 ++ (b, t) :: l2).*1 → h' !! x = k_heap k !! x) ∧
    (∀ x, is_Some (h' !! x) → is_Some (k_heap k !! x)).
Proof.
  intros L1 Hc HR. destruct (ring_split _ _ _ _ _ _ HR) as (_ & Hnd & _ & Hb).
  set (tail := last_addr l2 b) in *.
  assert (k_heap k !! a0 = Some (cell t0 (Some (hd_addr l1 b)) (Some tail))) as Ha0.
  { pose proof (ring_head_cell _ _ _ _ HR) as Ha. rewrite hd_addr_app, last_addr_app in Ha. exact Ha. }
  apply NoDup_app in Hnd as (Hnd1 & Hdisj & Hnd2).
  assert (tail ∈ b :: l2.*1) as Ht by (apply (last_addr_in ((b, t) :: l2) b); done).
  assert (∀ x, x ∈ b :: l2.*1 → a0 ≠ x) as Hna.
  { intros x Hx <-. apply (Hdisj a0); [simpl; constructor|done]. }
  destruct (ring_cut _ _ _ _ _ _ _ HR) as [Hring Hseg]. fold tail in Hring, Hseg.
  set (h2 := alter (with_next (Some b)) tail (alter (with_prev (Some tail)) b (k_heap k))) in *.
  assert (is_Some (alter (with_prev (Some tail)) b (k_heap k) !! tail)) as [ct Hct].
  { destruct (ring_lookup _ _ _ tail HR) as [x Hx]; [rewrite fmap_app, elem_of_app; by right|].
    destruct (decide (tail = b)) as [->|]; [rewrite lookup_alter_eq, Hb|rewrite lookup_alter_ne by done]; eauto. }
  exists (free_cells L1 h2). split_and!.
  - mstep (load_some _ _ _ Ha0). cbn [tk_prev cell].
    mstep (store_some _ _ _ (with_prev (Some tail)) Hb).
    erewrite (bind_ok (load _)); [|apply load_some; cbn; rewrite lookup_alter_ne by (apply not_eq_sym, Hna; constructor); exact Ha0].
    cbn [tk_prev cell]. erewrite (bind_ok (store _ _)); [|by eapply store_some].
    erewrite (bind_ok (store_cred _ _)); [|by eapply store_cred_some].
    change a0 with (hd_addr L1 b). by erewrite free_tickets_seg.
  - eapply ring_frame; [|exact Hring]. intros x Hx. rewrite free_cells_lookup, decide_False; [done|].
    intros Hx'. by apply (Hdisj x).
  - intros x Hx. rewrite fmap_app, elem_of_app in Hx.
    rewrite free_cells_lookup, decide_False by tauto.
    unfold h2. rewrite !lookup_alter_ne; [done|intros <-; apply Hx; right; simpl; constructor|intros <-; tauto].
  - intros x. rewrite free_cells_lookup. case_decide; [by intros [? ?]|].
    unfold h2. by rewrite !lookup_alter_is_Some.
Qed.

(** The part of [remove_expired] that follows the scan. *)
Lemma cut_expired k c td l thr :
  k_creds k !! c = Some td → l ≠ [] → ring (k_heap k) (td_ticket_head td) l →
  let m := skip_n thr (hd_ts l 0) l in
  let cur := Some (hd_addr (drop m l) 1%positive) in
  ∃ h' p,
    (load cur ≫= λ t,
      (if tk_timestamp t <=? thr then
         store_cred c (td_set_ticket_head None) ≫= λ _, mret (S m)
       else
         when (negb (m =? 0)%nat)
           (load (td_ticket_head td) ≫= λ h,
            store cur (with_prev (tk_prev h)) ≫= λ _,
            load (td_ticket_head td) ≫= λ h',
            store (tk_prev h') (with_next cur) ≫= λ _,
            store_cred c (td_set_ticket_head cur)) ≫= λ _, mret m) ≫= λ count',
      when (negb (count' =? 0)%nat) (free_tickets count' (td_ticket_head td))) k =
    Ok (tt, set_cred_head k c p h') ∧
    ring h' p (live_tickets thr l) ∧
    (∀ b, b ∉ l.*1 → h' !! b = k_heap k !! b) ∧
    (∀ b, is_Some (h' !! b) → is_Some (k_heap k !! b)).
Proof.
  intros Hc Hne HR m cur. unfold live_tickets. fold m.
  assert (m < length l)%nat as Hm.
  { apply skip_n_lt; [done|]. destruct l as [|[a t] l]; [done|]. simpl. lia. }
  assert (length (take m l) = m) as Hl1 by (rewrite length_take; lia).
  pose proof (take_drop m l) as Hl.
  destruct (drop m l) as [|[b t] l2] eqn:Ed.
  { apply (f_equal length) in Ed. rewrite length_drop in Ed. simpl in Ed. lia. }
  generalize dependent (take m l). clearbody m. intros l1 Hl1 Hl. rewrite <- Hl in HR |- *.
  destruct (ring_split _ _ _ _ _ _ HR) as (Hhd & _ & _ & Hb).
  subst cur. cbn [hd_addr]. mstep (load_some _ _ _ Hb). cbn [tk_timestamp cell].
  destruct (Z.leb_spec (ti_timestamp t) thr) as [Hle|Hgt].
  - exists (free_cells (l1 ++ [(b, t)]) (k_heap k)), None. split_and!; [|apply ring_nil| |].
    + rewrite bind_assoc. mstep (store_cred_some _ _ _ (td_set_ticket_head None) Hc). mred.
      cbn [Nat.eqb negb when]. rewrite <- Hl1. by erewrite free_prefix.
    + intros x Hx. rewrite free_cells_lookup, decide_False; [done|].
      rewrite !fmap_app, !elem_of_app in *. simpl in *. rewrite elem_of_cons in *.
      rewrite elem_of_nil. tauto.
    + intros x. rewrite free_cells_lookup. case_decide; [by intros [? ?]|done].
  - destruct l1 as [|[a0 t0] l1].
    + rewrite <- Hl1. exists (k_heap k), (td_ticket_head td). split_and!; [|done..].
      rewrite bind_assoc. mred. cbn [Nat.eqb negb when length]. by rewrite (set_cred_head_same _ _ td).
    + rewrite Hhd in *. cbn [hd_addr] in *.
      destruct (drop_prefix k c td a0 t0 l1 b t l2 Hc HR) as (h' & He & Hr & Hfr & Hdom).
      exists h', (Some b). split_and!; [|done..].
      rewrite <- He, <- Hl1. cbn [length Nat.eqb negb when].
      rewrite !bind_assoc. unfold mbind, M_bind. repeat (case_match; simplify_eq/=; try done).
Qed.

(** The threshold of an expiry that reads the clock in state [k]. *)
Definition threshold k : Z := ktime (k_nclk k) - expiry_ns.

Lemma live_tickets_nil thr : live_tickets thr [] = [].
Proof. done. Qed.

Lemma live_tickets_sub thr l a : a ∈ (live_tickets thr l).*1 → a ∈ l.*1.
Proof.
  unfold live_tickets. generalize (skip_n thr (hd_ts l 0) l) as m. intros m.
  assert (∀ a, a ∈ (drop m l).*1 → a ∈ l.*1) as Hd.
  { intros x (y & -> & Hy)%list_elem_of_fmap. apply list_elem_of_fmap_2.
    rewrite <- (take_drop m l). apply elem_of_app. by right. }
  destruct (drop m l) as [|[b t] l2] eqn:Ed; [by intros ?%elem_of_nil|].
  case_if; [by intros ?%elem_of_nil|]. intros Ha. by apply Hd.
Qed.

(** The clock is read only when there are tickets. *)
Definition ticks (l : cells) (n : nat) : nat := match l with [] => n | _ => S n end.

Lemma remove_expired_ok k L current td :
  let c := ts_cred current in
  let n := ticks (L (Cred c)) (k_nclk k) in
  tickets_rep k L → k_creds k !! c = Some td →
  ∃ h' p, remove_expired current k = Ok (tt, set_nclk n (set_cred_head k c p h')) ∧
    tickets_rep (set_nclk n (set_cred_head k c p h'))
      (<[Cred c := live_tickets (threshold k) (L (Cred c))]> L).
Proof.
  intros c n Hr Hc. pose proof (rep_ring _ _ Hr (Cred c) I) as HT. cbn [head_of] in HT. rewrite Hc in HT.
  unfold remove_expired. fold c. mstep (load_cred_some _ _ _ Hc). cbv zeta.
  destruct (decide (td_ticket_head td = None)) as [Hnil|Hnn].
  - exists (k_heap k), (td_ticket_head td). rewrite set_cred_head_same by done.
    apply (ring_null _ _ _ HT) in Hnil. subst n. rewrite Hnil. cbn [ticks]. split; [by destruct k|].
    rewrite live_tickets_nil. replace (set_nclk (k_nclk k) k) with k by by destruct k.
    by rewrite owners_insert_id.
  - set (k1 := set_nclk (S (k_nclk k)) k).
    erewrite (bind_ok ktime_get) by done. fold k1. mred.
    assert (L (Cred c) ≠ []) as Hne by (intros E; apply Hnn; by apply (ring_null _ _ _ HT)).
    mstep (skip_expired_ring k1 (threshold k) (td_ticket_head td) (L (Cred c)) 1%positive Hne HT).
    destruct (cut_expired k1 c td (L (Cred c)) (threshold k) Hc Hne HT) as (h' & p & He & Hl & Hfr & Hdom).
    exists h', p. replace n with (S (k_nclk k)) by (unfold n; by destruct (L (Cred c))).
    split; [exact He|].
    eapply (set_cred_head_rep k); [done|done|exact Hl|done|done|done|done| |exact Hdom].
    intros o b Ho Hoc Hb.
    assert (b ∉ (L (Cred c)).*1) as Hb' by (intros Hb'; apply Hoc; by eapply (rep_disj k L)).
    split; [by apply Hfr|]. intros Hx. apply Hb'. by eapply live_tickets_sub.
Qed.

(** ** check_ticket_cache *)

(** The lists after the check. *)
Definition checked k (L : owner → cells) (current : task_struct) : owner → cells :=
  <[Cred (ts_cred current) :=
      live_tickets (threshold k) (L (Cred (ts_cred current)) ++ L (Res (ts_pid current)))]>
  (<[Res (ts_pid current) := []]> L).

(** The blob after the check: its list and the PTY right may change. *)
Definition td_checked (p : ptr) (pty : bool) (td : citadel_task_data) : citadel_task_data :=
  TaskData (td_in_realm td) (td_granted_pty td || pty) p (td_pid td) (td_identifier td).

Lemma claim_pty_ok k L current td :
  let pid := ts_pid current in
  let c := ts_cred current in
  let pty := pty_pending k pid in
  tickets_rep k L → is_pid pid → k_creds k !! c = Some td →
  ∃ k', claim_pty current (ticket_search (k_resv k) pid) k = Ok (tt, k') ∧ tickets_rep k' L ∧
    k_creds k' = alter (λ td, td_checked (td_ticket_head td) pty td) c (k_creds k) ∧
    (∀ q, is_pid q → pty_pending k' q = pty_pending k q && negb (bool_decide (pid = q))) ∧
    (∀ n, ticket_search (k_resv k) pid = Some n →
       ticket_search (k_resv k') pid = Some (rn_set_pty false n)) ∧
    k_nclk k' = k_nclk k ∧ cache_frame k k'.
Proof.
  intros pid c pty Hr Hp Hc. unfold claim_pty, pty, pty_pending at 1, node_of.
  assert (∀ b, rn_granted_pty (node_of k pid) = b → b = false →
    alter (λ td, td_checked (td_ticket_head td) b td) c (k_creds k) = k_creds k) as Hid.
  { intros b _ ->. apply alter_id. intros [] _. unfold td_checked; simpl. by rewrite orb_false_r. }
  assert (∀ q, is_pid q → rn_granted_pty (node_of k pid) = false →
    pty_pending k q = pty_pending k q && negb (bool_decide (pid = q))) as Hq.
  { intros q _ Hf. case_bool_decide; [subst q|by rewrite andb_true_r].
    unfold pty_pending. by rewrite Hf. }
  destruct (ticket_search (k_resv k) pid) as [n|] eqn:E; simpl.
  2:{ exists k. unfold node_of in *. rewrite E in *. split_and!; try done; try (by rewrite Hid). intros q Hq'. by apply Hq. }
  unfold node_of in Hid, Hq. rewrite E in Hid, Hq. simpl in Hid, Hq.
  destruct (rn_granted_pty n) eqn:G; cbn [when].
  - unfold store_resv. mred. erewrite store_cred_some by done.
    eexists. split; [done|]. split_and!; try done.
    + eapply rep_ext; [by apply (store_resv_rep k L pid (rn_set_pty false))|done|done| |].
      { by apply bst_store, Hr. }
      intros [q|c'] _; [done|]. cbn [head_of set_creds set_resv k_creds].
      destruct (decide (c = c')) as [<-|Hne]; [|by rewrite lookup_alter_ne].
      fold c. by rewrite lookup_alter_eq, Hc.
    + cbn [set_creds set_resv k_creds]. fold c. apply alter_ext. intros [] _.
      unfold td_checked; simpl. by rewrite orb_true_r.
    + intros q Hq'. unfold pty_pending, node_of. cbn [set_creds set_resv k_resv].
      rewrite ticket_search_store; [|done|apply Hr|done|done]. fold pid.
      case_bool_decide as Hpq; [subst q; rewrite E; simpl|by rewrite andb_true_r]. by rewrite andb_false_r.
    + intros n' [= <-]. cbn [set_creds set_resv k_resv].
      rewrite ticket_search_store; [|done|apply Hr|done|done]. by rewrite bool_decide_true, E.
    + etrans; [apply (store_resv_frame k pid (rn_set_pty false)); [done|apply Hr|done]|done].
  - exists k. split_and!; try done; [by rewrite Hid|intros q Hq'; by apply Hq|].
    intros n' [= <-]. rewrite E. f_equal. destruct n; simpl in *. by subst.
Qed.

(** Installing whatever is pending, possibly nothing. *)
Lemma install_step_ok k L current td :
  let pid := ts_pid current in
  let c := ts_cred current in
  tickets_rep k L → is_pid pid → k_creds k !! c = Some td →
  ∃ k' p,
    match ticket_search (k_resv k) pid with
    | Some n => when (negb (bool_decide (rn_ticket_head n = None))) (install_pending current (rn_ticket_head n))
    | None => mret tt
    end k = Ok (tt, k') ∧
    tickets_rep k' (<[Cred c := L (Cred c) ++ L (Res pid)]> (<[Res pid := []]> L)) ∧
    k_creds k' = alter (td_set_ticket_head p) c (k_creds k) ∧
    (∀ q, is_pid q → pty_pending k' q = pty_pending k q) ∧ k_nclk k' = k_nclk k ∧ cache_frame k k'.
Proof.
  intros pid c Hr Hp Hc. pose proof (rep_ring _ _ Hr (Res pid) Hp) as HR. cbn [head_of] in HR.
  assert (L (Res pid) = [] → tickets_rep k (<[Cred c := L (Cred c) ++ L (Res pid)]> (<[Res pid := []]> L))
    ∧ k_creds k = alter (td_set_ticket_head (td_ticket_head td)) c (k_creds k)) as Hnop.
  { intros E. rewrite E, app_nil_r. split.
    - rewrite owners_insert_id; rewrite owners_insert_id; done.
    - rewrite alter_id; [done|]. intros x Hx. rewrite Hc in Hx. injection Hx as <-. by destruct td. }
  destruct (ticket_search (k_resv k) pid) as [n|] eqn:E.
  2:{ apply ring_null in HR as [HR _]. destruct (Hnop (HR eq_refl)). by exists k, (td_ticket_head td). }
  case_bool_decide as Hh; cbn [negb when].
  { apply ring_null in HR as [HR _]. destruct (Hnop (HR Hh)). by exists k, (td_ticket_head td). }
  destruct (install_pending_ok k L current td n) as (h' & p & He & Hr'); [done..|].
  eexists _, p. split; [exact He|]. split_and!; try done.
  - intros q Hq. unfold pty_pending, node_of.
    rewrite set_resv_head_search; [|apply Hr|done|done]. cbn [set_cred_head set_heap set_creds k_resv].
    case_bool_decide as Hpq; [|done]. rewrite <- Hpq. fold pid. by rewrite E.
  - etrans; [|apply set_resv_head_frame; [apply Hr|done]]. done.
Qed.

(** Everything up to the test of the reservation. *)
Lemma check_ticket_cache_eq k L current td :
  let pid := ts_pid current in
  let c := ts_cred current in
  tickets_rep k L → is_pid pid → k_creds k !! c = Some td →
  ∃ k' p, check_ticket_cache current k = test_reservation (ticket_search (k_resv k) pid) k' ∧
    k_nclk k' = ticks (L (Cred c) ++ L (Res pid)) (k_nclk k) ∧
    tickets_rep k' (checked k L current) ∧
    k_creds k' = <[c := td_checked p (pty_pending k pid) td]> (k_creds k) ∧
    (∀ q, is_pid q → pty_pending k' q = pty_pending k q && negb (bool_decide (pid = q))) ∧
    cache_frame k k'.
Proof.
  intros pid c Hr Hp Hc.
  destruct (claim_pty_ok k L current td) as (k1 & He1 & Hr1 & Hc1 & Hq1 & Hs1 & Hn1 & Hf1); [done..|].
  fold pid c in Hc1, Hs1, He1, Hq1.
  assert (k_creds k1 !! c = Some (td_checked (td_ticket_head td) (pty_pending k pid) td)) as Hc1'
    by by rewrite Hc1, lookup_alter_eq, Hc.
  destruct (install_step_ok k1 L current _ Hr1 Hp Hc1') as (k2 & p2 & He2 & Hr2 & Hc2 & Hq2 & Hn2 & Hf2).
  fold pid c in Hc2, He2, Hr2.
  assert (k_creds k2 !! c = td_set_ticket_head p2 <$> k_creds k1 !! c) as Hc2'
    by by rewrite Hc2, lookup_alter_eq.
  rewrite Hc1' in Hc2'.
  destruct (remove_expired_ok k2 _ current _ Hr2 Hc2') as (h' & p & He3 & Hr3).
  fold c in He3, Hr3. rewrite fn_lookup_insert in He3, Hr3.
  eexists _, p. split_and!.
  - unfold check_ticket_cache. mred. fold pid. mstep He1.
    assert (match ticket_search (k_resv k) pid with
      | Some n => when (negb (bool_decide (rn_ticket_head n = None))) (install_pending current (rn_ticket_head n))
      | None => mret tt
      end k1 = Ok (tt, k2)) as He2'.
    { rewrite <- He2. destruct (ticket_search (k_resv k) pid) as [n'|] eqn:E.
      - rewrite (Hs1 n') by done. done.
      - unfold claim_pty in He1. by injection He1 as <-; rewrite E. }
    mstep He2'. by rewrite (bind_ok _ _ _ _ _ He3).
  - cbn [set_nclk k_nclk]. congruence.
  - unfold checked. fold pid c.
    replace (threshold k) with (threshold k2) by (unfold threshold; congruence).
    eapply tickets_rep_proper; [|exact Hr3]. intros o. destruct (decide (o = Cred c)) as [->|Hne].
    + by rewrite !fn_lookup_insert.
    + by rewrite !(fn_lookup_insert_ne _ (Cred c)).
  - cbn [set_nclk set_cred_head set_heap set_creds k_creds]. rewrite Hc2, Hc1.
    apply map_eq. intros x. destruct (decide (c = x)) as [<-|Hne].
    + rewrite !lookup_alter_eq, lookup_insert_eq, Hc. done.
    + by rewrite !lookup_alter_ne, lookup_insert_ne.
  - intros q Hq. rewrite <- Hq1, <- Hq2 by done. done.
  - etrans; [exact Hf1|]. etrans; [exact Hf2|]. done.
Qed.

(** The load from the reservation does no harm: the process has one, or the
    compiler has dropped the load. *)
Definition resv_read k (pid : Z) : Prop := null_load_traps = false ∨ reserved k pid.

Lemma check_ticket_cache_ok k L current td :
  let pid := ts_pid current in
  let c := ts_cred current in
  tickets_rep k L → is_pid pid → resv_read k pid → k_creds k !! c = Some td →
  ∃ k' p, check_ticket_cache current k = Ok (tt, k') ∧
    k_nclk k' = ticks (L (Cred c) ++ L (Res pid)) (k_nclk k) ∧
    tickets_rep k' (checked k L current) ∧
    k_creds k' = <[c := td_checked p (pty_pending k pid) td]> (k_creds k) ∧
    (∀ q, is_pid q → pty_pending k' q = pty_pending k q && negb (bool_decide (pid = q))) ∧
    cache_frame k k'.
Proof.
  intros pid c Hr Hp Hread Hc. destruct (check_ticket_cache_eq k L current td Hr Hp Hc) as (k' & p & E & Hrest).
  exists k', p. split; [|exact Hrest]. rewrite E. unfold test_reservation. fold pid.
  destruct Hread as [Hl|[n Hn]]; [|by rewrite Hn]. rewrite Hl. by case_match.
Qed.
End check.
