(* ===== verification/Access.v ===== *)
(** * Housekeeping and access decisions

    [lsm/src/common.c]: the extended attributes that carry the label of a
    file, the housekeeping that every hook performs before it decides, and
    [can_access], the decision itself.  The scan of [can_access] follows the
    [next] pointers of the ticket list as long as the timestamps increase; its
    fuel is the size of the heap, which is always enough. *)

From S2P Require Import Prelude Shared Hex RBTree Kernel Ring Tickets TicketsSpec.

Section definitions.
Context `{HKer : Kernel} `{HRb : RbTree}.
Abbreviation K := (M kstate).

(** [to_hexstring] and [hexstring_to_bytes] with their unchecked kmalloc. *)
Definition to_hexstring_k (buf : bytes) : K (option bytes) :=
  match to_hexstring buf with
  | None => mret None
  | Some s => kmalloc_unchecked;; mret (Some s)
  end.
(** strlen needs a terminator inside the buffer; the result of kmalloc is
    written to unless the string is empty. *)
Definition hexstring_to_bytes_k (s : bytes) : K (option bytes) :=
  if negb (existsb (Z.eqb 0) s) then crash OutOfBounds else
  match hexstring_to_bytes s with
  | None => mret None
  | Some [] => kmalloc;; mret (Some [])
  | Some b => kmalloc_unchecked;; mret (Some b)
  end.

Definition get_path_for_dentry (de : dentry) : option bytes := None.

(** ** Extended attributes *)
Definition __internal_set_xattr (de : dentry) (name : string) (value : bytes) : K Z :=
  setxattr_noperm de name value.
Definition __internal_set_in_realm (de : dentry) : K Z :=
  __internal_set_xattr de _CITADEL_XATTR_IN_REALM [].
(** The length of the attribute is that of an encoded identifier, whatever the
    length of [value]. *)
Definition __internal_set_identifier (de : dentry) (value : bytes) : K Z :=
  hex ← to_hexstring_k value;
  match hex with
  | None => mret (- ENOMEM)
  | Some h =>
      if (length h <? 2 * _CITADEL_IDENTIFIER_LENGTH + 1)%nat then crash OutOfBounds
      else __internal_set_xattr de _CITADEL_XATTR_IDENTIFIER (take (2 * _CITADEL_IDENTIFIER_LENGTH + 1) h)
  end.
Definition set_xattr_in_realm (de : dentry) : K Z := __internal_set_in_realm de.
Definition set_xattr_identifier (de : dentry) (value : bytes) : K Z :=
  res_a ← __internal_set_identifier de value;
  res_b ← __internal_set_in_realm de;
  mret (if res_a <? res_b then res_a else res_b).

Definition get_xattr_identifier (de : dentry) (i : option inode) : K (option bytes) :=
  ok ← kmalloc;
  '(x, v) ← getxattr de i _CITADEL_XATTR_IDENTIFIER _CITADEL_ENCODED_IDENTIFIER_LENGTH;
  if x >? 0 then
    if ok : bool then hexstring_to_bytes_k (fill _CITADEL_ENCODED_IDENTIFIER_LENGTH v)
    else crash NullDeref
  else mret None.

(** ** Housekeeping *)
Definition task_housekeeping (current : task_struct) : K unit :=
  when (ts_pid current >? 1)
    (td ← load_cred (ts_cred current);
     when (td_pid td =? 1) (store_cred (ts_cred current) (td_set_pid (ts_pid current)));;
     check_ticket_cache current).

Definition tag_pipe (id : bytes) (d : citadel_inode_data) : citadel_inode_data :=
  id_set_needs_xattr_update false (id_set_checked_disk_xattr true
    (id_set_anonymous false (id_set_identifier id d))).

Definition inode_housekeeping (current : task_struct) (inode_data : ptr) (i : option inode) : K unit :=
  match i, inode_data with
  | Some ino, Some _ =>
      if i_ino ino <? 2 then mret tt else
      when (i_magic ino =? PIPEFS_MAGIC)
        (d ← load_inode inode_data;
         td ← load_cred (ts_cred current);
         when (id_anonymous d && td_in_realm td)
           (store_inode inode_data (tag_pipe (td_identifier td))))
  | _, _ => mret tt
  end.

(** Reading the label of a file the first time it is seen. *)
Definition check_disk_xattr (inode_data : ptr) (de : dentry) (i : option inode) : K unit :=
  d ← load_inode inode_data;
  when (negb (id_checked_disk_xattr d) && negb (id_is_socket d))
    (store_inode inode_data (id_set_checked_disk_xattr true);;
     '(read, _) ← getxattr de i _CITADEL_XATTR_IN_REALM 0;
     when (read >=? 0)
       (store_inode inode_data (id_set_in_realm true);;
        identifier ← get_xattr_identifier de i;
        match identifier with
        | Some id =>
            if (length id <? _CITADEL_IDENTIFIER_LENGTH)%nat then crash OutOfBounds else
            store_inode inode_data
              (λ d, id_set_anonymous false (id_set_identifier (take _CITADEL_IDENTIFIER_LENGTH id) d))
        | None => mret tt
        end)).

(** Writing the label of a file whose label was decided in memory. *)
Definition write_disk_xattr (inode_data : ptr) (de : dentry) : K unit :=
  d ← load_inode inode_data;
  when (id_in_realm d && (id_needs_xattr_update d && negb (id_is_socket d)))
    (store_inode inode_data (id_set_needs_xattr_update false);;
     set_xattr_in_realm de;;
     d' ← load_inode inode_data;
     when (negb (id_anonymous d'))
       (__internal_set_identifier de (id_identifier d');; mret tt)).

Definition dentry_housekeeping (current : task_struct) (inode_data : ptr) (de : option dentry)
    (i : option inode) : K unit :=
  match inode_data, de with
  | Some _, Some de =>
      match i with Some _ => inode_housekeeping current inode_data i | None => mret tt end;;
      check_disk_xattr inode_data de i;;
      write_disk_xattr inode_data de
  | _, _ => mret tt
  end.

(** ** The decision *)
Definition pty_check (current : task_struct) (ino : inode) : K bool :=
  td ← load_cred (ts_cred current);
  mret ((i_magic ino =? DEVPTS_SUPER_MAGIC) && td_granted_pty td).

Definition citadel_pid : K Z := gets (λ k, enclave_pid (k_pio k)).

(** The loop over the tickets that [can_access] and [shm_can_access] share. *)
Fixpoint scan_tickets (fuel : nat) (id : bytes) (op : Z) (cur : ptr) (tracker : Z) : K bool :=
  match fuel with
  | O => crash OutOfFuel
  | S fuel =>
      t ← load cur;
      if tk_timestamp t >? tracker then
        if bytes_eqb (tk_identifier t) id && has_flag (tk_operation t) op then mret true
        else scan_tickets fuel id op (tk_next t) (tk_timestamp t)
      else mret false
  end.

(** 0xFFFF_FFFF_FFFF_FFFF_FFFF_FFFF_FFFF_FFFF *)
Definition public_identifier : bytes := replicate _CITADEL_IDENTIFIER_LENGTH 0xFF.

Definition can_access (current : task_struct) (i : option inode) (operation : Z) : K Z :=
  let inode_data := citadel_inode i in
  match inode_data, i with
  | Some _, Some ino =>
      if i_ino ino <? 2 then mret 0 else
      d ← load_inode inode_data;
      cred ← load_cred (ts_cred current);
      if negb (id_in_realm d) && negb (td_in_realm cred) then mret 0 else
      if i_isdir ino then mret 0 else
      if i_magic ino =? SOCKFS_MAGIC then mret 0 else
      if i_magic ino =? SYSFS_MAGIC then mret 0 else
      if i_magic ino =? SECURITYFS_MAGIC then mret 0 else
      if i_magic ino =? TMPFS_MAGIC then mret 0 else
      if (i_magic ino =? PIPEFS_MAGIC) && bytes_eqb (id_identifier d) (td_identifier cred) then mret 0 else
      if bytes_eqb (id_identifier d) public_identifier then mret 0 else
      pid ← citadel_pid;
      if ts_pid current =? pid then mret 0 else
      pty ← pty_check current ino;
      if pty : bool then mret 0 else
      if decide (td_ticket_head cred = None) then mret (- EACCES) else
      if id_anonymous d then mret (- EACCES) else
      fuel ← gets heap_fuel;
      found ← scan_tickets fuel (id_identifier d) operation (td_ticket_head cred) 0;
      if found : bool then
        when (id_in_realm d) (store_cred (ts_cred current) (td_set_in_realm true));;
        mret 0
      else mret (- EACCES)
  | _, _ => mret 0
  end.
End definitions.

(** The decoder on the encoding of a non-empty buffer. *)
Lemma hexstring_to_bytes_k_ok `{HKer : Kernel} b rest (k : kstate) :
  (∀ n, kmem n = true) → bytes_ok b → b ≠ [] →
  hexstring_to_bytes_k (hex_body b ++ 0 :: rest) k = Ok (Some b, set_nmem (S (k_nmem k)) k).
Proof.
  intros Hm Hb Hne. unfold hexstring_to_bytes_k.
  rewrite existsb_app. cbn [existsb]. rewrite Z.eqb_refl, orb_true_r. cbn [negb].
  rewrite hexstring_to_bytes_body by done. destruct b as [|x b]; [done|].
  by erewrite (bind_ok kmalloc_unchecked); [|by apply kmalloc_unchecked_ok].
Qed.


(** ** The scan *)

(** A ticket that answers the request. *)
Definition grants (id : bytes) (op : Z) (t : ticket_info) : bool :=
  bytes_eqb (ti_identifier t) id && has_flag (ti_operation t) op.

(** The tickets the scan looks at: the longest prefix whose timestamps
    increase, from a positive one on. *)
Fixpoint visible (tracker : Z) (l : list ticket_info) : list ticket_info :=
  match l with
  | [] => []
  | t :: l => if ti_timestamp t >? tracker then t :: visible (ti_timestamp t) l else []
  end.

Lemma visible_sorted tracker l :
  StronglySorted Z.lt (ti_timestamp <$> l) → Forall (λ t, tracker < ti_timestamp t) l → visible tracker l = l.
Proof.
  revert tracker. induction l as [|t l IH]; intros tr Hs Hf; [done|].
  rewrite fmap_cons in Hs. apply StronglySorted_inv in Hs as [Hs Ht].
  apply Forall_cons in Hf as [Hlt _]. simpl.
  destruct (Z.gtb_spec (ti_timestamp t) tr); [|lia]. f_equal. apply IH; [done|].
  by rewrite Forall_fmap in Ht.
Qed.

Section scan.
Context `{HKer : Kernel} `{HRb : RbTree}.
Implicit Type k : kstate.

Lemma scan_tickets_fuel_gen fuel id op p tr k :
  (size (later (k_heap k) tr) < fuel)%nat → scan_tickets fuel id op p tr k ≠ Fault OutOfFuel.
Proof.
  revert p tr. induction fuel as [|fuel IH]; intros p tr Hf; [lia|]. simpl.
  apply load_bind_fuel. intros a t -> Ha.
  destruct (Z.gtb_spec (tk_timestamp t) tr) as [Hgt|]; [|done]. case_if; [done|].
  apply IH. pose proof (later_decr _ _ _ _ Ha Hgt). lia.
Qed.

(** From any pointer of any heap, however it is linked. *)
Lemma scan_tickets_fuel id op p tr k : scan_tickets (heap_fuel k) id op p tr k ≠ Fault OutOfFuel.
Proof.
  apply scan_tickets_fuel_gen. unfold heap_fuel. pose proof (later_size (k_heap k) tr). lia.
Qed.

Lemma scan_tickets_seg k fuel id op p a t l a0 c0 tr :
  dseg (k_heap k) p ((a, t) :: l) a0 → k_heap k !! a0 = Some c0 →
  tk_timestamp c0 ≤ ti_timestamp t ∨ tk_timestamp c0 ≤ tr → (S (length l) < fuel)%nat →
  scan_tickets fuel id op (Some a) tr k = Ok (existsb (grants id op) (visible tr (t :: l.*2)), k).
Proof.
  revert fuel p a t tr. induction l as [|[b u] l IH]; intros fuel p a t tr [Ha Hs] Hz Hle Hf;
    (destruct fuel as [|fuel]; [simpl in *; lia|]);
    cbn [scan_tickets]; simpl in Ha, Hs; mstep (load_some _ _ _ Ha);
    cbn [tk_timestamp tk_identifier tk_operation tk_next cell visible fmap list_fmap].
  - destruct (Z.gtb_spec (ti_timestamp t) tr); [|done]. cbn [existsb]. unfold grants at 1.
    case_if; [done|]. destruct fuel as [|fuel]; [simpl in *; lia|]. cbn [scan_tickets].
    mstep (load_some _ _ _ Hz). destruct (Z.gtb_spec (tk_timestamp c0) (ti_timestamp t)); [lia|done].
  - destruct (Z.gtb_spec (ti_timestamp t) tr); [|done]. cbn [existsb]. unfold grants at 1.
    case_if; [done|]. apply (IH fuel a b u); [done|done|lia|simpl in *; lia].
Qed.

Lemma scan_tickets_ring k id op p l :
  l ≠ [] → ring (k_heap k) p l →
  scan_tickets (heap_fuel k) id op p 0 k = Ok (existsb (grants id op) (visible 0 l.*2), k).
Proof.
  intros Hne Hr. pose proof (ring_length _ _ _ Hr) as Hlen.
  destruct l as [|[a t] l]; [done|]. destruct Hr as (-> & Hnd & Hs).
  pose proof (proj1 Hs) as Ha. 
  destruct (decide (S (length l) < heap_fuel k)%nat); [|simpl in *; lia].
  by eapply scan_tickets_seg; [exact Hs|exact Ha|simpl; lia|].
Qed.
End scan.

(** ** The decision as a function of the label, the credentials and the tickets *)

(** File systems whose inodes are always accessible. *)
Definition open_magic : list Z := [SOCKFS_MAGIC; SYSFS_MAGIC; SECURITYFS_MAGIC; TMPFS_MAGIC].

Definition exempt (enclave pid : Z) (ino : inode) (d : citadel_inode_data) (td : citadel_task_data) : bool :=
  (i_ino ino <? 2) || (negb (id_in_realm d) && negb (td_in_realm td)) || i_isdir ino
  || existsb (Z.eqb (i_magic ino)) open_magic
  || ((i_magic ino =? PIPEFS_MAGIC) && bytes_eqb (id_identifier d) (td_identifier td))
  || bytes_eqb (id_identifier d) public_identifier
  || (pid =? enclave)
  || ((i_magic ino =? DEVPTS_SUPER_MAGIC) && td_granted_pty td).

(** Whether the tickets [l] answer a request for [op] on the object. *)
Definition ticketed (d : citadel_inode_data) (op : Z) (l : list ticket_info) : bool :=
  negb (id_anonymous d) && existsb (grants (id_identifier d) op) (visible 0 l).

Section decision.
Context `{HKer : Kernel} `{HRb : RbTree}.
Implicit Type k : kstate.

(** The blobs of the running task and of an inode. *)
Record subject k (current : task_struct) (ino : inode) (d : citadel_inode_data)
    (td : citadel_task_data) (l : cells) : Prop := Subject {
  sub_security : i_security ino = true;
  sub_inode : k_inodes k !! i_ref ino = Some d;
  sub_cred : k_creds k !! ts_cred current = Some td;
  sub_ring : ring (k_heap k) (td_ticket_head td) l }.

(** The taint of the object reaches the process. *)
Definition taint (current : task_struct) (d : citadel_inode_data) k : kstate :=
  if id_in_realm d then set_creds (alter (td_set_in_realm true) (ts_cred current) (k_creds k)) k else k.

Lemma can_access_spec k current ino d td l op :
  subject k current ino d td l →
  can_access current (Some ino) op k =
  if exempt (enclave_pid (k_pio k)) (ts_pid current) ino d td then Ok (0, k)
  else if ticketed d op l.*2 then Ok (0, taint current d k)
  else Ok (- EACCES, k).
Proof.
  intros [Hs Hi Hc Hr]. unfold can_access, exempt. cbn [citadel_inode open_magic existsb]. rewrite Hs. cbv zeta.
  destruct (i_ino ino <? 2); [done|].
  mstep (load_inode_some _ _ _ Hi). mstep (load_cred_some _ _ _ Hc). rewrite orb_false_l.
  destruct (negb (id_in_realm d) && negb (td_in_realm td)); [done|].
  destruct (i_isdir ino); [done|].
  do 4 (case_if; [done|]). case_if; [done|]. case_if; [done|].
  unfold citadel_pid. mred. case_if; [done|].
  unfold pty_check. rewrite bind_assoc. mstep (load_cred_some _ _ _ Hc). mred.
  case_if; [done|]. cbn [orb]. unfold ticketed.
  destruct (decide (td_ticket_head td = None)) as [Hn|Hn].
  { apply (ring_null _ _ _ Hr) in Hn as ->. by rewrite andb_false_r. }
  destruct (id_anonymous d); [done|]. mred.
  assert (l ≠ []) as Hne by (intros ->; by apply Hn).
  mstep (scan_tickets_ring k (id_identifier d) op (td_ticket_head td) l Hne Hr). cbn [negb andb].
  destruct (existsb _ _); [|done]. unfold taint.
  destruct (id_in_realm d); [|done]. cbn [when]. by mstep (store_cred_some _ _ _ (td_set_in_realm true) Hc).
Qed.

(** An inode that Citadel holds no data about is not restricted. *)
Lemma can_access_unlabelled k current i op :
  citadel_inode i = None → can_access current i op k = Ok (0, k).
Proof. intros Hn. unfold can_access. by rewrite Hn. Qed.
End decision.
