(* ===== verification/Crypto.v ===== *)
(** * Encryption in the security module

    [lsm/src/crypto/aes.c] and [lsm/src/crypto/rsa.c]: the framing of AES-GCM
    messages (ciphertext, tag, then the IV), the RSA wrappers, and the handling
    of asynchronous completions.  The ciphers are the kernel's crypto API and
    the RSA keys are generated at build time: both are parameters.  A request
    to the API answers with a code and, when the code says that the work is in
    progress, a sequence of completions. *)

From S2P Require Import Prelude Shared Hex RBTree Kernel Tickets Access.

Definition EAGAIN : Z := 11.
Definition EBUSY : Z := 16.
Definition EBADMSG : Z := 74.
Definition EINPROGRESS : Z := 115.
Definition PAGE_SIZE : nat := 4096.

(** The answer to an asynchronous request: its return code, the codes passed to
    the completion callback, and the bytes left in the destination. *)
Record crypto_reply := Reply { cr_ret : Z; cr_callbacks : list Z; cr_out : bytes }.

Inductive aes_mode := AES_ENCRYPT | AES_DECRYPT.
Inductive rsa_mode := RSA_ENCRYPT | RSA_DECRYPT.
Inductive rsa_key := RSA_PUB_KEY (key : bytes) | RSA_PRIV_KEY (key : bytes).

Class KernelCrypto := {
  crypto_alloc_aead : Z;                       (** 0 or the error of PTR_ERR *)
  crypto_aead_setkey : bytes → Z;
  crypto_aead_setauthsize : nat → Z;
  crypto_aead_encrypt : bytes → bytes → bytes → crypto_reply;   (** key, IV, data *)
  crypto_aead_decrypt : bytes → bytes → bytes → crypto_reply;
  crypto_alloc_akcipher : Z;
  crypto_akcipher_maxsize : nat;
  crypto_akcipher_encrypt : rsa_key → bytes → crypto_reply;
  crypto_akcipher_decrypt : rsa_key → bytes → crypto_reply;
  (** Keys of the generated headers. *)
  lsm_key_pub : bytes;
  lsm_key_priv : bytes;
  enclave_key_pub : bytes;
  enclave_keys_sealed : bytes;
}.

(** ** Completions ([struct tcrypt_result]) *)
Record tcrypt_result := TcryptResult { tr_done : bool; tr_err : Z }.

(** [aead_work_done] and [tcrypt_complete] *)
Definition aead_work_done (res : tcrypt_result) (err : Z) : tcrypt_result :=
  if err =? - EINPROGRESS then res else TcryptResult true err.

(** wait_for_completion: callbacks are delivered until one completes. *)
Fixpoint wait_for_completion (res : tcrypt_result) (callbacks : list Z) : option tcrypt_result :=
  if tr_done res then Some res else
  match callbacks with
  | [] => None
  | err :: callbacks => wait_for_completion (aead_work_done res err) callbacks
  end.

(** [aead_wait_async_op] and [wait_async_op]; [None]: blocked for ever. *)
Definition aead_wait_async_op (r : crypto_reply) : option Z :=
  if (cr_ret r =? - EINPROGRESS) || (cr_ret r =? - EBUSY)
  then tr_err <$> wait_for_completion (TcryptResult false 0) (cr_callbacks r)
  else Some (cr_ret r).

Section definitions.
Context `{HKer : Kernel} `{HRb : RbTree} `{HCry : KernelCrypto}.
Abbreviation K := (M kstate).

Definition await (r : crypto_reply) : K Z :=
  match aead_wait_async_op r with
  | Some err => mret err
  | None => crash OutOfFuel
  end.

(** ** AES-GCM

    The result is the error code and what was written through [out] and
    [outlen]: [None] when neither was touched, otherwise the bytes written, of
    which there are [*outlen].  [cap] is the size of the caller's buffer. *)
Definition memcpy_out (cap : nat) (b : bytes) : K unit :=
  if (cap <? length b)%nat then crash OutOfBounds else mret tt.

(** The IV and the data it leaves: fresh, or the last 12 bytes of the input. *)
Definition aead_iv (mode : aes_mode) (data : bytes) : K (bytes * bytes) :=
  match mode with
  | AES_ENCRYPT => iv ← get_random_bytes _CITADEL_IV_LENGTH; mret (iv, data)
  | AES_DECRYPT =>
      if (length data <? _CITADEL_IV_LENGTH)%nat then crash OutOfBounds else
      let n := (length data - _CITADEL_IV_LENGTH)%nat in mret (drop n data, take n data)
  end.

Definition trm_aes_operation (key data : bytes) (mode : aes_mode) (cap : nat) : K (Z * bytes) :=
  let err := crypto_aead_setkey key in
  if negb (err =? 0) then mret (err, []) else
  '(iv, data) ← aead_iv mode data;
  if negb (crypto_aead_setauthsize _CITADEL_TAG_LENGTH =? 0) then mret (- EAGAIN, []) else
  plaindata ← kmalloc;
  cipherdata ← kmalloc;
  if negb plaindata || negb cipherdata then mret (- ENOMEM, []) else
  let datasize := length data in
  let reply := match mode with
               | AES_ENCRYPT => crypto_aead_encrypt key iv data
               | AES_DECRYPT => crypto_aead_decrypt key iv data
               end in
  err ← await reply;
  if negb (err =? 0) then mret (err, []) else
  let cipherdata := fill (datasize + _CITADEL_TAG_LENGTH + _CITADEL_IV_LENGTH) (cr_out reply) in
  match mode with
  | AES_ENCRYPT =>
      let out := take (datasize + _CITADEL_TAG_LENGTH) cipherdata ++ iv in
      memcpy_out cap out;; mret (err, out)
  | AES_DECRYPT =>
      if (datasize <? _CITADEL_TAG_LENGTH)%nat then crash OutOfBounds else
      let out := take (datasize - _CITADEL_TAG_LENGTH) cipherdata in
      memcpy_out cap out;; mret (err, out)
  end.

Definition prepare_aead (key data : bytes) (mode : aes_mode) (cap : nat) : K (Z * option bytes) :=
  if negb (crypto_alloc_aead =? 0) then mret (crypto_alloc_aead, None) else
  req ← kmalloc;
  if negb req then mret (- ENOMEM, None) else
  '(res, out) ← trm_aes_operation key data mode cap;
  mret (res, Some out).

Definition trm_aes_decrypt (key data : bytes) (cap : nat) : K (Z * option bytes) :=
  prepare_aead key data AES_DECRYPT cap.
Definition trm_aes_encrypt (key data : bytes) (cap : nat) : K (Z * option bytes) :=
  prepare_aead key data AES_ENCRYPT cap.

Definition random_bytes (len : nat) : K bytes := get_random_bytes len.

(** The lengths passed on are automatic variables that a failed call leaves
    uninitialised. *)
Definition trm_aes_self_test : K Z :=
  let datasize := 365%nat in
  let cap := (datasize + _CITADEL_TAG_LENGTH + _CITADEL_IV_LENGTH)%nat in
  data_ok ← kmalloc;
  if negb data_ok then mret (- ENOMEM) else
  data ← random_bytes datasize;
  key_ok ← kmalloc;
  if negb key_ok then mret (- ENOMEM) else
  key ← random_bytes _CITADEL_AES_KEY_LENGTH;
  kmalloc_unchecked;;
  '(_, cipher) ← trm_aes_encrypt key data cap;
  kmalloc_unchecked;;
  match cipher with
  | Some c => '(err, _) ← trm_aes_decrypt key c cap; mret err
  | None => crash Indeterminate
  end.

(** ** RSA

    The result is the error code and the page written through [res] and
    [res_len], if it was. *)
Definition uf_akcrypto (key : rsa_key) (data : bytes) (mode : rsa_mode) : K (Z * option bytes) :=
  xbuf ← kmalloc;
  if negb xbuf then mret (- ENOMEM, None) else
  outbuf ← kmalloc;
  if negb outbuf then mret (- ENOMEM, None) else
  if (PAGE_SIZE <? length data)%nat then mret (- ENOMEM, None) else
  let reply := match mode with
               | RSA_ENCRYPT => crypto_akcipher_encrypt key data
               | RSA_DECRYPT => crypto_akcipher_decrypt key data
               end in
  err ← await reply;
  if negb (err =? 0) then mret (err, None) else
  let out := fill crypto_akcipher_maxsize (cr_out reply) in
  memcpy_out PAGE_SIZE out;; mret (err, Some out).

(** The result of setting the key is not looked at. *)
Definition trm_akcrypto (key : rsa_key) (data : bytes) (mode : rsa_mode) : K (Z * option bytes) :=
  if negb (crypto_alloc_akcipher =? 0) then mret (crypto_alloc_akcipher, None) else
  req ← kmalloc;
  if negb req then mret (- 101, None) else
  uf_akcrypto key data mode.

Definition trm_akcrypto_encrypt_pub (data : bytes) : K (Z * option bytes) :=
  trm_akcrypto (RSA_PUB_KEY enclave_key_pub) data RSA_ENCRYPT.
Definition trm_akcrypto_encrypt_pub_self (data : bytes) : K (Z * option bytes) :=
  trm_akcrypto (RSA_PUB_KEY lsm_key_pub) data RSA_ENCRYPT.
Definition trm_akcrypto_decrypt_pub_self (data : bytes) : K (Z * option bytes) :=
  trm_akcrypto (RSA_PUB_KEY lsm_key_pub) data RSA_DECRYPT.
Definition trm_akcrypto_encrypt_priv (data : bytes) : K (Z * option bytes) :=
  trm_akcrypto (RSA_PRIV_KEY lsm_key_priv) data RSA_ENCRYPT.
Definition trm_akcrypto_decrypt_priv (data : bytes) : K (Z * option bytes) :=
  trm_akcrypto (RSA_PRIV_KEY lsm_key_priv) data RSA_DECRYPT.

(** NULL with a size of 0, or a buffer of the size of the key. *)
Definition rsa_copy_out (r : Z * option bytes) : K (option bytes) :=
  match r with
  | (0, Some page) => kmalloc_unchecked;; mret (Some page)
  | _ => mret None
  end.
Definition trm_rsa_encrypt (data : bytes) : K (option bytes) :=
  page ← kmalloc;
  if negb page then mret None else
  r ← trm_akcrypto_encrypt_pub data;
  rsa_copy_out r.
Definition trm_rsa_decrypt (data : bytes) : K (option bytes) :=
  page ← kmalloc;
  if negb page then mret None else
  r ← trm_akcrypto_decrypt_priv data;
  rsa_copy_out r.

(** The test logs its failures and always returns 0.  When the encryption
    fails, the length passed to the decryption is uninitialised. *)
Definition trm_rsa_self_test : K Z :=
  let msg := [65; 66; 67; 68; 69; 70; 71; 72] in
  cipher ← kmalloc;
  if negb cipher then mret 0 else
  '(res, c) ← trm_akcrypto_encrypt_pub_self msg;
  when (res =? 0) (to_hexstring_k (default [] c);; mret tt);;
  result ← kmalloc;
  if negb result then mret 0 else
  match c with
  | None => crash Indeterminate
  | Some c =>
      '(res, p) ← trm_akcrypto_decrypt_priv c;
      when (res =? 0) (to_hexstring_k (default [] p);; mret tt);;
      mret 0
  end.
End definitions.

(** ** What the module relies on *)

(** The documented behaviour of the crypto API for GCM with 16-byte keys and
    tags and 12-byte IVs: requests complete; encryption appends a tag;
    decryption inverts encryption, and accepts nothing else. *)
Class CryptoLaws `{KernelCrypto} := {
  aead_available : crypto_alloc_aead = 0;
  aead_setkey_ok key : length key = 16%nat → crypto_aead_setkey key = 0;
  aead_setauthsize_ok : crypto_aead_setauthsize _CITADEL_TAG_LENGTH = 0;
  aead_encrypt_ok key iv data :
    aead_wait_async_op (crypto_aead_encrypt key iv data) = Some 0 ∧
    length (cr_out (crypto_aead_encrypt key iv data)) = (length data + _CITADEL_TAG_LENGTH)%nat;
  aead_decrypt_encrypt key iv data :
    let r := crypto_aead_decrypt key iv (cr_out (crypto_aead_encrypt key iv data)) in
    aead_wait_async_op r = Some 0 ∧ cr_out r = data;
  aead_authentic key iv data :
    aead_wait_async_op (crypto_aead_decrypt key iv data) = Some 0 →
    data = cr_out (crypto_aead_encrypt key iv (cr_out (crypto_aead_decrypt key iv data)));
  aead_completes key iv data : is_Some (aead_wait_async_op (crypto_aead_decrypt key iv data));
  akcipher_available : crypto_alloc_akcipher = 0;
  akcipher_size : crypto_akcipher_maxsize = _CITADEL_RSA_KEY_LENGTH;
  akcipher_completes key data : is_Some (aead_wait_async_op (crypto_akcipher_encrypt key data)) ∧
    is_Some (aead_wait_async_op (crypto_akcipher_decrypt key data));
}.

Lemma take_length_app {A} (l l' : list A) : take (length l) (l ++ l') = l.
Proof. by rewrite take_app_le, take_ge. Qed.

Section aes.
Context `{HKer : Kernel} `{HRb : RbTree} `{HCry : KernelCrypto} `{HLaw : !CryptoLaws}.
Implicit Type k : kstate.

(** The bytes of a sealed message: ciphertext and tag, then the IV. *)
Definition seal (key iv data : bytes) : bytes := cr_out (crypto_aead_encrypt key iv data) ++ iv.

Lemma seal_length key iv data :
  length iv = _CITADEL_IV_LENGTH → length (seal key iv data) = (length data + 28)%nat.
Proof.
  intros Hiv. unfold seal. rewrite length_app, Hiv, (proj2 (aead_encrypt_ok key iv data)). unfold _CITADEL_TAG_LENGTH, _CITADEL_IV_LENGTH. lia.
Qed.

Lemma await_ok r e k : aead_wait_async_op r = Some e → await r k = Ok (e, k).
Proof. intros Hr. unfold await. by rewrite Hr. Qed.

Lemma memcpy_out_ok cap b k : (length b ≤ cap)%nat → memcpy_out cap b k = Ok (tt, k).
Proof. intros Hl. unfold memcpy_out. destruct (Nat.ltb_spec cap (length b)); [lia|done]. Qed.

(** The memory a message costs: a request object and two buffers. *)
Definition aes_spent k : kstate := set_nmem (S (S (S (k_nmem k)))) k.

Lemma trm_aes_encrypt_ok key data cap k :
  (∀ n, kmem n = true) → length key = 16%nat → length (krand (k_nrnd k) 12) = 12%nat →
  (length data + 28 ≤ cap)%nat →
  trm_aes_encrypt key data cap k =
  Ok ((0, Some (seal key (krand (k_nrnd k) 12) data)), set_nrnd (S (k_nrnd k)) (aes_spent k)).
Proof.
  intros Hm Hk Hiv Hcap. unfold trm_aes_encrypt, prepare_aead. rewrite aead_available. cbn [Z.eqb negb].
  erewrite (bind_ok kmalloc) by done. rewrite Hm. cbn [negb].
  unfold trm_aes_operation. rewrite aead_setkey_ok by done. cbn [Z.eqb negb]. unfold aead_iv.
  rewrite !bind_assoc. erewrite (bind_ok (get_random_bytes _)) by done. mred.
  rewrite aead_setauthsize_ok. cbn [Z.eqb negb].
  rewrite bind_assoc. erewrite (bind_ok kmalloc) by done.
  rewrite bind_assoc. erewrite (bind_ok kmalloc) by done. rewrite !Hm. cbn [negb orb].
  set (iv := krand (k_nrnd k) 12) in *. change (krand _ _CITADEL_IV_LENGTH) with iv.
  destruct (aead_encrypt_ok key iv data) as [He Hlen].
  rewrite bind_assoc. mstep (await_ok _ _ (set_nrnd (S (k_nrnd k)) (aes_spent k)) He). cbn [Z.eqb negb].
  rewrite take_fill by (unfold _CITADEL_IV_LENGTH; lia).
  rewrite bind_assoc. mstep (memcpy_out_ok cap (seal key iv data) (set_nrnd (S (k_nrnd k)) (aes_spent k))
    ltac:(rewrite seal_length; [lia|done])). done.
Qed.

Lemma seal_split key iv data :
  length iv = _CITADEL_IV_LENGTH →
  take (length (seal key iv data) - _CITADEL_IV_LENGTH) (seal key iv data) = cr_out (crypto_aead_encrypt key iv data) ∧
  drop (length (seal key iv data) - _CITADEL_IV_LENGTH) (seal key iv data) = iv.
Proof.
  intros Hiv. unfold seal. rewrite length_app, Hiv.
  replace (_ + _CITADEL_IV_LENGTH - _CITADEL_IV_LENGTH)%nat
    with (length (cr_out (crypto_aead_encrypt key iv data))) by lia.
  split; [by apply take_length_app|by apply drop_app_length].
Qed.

(** The part of a decryption that is common to every input. *)
Lemma trm_aes_decrypt_eq key data cap k :
  (∀ n, kmem n = true) → length key = 16%nat → (28 ≤ length data)%nat → (length data ≤ cap + 28)%nat →
  let n := (length data - _CITADEL_IV_LENGTH)%nat in
  let r := crypto_aead_decrypt key (drop n data) (take n data) in
  ∃ err, aead_wait_async_op r = Some err ∧
  trm_aes_decrypt key data cap k =
  Ok ((err, Some (if err =? 0 then take (n - _CITADEL_TAG_LENGTH) (fill (n + 28) (cr_out r)) else [])), aes_spent k).
Proof.
  intros Hm Hk Hlen Hcap n r. destruct (aead_completes key (drop n data) (take n data)) as [err He].
  exists err. split; [done|].
  unfold trm_aes_decrypt, prepare_aead. rewrite aead_available. cbn [Z.eqb negb].
  erewrite (bind_ok kmalloc) by done. rewrite Hm. cbn [negb].
  unfold trm_aes_operation. rewrite aead_setkey_ok by done. cbn [Z.eqb negb]. unfold aead_iv.
  destruct (Nat.ltb_spec (length data) _CITADEL_IV_LENGTH); [unfold _CITADEL_IV_LENGTH in *; lia|].
  rewrite !bind_assoc. mred. fold n. rewrite aead_setauthsize_ok. cbn [Z.eqb negb].
  rewrite bind_assoc. erewrite (bind_ok kmalloc) by done.
  rewrite bind_assoc. erewrite (bind_ok kmalloc) by done. rewrite !Hm. cbn [negb orb].
  rewrite bind_assoc. mstep (await_ok _ _ (aes_spent k) He).
  destruct (Z.eqb_spec err 0) as [->|Hne]; cbn [negb]; [|done].
  assert (length (take n data) = n) as Hn by (rewrite length_take; unfold n; lia). rewrite Hn.
  destruct (Nat.ltb_spec n _CITADEL_TAG_LENGTH); [unfold n, _CITADEL_IV_LENGTH, _CITADEL_TAG_LENGTH in *; lia|].
  change (_CITADEL_TAG_LENGTH + _CITADEL_IV_LENGTH)%nat with 28%nat.
  rewrite bind_assoc. erewrite (bind_ok (memcpy_out _ _)); [|apply memcpy_out_ok; rewrite length_take; unfold n, _CITADEL_TAG_LENGTH, _CITADEL_IV_LENGTH; lia].
  rewrite <- Nat.add_assoc. done.
Qed.

Lemma trm_aes_decrypt_ok key iv data cap k :
  (∀ n, kmem n = true) → length key = 16%nat → length iv = _CITADEL_IV_LENGTH → (length data ≤ cap)%nat →
  trm_aes_decrypt key (seal key iv data) cap k = Ok ((0, Some data), aes_spent k).
Proof.
  intros Hm Hk Hiv Hcap. pose proof (seal_length key iv data Hiv) as Hl.
  destruct (trm_aes_decrypt_eq key (seal key iv data) cap k) as (err & He & ->); [done|done|lia|lia|].
  destruct (seal_split key iv data Hiv) as [Ht Hd]. rewrite Ht, Hd in *.
  destruct (aead_decrypt_encrypt key iv data) as [He' Ho]. rewrite He' in He. injection He as <-.
  cbn [Z.eqb]. rewrite Ho, take_fill; [done| |]; rewrite Hl; unfold _CITADEL_TAG_LENGTH, _CITADEL_IV_LENGTH; lia.
Qed.

(** What is accepted was sealed under the key. *)
Lemma trm_aes_decrypt_authentic key data cap k out k' :
  (∀ n, kmem n = true) → length key = 16%nat → (28 ≤ length data)%nat → (length data ≤ cap + 28)%nat →
  trm_aes_decrypt key data cap k = Ok ((0, Some out), k') →
  ∃ iv, length iv = _CITADEL_IV_LENGTH ∧ data = seal key iv out.
Proof.
  intros Hm Hk Hlen Hcap Hd.
  destruct (trm_aes_decrypt_eq key data cap k) as (err & He & Hd'); [done..|]. rewrite Hd in Hd'.
  set (n := (length data - _CITADEL_IV_LENGTH)%nat) in *. injection Hd' as <- -> ->.
  cbn [Z.eqb] in *. apply aead_authentic in He as Hau.
  set (o := cr_out (crypto_aead_decrypt key (drop n data) (take n data))) in *.
  assert (length (take n data) = n) as Hn by (rewrite length_take; unfold n; lia).
  assert (length o + _CITADEL_TAG_LENGTH = n)%nat as Ho.
  { rewrite <- (proj2 (aead_encrypt_ok key (drop n data) o)), <- Hau. done. }
  exists (drop n data). split; [rewrite length_drop; unfold n, _CITADEL_IV_LENGTH in *; lia|].
  rewrite take_fill by lia. unfold seal. rewrite <- Hau. by rewrite take_drop.
Qed.
End aes.
