(* ===== verification/Concrete.v ===== *)
(** * A concrete environment

    Instances of the parameters of the development, used to run the model on
    concrete inputs: a clock that advances one second per reading, an allocator
    that never fails, random bytes that count upwards, extended attributes in a
    finite map, and a cipher whose requests complete asynchronously. *)

From S2P Require Import Prelude Shared RBTree Kernel Access Crypto.

Definition ENODATA : Z := 61.
Definition ERANGE : Z := 34.
Definition sec : Z := 1000000000.

Abbreviation attributes := (gmap (positive * string) bytes).

Definition demo_get (m : attributes) (de : dentry) (name : string) (len : nat) : Z * bytes :=
  match m !! (d_ref de, name) with
  | None => (- ENODATA, [])
  | Some v => if (length v <=? len)%nat then (Z.of_nat (length v), v)
              else if (len =? 0)%nat then (Z.of_nat (length v), []) else (- ERANGE, [])
  end.

Definition demo_kernel : Kernel := {|
  ktime := λ n, (Z.of_nat n + 1) * sec;
  kmem := λ _, true;
  krand := λ n len, (λ i, (Z.of_nat n + Z.of_nat i) mod 256) <$> seq 0 len;
  disk := attributes;
  vfs_getxattr := λ m de _ name len, demo_get m de name len;
  vfs_setxattr_noperm := λ m de name v, (0, <[(d_ref de, name) := v]> m);
  vfs_removexattr := λ m de name, (0, delete (d_ref de, name) m);
  cap_inode_setxattr := λ _ _ _ _, 0;
  cap_inode_removexattr := λ _ _, 0;
  null_load_traps := false |}.

Lemma demo_laws : @KernelLaws demo_kernel.
Proof.
  split; cbn [krand vfs_getxattr vfs_setxattr_noperm demo_kernel disk].
  - intros n len. by rewrite length_fmap, length_seq.
  - intros n len. apply Forall_fmap, Forall_forall. intros i _. simpl. unfold byte_ok. apply Z.mod_pos_bound. lia.
  - intros d de i name len rc v. unfold demo_get. destruct (d !! _) as [x|]; [|intros [= <- <-] ?; simpl; lia].
    destruct (Nat.leb_spec (length x) len); [by intros [= <- <-]|].
    destruct (len =? 0)%nat; intros [= <- <-] ?; simpl; lia.
  - intros d de de' i name len v d' Hd Hde Hl. apply (f_equal snd) in Hd. simpl in Hd. subst d'. unfold demo_get. rewrite Hde, lookup_insert_eq.
    by rewrite (proj2 (Nat.leb_le _ _) Hl).
  - intros d de de' i name name' len v rc d' Hd Hne. apply (f_equal snd) in Hd. simpl in Hd. subst d'. unfold demo_get.
    rewrite lookup_insert_ne; [done|congruence].
  - intros d de de' i name name' len v rc d' Hd Hne. apply (f_equal snd) in Hd. simpl in Hd. subst d'. unfold demo_get.
    rewrite lookup_insert_ne; [done|congruence].
Qed.

Lemma demo_clock n : 0 < @ktime demo_kernel n < @ktime demo_kernel (S n).
Proof. unfold ktime, demo_kernel, sec. lia. Qed.

(** The tag is the key, padded; an accepted message is completed by a callback
    after a progress notification. *)
Definition demo_tag (key : bytes) : bytes := fill 16 key.
Definition demo_encrypt (key iv data : bytes) : crypto_reply :=
  Reply (- EINPROGRESS) [- EINPROGRESS; 0] (data ++ demo_tag key).
Definition demo_decrypt (key iv data : bytes) : crypto_reply :=
  let n := (length data - 16)%nat in
  if bytes_eqb data (take n data ++ demo_tag key) then Reply 0 [] (take n data) else Reply (- EBADMSG) [] [].

(** RSA: a public and a private key belong together when they are equal; the
    ciphertext is the message behind its length, padded to the modulus. *)
Definition demo_rsa_pad (data : bytes) : bytes := fill 256 ((Z.of_nat (length data)) :: data).
Definition demo_rsa (k : rsa_key) (dec : bool) (data : bytes) : crypto_reply :=
  if dec then match data with
              | n :: data => Reply 0 [] (take (Z.to_nat n) data)
              | [] => Reply (- EINVAL) [] []
              end
  else if (length data <=? 255)%nat then Reply 0 [] (demo_rsa_pad data) else Reply (- EINVAL) [] [].

Definition demo_crypto : KernelCrypto := {|
  crypto_alloc_aead := 0;
  crypto_aead_setkey := λ key, if (length key =? 16)%nat then 0 else - EINVAL;
  crypto_aead_setauthsize := λ n, if (n =? 16)%nat then 0 else - EINVAL;
  crypto_aead_encrypt := demo_encrypt;
  crypto_aead_decrypt := demo_decrypt;
  crypto_alloc_akcipher := 0;
  crypto_akcipher_maxsize := 256;
  crypto_akcipher_encrypt := λ k, demo_rsa k false;
  crypto_akcipher_decrypt := λ k, demo_rsa k true;
  lsm_key_pub := [1]; lsm_key_priv := [1]; enclave_key_pub := [2];
  enclave_keys_sealed := [10; 20; 30; 40] |}.

Lemma demo_crypto_laws : @CryptoLaws demo_crypto.
Proof.
  split; cbn; try done.
  - intros key Hk. by rewrite Hk.
  - intros key iv data. split; [done|]. rewrite length_app. unfold demo_tag. by rewrite fill_length.
  - intros key iv data. unfold demo_decrypt.
    assert (length (data ++ demo_tag key) - 16 = length data)%nat as ->
      by (rewrite length_app; unfold demo_tag; rewrite fill_length; lia).
    by rewrite take_length_app, bytes_eqb_refl.
  - intros key iv data. unfold demo_decrypt. destruct (bytes_eqb _ _) eqn:E; [|done].
    intros _. cbn. by apply bytes_eqb_eq in E.
  - intros key iv data. unfold demo_decrypt. destruct (bytes_eqb _ _); cbn; eauto.
  - intros key data. split; unfold demo_rsa; cbn; [destruct (length data <=? 255)%nat|destruct data]; cbn; eauto.
Qed.

(** A state with nothing in it, and one with given blobs. *)
Definition demo_statics : payload_statics :=
  Payload (replicate 32 0) (replicate 40 0) (replicate 16 0) (replicate 16 0) false 0.
Definition demo_state (creds : gmap positive citadel_task_data)
    (inodes : gmap positive citadel_inode_data) : @kstate demo_kernel :=
  @KState demo_kernel ∅ 1%positive Leaf Leaf creds inodes ∅ (∅ : attributes) demo_statics true true 0%nat 0%nat 0%nat.

(** What a run shows of its final state. *)
Definition obs {S A B : Type} (f : A → S → B) (r : result (A * S)) : option B :=
  match r with Ok (a, s) => Some (f a s) | Fault _ => None end.
