(* ===== verification/CacheTheorems.v ===== *)
(** * Theorems on the ticket cache *)

From S2P Require Import Prelude Shared RBTree Kernel Ring Tickets TicketsSpec CacheModel Access Crypto Concrete.

(** C1: the ticket cache implements its abstract specification.  Any sequence
    of [insert_ticket] and [check_ticket_cache] calls runs without a fault and
    ends in a state that represents what the abstract cache computes: records
    are appended to the reservation of their PID, a check moves them to the
    credentials of the process and keeps exactly those younger than fifteen
    seconds, in the order of their timestamps.  It needs a clock that advances,
    memory, credentials that are not shared between PIDs, and that every check is
    by a process that has a reservation, from the start ([R]) or from an earlier
    insertion, unless the compiler drops the load at the end of the check. *)
Theorem cache_refines_model `{HKer : Kernel} `{HRb : RbTree} (cred_of : Z → positive) ops R k A :
  (∀ n, 0 < ktime n < ktime (S n)) →
  (∀ p q, is_pid p → is_pid q → cred_of p = cred_of q → p = q) →
  (∀ n, kmem n = true) →
  refines k A → ordered cred_of A → Forall (op_ok cred_of k) ops →
  Forall (λ q, is_pid q ∧ reserved k q) R → null_load_traps = false ∨ checks_reserved R ops →
  ∃ k', run_ops cred_of ops k = Ok (tt, k') ∧
    refines k' (abs_run cred_of ops A) ∧ ordered cred_of (abs_run cred_of ops A).
Proof. intros. by apply (run_ops_sim cred_of) with R. Qed.

(** The whole of [check_ticket_cache] on any well-formed state, also when
    the lists are not in the order of their timestamps: it never faults, the
    reservation of the running process is emptied, the list of its credentials
    becomes what the expiry scan leaves of the old list followed by the
    reservation, a pending PTY right moves to the credentials, and the lists of
    all other processes and the rest of the kernel state are unchanged.  Where the
    load at the end is kept, this needs a reservation. *)
Theorem check_ticket_cache_spec `{HKer : Kernel} `{HRb : RbTree} k L current td :
  tickets_rep k L → is_pid (ts_pid current) → resv_read k (ts_pid current) → k_creds k !! ts_cred current = Some td →
  ∃ k' p, check_ticket_cache current k = Ok (tt, k') ∧
    tickets_rep k'
      (<[Cred (ts_cred current) := live_tickets (ktime (k_nclk k) - expiry_ns)
           (L (Cred (ts_cred current)) ++ L (Res (ts_pid current)))]>
       (<[Res (ts_pid current) := []]> L)) ∧
    k_creds k' = <[ts_cred current := TaskData (td_in_realm td)
        (td_granted_pty td || pty_pending k (ts_pid current)) p (td_pid td) (td_identifier td)]> (k_creds k) ∧
    (∀ q, is_pid q → pty_pending k' q = pty_pending k q && negb (bool_decide (ts_pid current = q))) ∧
    cache_frame k k'.
Proof.
  intros Hr Hp Hread Hc. destruct (check_ticket_cache_ok k L current td Hr Hp Hread Hc)
    as (k' & p & He & _ & Hr' & Hc' & Hq & Hf). by exists k', p.
Qed.

(** C34: a check by a process without a reservation.  [check_ticket_cache] ends
    with a test of [reservation_node->ticket_head], whose body is commented out,
    for any process whose PID is not in the tree.  Where the compiler keeps the
    load, the check of a process that never had a ticket dereferences NULL,
    whatever its credentials hold. *)
Theorem check_without_reservation_faults `{HKer : Kernel} `{HRb : RbTree} k L current td :
  tickets_rep k L → is_pid (ts_pid current) → k_creds k !! ts_cred current = Some td →
  null_load_traps = true → ¬ reserved k (ts_pid current) → check_ticket_cache current k = Fault NullDeref.
Proof.
  intros Hr Hp Hc Hl Hn. destruct (check_ticket_cache_eq k L current td Hr Hp Hc) as (k' & p & -> & _).
  unfold reserved in Hn. destruct (ticket_search _ _) as [n|]; [by destruct Hn|]. unfold test_reservation. by rewrite Hl.
Qed.

(** [insert_ticket] when memory runs out.  Without memory for the
    reservation nothing changes and the caller is told; when only the ticket
    cannot be allocated the caller is told, no list changes, and the PTY right
    of the record is kept. *)
Theorem insert_ticket_out_of_memory `{HKer : Kernel} `{HRb : RbTree} k L record :
  tickets_rep k L → is_pid (ur_pid record) →
  (ticket_search (k_resv k) (ur_pid record) = None → kmem (k_nmem k) = false →
     insert_ticket record k = Ok (false, set_nmem (S (k_nmem k)) k)) ∧
  (is_Some (ticket_search (k_resv k) (ur_pid record)) →
     ur_operation record ≠ CITADEL_OP_PTY_ACCESS →
     kmem (k_nmem k) = true → kmem (S (k_nmem k)) = false →
     ∃ k', insert_ticket record k = Ok (false, k') ∧ tickets_rep k' L ∧ k_heap k' = k_heap k ∧
       ∀ q, is_pid q → pty_pending k' q = pty_pending k q ||
         (bool_decide (ur_pid record = q) && has_flag (ur_operation record) CITADEL_OP_PTY_ACCESS)).
Proof.
  intros Hr Hp. split; [intros; by eapply insert_ticket_oom|].
  intros [n Hn] Hop H1 H2. unfold insert_ticket, find_or_create_reservation.
  rewrite bind_assoc. mred. rewrite Hn. mred. cbn [negb]. rewrite bind_when.
  rewrite (proj2 (Z.eqb_neq _ _) Hop), andb_false_r.
  set (pty := has_flag (ur_operation record) CITADEL_OP_PTY_ACCESS).
  set (k1 := if pty then set_resv (rb_store (key_cmp rn_pid (ur_pid record)) (rn_set_pty true) (k_resv k)) k else k).
  assert (k_nmem k1 = k_nmem k) as Hn1 by (unfold k1; by destruct pty).
  exists (set_nmem (S (S (k_nmem k))) k1). split_and!.
  - transitivity ((kmalloc_unchecked ≫= λ _, alloc_ticket ≫= λ ticket,
      if decide (ticket = None) then mret false else ktime_get ≫= λ now,
      store ticket (fill_ticket record now) ≫= λ _, link_ticket (ur_pid record) ticket ≫= λ _, mret true) k1);
      [unfold k1; by destruct pty|].
    erewrite (bind_ok kmalloc_unchecked); [|apply kmalloc_unchecked_ok; by rewrite Hn1].
    erewrite (bind_ok alloc_ticket); [|apply alloc_ticket_null; cbn; by rewrite Hn1].
    rewrite decide_True by done. cbn [set_nmem k_nmem]. by rewrite Hn1.
  - assert (tickets_rep k1 L) as Hr1 by (unfold k1; destruct pty; [by apply store_resv_rep|done]).
    eapply rep_ext; [exact Hr1|done|done|apply Hr1|]. intros [q|c] _; done.
  - unfold k1. by destruct pty.
  - intros q Hq. unfold pty_pending, node_of. cbn [set_nmem k_resv].
    unfold k1. destruct pty; rewrite ?andb_false_r, ?andb_true_r, ?orb_false_r; [|done].
    cbn [set_resv k_resv]. rewrite ticket_search_store; [|done|apply Hr|done|done].
    case_bool_decide as Hpq; [|by rewrite orb_false_r]. rewrite <- Hpq, Hn. simpl. by rewrite orb_true_r.
Qed.

(** C26: every loop over ticket cells ends, on any heap and from any pointer,
    whether or not the cells form a ring: the count of the pending tickets, the
    expiry scan and the scan for a matching ticket never exhaust a number of
    iterations equal to the number of live cells plus one. *)
Theorem ticket_loops_terminate `{HKer : Kernel} `{HRb : RbTree} k p c m thr id op tr :
  count_tickets (S (size (k_heap k))) p c k ≠ Fault OutOfFuel ∧
  skip_expired (S (size (k_heap k))) thr p m k ≠ Fault OutOfFuel ∧
  scan_tickets (S (size (k_heap k))) id op p tr k ≠ Fault OutOfFuel.
Proof.
  split_and!; [apply count_tickets_fuel|apply skip_expired_fuel|apply scan_tickets_fuel].
Qed.

(** ** Witnesses *)
#[local] Existing Instance demo_kernel.
#[local] Existing Instance rb_rotating.

Definition demo_cred (pid : Z) : positive := Z.to_pos (pid + 1).
Definition demo_task (c : Z) : citadel_task_data := TaskData false false None 1 (replicate 16 c).
Definition two_tasks : gmap positive citadel_task_data :=
  {[ demo_cred 10 := demo_task 10; demo_cred 11 := demo_task 11 ]}.
Definition empty_cache : acache := ACache (λ _, []) (λ _, false) (λ _, false) 0.
Definition demo_record (pid id op : Z) : citadel_update_record := UpdateRecord pid (replicate 16 id) op.

Lemma fresh_rep `{HKer : Kernel} k :
  k_resv k = Leaf → k_heap k = ∅ → map_Forall (λ _ td, td_ticket_head td = None) (k_creds k) → tickets_rep k (λ _, []).
Proof.
  intros Hr Hh Hn. split.
  - rewrite Hr. split; constructor.
  - intros [pid|c] _; cbn; [by rewrite Hr|]. destruct (k_creds k !! c) eqn:E; [|done]. cbn. by rewrite (Hn _ _ E).
  - intros o o' a _ _ Ha. by apply elem_of_nil in Ha.
  - intros a Ha. rewrite Hh in Ha. by apply lookup_empty_is_Some in Ha.
Qed.

Lemma demo_rep creds inodes :
  map_Forall (λ _ td, td_ticket_head td = None) creds → tickets_rep (demo_state creds inodes) (λ _, []).
Proof. intros Hn. by apply fresh_rep. Qed.

Lemma demo_refines creds inodes :
  map_Forall (λ _ td, td_ticket_head td = None ∧ td_granted_pty td = false) creds →
  refines (demo_state creds inodes) empty_cache.
Proof.
  intros Hn. split; [| |intros c td Hc; by apply (Hn c)|done].
  - exists (λ _, []). split; [|done]. apply demo_rep. intros c td Hc. by apply (Hn c).
  - intros q _. done.
Qed.

Lemma demo_ordered cred_of : ordered cred_of empty_cache.
Proof. split; [intros; constructor|]. intros o t _ Ht. by apply elem_of_nil in Ht. Qed.

Lemma demo_cred_inj p q : is_pid p → is_pid q → demo_cred p = demo_cred q → p = q.
Proof. unfold is_pid, demo_cred. intros. lia. Qed.

Lemma two_tasks_ok : map_Forall (λ _ td, td_ticket_head td = None ∧ td_granted_pty td = false) two_tasks.
Proof. by apply map_Forall_to_list; vm_compute; repeat constructor. Qed.

Definition demo_ops : list cache_op :=
  [OpInsert (demo_record 10 7 CITADEL_OP_OPEN); OpCheck 10;
   OpInsert (demo_record 10 8 CITADEL_OP_PTY_ACCESS); OpInsert (demo_record 11 9 CITADEL_OP_SHM);
   OpCheck 11; OpCheck 10].

Lemma cache_refines_model_witness :
  ∃ k', run_ops demo_cred demo_ops (demo_state two_tasks ∅) = Ok (tt, k') ∧
    refines k' (abs_run demo_cred demo_ops empty_cache) ∧ ordered demo_cred (abs_run demo_cred demo_ops empty_cache).
Proof.
  apply (cache_refines_model demo_cred demo_ops [] (demo_state two_tasks ∅) empty_cache).
  - apply demo_clock.
  - apply demo_cred_inj.
  - done.
  - apply demo_refines, two_tasks_ok.
  - apply demo_ordered.
  - repeat constructor; try (vm_compute; by eauto); cbn; lia.
  - constructor.
  - right. cbn. set_solver.
Defined.

Lemma check_ticket_cache_spec_witness :
  ∃ k' p, check_ticket_cache (Task 10 (demo_cred 10)) (demo_state two_tasks ∅) = Ok (tt, k') ∧
    k_creds k' = <[demo_cred 10 := TaskData false false p 1 (replicate 16 10)]> two_tasks.
Proof.
  destruct (check_ticket_cache_spec (demo_state two_tasks ∅) (λ _, []) (Task 10 (demo_cred 10)) (demo_task 10))
    as (k' & p & He & _ & Hc & _).
  - apply demo_rep. intros c td Hc. by apply (two_tasks_ok c).
  - cbn. unfold is_pid. lia.
  - by left.
  - done.
  - by exists k', p.
Defined.

(** An allocator that fails from the second request on. *)
Definition short_kernel : Kernel := {|
  ktime := @ktime demo_kernel; kmem := λ n, (n =? 0)%nat; krand := @krand demo_kernel;
  disk := attributes; vfs_getxattr := @vfs_getxattr demo_kernel;
  vfs_setxattr_noperm := @vfs_setxattr_noperm demo_kernel; vfs_removexattr := @vfs_removexattr demo_kernel;
  cap_inode_setxattr := λ _ _ _ _, 0; cap_inode_removexattr := λ _ _, 0; null_load_traps := true |}.
Definition short_state (nmem : nat) : @kstate short_kernel :=
  @KState short_kernel ∅ 1%positive (Node Leaf (Reservation 10 None false) Leaf) Leaf ∅ ∅ ∅ (∅ : attributes)
    demo_statics true true 0%nat nmem 0%nat.

Lemma insert_ticket_out_of_memory_witness :
  insert_ticket (HKer := short_kernel) (demo_record 11 7 CITADEL_OP_OPEN) (short_state 1)
    = Ok (false, @set_nmem short_kernel 2 (short_state 1)) ∧
  ∃ k', insert_ticket (HKer := short_kernel) (demo_record 10 7 CITADEL_OP_OPEN) (short_state 0) = Ok (false, k').
Proof.
  assert (∀ n, @tickets_rep short_kernel (short_state n) (λ _, [])) as Hr.
  { intros n. split.
    - split; cbn; repeat constructor; unfold in_window; cbn; lia.
    - intros [pid|c] _; [|done]. cbn. unfold ticket_search, key_cmp. cbn. by repeat case_if.
    - intros o o' a _ _ Ha. by apply elem_of_nil in Ha.
    - intros a Ha. cbn [k_heap short_state] in Ha. by apply lookup_empty_is_Some in Ha. }
  split.
  - apply (insert_ticket_out_of_memory (HKer := short_kernel) (short_state 1) (λ _, [])
      (demo_record 11 7 CITADEL_OP_OPEN)); [done|cbn; unfold is_pid; lia|done|done].
  - destruct (proj2 (insert_ticket_out_of_memory (HKer := short_kernel) (short_state 0) (λ _, [])
      (demo_record 10 7 CITADEL_OP_OPEN) (Hr _) ltac:(cbn; unfold is_pid; lia))) as (k' & He & _);
      [vm_compute; by eauto|done|done|done|by exists k'].
Defined.

(** The same kernel before any ticket. *)
Definition unserved_state : @kstate short_kernel :=
  @KState short_kernel ∅ 1%positive Leaf Leaf two_tasks ∅ ∅ (∅ : attributes) demo_statics true true 0%nat 0%nat 0%nat.

Lemma check_without_reservation_faults_witness :
  check_ticket_cache (HKer := short_kernel) (Task 10 (demo_cred 10)) unserved_state = Fault NullDeref.
Proof.
  apply (check_without_reservation_faults (HKer := short_kernel) unserved_state (λ _, []) (Task 10 (demo_cred 10))
    (demo_task 10)).
  - apply fresh_rep; [done|done|]. intros c td Hc. by apply (two_tasks_ok c).
  - cbn. unfold is_pid. lia.
  - done.
  - done.
  - vm_compute. by intros [].
Defined.
