(* ===== verification/PayloadIO.v ===== *)
(** * The protocol with the enclave

    [lsm/src/communication/payload_io.c]: the registration challenge, the
    updates that carry tickets, the labelling requests that arrive through
    [setxattr], and the process tokens.  A [void *] result with its [size_t]
    out-parameter is a pair of options: the buffer, and the length if it was
    written. *)

From S2P Require Import Prelude Shared Hex RBTree Kernel Tickets Access Crypto.

Section definitions.
Context `{HKer : Kernel} `{HRb : RbTree} `{HCry : KernelCrypto}.
Abbreviation K := (M kstate).

Definition system_ready : K bool := gets (λ k, registered (k_pio k)).

Definition set_pio_field (f : payload_statics → payload_statics) : K unit :=
  modify (λ k, set_pio (f (k_pio k)) k).
Definition pio_set_challenge (v : bytes) (p : payload_statics) : payload_statics :=
  Payload v (registered_name p) (aes_key p) (ptoken_aes_key p) (registered p) (enclave_pid p).
Definition pio_set_aes_key (v : bytes) (p : payload_statics) : payload_statics :=
  Payload (current_challenge p) (registered_name p) v (ptoken_aes_key p) (registered p) (enclave_pid p).
Definition pio_register (c : citadel_challenge) (p : payload_statics) : payload_statics :=
  Payload (current_challenge p) (ch_name c) (ch_key c) (ch_key c) true (ch_pid c).

(** ** Registration *)
Definition challenge_for (random : bytes) : citadel_challenge :=
  Challenge challenge_signature random (replicate _CITADEL_ASM_NAME_LENGTH 0)
    (replicate _CITADEL_AES_KEY_LENGTH 0) 0 (replicate _CITADEL_CHALLENGE_PADDING 1).

Definition generate_challenge : K (option bytes * option Z) :=
  ok ← kmalloc;
  if negb ok then mret (None, None) else
  random ← get_random_bytes _CITADEL_CHALLENGE_LENGTH;
  set_pio_field (pio_set_challenge random);;
  to_hexstring_k random;;
  encrypted ← trm_rsa_encrypt (enc_challenge (challenge_for random));
  mret (encrypted, Some (Z.of_nat (length (default [] encrypted)))).

(** The early exit on a wrong length tests and frees a pointer that was never
    assigned. *)
Definition process_challenge_response (response : bytes) : K unit :=
  if negb (length response =? _CITADEL_RSA_KEY_LENGTH)%nat then crash Indeterminate else
  plain ← trm_rsa_decrypt response;
  match plain with
  | None => mret tt
  | Some plain =>
      if (length plain <? sizeof citadel_challenge_fields)%nat then crash OutOfBounds else
      let challenge := dec_challenge plain in
      cur ← gets (λ k, current_challenge (k_pio k));
      if negb (bytes_eqb (ch_signature challenge) challenge_signature) then mret tt else
      if negb (bytes_eqb (ch_challenge challenge) cur) then mret tt else
      set_pio_field (pio_register challenge)
  end.

(** ** Key updates *)
Definition update_aes_key (key : bytes) : K unit :=
  when (_CITADEL_AES_KEY_LENGTH <=? length key)%nat
    (set_pio_field (λ p, pio_set_aes_key (xor_bytes (aes_key p) (take _CITADEL_AES_KEY_LENGTH key)) p)).

(** ** Updates *)

(** The records follow the header, without padding in between. *)
Definition record_offset (i : nat) : nat :=
  (sizeof citadel_update_header_fields + i * sizeof citadel_update_record_fields)%nat.

(** The loop over the records; a record that is not inside the buffer is an
    access out of bounds (its last two bytes are padding and are not read). *)
Fixpoint install_records (plain : bytes) (i n : nat) : K unit :=
  match n with
  | O => mret tt
  | S n =>
      if (length plain <? record_offset i + 22)%nat then crash OutOfBounds else
      insert_ticket (dec_update_record (drop (record_offset i) plain));;
      install_records plain (S i) n
  end.

Definition too_short (len : nat) : bool := (len <=? _CITADEL_IV_LENGTH + _CITADEL_TAG_LENGTH)%nat.

(** The result of the decryption is not looked at, and a wrong signature is
    only logged. *)
Definition process_received_update (update : bytes) : K unit :=
  reg ← system_ready;
  if negb reg then mret tt else
  if too_short (length update) then mret tt else
  kmalloc_unchecked;;
  key ← gets (λ k, aes_key (k_pio k));
  '(_, out) ← trm_aes_decrypt key update (length update);
  let plain := fill (length update) (default [] out) in
  let hdr := dec_update_header plain in
  install_records plain 0 (Z.to_nat (uh_records hdr));;
  update_aes_key (uh_key_update hdr).

(** The self-made update of five records. *)
Definition generated_records : list citadel_update_record :=
  (λ v, UpdateRecord 13 (replicate _CITADEL_IDENTIFIER_LENGTH v) 0) <$> [1; 3; 5; 7; 9].
Definition generated_update : bytes :=
  enc_update_header (UpdateHeader challenge_signature (replicate _CITADEL_AES_KEY_LENGTH 6) 5)
  ++ concat (enc_update_record [0; 0] <$> generated_records).

Definition generate_update : K (option bytes * option Z) :=
  ok ← kmalloc;
  if negb ok then mret (None, None) else
  reg ← system_ready;
  if negb reg then mret (None, Some 0) else
  let required := (length generated_update + _CITADEL_TAG_LENGTH + _CITADEL_IV_LENGTH)%nat in
  kmalloc_unchecked;;
  key ← gets (λ k, aes_key (k_pio k));
  '(_, out) ← trm_aes_encrypt key generated_update required;
  mret (Some (fill required (default [] out)),
        Some (match out with Some o => Z.of_nat (length o) | None => Z.of_nat required end)).

(** ** Labelling through setxattr *)

(** The effects of a declassification, before the uninitialised
    [identifier_hex] is printed or freed. *)
Definition declassify (de : dentry) (d_inode_data : ptr) (hdr : citadel_update_header) : K unit :=
  d ← load_inode d_inode_data;
  if negb (id_in_realm d) then update_aes_key (uh_key_update hdr) else
  store_inode d_inode_data (id_set_needs_xattr_update false);;
  store_inode d_inode_data (id_set_checked_disk_xattr true);;
  xattr_success ← removexattr de _CITADEL_XATTR_IN_REALM;
  if xattr_success =? 0 then
    store_inode d_inode_data (id_set_in_realm false);;
    update_aes_key (uh_key_update hdr)
  else store_inode d_inode_data (id_set_checked_disk_xattr false).

Definition induct_label (rcrd : citadel_update_record) (d : citadel_inode_data) : citadel_inode_data :=
  id_set_anonymous false (id_set_identifier (ur_identifier rcrd)
    (id_set_in_realm (has_flag (ur_operation rcrd) CITADEL_OP_REGISTER) d)).

(** The label is written to the disk without its terminating NUL. *)
Definition induct (de : dentry) (d_inode_data : ptr) (hdr : citadel_update_header)
    (rcrd : citadel_update_record) : K Z :=
  store_inode d_inode_data (id_set_needs_xattr_update false);;
  store_inode d_inode_data (id_set_checked_disk_xattr true);;
  hex ← to_hexstring_k (ur_identifier rcrd);
  xattr_success ← setxattr_noperm de _CITADEL_XATTR_IDENTIFIER
                    (take (2 * _CITADEL_IDENTIFIER_LENGTH) (default [] hex));
  when (has_flag (ur_operation rcrd) CITADEL_OP_REGISTER)
    (setxattr_noperm de _CITADEL_XATTR_IN_REALM [];; mret tt);;
  if xattr_success =? 0 then
    store_inode d_inode_data (induct_label rcrd);;
    update_aes_key (uh_key_update hdr);;
    mret 0
  else
    store_inode d_inode_data (id_set_checked_disk_xattr false);;
    mret (- 1).

Definition xattr_enclave_installation (value : bytes) (de : dentry) : K Z :=
  let d_inode_data := citadel_inode (d_inode de) in
  reg ← system_ready;
  if negb reg then mret (- 1) else
  if too_short (length value) then mret (- 1) else
  plain_ok ← kmalloc;
  key ← gets (λ k, aes_key (k_pio k));
  '(res, out) ← trm_aes_decrypt key value (length value);
  if negb (res =? 0) then mret (- 1) else
  if negb plain_ok then crash NullDeref else
  let plain := fill (length value) (default [] out) in
  let hdr := dec_update_header plain in
  if negb (bytes_eqb (uh_signature hdr) challenge_signature) then mret (- 1) else
  if negb (uh_records hdr =? 1) then mret (- 1) else
  if (length plain <? record_offset 0 + 22)%nat then crash OutOfBounds else
  let rcrd := dec_update_record (drop (record_offset 0) plain) in
  if has_flag (ur_operation rcrd) CITADEL_OP_DECLASSIFY then
    declassify de d_inode_data hdr;; crash Indeterminate
  else induct de d_inode_data hdr rcrd.

(** ** Process tokens *)
Definition generate_ptoken (current : task_struct) : K (option bytes * option Z) :=
  reg ← system_ready;
  if negb reg then mret (None, None) else
  task_data ← load_cred (ts_cred current);
  kmalloc_unchecked;;
  ptoken ← get_random_bytes _CITADEL_PROCESS_PTOKEN_LENGTH;
  pid ← citadel_pid;
  let to_encrypt := enc_ptoken_protected
    (PTokenProtected challenge_signature (int32 (ts_pid current)) ptoken (td_identifier task_data)) in
  let required := (length to_encrypt + _CITADEL_TAG_LENGTH + _CITADEL_IV_LENGTH)%nat in
  kmalloc_unchecked;;
  key ← gets (λ k, ptoken_aes_key (k_pio k));
  '(res, out) ← trm_aes_encrypt key to_encrypt required;
  if negb (res =? 0) then mret (None, Some 0) else
  memcpy_out _CITADEL_PROCESS_SIGNED_PTOKEN_LENGTH (default [] out);;
  to_hexstring_k ptoken;;
  to_hexstring_k (td_identifier task_data);;
  let signed_ptoken := PToken challenge_signature pid ptoken (td_identifier task_data)
    (fill _CITADEL_PROCESS_SIGNED_PTOKEN_LENGTH (default [] out)) in
  mret (Some (enc_ptoken signed_ptoken), Some (Z.of_nat (sizeof citadel_ptoken_fields))).
End definitions.
