(* ===== verification/FileIO.v ===== *)
(** * The securityfs files

    [lsm/src/communication/file_io.c]: the read and write handlers of
    [challenge], [update], [get_ptoken] and [sealed_keys].  A handler returns
    its [ssize_t]; a read handler also returns the bytes it copied to user
    space and the new file position.  [user_ok] says whether the memory of the
    caller can be accessed. *)

From S2P Require Import Prelude Shared Hex RBTree Kernel Tickets Access Crypto PayloadIO.

Definition CHALLENGE_MAX_SIZE : Z := 256.

(** The outcome of a read: return value, bytes copied, new position. *)
Record read_result := ReadResult { rr_ret : Z; rr_copied : bytes; rr_pos : Z }.

Section definitions.
Context `{HKer : Kernel} `{HRb : RbTree} `{HCry : KernelCrypto}.
Abbreviation K := (M kstate).

Definition is_rsa_available : K bool := gets k_rsa_available.
Definition is_aes_available : K bool := gets k_aes_available.

(** ** Writes *)
Definition challenge_receive (buf : bytes) (user_ok : bool) : K Z :=
  let count := Z.of_nat (length buf) in
  if (count =? 0) || (count >? CHALLENGE_MAX_SIZE) then mret (- ENOMEM) else
  rsa ← is_rsa_available;
  if negb rsa then mret count else
  data ← kmalloc;
  if negb data then mret (- ENOMEM) else
  if negb user_ok then mret (- EFAULT) else
  process_challenge_response buf;;
  mret count.

Definition update_receive (buf : bytes) (user_ok : bool) : K Z :=
  let count := Z.of_nat (length buf) in
  rsa ← is_rsa_available;
  if negb rsa then mret count else
  data ← kmalloc;
  if negb data then mret (- ENOMEM) else
  if negb user_ok then mret (- EFAULT) else
  process_received_update buf;;
  mret count.

(** ** Reads *)

(** The end of every read handler: [len] bytes of [data] are left after the
    position, at most [count] of them are copied, and they are copied from the
    start of the buffer. *)
Definition copy_out (data : bytes) (len count pos : Z) (user_ok : bool) : K read_result :=
  let len := len - pos in
  let len := if count <? len then count else len in
  if Z.of_nat (length data) <? len then crash OutOfBounds else
  if negb user_ok then mret (ReadResult (- EFAULT) [] pos)
  else mret (ReadResult len (take (Z.to_nat len) data) (pos + len)).

(** The length an out-parameter holds; reading it unwritten is a fault. *)
Definition read_len (len : option Z) : K Z :=
  match len with Some len => mret len | None => crash Indeterminate end.

Definition challenge_read (count pos : Z) (user_ok : bool) : K read_result :=
  rsa ← is_rsa_available;
  if negb rsa then mret (ReadResult count [] pos) else
  '(cipher, len) ← generate_challenge;
  cipher_len ← read_len len;
  if cipher_len =? 0 then mret (ReadResult count [] pos) else
  if (pos >=? cipher_len) || (count =? 0) then mret (ReadResult 0 [] pos) else
  copy_out (default [] cipher) cipher_len count pos user_ok.

Definition sealed_keys_read (count pos : Z) (user_ok : bool) : K read_result :=
  let len := Z.of_nat (length enclave_keys_sealed) in
  if pos >=? len then mret (ReadResult 0 [] pos) else
  copy_out enclave_keys_sealed len count pos user_ok.

Definition update_read (count pos : Z) (user_ok : bool) : K read_result :=
  rsa ← is_rsa_available;
  if negb rsa then mret (ReadResult count [] pos) else
  if negb (pos =? 0) then mret (ReadResult 0 [] pos) else
  '(cipher, len) ← generate_update;
  cipher_len ← read_len len;
  if cipher_len =? 0 then mret (ReadResult count [] pos) else
  if (pos >=? cipher_len) || (count =? 0) then mret (ReadResult 0 [] pos) else
  copy_out (default [] cipher) cipher_len count pos user_ok.

Definition ptoken_read (current : task_struct) (count pos : Z) (user_ok : bool) : K read_result :=
  aes ← is_aes_available;
  if negb aes then mret (ReadResult (- ENOMEDIUM) [] pos) else
  ready ← system_ready;
  if negb ready then mret (ReadResult 0 [] pos) else
  if negb (pos =? 0) then mret (ReadResult 0 [] pos) else
  '(cipher, len) ← generate_ptoken current;
  cipher_len ← read_len len;
  if cipher_len =? 0 then mret (ReadResult (- ENOMEDIUM) [] pos) else
  if cipher_len =? 1 then mret (ReadResult 0 [] pos) else
  if (pos >=? cipher_len) || (count =? 0) then mret (ReadResult 0 [] pos) else
  copy_out (default [] cipher) cipher_len count pos user_ok.
End definitions.
