(* ===== verification/Shm.v ===== *)
(** * Shared memory tracking

    [lsm/src/ticketing/shm_tracking.c]: which processes have joined a System V
    segment, a red-black tree indexed by the key of the segment with a list of
    PIDs at each node; [get_shmid_inhabitants] serves it through an extended
    attribute.  The nodes are reached from the tree only, so a node owns its
    list. *)

From S2P Require Import Prelude Shared Hex RBTree Kernel Tickets Access.

Section definitions.
Context `{HKer : Kernel} `{HRb : RbTree}.
Abbreviation K := (M kstate).

Definition shmid_search (root : tree citadel_shm_node) (key : Z) : option citadel_shm_node :=
  rb_walk (key_cmp sn_shmid key) root.

Definition insert_shmid (root : tree citadel_shm_node) (data : citadel_shm_node) :
    option (tree citadel_shm_node) :=
  rb_insert_color <$> rb_link (key_cmp sn_shmid (sn_shmid data)) data root.

Definition sn_add_pid (pid : Z) (n : citadel_shm_node) : citadel_shm_node :=
  ShmNode (sn_shmid n) (sn_pids n ++ [pid]).

(** The node of the key, created when it does not exist. *)
Definition find_or_create_shm (key : Z) : K (option citadel_shm_node) :=
  root ← gets k_shm;
  match shmid_search root key with
  | Some n => mret (Some n)
  | None =>
      ok ← kmalloc;
      if negb ok then mret None else
      match insert_shmid root (ShmNode key []) with
      | Some root' => modify (set_shm root');; mret (Some (ShmNode key []))
      | None => mret None
      end
  end.

Definition add_to_shmid (key pid : Z) : K bool :=
  node ← find_or_create_shm key;
  match node with
  | None => mret false
  | Some n =>
      if bool_decide (pid ∈ sn_pids n) then mret true else
      ok ← kmalloc;
      if negb ok then mret false else
      modify (λ k, set_shm (rb_store (key_cmp sn_shmid key) (sn_add_pid pid) (k_shm k)) k);;
      mret true
  end.

(** The return value and the string left in [*buffer].  [keystring] is a C
    string; the four bytes it encodes are the key. *)
Definition get_shmid_inhabitants (keystring : bytes) (alloc : bool) : K (Z * option bytes) :=
  if negb (length (cstring keystring) =? 8)%nat then mret (uint64 (- EINVAL), None) else
  key ← hexstring_to_bytes_k keystring;
  match key with
  | None => crash NullDeref
  | Some key =>
      root ← gets k_shm;
      match shmid_search root (i32_at 0 key) with
      | None => mret (0, None)
      | Some n =>
          let count := Z.of_nat (length (sn_pids n)) in
          if negb alloc then mret (2 * count * 4 + 1, None) else
          pids ← kmalloc;
          if negb pids then mret (uint64 (- ENOMEM), None) else
          hex ← to_hexstring_k (concat (le_bytes 4 <$> sn_pids n));
          match hex with
          | None => mret (uint64 (- ENOMEM), None)
          | Some h => mret (2 * count * 4 + 1, Some h)
          end
      end
  end.
End definitions.
