(* ===== verification/Hooks.v ===== *)
(** * The hooks of the security module

    [lsm/src/lsm_functions/*.c] and the hook table of [lsm/src/citadel.c].
    Every hook receives [current]; the objects the kernel passes are records
    that carry the identity of their blob.  A hook that returns nothing
    returns [0] here.  Log messages are not modelled. *)

From S2P Require Import Prelude Shared Hex RBTree Kernel Tickets Access Crypto PayloadIO FileIO Shm.

(** [struct file]: the dentry of its path. *)
Record file := File { f_dentry : dentry }.
(** [struct socket]: [SOCK_INODE(sock)]. *)
Record socket := Socket { sock_inode : inode }.

Definition AF_UNIX : Z := 1.
Definition AF_LOCAL : Z := 1.

Definition string_bytes (s : string) : bytes :=
  (λ c, Z.of_N (Ascii.N_of_ascii c)) <$> String.list_ascii_of_string s.

Section definitions.
Context `{HKer : Kernel} `{HRb : RbTree} `{HCry : KernelCrypto}.
Abbreviation K := (M kstate).

(** ** inode.c *)
Definition trm_inode_rename (old_inode : inode) (old_dentry : dentry) (new_inode : inode)
    (new_dentry : dentry) : K Z := mret (- EOPNOTSUPP).

Definition fresh_label (d : citadel_inode_data) : citadel_inode_data :=
  InodeData false false false false true (id_identifier d).

Definition trm_inode_alloc_security (current : task_struct) (i : inode) : K Z :=
  if i_ino i <? 2 then mret 0 else
  let itp := citadel_inode (Some i) in
  store_inode itp fresh_label;;
  inode_housekeeping current itp (Some i);;
  mret 0.

(** Only a mutex is destroyed, which the model does not represent. *)
Definition trm_inode_free_security (i : inode) : K unit :=
  if i_ino i <? 2 then mret tt else
  load_inode (citadel_inode (Some i));; mret tt.

Definition trm_inode_init_security (current : task_struct) (i dir : inode) : K Z :=
  let new_inode_data := citadel_inode (Some i) in
  parent ← load_inode (citadel_inode (Some dir));
  task ← load_cred (ts_cred current);
  (if id_in_realm parent || td_in_realm task then
     new ← load_inode new_inode_data;
     when (negb (id_in_realm new))
       (store_inode new_inode_data (λ d, id_set_needs_xattr_update true (id_set_in_realm true d));;
        when (td_in_realm task)
          (store_inode new_inode_data
             (λ d, id_set_identifier (td_identifier task) (id_set_anonymous false d))))
   else mret tt);;
  inode_housekeeping current new_inode_data (Some i);;
  mret (- EOPNOTSUPP).

(** The last lines of the permission hooks: objects that are not under
    protection and processes that are not tainted are left alone. *)
Definition check_realm (current : task_struct) (inode_data : ptr) (i : option inode) (op : Z) : K Z :=
  match inode_data with
  | None => mret 0
  | Some _ =>
      d ← load_inode inode_data;
      task ← load_cred (ts_cred current);
      if id_in_realm d || td_in_realm task then can_access current i op else mret 0
  end.

Definition trm_inode_permission (current : task_struct) (i : inode) (mask : Z) : K Z :=
  let inode_data := citadel_inode (Some i) in
  task_housekeeping current;;
  inode_housekeeping current inode_data (Some i);;
  check_realm current inode_data (Some i) CITADEL_OP_OPEN.

(** Only log messages depend on the label. *)
Definition trm_inode_link (old_dentry : dentry) (dir : inode) (new_dentry : dentry) : K Z :=
  match citadel_dentry (Some old_dentry) with
  | Some _ as p => load_inode p;; mret 0
  | None => mret 0
  end.

Definition trm_inode_getsecurity (i : inode) (name : string) (alloc : bool) : K (Z * option bytes) :=
  let inode_data := citadel_inode (Some i) in
  if i_magic i =? SECURITYFS_MAGIC then
    let tag := (_CITADEL_XATTR_NS_TAG_SHM ++ ".")%string in
    if String.prefix tag name then
      '(res, buf) ← get_shmid_inhabitants (drop (String.length tag) (string_bytes name) ++ [0]) alloc;
      mret (int32 res, buf)
    else mret (- EOPNOTSUPP, None)
  else if negb (i_magic i =? SOCKFS_MAGIC) then mret (- EOPNOTSUPP, None) else
  match inode_data with
  | None => mret (- EOPNOTSUPP, None)
  | Some _ =>
      d ← load_inode inode_data;
      if negb (id_in_realm d && id_is_socket d) then mret (- EOPNOTSUPP, None) else
      if String.eqb name _CITADEL_XATTR_NS_TAG_IN_REALM then mret (0, None) else
      if String.eqb name _CITADEL_XATTR_NS_TAG_IDENTIFIER then
        if alloc then
          hex ← to_hexstring_k (id_identifier d);
          match hex with
          | None => mret (- ENOMEM, None)
          | Some h => mret (Z.of_nat _CITADEL_ENCODED_IDENTIFIER_LENGTH, Some h)
          end
        else mret (Z.of_nat _CITADEL_ENCODED_IDENTIFIER_LENGTH, None)
      else mret (- EOPNOTSUPP, None)
  end.

(** The bytes written to [buffer], if any; the return value is always 0. *)
Definition trm_inode_listsecurity (buffer : bool) (buffer_size : nat) : Z * option bytes :=
  let name := string_bytes _CITADEL_XATTR_IN_REALM ++ [0] in
  (0, if buffer && (length name <=? buffer_size)%nat then Some name else None).

Definition trm_d_instantiate (current : task_struct) (de : dentry) (i : option inode) : K unit :=
  let inode_data := citadel_inode i in
  match inode_data with
  | Some _ => dentry_housekeeping current inode_data (Some (Dentry (d_ref de) i (d_real_inode de))) i
  | None => mret tt
  end.

Definition trm_inode_setxattr (de : dentry) (name : string) (value : bytes) (flags : Z) : K Z :=
  if String.eqb name _CITADEL_XATTR_INSTALL then
    ready ← system_ready;
    if ready : bool then
      rc ← xattr_enclave_installation value de;
      mret (if negb (rc =? 0) then - _CITADEL_XATTR_REJECTED_SIGNAL else - _CITADEL_XATTR_ACCEPTED_SIGNAL)
    else mret (- ECANCELED)
  else if negb (String.prefix _CITADEL_XATTR_ROOT name) then mret (cap_inode_setxattr de name value flags)
  else mret (- EPERM).

(** Housekeeping on a dentry, as the attribute hooks perform it. *)
Definition refresh (current : task_struct) (de : dentry) : K unit :=
  match citadel_dentry (Some de) with
  | Some _ as p => dentry_housekeeping current p (Some de) (d_backing_inode de)
  | None => mret tt
  end.

Definition trm_inode_post_setxattr (current : task_struct) (de : dentry) : K unit := refresh current de.
Definition trm_inode_getxattr (current : task_struct) (de : dentry) : K Z := refresh current de;; mret 0.
Definition trm_inode_listxattr (current : task_struct) (de : dentry) : K Z := refresh current de;; mret 0.

Definition trm_inode_removexattr (current : task_struct) (de : dentry) (name : string) : K Z :=
  refresh current de;;
  if negb (String.prefix _CITADEL_XATTR_ROOT name) then mret (cap_inode_removexattr de name)
  else mret (- EACCES).

(** ** file.c *)
Definition trm_file_permission (current : task_struct) (f : file) (mask : Z) : K Z :=
  let inode_data := citadel_dentry (Some (f_dentry f)) in
  task_housekeeping current;;
  dentry_housekeeping current inode_data (Some (f_dentry f)) (d_backing_inode (f_dentry f));;
  check_realm current inode_data (d_inode (f_dentry f)) CITADEL_OP_OPEN.

Definition trm_file_ioctl (current : task_struct) (f : file) (cmd arg : Z) : K Z :=
  let inode_data := citadel_dentry (Some (f_dentry f)) in
  task_housekeeping current;;
  dentry_housekeeping current inode_data (Some (f_dentry f)) (d_backing_inode (f_dentry f));;
  mret 0.

Definition trm_file_open (current : task_struct) (f : file) : K Z :=
  let inode_data := citadel_dentry (Some (f_dentry f)) in
  task_housekeeping current;;
  dentry_housekeeping current inode_data (Some (f_dentry f)) (d_backing_inode (f_dentry f));;
  check_realm current inode_data (d_inode (f_dentry f)) CITADEL_OP_OPEN.

(** ** task.c *)
Definition blank_task (id : bytes) : citadel_task_data := TaskData false false None 1 id.

Definition init_task_trm (data : positive) (previous : option positive) : K unit :=
  id ← get_random_bytes _CITADEL_IDENTIFIER_LENGTH;
  store_cred data (λ _, blank_task id);;
  match previous with
  | Some prev =>
      p ← load_cred prev;
      store_cred data (td_set_in_realm (td_in_realm p));;
      store_cred data (td_set_granted_pty (td_granted_pty p))
  | None => mret tt
  end.

Definition trm_cred_alloc_blank (cred : positive) : K Z := init_task_trm cred None;; mret 0.
Definition trm_cred_prepare (new old : positive) : K Z := init_task_trm new (Some old);; mret 0.

Definition trm_task_prctl (current : task_struct) : K Z := task_housekeeping current;; mret 0.
Definition trm_task_kill (cred : option positive) : K Z :=
  match cred with Some c => load_cred c;; mret 0 | None => mret 0 end.
Definition trm_task_free (task : task_struct) : K unit := mret tt.
(** The tickets are not freed. *)
Definition trm_cred_free (cred : positive) : K unit := load_cred cred;; mret tt.

(** ** socket.c *)
Definition realm_init_socket (current : task_struct) (inode_data : ptr) : K unit :=
  d ← load_inode inode_data;
  when (negb (id_in_realm d))
    (store_inode inode_data
       (λ d, id_set_in_realm true (id_set_checked_disk_xattr true (id_set_is_socket true d)));;
     task ← load_cred (ts_cred current);
     store_inode inode_data (id_set_identifier (td_identifier task))).

Definition realm_init_socket_copy (original copy : ptr) : K unit :=
  o ← load_inode original;
  when (id_in_realm o)
    (store_inode copy (λ d, id_set_identifier (id_identifier o) (id_set_in_realm true d))).

(** [inode_data && (inode_data->in_realm || task_data->in_realm)] *)
Definition under_protection (current : task_struct) (inode_data : ptr) : K bool :=
  match inode_data with
  | None => mret false
  | Some _ =>
      d ← load_inode inode_data;
      task ← load_cred (ts_cred current);
      mret (id_in_realm d || td_in_realm task)
  end.

Definition trm_socket_post_create (current : task_struct) (sock : socket) : K Z :=
  let inode_data := citadel_inode (Some (sock_inode sock)) in
  task_housekeeping current;;
  match inode_data with
  | Some _ =>
      store_inode inode_data (λ d, id_set_checked_disk_xattr true (id_set_is_socket true d));;
      task ← load_cred (ts_cred current);
      when (td_in_realm task) (realm_init_socket current inode_data)
  | None => mret tt
  end;;
  mret 0.

Definition trm_socket_socketpair (current : task_struct) (socka sockb : socket) : K Z :=
  let a := citadel_inode (Some (sock_inode socka)) in
  let b := citadel_inode (Some (sock_inode sockb)) in
  task_housekeeping current;;
  tainted ← under_protection current a;
  when tainted (realm_init_socket current a;; realm_init_socket_copy a b);;
  mret 0.

Definition trm_socket_bind (current : task_struct) (sock : socket) (sa_family : Z) : K Z :=
  let inode_data := citadel_inode (Some (sock_inode sock)) in
  task_housekeeping current;;
  tainted ← under_protection current inode_data;
  if tainted : bool then
    realm_init_socket current inode_data;;
    if (sa_family =? AF_UNIX) || (sa_family =? AF_LOCAL) then mret 0
    else can_access current (Some (sock_inode sock)) CITADEL_OP_SOCKET_EXTERNAL
  else mret 0.

Definition trm_socket_accept (current : task_struct) (sock newsock : socket) : K Z :=
  let inode_data := citadel_inode (Some (sock_inode sock)) in
  let inode_data_new := citadel_inode (Some (sock_inode newsock)) in
  task_housekeeping current;;
  tainted ← under_protection current inode_data;
  if tainted : bool then
    realm_init_socket current inode_data;;
    realm_init_socket_copy inode_data inode_data_new;;
    can_access current (Some (sock_inode sock)) CITADEL_OP_SOCKET
  else mret 0.

Definition trm_socket_sendmsg (current : task_struct) (sock : socket) : K Z :=
  let inode_data := citadel_inode (Some (sock_inode sock)) in
  task_housekeeping current;;
  tainted ← under_protection current inode_data;
  if tainted : bool then
    realm_init_socket current inode_data;;
    can_access current (Some (sock_inode sock)) CITADEL_OP_SOCKET
  else mret 0.

Definition trm_socket_recvmsg (current : task_struct) (sock : socket) : K Z :=
  let inode_data := citadel_inode (Some (sock_inode sock)) in
  task_housekeeping current;;
  tainted ← under_protection current inode_data;
  if tainted : bool then
    realm_init_socket current inode_data;;
    can_access current (Some (sock_inode sock)) CITADEL_OP_SOCKET
  else mret 0.

Definition trm_socket_shutdown (current : task_struct) (sock : socket) : K Z :=
  task_housekeeping current;;
  under_protection current (citadel_inode (Some (sock_inode sock)));;
  mret 0.

(** ** ipc.c *)
Definition trm_ipc_alloc_security (isp : kern_ipc_perm) : K Z :=
  store_ipc (citadel_ipc (Some isp)) (λ _, IpcData false
    (le_bytes 4 (ipc_key isp) ++ replicate (_CITADEL_IDENTIFIER_LENGTH - 4) 0));;
  mret 0.
Definition trm_ipc_free_security (isp : kern_ipc_perm) : K unit :=
  store_ipc (citadel_ipc (Some isp)) (λ _, IpcData true (replicate _CITADEL_IDENTIFIER_LENGTH 0)).

Definition allow_shm_access (current : task_struct) (key : Z) : K Z :=
  if ts_pid current <? 2 then mret 0 else
  ok ← add_to_shmid key (ts_pid current);
  mret (if ok : bool then 0 else - EIO).

Definition ip_set_in_realm (b : bool) (d : citadel_ipc_data) : citadel_ipc_data := IpcData b (ip_identifier d).

(** Unlike in [can_access], the list of tickets is followed without a test for
    NULL, and a NULL [perm] is dereferenced. *)
Definition shm_can_access (current : task_struct) (perm : option kern_ipc_perm) : K Z :=
  match perm with
  | None => crash NullDeref
  | Some perm =>
      let p := citadel_ipc (Some perm) in
      cred ← load_cred (ts_cred current);
      d ← load_ipc p;
      if negb (td_in_realm cred) && negb (ip_in_realm d) then allow_shm_access current (ipc_key perm) else
      pid ← citadel_pid;
      if ts_pid current =? pid then allow_shm_access current (ipc_key perm) else
      fuel ← gets heap_fuel;
      found ← scan_tickets fuel (ip_identifier d) CITADEL_OP_SHM (td_ticket_head cred) 0;
      if found : bool then
        when (ip_in_realm d) (store_cred (ts_cred current) (td_set_in_realm true));;
        cred' ← load_cred (ts_cred current);
        when (td_in_realm cred') (store_ipc p (ip_set_in_realm true));;
        allow_shm_access current (ipc_key perm)
      else mret (- EACCES)
  end.

Definition trm_shm_associate (current : task_struct) (perm : option kern_ipc_perm) (shmflg : Z) : K Z :=
  shm_can_access current perm.
Definition trm_shm_shmctl (current : task_struct) (perm : option kern_ipc_perm) (cmd : Z) : K Z :=
  shm_can_access current perm.
Definition trm_shm_shmat (current : task_struct) (perm : option kern_ipc_perm) (shmflg : Z) : K Z :=
  shm_can_access current perm.

(** ** citadel.c *)
Definition trm_bprm_check_security (current : task_struct) : K Z := task_housekeeping current;; mret 0.

(** The second test looks at the result of the first self test. *)
Definition crypto_init : K unit :=
  res_rsa ← trm_rsa_self_test;
  when (res_rsa =? 0) (modify (λ k, set_avail true (k_aes_available k) k));;
  res_aes ← trm_aes_self_test;
  when (res_rsa =? 0) (modify (λ k, set_avail (k_rsa_available k) true k)).
End definitions.

(** ** The hook table and the securityfs files

    [citadel_hooks] and the [file_operations] of [citadel.c]: everything the
    kernel may call, with the arguments it passes. *)
Inductive lsm_event :=
  | bprm_check_security
  | inode_alloc_security (i : inode)
  | inode_init_security (i dir : inode)
  | inode_free_security (i : inode)
  | inode_permission (i : inode) (mask : Z)
  | inode_link (old_dentry : dentry) (dir : inode) (new_dentry : dentry)
  | inode_setxattr (de : dentry) (name : string) (value : bytes) (flags : Z)
  | inode_post_setxattr (de : dentry)
  | inode_getxattr (de : dentry)
  | inode_listxattr (de : dentry)
  | inode_removexattr (de : dentry) (name : string)
  | inode_getsecurity (i : inode) (name : string) (alloc : bool)
  | inode_listsecurity (buffer : bool) (buffer_size : nat)
  | d_instantiate (de : dentry) (i : option inode)
  | file_permission (f : file) (mask : Z)
  | file_ioctl (f : file) (cmd arg : Z)
  | file_open (f : file)
  | cred_alloc_blank (cred : positive)
  | cred_prepare (new old : positive)
  | task_prctl
  | task_kill (cred : option positive)
  | task_free (task : task_struct)
  | cred_free (cred : positive)
  | socket_post_create (sock : socket)
  | socket_socketpair (socka sockb : socket)
  | socket_bind (sock : socket) (sa_family : Z)
  | socket_accept (sock newsock : socket)
  | socket_sendmsg (sock : socket)
  | socket_recvmsg (sock : socket)
  | socket_shutdown (sock : socket)
  | shm_alloc_security (isp : kern_ipc_perm)
  | shm_free_security (isp : kern_ipc_perm)
  | shm_associate (perm : option kern_ipc_perm) (shmflg : Z)
  | shm_shmctl (perm : option kern_ipc_perm) (cmd : Z)
  | shm_shmat (perm : option kern_ipc_perm) (shmflg : Z)
  | challenge_file_read (count pos : Z) (user_ok : bool)
  | challenge_file_write (buf : bytes) (user_ok : bool)
  | update_file_read (count pos : Z) (user_ok : bool)
  | update_file_write (buf : bytes) (user_ok : bool)
  | ptoken_file_read (count pos : Z) (user_ok : bool)
  | sealed_keys_file_read (count pos : Z) (user_ok : bool).

Section dispatch.
Context `{HKer : Kernel} `{HRb : RbTree} `{HCry : KernelCrypto}.

Definition returning0 (m : M kstate unit) : M kstate Z := m;; mret 0.

Definition citadel_hooks (current : task_struct) (ev : lsm_event) : M kstate Z :=
  match ev with
  | bprm_check_security => trm_bprm_check_security current
  | inode_alloc_security i => trm_inode_alloc_security current i
  | inode_init_security i dir => trm_inode_init_security current i dir
  | inode_free_security i => returning0 (trm_inode_free_security i)
  | inode_permission i mask => trm_inode_permission current i mask
  | inode_link o d n => trm_inode_link o d n
  | inode_setxattr de name v flags => trm_inode_setxattr de name v flags
  | inode_post_setxattr de => returning0 (trm_inode_post_setxattr current de)
  | inode_getxattr de => trm_inode_getxattr current de
  | inode_listxattr de => trm_inode_listxattr current de
  | inode_removexattr de name => trm_inode_removexattr current de name
  | inode_getsecurity i name alloc => '(r, _) ← trm_inode_getsecurity i name alloc; mret r
  | inode_listsecurity buf n => mret (trm_inode_listsecurity buf n).1
  | d_instantiate de i => returning0 (trm_d_instantiate current de i)
  | file_permission f mask => trm_file_permission current f mask
  | file_ioctl f cmd arg => trm_file_ioctl current f cmd arg
  | file_open f => trm_file_open current f
  | cred_alloc_blank c => trm_cred_alloc_blank c
  | cred_prepare new old => trm_cred_prepare new old
  | task_prctl => trm_task_prctl current
  | task_kill c => trm_task_kill c
  | task_free t => returning0 (trm_task_free t)
  | cred_free c => returning0 (trm_cred_free c)
  | socket_post_create s => trm_socket_post_create current s
  | socket_socketpair a b => trm_socket_socketpair current a b
  | socket_bind s fam => trm_socket_bind current s fam
  | socket_accept s n => trm_socket_accept current s n
  | socket_sendmsg s => trm_socket_sendmsg current s
  | socket_recvmsg s => trm_socket_recvmsg current s
  | socket_shutdown s => trm_socket_shutdown current s
  | shm_alloc_security p => trm_ipc_alloc_security p
  | shm_free_security p => returning0 (trm_ipc_free_security p)
  | shm_associate p f => trm_shm_associate current p f
  | shm_shmctl p c => trm_shm_shmctl current p c
  | shm_shmat p f => trm_shm_shmat current p f
  | challenge_file_read n pos ok => r ← challenge_read n pos ok; mret (rr_ret r)
  | challenge_file_write b ok => challenge_receive b ok
  | update_file_read n pos ok => r ← update_read n pos ok; mret (rr_ret r)
  | update_file_write b ok => update_receive b ok
  | ptoken_file_read n pos ok => r ← ptoken_read current n pos ok; mret (rr_ret r)
  | sealed_keys_file_read n pos ok => r ← sealed_keys_read n pos ok; mret (rr_ret r)
  end.

(** A history: which process caused which event. *)
Fixpoint run_events (evs : list (task_struct * lsm_event)) : M kstate unit :=
  match evs with
  | [] => mret tt
  | (current, ev) :: evs => citadel_hooks current ev;; run_events evs
  end.
End dispatch.
