(* ===== verification/AccessSpec.v ===== *)
(** * What the permission hooks decide

    The housekeeping of a hook brings the ticket list of the process up to
    date, then the decision looks at it.  Put together: a process is let in to
    a protected object exactly when the enclave granted it a matching ticket
    less than fifteen seconds ago. *)

From S2P Require Import Prelude Shared Hex RBTree Kernel Ring Tickets TicketsSpec CacheModel Access.
From S2P Require Import Crypto PayloadIO FileIO Shm Hooks.

Section housekeeping.
Context `{HKer : Kernel} `{HRb : RbTree}.
Implicit Type k : kstate.

(** The blob of a process after its housekeeping: only the ticket list, the
    PTY right and the recorded PID may change. *)
Record task_kept (pid : Z) (pty : bool) (td td' : citadel_task_data) : Prop := TaskKept {
  tk_in_realm : td_in_realm td' = td_in_realm td;
  tk_ident : td_identifier td' = td_identifier td;
  tk_pty : td_granted_pty td' = td_granted_pty td || pty;
  tk_pid : td_pid td' = if td_pid td =? 1 then pid else td_pid td }.

Lemma store_pid_rep k L c td pid :
  tickets_rep k L → k_creds k !! c = Some td →
  tickets_rep (set_creds (alter (td_set_pid pid) c (k_creds k)) k) L.
Proof.
  intros Hr Hc. eapply rep_ext; [done|done|done|apply Hr|]. intros [q|c'] _; [done|].
  cbn [head_of set_creds k_creds]. destruct (decide (c = c')) as [<-|Hne].
  - by rewrite lookup_alter_eq, Hc.
  - by rewrite lookup_alter_ne.
Qed.

Lemma task_housekeeping_ok k L current td :
  let pid := ts_pid current in
  let c := ts_cred current in
  tickets_rep k L → is_pid pid → 1 < pid → resv_read k pid → k_creds k !! c = Some td →
  ∃ k' td', task_housekeeping current k = Ok (tt, k') ∧
    tickets_rep k' (checked k L current) ∧
    k_nclk k' = ticks (L (Cred c) ++ L (Res pid)) (k_nclk k) ∧
    k_creds k' = <[c := td']> (k_creds k) ∧ task_kept pid (pty_pending k pid) td td' ∧
    (∀ q, is_pid q → pty_pending k' q = pty_pending k q && negb (bool_decide (pid = q))) ∧
    cache_frame k k'.
Proof.
  intros pid c Hr Hp H1 Hread Hc. unfold task_housekeeping. fold pid c.
  destruct (Z.gtb_spec pid 1); [|lia]. cbn [when]. mstep (load_cred_some _ _ _ Hc). rewrite bind_when.
  destruct (Z.eqb_spec (td_pid td) 1) as [Hone|Hone].
  - mstep (store_cred_some _ _ _ (td_set_pid pid) Hc).
    set (k1 := set_creds (alter (td_set_pid pid) c (k_creds k)) k).
    assert (k_creds k1 !! c = Some (td_set_pid pid td)) as Hc1 by (cbn; by rewrite lookup_alter_eq, Hc).
    destruct (check_ticket_cache_ok k1 L current _ (store_pid_rep _ _ _ _ pid Hr Hc) Hp Hread Hc1)
      as (k' & p & He & Hn & Hr' & Hc' & Hq & Hf).
    exists k'. eexists. split_and!; [exact He|exact Hr'|exact Hn| | |exact Hq|etrans; [|exact Hf]; done].
    + rewrite Hc'. fold c. cbn [k1 set_creds k_creds]. apply map_eq. intros x.
      destruct (decide (c = x)) as [<-|Hne]; [by rewrite !lookup_insert_eq|].
      by rewrite !lookup_insert_ne, lookup_alter_ne.
    + split; try done. cbn. by rewrite (proj2 (Z.eqb_eq _ _) Hone).
  - destruct (check_ticket_cache_ok k L current td Hr Hp Hread Hc) as (k' & p & He & Hn & Hr' & Hc' & Hq & Hf).
    exists k'. eexists. split_and!; [exact He|exact Hr'|exact Hn|exact Hc'| |exact Hq|exact Hf].
    split; try done. cbn. by rewrite (proj2 (Z.eqb_neq _ _) Hone).
Qed.

(** Kernel threads and init are not examined. *)
Lemma task_housekeeping_init k current : ts_pid current ≤ 1 → task_housekeeping current k = Ok (tt, k).
Proof. intros Hp. unfold task_housekeeping. destruct (Z.gtb_spec (ts_pid current) 1); [lia|done]. Qed.

(** The label of an inode after its housekeeping: an unnamed pipe takes the
    identifier of the tainted process that created it. *)
Definition inode_kept (ino : inode) (td : citadel_task_data) (d : citadel_inode_data) : citadel_inode_data :=
  if negb (i_ino ino <? 2) && (i_magic ino =? PIPEFS_MAGIC) && (id_anonymous d && td_in_realm td)
  then tag_pipe (td_identifier td) d else d.

Lemma alter_same {A} (f : A → A) i (m : gmap positive A) x : m !! i = Some x → f x = x → alter f i m = m.
Proof. intros Hx Hf. apply alter_id. intros y Hy. rewrite Hx in Hy. by injection Hy as <-. Qed.

Lemma set_inodes_id k : set_inodes (k_inodes k) k = k.
Proof. by destruct k. Qed.

Lemma inode_housekeeping_ok k current ino d td :
  i_security ino = true → k_inodes k !! i_ref ino = Some d → k_creds k !! ts_cred current = Some td →
  inode_housekeeping current (citadel_inode (Some ino)) (Some ino) k =
  Ok (tt, set_inodes (<[i_ref ino := inode_kept ino td d]> (k_inodes k)) k).
Proof.
  intros Hs Hi Hc. unfold inode_housekeeping, inode_kept. cbn [citadel_inode]. rewrite Hs.
  assert (Ok (tt, k) = Ok (tt, set_inodes (<[i_ref ino := d]> (k_inodes k)) k)) as Hid
    by (rewrite insert_id by done; by rewrite set_inodes_id).
  destruct (i_ino ino <? 2); [exact Hid|]. cbn [negb andb].
  destruct (i_magic ino =? PIPEFS_MAGIC); [|exact Hid]. cbn [when andb].
  mstep (load_inode_some _ _ _ Hi). mstep (load_cred_some _ _ _ Hc).
  destruct (id_anonymous d && td_in_realm td); [|exact Hid]. cbn [when].
  erewrite store_inode_some by done. by rewrite (alter_lookup _ _ _ _ Hi).
Qed.
End housekeeping.

Section permission.
Context `{HKer : Kernel} `{HRb : RbTree} `{HCry : KernelCrypto}.
Implicit Type k : kstate.

(** What the decision depends on in the credentials. *)
Lemma exempt_kept enclave pid ino d td td' pty :
  task_kept pid pty td td' →
  exempt enclave pid ino d td' = exempt enclave pid ino d (td_set_granted_pty (td_granted_pty td || pty) td).
Proof. intros [H1 H2 H3 _]. unfold exempt. by rewrite H1, H2, H3. Qed.

(** The last step of a hook: the realm test does not change the decision. *)
Lemma check_realm_spec k current ino d td l op :
  subject k current ino d td l →
  check_realm current (citadel_inode (Some ino)) (Some ino) op k =
  if exempt (enclave_pid (k_pio k)) (ts_pid current) ino d td then Ok (0, k)
  else if ticketed d op l.*2 then Ok (0, taint current d k)
  else Ok (- EACCES, k).
Proof.
  intros Hsub. rewrite <- (can_access_spec k current ino d td l op Hsub).
  destruct Hsub as [Hs Hi Hc Hr]. unfold check_realm. cbn [citadel_inode]. rewrite Hs.
  mstep (load_inode_some _ _ _ Hi). mstep (load_cred_some _ _ _ Hc).
  destruct (id_in_realm d || td_in_realm td) eqn:E; [done|].
  unfold can_access. cbn [citadel_inode]. rewrite Hs. case_if; [done|].
  mstep (load_inode_some _ _ _ Hi). mstep (load_cred_some _ _ _ Hc).
  apply orb_false_iff in E as [-> ->]. done.
Qed.

Lemma inode_permission_ok k L current ino d td mask :
  let pid := ts_pid current in
  let c := ts_cred current in
  tickets_rep k L → is_pid pid → 1 < pid → resv_read k pid → k_creds k !! c = Some td →
  i_security ino = true → k_inodes k !! i_ref ino = Some d →
  let d' := inode_kept ino td d in
  let l := (live_tickets (threshold k) (L (Cred c) ++ L (Res pid))).*2 in
  let granted := td_set_granted_pty (td_granted_pty td || pty_pending k pid) td in
  let ex := exempt (enclave_pid (k_pio k)) pid ino d' granted in
  ∃ k' td', trm_inode_permission current ino mask k =
      Ok (if ex || ticketed d' CITADEL_OP_OPEN l then 0 else - EACCES, k') ∧
    tickets_rep k' (checked k L current) ∧
    k_inodes k' = <[i_ref ino := d']> (k_inodes k) ∧
    k_creds k' = <[c := td']> (k_creds k) ∧
    td_in_realm td' = td_in_realm td || (negb ex && ticketed d' CITADEL_OP_OPEN l && id_in_realm d').
Proof.
  intros pid c Hr Hp H1 Hread Hc Hs Hi d' l granted ex.
  destruct (task_housekeeping_ok k L current td Hr Hp H1 Hread Hc)
    as (k1 & td1 & He1 & Hr1 & Hn1 & Hc1 & Hk1 & Hq1 & Hf1). fold c pid in Hc1, Hk1.
  assert (k_creds k1 !! c = Some td1) as Hc1' by (rewrite Hc1; apply lookup_insert_eq).
  assert (k_inodes k1 !! i_ref ino = Some d) as Hi1 by (by rewrite (cf_inodes _ _ Hf1)).
  pose proof (inode_housekeeping_ok k1 current ino d td1 Hs Hi1 Hc1') as He2.
  assert (inode_kept ino td1 d = d') as Hd' by (unfold d', inode_kept; by rewrite (tk_in_realm _ _ _ _ Hk1), (tk_ident _ _ _ _ Hk1)).
  rewrite Hd' in He2. set (k2 := set_inodes _ k1) in He2.
  assert (tickets_rep k2 (checked k L current)) as Hr2
    by (eapply rep_ext; [exact Hr1|done|done|apply Hr1|]; intros [q|c'] _; done).
  assert (subject k2 current ino d' td1 (live_tickets (threshold k) (L (Cred c) ++ L (Res pid)))) as Hsub.
  { split; [done|cbn; apply lookup_insert_eq|done|].
    pose proof (rep_ring _ _ Hr2 (Cred c) I) as HR. unfold checked in HR. fold c pid in HR.
    rewrite fn_lookup_insert in HR. cbn [head_of k2 set_inodes k_creds] in HR. by rewrite Hc1' in HR. }
  pose proof (check_realm_spec k2 current ino d' td1 _ CITADEL_OP_OPEN Hsub) as He3. fold l in He3.
  rewrite (exempt_kept _ _ _ _ _ _ _ Hk1) in He3. cbn [k2 set_inodes k_pio] in He3.
  rewrite (cf_pio _ _ Hf1) in He3. fold pid granted ex in He3.
  assert (k_inodes k2 = <[i_ref ino := d']> (k_inodes k)) as Hi2
    by (cbn; by rewrite (cf_inodes _ _ Hf1)).
  unfold trm_inode_permission. mstep He1. mstep He2. rewrite He3.
  destruct ex; cbn [orb negb andb].
  { exists k2, td1. split_and!; try done. by rewrite orb_false_r, (tk_in_realm _ _ _ _ Hk1). }
  destruct (ticketed d' CITADEL_OP_OPEN l); cbn [andb].
  2:{ exists k2, td1. split_and!; try done. by rewrite orb_false_r, (tk_in_realm _ _ _ _ Hk1). }
  unfold taint. destruct (id_in_realm d').
  2:{ exists k2, td1. split_and!; try done. by rewrite orb_false_r, (tk_in_realm _ _ _ _ Hk1). }
  eexists. exists (td_set_in_realm true td1). split; [done|]. fold c. split_and!; [|done| |by rewrite orb_true_r].
  - eapply rep_ext; [exact Hr2|done|done|apply Hr2|]. intros [q|c'] _; [done|].
    cbn [head_of set_creds k_creds]. destruct (decide (c = c')) as [<-|Hne].
    + change (k_creds k2) with (k_creds k1). by rewrite lookup_alter_eq, Hc1'.
    + by rewrite lookup_alter_ne.
  - cbn [set_creds k_creds k2 set_inodes]. rewrite Hc1. apply map_eq. intros x.
    destruct (decide (c = x)) as [<-|Hne]; [by rewrite lookup_alter_eq, !lookup_insert_eq|].
    by rewrite lookup_alter_ne, !lookup_insert_ne.
Qed.
End permission.

(** ** Decisions in terms of the abstract cache *)
Section grants.
Context `{HKer : Kernel} `{HRb : RbTree} `{HCry : KernelCrypto}.
Context (cred_of : Z → positive).
Implicit Types (k : kstate) (A : acache).

(** The process holds or will receive a matching ticket younger than fifteen
    seconds at the next reading of the clock. *)
Definition has_ticket A (pid : Z) (d : citadel_inode_data) (op : Z) : Prop :=
  ∃ t, t ∈ ac_tickets A (Cred (cred_of pid)) ++ ac_tickets A (Res pid) ∧
    ti_identifier t = id_identifier d ∧ has_flag (ti_operation t) op = true ∧
    ktime (ac_clock A) - ti_timestamp t < expiry_ns.

Lemma ticketed_iff A pid d op :
  ordered cred_of A → is_pid pid →
  ticketed d op (unexpired (ktime (ac_clock A) - expiry_ns)
    (ac_tickets A (Cred (cred_of pid)) ++ ac_tickets A (Res pid))) = true ↔
  id_anonymous d = false ∧ has_ticket A pid d op.
Proof.
  intros [Hs Hpast] Hp. unfold ticketed. rewrite andb_true_iff, negb_true_iff. apply and_iff_compat_l.
  rewrite visible_sorted.
  - rewrite existsb_exists. unfold has_ticket, unexpired, grants. split.
    + intros (t & Ht & Hg). apply andb_true_iff in Hg as [Hid Hop]. apply bytes_eqb_eq in Hid.
      apply list_elem_of_In, list_elem_of_filter in Ht as [Hlt Ht]. exists t. split_and!; [done..|lia].
    + intros (t & Ht & Hid & Hop & Hlt). exists t. split.
      * apply list_elem_of_In, list_elem_of_filter. split; [lia|done].
      * by rewrite Hop, andb_true_r, bytes_eqb_eq.
  - by apply sorted_unexpired, Hs.
  - apply Forall_forall. intros t. unfold unexpired. rewrite list_elem_of_filter, elem_of_app.
    intros [_ [Ht|Ht]]; [by apply (Hpast (Cred (cred_of pid)))|by apply (Hpast (Res pid))].
Qed.

Lemma permission_abs k A pid ino d td mask :
  refines k A → ordered cred_of A → is_pid pid → 1 < pid → resv_read k pid →
  k_creds k !! cred_of pid = Some td → i_security ino = true → k_inodes k !! i_ref ino = Some d →
  let d' := inode_kept ino td d in
  let ex := exempt (enclave_pid (k_pio k)) pid ino d' (td_set_granted_pty (td_granted_pty td || ac_pty A pid) td) in
  ∃ r k' td', trm_inode_permission (Task pid (cred_of pid)) ino mask k = Ok (r, k') ∧
    r = (if ex || ticketed d' CITADEL_OP_OPEN (unexpired (ktime (ac_clock A) - expiry_ns)
           (ac_tickets A (Cred (cred_of pid)) ++ ac_tickets A (Res pid))) then 0 else - EACCES) ∧
    k_creds k' = <[cred_of pid := td']> (k_creds k) ∧
    td_in_realm td' = td_in_realm td || (negb ex && (r =? 0) && id_in_realm d').
Proof.
  intros [(L & Hr & HL) Hq Hg Hn] Ho Hp H1 Hread Hc Hs Hi d' ex.
  destruct (inode_permission_ok k L (Task pid (cred_of pid)) ino d td mask Hr Hp H1 Hread Hc Hs Hi)
    as (k' & td' & He & _ & _ & Hc' & Htd). cbn [ts_pid ts_cred] in *. fold d' in He, Htd.
  rewrite (Hq pid Hp) in He, Htd. fold ex in He, Htd.
  assert ((live_tickets (threshold k) (L (Cred (cred_of pid)) ++ L (Res pid))).*2 =
    unexpired (ktime (ac_clock A) - expiry_ns) (ac_tickets A (Cred (cred_of pid)) ++ ac_tickets A (Res pid))) as Hl.
  { unfold threshold. rewrite Hn. apply live_tickets_unexpired; [|by apply Ho].
    by rewrite fmap_app, !HL. }
  rewrite Hl in He, Htd.
  eexists _, k', td'. split_and!; [exact He|done|done|].
  rewrite Htd. destruct ex, (ticketed _ _ _); done.
Qed.

(** Time passes between two operations. *)
Definition tick (n : nat) A : acache := ACache (ac_tickets A) (ac_pty A) (ac_granted A) n.

Lemma refines_tick k A n : refines k A → refines (set_nclk n k) (tick n A).
Proof.
  intros [(L & Hr & HL) Hq Hg Hn]. split; [|done|done|done]. exists L. split; [|done].
  eapply rep_ext; [exact Hr|done|done|apply Hr|]. intros [q|c'] _; done.
Qed.

Lemma ktime_mono : (∀ n, 0 < ktime n < ktime (S n)) → ∀ n m, (n ≤ m)%nat → ktime n ≤ ktime m.
Proof. intros Hm n m. induction 1 as [|m _ IH]; [done|]. specialize (Hm m). lia. Qed.

Lemma ordered_tick A n :
  (∀ n, 0 < ktime n < ktime (S n)) → ordered cred_of A → (ac_clock A ≤ n)%nat → ordered cred_of (tick n A).
Proof.
  intros Hm [Hs Hp] Hn. split; [done|]. intros o t Ho Ht. specialize (Hp o t Ho Ht).
  pose proof (ktime_mono Hm _ _ Hn). cbn. lia.
Qed.
End grants.
