(* ===== verification/AccessTheorems.v ===== *)
(** * Theorems on access decisions *)

From S2P Require Import Prelude Shared Hex RBTree Kernel Ring Tickets TicketsSpec CacheModel Access.
From S2P Require Import Crypto Concrete CacheTheorems PayloadIO FileIO Shm Hooks AccessSpec.

(** C20: [can_access] decides by the label of the object, the credentials and
    the ticket list alone, and never faults: exempt accesses are allowed and
    change nothing; otherwise access is allowed exactly when the object is not
    anonymous and a ticket the scan can see matches its identifier and the
    requested operation, and then the taint of the object reaches the process;
    in every other case the answer is -EACCES and nothing changes. *)
Theorem can_access_decides `{HKer : Kernel} `{HRb : RbTree} k current ino d td l op :
  subject k current ino d td l →
  can_access current (Some ino) op k =
  if exempt (enclave_pid (k_pio k)) (ts_pid current) ino d td then Ok (0, k)
  else if negb (id_anonymous d) && existsb (grants (id_identifier d) op) (visible 0 l.*2)
  then Ok (0, if id_in_realm d
              then set_creds (alter (td_set_in_realm true) (ts_cred current) (k_creds k)) k else k)
  else Ok (- EACCES, k).
Proof. intros Hs. by rewrite (can_access_spec k current ino d td l op Hs). Qed.

Section theorems.
Context `{HKer : Kernel} `{HRb : RbTree} `{HCry : KernelCrypto}.


(** A live ticket opens the object, and taints the process unless it is
    exempt. *)
Lemma ticket_opens (cred_of : Z → positive) k A pid ino d td mask :
  refines k A → ordered cred_of A → is_pid pid → 1 < pid → resv_read k pid →
  k_creds k !! cred_of pid = Some td → i_security ino = true → k_inodes k !! i_ref ino = Some d →
  i_magic ino ≠ PIPEFS_MAGIC → id_anonymous d = false → has_ticket cred_of A pid d CITADEL_OP_OPEN →
  ∃ k', trm_inode_permission (Task pid (cred_of pid)) ino mask k = Ok (0, k') ∧
    (id_in_realm d = true →
     exempt (enclave_pid (k_pio k)) pid ino d (td_set_granted_pty (td_granted_pty td || ac_pty A pid) td) = false →
     ∃ td', k_creds k' !! cred_of pid = Some td' ∧ td_in_realm td' = true).
Proof.
  intros Hr Ho Hp H1 Hread Hc Hs Hi Hpipe Hanon Ht.
  assert (inode_kept ino td d = d) as Hd
    by (unfold inode_kept; rewrite (proj2 (Z.eqb_neq _ _) Hpipe), andb_false_r; done).
  destruct (permission_abs cred_of k A pid ino d td mask Hr Ho Hp H1 Hread Hc Hs Hi) as (r & k' & td' & He & Hrv & Hc3 & Htd).
  rewrite Hd in Hrv, Htd. rewrite (proj2 (ticketed_iff cred_of A pid d CITADEL_OP_OPEN Ho Hp)), orb_true_r in Hrv by done.
  subst r. exists k'. split; [done|]. intros Hin Hex. exists td'. rewrite Hc3, lookup_insert_eq, Htd, Hin, Hex.
  split; [done|]. cbn. by rewrite orb_true_r.
Qed.

(** A process that was granted a record has a reservation. *)
Lemma inserted_reserved k A record n :
  refines k (abs_insert record A) → is_pid (ur_pid record) → resv_read (set_nclk n k) (ur_pid record).
Proof. intros Hr Hp. right. by apply (pending_reserved k _ _ Hr Hp), insert_pending. Qed.

(** A record that was inserted is such a ticket until it expires. *)
Lemma inserted_ticket (cred_of : Z → positive) A record d n :
  ur_identifier record = id_identifier d → has_flag (ur_operation record) CITADEL_OP_OPEN = true →
  ktime n - ktime (ac_clock A) < expiry_ns →
  has_ticket cred_of (tick n (abs_insert record A)) (ur_pid record) d CITADEL_OP_OPEN.
Proof.
  intros Hid Hop Hexp. exists (Info (ur_identifier record) (ur_operation record) (ktime (ac_clock A))). cbn.
  unfold abs_insert. destruct (Z.eqb_spec (ur_operation record) CITADEL_OP_PTY_ACCESS) as [E|E].
  { by rewrite E in Hop. }
  cbn [ac_tickets]. split_and!; [|done|done|done].
  rewrite fn_lookup_insert, !elem_of_app, list_elem_of_singleton. tauto.
Qed.

(** From grant to access.  Once [insert_ticket] has installed a record
    for a process, the [inode_permission] hook lets the process open the object
    with the identifier of the record at any time before the ticket is fifteen
    seconds old; and if the object is in the realm the process is tainted
    afterwards. *)
Theorem grant_then_access (cred_of : Z → positive) k A record ino d td mask :
  let pid := ur_pid record in
  (∀ n, 0 < ktime n < ktime (S n)) → (∀ n, kmem n = true) →
  refines k A → ordered cred_of A → is_pid pid → 1 < pid →
  k_creds k !! cred_of pid = Some td → i_security ino = true → k_inodes k !! i_ref ino = Some d →
  i_magic ino ≠ PIPEFS_MAGIC → id_anonymous d = false →
  ur_identifier record = id_identifier d → has_flag (ur_operation record) CITADEL_OP_OPEN = true →
  ∃ k1, insert_ticket record k = Ok (true, k1) ∧
  ∀ n, (k_nclk k1 ≤ n)%nat → ktime n - ktime (k_nclk k) < expiry_ns →
  ∃ k2, trm_inode_permission (Task pid (cred_of pid)) ino mask (set_nclk n k1) = Ok (0, k2) ∧
    (id_in_realm d = true →
     exempt (enclave_pid (k_pio k)) pid ino d
       (td_set_granted_pty (td_granted_pty td || ac_pty (abs_insert record A) pid) td) = false →
     ∃ td', k_creds k2 !! cred_of pid = Some td' ∧ td_in_realm td' = true).
Proof.
  intros pid Hclk Hm Hr Ho Hp H1 Hc Hs Hi Hpipe Hanon Hid Hop.
  destruct (insert_sim k A record Hm Hr Hp) as (k1 & He & Hr1 & Hc1 & Hf1).
  pose proof (insert_ordered cred_of Hclk record A Hp Ho) as Ho1.
  exists k1. split; [done|]. intros n Hn Hexp.
  rewrite (ref_clock _ _ Hr1) in Hn.
  pose proof (refines_tick k1 _ n Hr1) as Hr2. pose proof (ordered_tick cred_of _ n Hclk Ho1 Hn) as Ho2.
  set (A2 := tick n (abs_insert record A)) in *. set (k2 := set_nclk n k1) in *.
  assert (k_creds k2 !! cred_of pid = Some td) as Hc2 by (cbn; by rewrite Hc1).
  assert (k_inodes k2 !! i_ref ino = Some d) as Hi2 by (cbn; by rewrite (cf_inodes _ _ Hf1)).
  destruct (ticket_opens cred_of k2 A2 pid ino d td mask) as (k3 & He3 & Htaint); try done.
  { by apply (inserted_reserved k1 A record). }
  { apply inserted_ticket; [done|done|by rewrite <- (ref_clock _ _ Hr)]. }
  exists k3. split; [done|]. intros Hin Hex. apply Htaint; [done|]. cbn. by rewrite (cf_pio _ _ Hf1).
Qed.

(** C25: grants expire.  If no other ticket of the process matches the object,
    then from fifteen seconds after the installation of the record on, the
    [inode_permission] hook refuses the access that the record allowed, and the
    process is not tainted by the attempt. *)
Theorem grant_expires (cred_of : Z → positive) k A record ino d td mask :
  let pid := ur_pid record in
  (∀ n, 0 < ktime n < ktime (S n)) → (∀ n, kmem n = true) →
  refines k A → ordered cred_of A → is_pid pid → 1 < pid →
  k_creds k !! cred_of pid = Some td → i_security ino = true → k_inodes k !! i_ref ino = Some d →
  i_magic ino ≠ PIPEFS_MAGIC →
  (∀ t, t ∈ ac_tickets A (Cred (cred_of pid)) ++ ac_tickets A (Res pid) → ti_identifier t ≠ id_identifier d) →
  exempt (enclave_pid (k_pio k)) pid ino d
    (td_set_granted_pty (td_granted_pty td || ac_pty (abs_insert record A) pid) td) = false →
  ∃ k1, insert_ticket record k = Ok (true, k1) ∧
  ∀ n, (k_nclk k1 ≤ n)%nat → expiry_ns ≤ ktime n - ktime (k_nclk k) →
  ∃ k2 td', trm_inode_permission (Task pid (cred_of pid)) ino mask (set_nclk n k1) = Ok (- EACCES, k2) ∧
    k_creds k2 !! cred_of pid = Some td' ∧ td_in_realm td' = td_in_realm td.
Proof.
  intros pid Hclk Hm Hr Ho Hp H1 Hc Hs Hi Hpipe Hno Hex.
  destruct (insert_sim k A record Hm Hr Hp) as (k1 & He & Hr1 & Hc1 & Hf1).
  pose proof (insert_ordered cred_of Hclk record A Hp Ho) as Ho1.
  exists k1. split; [done|]. intros n Hn Hexp. rewrite (ref_clock _ _ Hr1) in Hn.
  pose proof (refines_tick k1 _ n Hr1) as Hr2. pose proof (ordered_tick cred_of _ n Hclk Ho1 Hn) as Ho2.
  set (A2 := tick n (abs_insert record A)) in *. set (k2 := set_nclk n k1) in *.
  assert (inode_kept ino td d = d) as Hd
    by (unfold inode_kept; rewrite (proj2 (Z.eqb_neq _ _) Hpipe), andb_false_r; done).
  destruct (permission_abs cred_of k2 A2 pid ino d td mask Hr2 Ho2 Hp H1)
    as (r & k3 & td' & He3 & Hrv & Hc3 & Htd);
    [by apply (inserted_reserved k1 A record)|cbn; by rewrite Hc1|done|cbn; by rewrite (cf_inodes _ _ Hf1)|].
  rewrite Hd in Hrv, Htd. cbn [k2 set_nclk k_pio] in Hrv, Htd. rewrite (cf_pio _ _ Hf1) in Hrv, Htd.
  cbn [A2 tick ac_pty] in Hrv, Htd. fold pid in Hex. rewrite Hex in Hrv, Htd. cbn [orb negb andb] in Hrv, Htd.
  exists k3, td'. rewrite Hc3, lookup_insert_eq.
  destruct (ticketed d CITADEL_OP_OPEN _) eqn:E; subst r.
  2:{ split_and!; [done|done|]. rewrite Htd. cbn. by rewrite orb_false_r. }
  exfalso. apply (ticketed_iff cred_of A2 pid d CITADEL_OP_OPEN Ho2 Hp) in E as (_ & t & Ht & Hid & _ & Hlt).
  cbn in Ht, Hlt. unfold abs_insert in Ht.
  destruct (Z.eqb_spec (ur_operation record) CITADEL_OP_PTY_ACCESS); cbn [ac_tickets] in Ht; [by apply (Hno t)|].
  rewrite fn_lookup_insert_ne, fn_lookup_insert in Ht by done. rewrite app_assoc in Ht.
  apply elem_of_app in Ht as [Ht| ->%list_elem_of_singleton]; [by apply (Hno t)|].
  cbn in Hlt. rewrite <- (ref_clock _ _ Hr) in Hlt. lia.
Qed.
End theorems.

(** ** Witnesses *)
#[local] Existing Instance demo_kernel.
#[local] Existing Instance rb_rotating.
#[local] Existing Instance demo_crypto.

Definition demo_inode : inode := Inode 5 100 false 0xEF53 true.
Definition demo_label : citadel_inode_data := InodeData true false true false false (replicate 16 7).
Definition demo_inodes : gmap positive citadel_inode_data := {[ 5%positive := demo_label ]}.
Definition demo_world : kstate := demo_state two_tasks demo_inodes.

(** A process that holds one ticket for the object. *)
Definition demo_ticket : ticket_info := Info (replicate 16 7) CITADEL_OP_OPEN 5.
Definition ticket_world : kstate :=
  set_heap {[ 1%positive := cell demo_ticket (Some 1%positive) (Some 1%positive) ]}
    (demo_state {[ 3%positive := TaskData false false (Some 1%positive) 10 (replicate 16 1) ]} demo_inodes).

Lemma can_access_decides_witness :
  can_access (Task 10 3) (Some demo_inode) CITADEL_OP_OPEN ticket_world =
  Ok (0, set_creds (alter (td_set_in_realm true) 3%positive (k_creds ticket_world)) ticket_world).
Proof.
  rewrite (can_access_decides ticket_world (Task 10 3) demo_inode demo_label
    (TaskData false false (Some 1%positive) 10 (replicate 16 1)) [(1%positive, demo_ticket)] CITADEL_OP_OPEN).
  - replace (exempt _ _ _ _ _) with false by (vm_compute; reflexivity).
    replace (negb _ && _) with true by (vm_compute; reflexivity). reflexivity.
  - split; [done|done|done|]. apply ring_single. vm_compute. done.
Defined.

Lemma demo_world_refines : refines demo_world empty_cache.
Proof. apply demo_refines, two_tasks_ok. Qed.

(** The process of the witness had a ticket once. *)
Definition served_world : kstate := set_resv (Node Leaf (Reservation 10 None false) Leaf) demo_world.
Lemma served_world_refines : refines served_world empty_cache.
Proof.
  destruct demo_world_refines as [_ Hq Hg Hn]. split; [| |done|done].
  - exists (λ _, []). split; [|done]. pose proof (demo_rep two_tasks demo_inodes) as [Hb Hring Hd Hf].
    { intros c td Hc. by apply (two_tasks_ok c). }
    split; [split; cbn; repeat constructor; unfold in_window; cbn; lia| |done|done].
    intros [q|c] Ho; [|by apply (Hring (Cred c))]. cbn. unfold ticket_search, key_cmp. cbn. by repeat case_if.
  - intros q Hp. unfold pty_pending, node_of, ticket_search, key_cmp. cbn. by repeat case_if.
Qed.


Lemma grant_then_access_witness :
  ∃ k1, insert_ticket (demo_record 10 7 CITADEL_OP_OPEN) demo_world = Ok (true, k1) ∧
  ∃ k2, trm_inode_permission (Task 10 (demo_cred 10)) demo_inode 4 (set_nclk 10 k1) = Ok (0, k2).
Proof.
  destruct (grant_then_access demo_cred demo_world empty_cache (demo_record 10 7 CITADEL_OP_OPEN)
    demo_inode demo_label (demo_task 10) 4) as (k1 & He & Hacc).
  1: apply demo_clock. 1: done. 1: apply demo_world_refines. 1: apply demo_ordered.
  1: cbn; unfold is_pid; lia. 1: cbn; lia. 1-7: done.
  exists k1. split; [done|]. destruct (Hacc 10%nat) as (k2 & He2 & _).
  - assert (obs (λ _, k_nclk) (insert_ticket (demo_record 10 7 CITADEL_OP_OPEN) demo_world) = Some 1%nat) as Hn
      by (vm_compute; reflexivity).
    rewrite He in Hn. injection Hn as Hn. lia.
  - vm_compute. done.
  - by exists k2.
Defined.

Lemma grant_expires_witness :
  ∃ k1, insert_ticket (demo_record 10 7 CITADEL_OP_OPEN) demo_world = Ok (true, k1) ∧
  ∃ k2, trm_inode_permission (Task 10 (demo_cred 10)) demo_inode 4 (set_nclk 15 k1) = Ok (- EACCES, k2).
Proof.
  destruct (grant_expires demo_cred demo_world empty_cache (demo_record 10 7 CITADEL_OP_OPEN)
    demo_inode demo_label (demo_task 10) 4) as (k1 & He & Hacc).
  1: apply demo_clock. 1: done. 1: apply demo_world_refines. 1: apply demo_ordered.
  1: cbn; unfold is_pid; lia. 1: cbn; lia. 1-4: done.
  1: intros t Ht; by apply elem_of_nil in Ht. 1: vm_compute; done.
  exists k1. split; [done|]. destruct (Hacc 15%nat) as (k2 & td' & He2 & _).
  - assert (obs (λ _, k_nclk) (insert_ticket (demo_record 10 7 CITADEL_OP_OPEN) demo_world) = Some 1%nat) as Hn
      by (vm_compute; reflexivity).
    rewrite He in Hn. injection Hn as Hn. lia.
  - vm_compute. done.
  - by exists k2.
Defined.
