(* ===== verification/Invariants.v ===== *)
(** * What every entry point preserves

    A relation between states that survives each primitive action of the
    kernel survives every hook and every file operation.  [Kept] lists the
    primitives once; the lemmas below lift them to the functions of the module,
    and [keep_tac] discharges a function by following its structure.  It is
    instantiated with the realm: a tainted process stays tainted and a labelled
    inode stays labelled, except where the kernel creates the object anew or
    the enclave relabels it. *)

From S2P Require Import Prelude Shared Hex RBTree Kernel Ring Tickets Access Crypto PayloadIO FileIO Shm Hooks.

Create HintDb keep.

Section keeps.
Context `{HKer : Kernel} `{HRb : RbTree} `{HCry : KernelCrypto}.
Abbreviation K := (M kstate).

Definition keeps {A} (Q : relation kstate) (m : K A) : Prop :=
  ∀ k a k', m k = Ok (a, k') → Q k k'.

(** The relation survives every write that the module performs: any write to
    the bookkeeping of the module, and writes to blobs that do not take an
    object out of the realm. *)
Class Kept (Q : relation kstate) := {
  kept_po : PreOrder Q;
  kept_heap v k : Q k (set_heap v k);
  kept_brk v k : Q k (set_brk v k);
  kept_resv v k : Q k (set_resv v k);
  kept_shm v k : Q k (set_shm v k);
  kept_ipcs v k : Q k (set_ipcs v k);
  kept_disk v k : Q k (set_disk v k);
  kept_pio v k : Q k (set_pio v k);
  kept_nclk v k : Q k (set_nclk v k);
  kept_nmem v k : Q k (set_nmem v k);
  kept_nrnd v k : Q k (set_nrnd v k);
  kept_cred c f k : (∀ td, td_in_realm td = true → td_in_realm (f td) = true) →
    Q k (set_creds (alter f c (k_creds k)) k);
  kept_inode a f k : (∀ d, id_in_realm d = true → id_in_realm (f d) = true) →
    Q k (set_inodes (alter f a (k_inodes k)) k);
}.

Context (Q : relation kstate) `{HQ : !Kept Q}.
#[local] Existing Instance kept_po.

Lemma keeps_ret {A} (a : A) : keeps Q (mret a).
Proof. intros k b k' [= <- <-]. reflexivity. Qed.
Lemma keeps_crash {A} f : keeps Q (crash f : K A).
Proof. by intros k a k'. Qed.
Lemma keeps_bind {A B} (m : K A) (f : A → K B) : keeps Q m → (∀ a, keeps Q (f a)) → keeps Q (m ≫= f).
Proof.
  intros Hm Hf k b k' (a & k1 & H1 & H2)%bind_ok_inv.
  etrans; [by eapply Hm|by eapply Hf].
Qed.
Lemma keeps_gets {A} (f : kstate → A) : keeps Q (gets f).
Proof. intros k a k' [= <- <-]. reflexivity. Qed.
Lemma keeps_when b (m : K unit) : keeps Q m → keeps Q (when b m).
Proof. destruct b; [done|]. intros _. apply keeps_ret. Qed.
Lemma keeps_modify f : (∀ k, Q k (f k)) → keeps Q (modify f).
Proof. intros Hf k a k' [= <- <-]. apply Hf. Qed.
End keeps.

#[export] Hint Extern 0 (Kept _) => exact _ : keep.
#[export] Hint Resolve keeps_ret keeps_crash keeps_bind keeps_gets keeps_when : keep.

(** Follow the structure of the program; case analysis on every test. *)
Ltac keep_step :=
  lazymatch goal with
  | |- keeps _ (mbind _ _) => apply keeps_bind; [exact _| |let x := fresh "x" in intros x; try (destruct x as [? ?])]
  | |- keeps _ (mret _) => apply keeps_ret; exact _
  | |- keeps _ (crash _) => apply keeps_crash
  | |- keeps _ (gets _) => apply keeps_gets; exact _
  | |- keeps _ (when _ _) => apply keeps_when; [exact _|]
  | |- keeps _ (if ?b then _ else _) => destruct b
  | |- keeps _ (match ?x with _ => _ end) => destruct x
  | |- keeps _ (let _ := _ in _) => cbv zeta
  | |- keeps _ _ => fail
  end.
Ltac keep_tac := repeat first [assumption | solve [auto with keep] | keep_step]; try solve [auto with keep].

Section primitives.
Context `{HKer : Kernel} `{HRb : RbTree} `{HCry : KernelCrypto} (Q : relation kstate) `{HQ : !Kept Q}.
#[local] Existing Instance kept_po.

Lemma keeps_ktime_get : keeps Q ktime_get.
Proof. intros k a k' [= <- <-]. apply kept_nclk. Qed.
Lemma keeps_kmalloc : keeps Q kmalloc.
Proof. intros k a k' [= <- <-]. apply kept_nmem. Qed.
Lemma keeps_random n : keeps Q (get_random_bytes n).
Proof. intros k a k' [= <- <-]. apply kept_nrnd. Qed.
Lemma keeps_load p : keeps Q (load p).
Proof. intros k a k' H. apply load_inv in H as [-> _]. reflexivity. Qed.
Lemma keeps_store p f : keeps Q (store p f).
Proof.
  intros k a k'. unfold store. destruct p as [b|]; [|done]. destruct (k_heap k !! b); [|done].
  intros [= <- <-]. apply kept_heap.
Qed.
Lemma keeps_new_ticket : keeps Q new_ticket.
Proof. intros k a k' [= <- <-]. etrans; [apply kept_heap|apply kept_brk]. Qed.
Lemma keeps_kfree_ticket p : keeps Q (kfree_ticket p).
Proof.
  intros k a k'. unfold kfree_ticket. destruct p as [b|]; [|intros [= <- <-]; reflexivity].
  destruct (k_heap k !! b); [|done]. intros [= <- <-]. apply kept_heap.
Qed.
Lemma keeps_load_cred c : keeps Q (load_cred c).
Proof. intros k a k'. unfold load_cred. case_match; [|done]. intros [= <- <-]. reflexivity. Qed.
Lemma keeps_load_inode p : keeps Q (load_inode p).
Proof.
  intros k a k'. unfold load_inode. destruct p; [|done]. case_match; [|done]. intros [= <- <-]. reflexivity.
Qed.
Lemma keeps_load_ipc p : keeps Q (load_ipc p).
Proof.
  intros k a k'. unfold load_ipc. destruct p; [|done]. case_match; [|done]. intros [= <- <-]. reflexivity.
Qed.
Lemma keeps_load_resv p : keeps Q (load_resv p).
Proof. intros k a k'. unfold load_resv. case_match; [|done]. intros [= <- <-]. reflexivity. Qed.
Lemma keeps_store_cred c f :
  (∀ td, td_in_realm td = true → td_in_realm (f td) = true) → keeps Q (store_cred c f).
Proof.
  intros Hf k a k'. unfold store_cred. case_match; [|done]. intros [= <- <-]. by apply kept_cred.
Qed.
Lemma keeps_store_inode p f :
  (∀ d, id_in_realm d = true → id_in_realm (f d) = true) → keeps Q (store_inode p f).
Proof.
  intros Hf k a k'. unfold store_inode. destruct p; [|done]. case_match; [|done].
  intros [= <- <-]. by apply kept_inode.
Qed.
Lemma keeps_store_ipc p f : keeps Q (store_ipc p f).
Proof.
  intros k a k'. unfold store_ipc. destruct p; [|done]. case_match; [|done].
  intros [= <- <-]. apply kept_ipcs.
Qed.
Lemma keeps_store_resv p f : keeps Q (store_resv p f).
Proof. apply keeps_modify. intros k. apply kept_resv. Qed.
Lemma keeps_set_resv t : keeps Q (modify (set_resv t)).
Proof. apply keeps_modify. intros k. apply kept_resv. Qed.
Lemma keeps_set_shm t : keeps Q (modify (set_shm t)).
Proof. apply keeps_modify. intros k. apply kept_shm. Qed.
Lemma keeps_upd_shm f : keeps Q (modify (λ k, set_shm (f k) k)).
Proof. apply keeps_modify. intros k. apply kept_shm. Qed.
Lemma keeps_set_pio f : keeps Q (set_pio_field f).
Proof. apply keeps_modify. intros k. apply kept_pio. Qed.
Lemma keeps_setxattr de n v : keeps Q (setxattr_noperm de n v).
Proof.
  intros k a k'. unfold setxattr_noperm. destruct (vfs_setxattr_noperm _ _ _ _). intros [= <- <-].
  apply kept_disk.
Qed.
Lemma keeps_removexattr de n : keeps Q (removexattr de n).
Proof.
  intros k a k'. unfold removexattr. destruct (vfs_removexattr _ _ _). intros [= <- <-]. apply kept_disk.
Qed.
End primitives.

#[export] Hint Resolve keeps_ktime_get keeps_kmalloc keeps_random keeps_load keeps_store keeps_new_ticket
  keeps_kfree_ticket keeps_load_cred keeps_load_inode keeps_load_ipc keeps_load_resv keeps_store_ipc
  keeps_store_resv keeps_set_resv keeps_set_shm keeps_upd_shm keeps_set_pio keeps_setxattr
  keeps_removexattr keeps_store_cred keeps_store_inode : keep.

Section functions.
Context `{HKer : Kernel} `{HRb : RbTree} `{HCry : KernelCrypto} (Q : relation kstate) `{HQ : !Kept Q}.

Lemma keeps_kmalloc_unchecked : keeps Q kmalloc_unchecked.
Proof. unfold kmalloc_unchecked. keep_tac. Qed.
Lemma keeps_alloc_ticket : keeps Q alloc_ticket.
Proof. unfold alloc_ticket. keep_tac. Qed.
Lemma keeps_count_tickets fuel p c : keeps Q (count_tickets fuel p c).
Proof. revert p c. induction fuel as [|fuel IH]; intros; cbn [count_tickets]; keep_tac. Qed.
Lemma keeps_skip_expired fuel thr p c : keeps Q (skip_expired fuel thr p c).
Proof. revert p c. induction fuel as [|fuel IH]; intros; cbn [skip_expired]; keep_tac. Qed.
Lemma keeps_free_tickets n p : keeps Q (free_tickets n p).
Proof. revert p. induction n as [|n IH]; intros; cbn [free_tickets]; keep_tac. Qed.
Lemma keeps_scan_tickets fuel id op p tr : keeps Q (scan_tickets fuel id op p tr).
Proof. revert p tr. induction fuel as [|fuel IH]; intros; cbn [scan_tickets]; keep_tac. Qed.
#[local] Hint Resolve keeps_kmalloc_unchecked keeps_alloc_ticket keeps_count_tickets keeps_skip_expired
  keeps_free_tickets keeps_scan_tickets : keep.

Lemma keeps_check_ticket_cache current : keeps Q (check_ticket_cache current).
Proof.
  unfold check_ticket_cache, claim_pty, install_pending, splice_tickets, remove_expired, test_reservation. keep_tac.
Qed.
#[local] Hint Resolve keeps_check_ticket_cache : keep.
Lemma keeps_insert_ticket r : keeps Q (insert_ticket r).
Proof. unfold insert_ticket, find_or_create_reservation, link_ticket. keep_tac. Qed.
#[local] Hint Resolve keeps_insert_ticket : keep.

Lemma keeps_to_hexstring b : keeps Q (to_hexstring_k b).
Proof. unfold to_hexstring_k. keep_tac. Qed.
Lemma keeps_hexstring_to_bytes b : keeps Q (hexstring_to_bytes_k b).
Proof. unfold hexstring_to_bytes_k. keep_tac. Qed.
#[local] Hint Resolve keeps_to_hexstring keeps_hexstring_to_bytes : keep.
Lemma keeps_set_identifier de v : keeps Q (__internal_set_identifier de v).
Proof. unfold __internal_set_identifier, __internal_set_xattr. keep_tac. Qed.
Lemma keeps_get_identifier de i : keeps Q (get_xattr_identifier de i).
Proof. unfold get_xattr_identifier, getxattr. keep_tac. Qed.
#[local] Hint Resolve keeps_set_identifier keeps_get_identifier : keep.

Lemma keeps_task_housekeeping current : keeps Q (task_housekeeping current).
Proof. unfold task_housekeeping. keep_tac. Qed.
Lemma keeps_inode_housekeeping current p i : keeps Q (inode_housekeeping current p i).
Proof. unfold inode_housekeeping. keep_tac. Qed.
#[local] Hint Resolve keeps_task_housekeeping keeps_inode_housekeeping : keep.
Lemma keeps_dentry_housekeeping current p de i : keeps Q (dentry_housekeeping current p de i).
Proof.
  unfold dentry_housekeeping, check_disk_xattr, write_disk_xattr, getxattr, set_xattr_in_realm,
    __internal_set_in_realm, __internal_set_xattr. keep_tac.
Qed.
#[local] Hint Resolve keeps_dentry_housekeeping : keep.
Lemma keeps_can_access current i op : keeps Q (can_access current i op).
Proof. unfold can_access, citadel_pid, pty_check. keep_tac. Qed.
#[local] Hint Resolve keeps_can_access : keep.
Lemma keeps_check_realm current p i op : keeps Q (check_realm current p i op).
Proof. unfold check_realm. keep_tac. Qed.

Lemma keeps_await r : keeps Q (await r).
Proof. unfold await. keep_tac. Qed.
#[local] Hint Resolve keeps_check_realm keeps_await : keep.
Lemma keeps_prepare_aead key data mode cap : keeps Q (prepare_aead key data mode cap).
Proof. unfold prepare_aead, trm_aes_operation, aead_iv, memcpy_out. keep_tac. Qed.
Lemma keeps_trm_akcrypto key data mode : keeps Q (trm_akcrypto key data mode).
Proof. unfold trm_akcrypto, uf_akcrypto, memcpy_out. keep_tac. Qed.
#[local] Hint Resolve keeps_prepare_aead keeps_trm_akcrypto : keep.
Lemma keeps_rsa_encrypt d : keeps Q (trm_rsa_encrypt d).
Proof. unfold trm_rsa_encrypt, trm_akcrypto_encrypt_pub, rsa_copy_out. keep_tac. Qed.
Lemma keeps_rsa_decrypt d : keeps Q (trm_rsa_decrypt d).
Proof. unfold trm_rsa_decrypt, trm_akcrypto_decrypt_priv, rsa_copy_out. keep_tac. Qed.
#[local] Hint Resolve keeps_rsa_encrypt keeps_rsa_decrypt : keep.

Lemma keeps_install_records plain i n : keeps Q (install_records plain i n).
Proof. revert i. induction n as [|n IH]; intros i; cbn [install_records]; keep_tac. Qed.
Lemma keeps_update_aes_key key : keeps Q (update_aes_key key).
Proof. unfold update_aes_key. keep_tac. Qed.
#[local] Hint Resolve keeps_install_records keeps_update_aes_key : keep.
Lemma keeps_process_received_update u : keeps Q (process_received_update u).
Proof. unfold process_received_update, system_ready, trm_aes_decrypt. keep_tac. Qed.
Lemma keeps_process_challenge_response r : keeps Q (process_challenge_response r).
Proof. unfold process_challenge_response. keep_tac. Qed.
Lemma keeps_generate_challenge : keeps Q generate_challenge.
Proof. unfold generate_challenge. keep_tac. Qed.
Lemma keeps_generate_update : keeps Q generate_update.
Proof. unfold generate_update, system_ready, trm_aes_encrypt. keep_tac. Qed.
Lemma keeps_generate_ptoken current : keeps Q (generate_ptoken current).
Proof. unfold generate_ptoken, system_ready, citadel_pid, trm_aes_encrypt, memcpy_out. keep_tac. Qed.
#[local] Hint Resolve keeps_process_received_update keeps_process_challenge_response
  keeps_generate_challenge keeps_generate_update keeps_generate_ptoken : keep.

Lemma keeps_copy_out d l c p u : keeps Q (copy_out d l c p u).
Proof. unfold copy_out. keep_tac. Qed.
Lemma keeps_read_len l : keeps Q (read_len l).
Proof. unfold read_len. keep_tac. Qed.
#[local] Hint Resolve keeps_copy_out keeps_read_len : keep.

Lemma keeps_add_to_shmid key pid : keeps Q (add_to_shmid key pid).
Proof. unfold add_to_shmid, find_or_create_shm. keep_tac. Qed.
#[local] Hint Resolve keeps_add_to_shmid : keep.
Lemma keeps_shm_can_access current p : keeps Q (shm_can_access current p).
Proof. unfold shm_can_access, allow_shm_access, citadel_pid. keep_tac. Qed.
Lemma keeps_realm_init_socket current p : keeps Q (realm_init_socket current p).
Proof. unfold realm_init_socket. keep_tac. Qed.
Lemma keeps_realm_init_socket_copy p q : keeps Q (realm_init_socket_copy p q).
Proof. unfold realm_init_socket_copy. keep_tac. Qed.
Lemma keeps_refresh current de : keeps Q (refresh current de).
Proof. unfold refresh. keep_tac. Qed.
#[local] Hint Resolve keeps_shm_can_access keeps_realm_init_socket keeps_realm_init_socket_copy keeps_refresh : keep.

(** Events that create an object anew or may relabel it. *)
Definition relabels (ev : lsm_event) : bool :=
  match ev with
  | inode_alloc_security _ | cred_alloc_blank _ | cred_prepare _ _ => true
  | inode_setxattr _ name _ _ => String.eqb name _CITADEL_XATTR_INSTALL
  | _ => false
  end.

Lemma keeps_hooks current ev : relabels ev = false → keeps Q (citadel_hooks current ev).
Proof.
  intros Hev. destruct ev; try discriminate Hev; cbn [citadel_hooks];
    unfold returning0, trm_bprm_check_security, trm_inode_init_security, trm_inode_free_security,
      trm_inode_permission, trm_inode_link, trm_inode_post_setxattr, trm_inode_getxattr,
      trm_inode_listxattr, trm_inode_removexattr, trm_inode_getsecurity, get_shmid_inhabitants,
      trm_d_instantiate, trm_file_permission, trm_file_ioctl, trm_file_open, trm_task_prctl,
      trm_task_kill, trm_task_free, trm_cred_free, trm_socket_post_create, trm_socket_socketpair,
      trm_socket_bind, trm_socket_accept, trm_socket_sendmsg, trm_socket_recvmsg, trm_socket_shutdown,
      under_protection, trm_ipc_alloc_security, trm_ipc_free_security, trm_shm_associate, trm_shm_shmctl,
      trm_shm_shmat, challenge_read, challenge_receive, update_read, update_receive, ptoken_read,
      sealed_keys_read, is_rsa_available, is_aes_available, system_ready; try solve [keep_tac].
  unfold trm_inode_setxattr. simpl in Hev. rewrite Hev. keep_tac.
Qed.
End functions.
