(* ===== verification/RealmTheorems.v ===== *)
(** * The realm is closed

    Taint and labels over whole histories of hook calls and file operations. *)

From S2P Require Import Prelude Shared Hex RBTree Kernel Ring Tickets TicketsSpec CacheModel Access.
From S2P Require Import Crypto Concrete CacheTheorems PayloadIO FileIO Shm Hooks AccessSpec AccessTheorems Invariants.

Section realm.
Context `{HKer : Kernel} `{HRb : RbTree} `{HCry : KernelCrypto}.

Definition tainted (c : positive) (k : kstate) : Prop :=
  ∃ td, k_creds k !! c = Some td ∧ td_in_realm td = true.
Definition labelled (a : positive) (k : kstate) : Prop :=
  ∃ d, k_inodes k !! a = Some d ∧ id_in_realm d = true.

Definition realm_kept (c a : positive) (k k' : kstate) : Prop :=
  (tainted c k → tainted c k') ∧ (labelled a k → labelled a k').

#[export] Instance realm_kept_po c a : PreOrder (realm_kept c a).
Proof. split; [done|]. intros x y z [] []. split; auto. Qed.

Lemma realm_kept_cred c a c' f k :
  c' ≠ c ∨ (∀ td, td_in_realm td = true → td_in_realm (f td) = true) →
  realm_kept c a k (set_creds (alter f c' (k_creds k)) k).
Proof.
  intros Hf. split; [|done]. intros (td & Hc & Ht). destruct (decide (c' = c)) as [->|Hne].
  - exists (f td). cbn. rewrite lookup_alter_eq, Hc. destruct Hf; [done|]. eauto.
  - exists td. cbn. by rewrite lookup_alter_ne.
Qed.
Lemma realm_kept_inode c a a' f k :
  a' ≠ a ∨ (∀ d, id_in_realm d = true → id_in_realm (f d) = true) →
  realm_kept c a k (set_inodes (alter f a' (k_inodes k)) k).
Proof.
  intros Hf. split; [done|]. intros (d & Hc & Ht). destruct (decide (a' = a)) as [->|Hne].
  - exists (f d). cbn. rewrite lookup_alter_eq, Hc. destruct Hf; [done|]. eauto.
  - exists d. cbn. by rewrite lookup_alter_ne.
Qed.

#[export] Instance realm_kept_kept c a : Kept (realm_kept c a).
Proof.
  split; try done; [exact _| |].
  - intros c' f k Hf. apply realm_kept_cred. auto.
  - intros a' f k Hf. apply realm_kept_inode. auto.
Qed.

(** The event neither creates the object anew nor asks the enclave to relabel
    it. *)
Definition spares (c a : positive) (ev : lsm_event) : Prop :=
  match ev with
  | inode_alloc_security i => i_ref i ≠ a
  | cred_alloc_blank new | cred_prepare new _ => new ≠ c
  | inode_setxattr de name _ _ => name ≠ _CITADEL_XATTR_INSTALL ∨ citadel_inode (d_inode de) ≠ Some a
  | _ => True
  end.

Lemma keeps_store_inode_ne c a p f : p ≠ Some a → keeps (realm_kept c a) (store_inode p f).
Proof.
  intros Hp k x k'. unfold store_inode. destruct p as [b|]; [|done]. case_match; [|done].
  intros [= <- <-]. apply realm_kept_inode. left. congruence.
Qed.
Lemma keeps_store_cred_ne c a c' f : c' ≠ c → keeps (realm_kept c a) (store_cred c' f).
Proof.
  intros Hp k x k'. unfold store_cred. case_match; [|done].
  intros [= <- <-]. apply realm_kept_cred. auto.
Qed.

Lemma keeps_installation c a v de :
  citadel_inode (d_inode de) ≠ Some a → keeps (realm_kept c a) (xattr_enclave_installation v de).
Proof.
  intros Hne. pose proof (λ f, keeps_store_inode_ne c a _ f Hne) as Hs.
  pose proof (keeps_update_aes_key (realm_kept c a)) as Hu.
  pose proof (keeps_prepare_aead (realm_kept c a)) as Hp.
  pose proof (keeps_to_hexstring (realm_kept c a)) as Hh.
  unfold xattr_enclave_installation, system_ready, trm_aes_decrypt, induct, declassify. keep_tac.
Qed.

Lemma keeps_spared c a current ev : spares c a ev → keeps (realm_kept c a) (citadel_hooks current ev).
Proof.
  intros Hsp. destruct (relabels ev) eqn:E; [|apply (keeps_hooks _); done].
  destruct ev; try discriminate E; cbn [citadel_hooks]; simpl in Hsp.
  - pose proof (keeps_inode_housekeeping (realm_kept c a)) as Hk.
    unfold trm_inode_alloc_security. cbn [citadel_inode]. destruct (i_ino i <? 2); [keep_tac|].
    apply keeps_bind; [exact _|apply keeps_store_inode_ne; case_match; congruence|intros _]. keep_tac.
  - simpl in E. apply String.eqb_eq in E as ->. destruct Hsp as [Hsp|Hsp]; [done|].
    pose proof (keeps_installation c a value de Hsp) as Hk.
    unfold trm_inode_setxattr, system_ready. keep_tac.
  - pose proof (λ f, keeps_store_cred_ne c a cred f Hsp) as Hs.
    unfold trm_cred_alloc_blank, init_task_trm. keep_tac.
  - pose proof (λ f, keeps_store_cred_ne c a new f Hsp) as Hs.
    unfold trm_cred_prepare, init_task_trm. keep_tac.
Qed.

Lemma keeps_events c a evs :
  Forall (λ e, spares c a e.2) evs → keeps (realm_kept c a) (run_events evs).
Proof.
  induction 1 as [|[current ev] evs Hev _ IH]; cbn [run_events]; [keep_tac|].
  apply keeps_bind; [exact _|by apply keeps_spared|by intros _].
Qed.

(** C22: taint and labels stick.  Through any history of hook calls and file
    operations by any processes, a tainted process stays tainted and a labelled
    inode stays labelled, as long as the kernel does not initialise that object
    anew and no installation request of the enclave names that inode. *)
Theorem realm_is_sticky c a evs k k' :
  Forall (λ e, spares c a e.2) evs → run_events evs k = Ok (tt, k') →
  (tainted c k → tainted c k') ∧ (labelled a k → labelled a k').
Proof. intros Hsp He. by apply (keeps_events c a evs Hsp k tt k'). Qed.

(** What [cred_prepare] gives to a forked process: the taint and the PTY
    right of its parent, a fresh identifier, the PID still to be recorded, and
    no tickets; the parent keeps everything. *)
Theorem fork_inherits_taint new old k tn to :
  new ≠ old → k_creds k !! new = Some tn → k_creds k !! old = Some to →
  ∃ k', trm_cred_prepare new old k = Ok (0, k') ∧
    k_creds k' !! new = Some (TaskData (td_in_realm to) (td_granted_pty to) None 1
      (krand (k_nrnd k) _CITADEL_IDENTIFIER_LENGTH)) ∧
    ∀ c, c ≠ new → k_creds k' !! c = k_creds k !! c.
Proof.
  intros Hne Hn Ho. unfold trm_cred_prepare, init_task_trm. rewrite bind_assoc.
  erewrite (bind_ok (get_random_bytes _)) by done. rewrite bind_assoc.
  erewrite (bind_ok (store_cred _ _)); [|by eapply store_cred_some]. rewrite bind_assoc.
  erewrite (bind_ok (load_cred _)); [|apply load_cred_some; cbn; by rewrite lookup_alter_ne].
  rewrite bind_assoc.
  erewrite (bind_ok (store_cred _ _)); [|eapply store_cred_some; cbn; by rewrite lookup_alter_eq, Hn].
  erewrite (bind_ok (store_cred _ _)); [|eapply store_cred_some; cbn; by rewrite !lookup_alter_eq, Hn].
  eexists. split; [done|]. cbn. split.
  - by rewrite !lookup_alter_eq, Hn.
  - intros c Hc. by rewrite !lookup_alter_ne.
Qed.

(** The socket hooks never refuse.  [can_access] exempts every inode of
    the socket file system, where all sockets live, so bind, accept, sendmsg
    and recvmsg answer 0 whenever they return, also for a tainted process
    without any ticket that sends to an external address. *)
Theorem socket_hooks_never_refuse current sock newsock family k r k' :
  i_magic (sock_inode sock) = SOCKFS_MAGIC →
  citadel_hooks current (socket_bind sock family) k = Ok (r, k') ∨
  citadel_hooks current (socket_accept sock newsock) k = Ok (r, k') ∨
  citadel_hooks current (socket_sendmsg sock) k = Ok (r, k') ∨
  citadel_hooks current (socket_recvmsg sock) k = Ok (r, k') → r = 0.
Proof.
  intros Hm.
  assert (∀ op k r k', can_access current (Some (sock_inode sock)) op k = Ok (r, k') → r = 0) as Hc.
  { intros op k0 r0 k0'. unfold can_access. cbv zeta. destruct (citadel_inode _); [|by intros [= <- _]].
    case_if; [by intros [= <- _]|]. intros (d & k1 & _ & H1)%bind_ok_inv. revert H1.
    intros (td & k2 & _ & H2)%bind_ok_inv. revert H2. rewrite Hm. cbn [Z.eqb SOCKFS_MAGIC Pos.eqb].
    repeat case_if; by intros [= <- _]. }
  cbn [citadel_hooks]. unfold trm_socket_bind, trm_socket_accept, trm_socket_sendmsg, trm_socket_recvmsg.
  intros [H|[H|[H|H]]];
    repeat (apply bind_ok_inv in H as (?x & ?k & ?Hx & H));
    repeat (match type of H with context [if ?b then _ else _] => destruct b end;
      repeat (apply bind_ok_inv in H as (?x & ?k & ?Hy & H)));
    first [by injection H as <- _ | by eapply Hc].
Qed.
End realm.

(** ** Witnesses *)
#[local] Existing Instance demo_kernel.
#[local] Existing Instance rb_rotating.
#[local] Existing Instance demo_crypto.

Definition tainted_tasks : gmap positive citadel_task_data :=
  {[ 20%positive := TaskData true false None 1 (replicate 16 1);
     21%positive := TaskData false false None 1 (replicate 16 2) ]}.
Definition tainted_world : kstate := demo_state tainted_tasks demo_inodes.
Definition demo_history : list (task_struct * lsm_event) :=
  [(Task 10 20, task_prctl); (Task 11 21, cred_prepare 21 20); (Task 10 20, inode_permission demo_inode 4);
   (Task 11 21, update_file_write (replicate 64 0) true)].

Lemma realm_is_sticky_witness :
  ∃ k', run_events demo_history tainted_world = Ok (tt, k') ∧ tainted 20 k' ∧ labelled 5 k'.
Proof.
  destruct (run_events demo_history tainted_world) as [[[] k']|f] eqn:E.
  - exists k'. split; [done|].
    destruct (realm_is_sticky 20 5 demo_history tainted_world k') as [Ht Hl]; [|done|].
    + repeat constructor; cbn; done.
    + split; [apply Ht|apply Hl]; eexists; split; [reflexivity|done|reflexivity|done].
  - exfalso. apply (f_equal (obs (λ _ _, true))) in E. vm_compute in E. discriminate E.
Defined.

Lemma fork_inherits_taint_witness :
  ∃ k', trm_cred_prepare 21 20 tainted_world = Ok (0, k') ∧ tainted 21 k'.
Proof.
  destruct (fork_inherits_taint 21 20 tainted_world (TaskData false false None 1 (replicate 16 2))
    (TaskData true false None 1 (replicate 16 1))) as (k' & He & Hn & _); [done|done|done|].
  exists k'. split; [done|]. eexists. split; [exact Hn|done].
Defined.

Definition demo_socket : socket := Socket (Inode 5 200 false SOCKFS_MAGIC true).

Lemma socket_hooks_never_refuse_witness :
  ∃ k', trm_socket_bind (Task 10 20) demo_socket 2 tainted_world = Ok (0, k').
Proof.
  destruct (trm_socket_bind (Task 10 20) demo_socket 2 tainted_world) as [[r k']|f] eqn:E.
  - exists k'. rewrite (socket_hooks_never_refuse (Task 10 20) demo_socket demo_socket 2 tainted_world r k'); [done|done|].
    by left.
  - exfalso. apply (f_equal (obs (λ _ _, true))) in E. vm_compute in E. discriminate E.
Defined.

(** ** Threads

    Two threads share their credentials but have their own PIDs. *)
Definition thread_run (c10 c11 : positive) : M kstate Z :=
  insert_ticket (demo_record 11 7 CITADEL_OP_OPEN);;
  insert_ticket (demo_record 10 8 CITADEL_OP_OPEN);;
  trm_task_prctl (Task 10 c10);;
  trm_inode_permission (Task 11 c11) demo_inode 4.

(** Grants are lost between threads.  A ticket for thread 11 is issued one
    second before a ticket for thread 10; thread 10 runs a hook first, then
    thread 11 opens its object, two seconds after its grant.  With separate
    credentials the access is allowed; when the threads share their
    credentials, as POSIX threads do, the two lists are joined out of order,
    the scan stops at the older timestamp, and the access is refused. *)
Theorem threads_lose_grants :
  obs (λ r _, r) (thread_run 20 21 (demo_state tainted_tasks demo_inodes)) = Some 0 ∧
  obs (λ r _, r) (thread_run 20 20 (demo_state tainted_tasks demo_inodes)) = Some (- EACCES).
Proof. split; vm_compute; reflexivity. Qed.
