(* ===== verification/LabelSpec.v ===== *)
(** * Labels on disk

    The label of a file lives in two extended attributes, written by the
    enclave's installation requests or by the housekeeping of a new file, and
    read back the first time an inode is seen. *)

From S2P Require Import Prelude Shared Hex RBTree Kernel Ring Tickets TicketsSpec CacheModel Access.
From S2P Require Import Crypto PayloadIO FileIO Shm Hooks AccessSpec.

Section labels.
Context `{HKer : Kernel} `{HLaw : !KernelLaws} `{HRb : RbTree}.
Implicit Type k : kstate.

(** The file of [de] carries the label [id], with or without the terminating
    NUL. *)
Definition on_disk (D : disk) (de : dentry) (id : bytes) : Prop :=
  ∀ i, 0 ≤ (vfs_getxattr D de i _CITADEL_XATTR_IN_REALM 0).1 ∧
  ∃ x v, vfs_getxattr D de i _CITADEL_XATTR_IDENTIFIER _CITADEL_ENCODED_IDENTIFIER_LENGTH = (x, v) ∧
    0 < x ∧ (v = hex_body id ∨ v = hex_body id ++ [0]).

Definition identifier_ok (id : bytes) : Prop := bytes_ok id ∧ length id = 16%nat.

Lemma hex_identifier_length id : identifier_ok id → length (hex_body id) = 32%nat.
Proof. intros [_ Hl]. rewrite hex_body_length, Hl. done. Qed.

Lemma fill_on_disk id v :
  identifier_ok id → v = hex_body id ∨ v = hex_body id ++ [0] →
  fill _CITADEL_ENCODED_IDENTIFIER_LENGTH v = hex_body id ++ [0].
Proof.
  intros Hid Hv. pose proof (hex_identifier_length id Hid) as Hl.
  unfold fill, _CITADEL_ENCODED_IDENTIFIER_LENGTH, _CITADEL_IDENTIFIER_LENGTH.
  destruct Hv as [->| ->].
  - rewrite Hl. change (2 * 16 + 1 - 32)%nat with 1%nat. cbn [replicate].
    rewrite take_ge; [done|]. rewrite length_app, Hl. simpl. lia.
  - rewrite length_app, Hl. simpl (_ - _)%nat. cbn [replicate]. rewrite app_nil_r.
    rewrite take_ge; [done|]. rewrite length_app, Hl. simpl. lia.
Qed.

(** A blob that carries the label [id]. *)
Record carries (id : bytes) (d : citadel_inode_data) : Prop := Carries {
  ca_in_realm : id_in_realm d = true;
  ca_ident : id_identifier d = id;
  ca_anon : id_anonymous d = false }.

(** Reading the label into a blob that has not been filled yet. *)
Lemma check_disk_xattr_reads k a de i id d :
  (∀ n, kmem n = true) → identifier_ok id → on_disk (k_disk k) de id →
  k_inodes k !! a = Some d → id_checked_disk_xattr d = false → id_is_socket d = false →
  ∃ n d', check_disk_xattr (Some a) de i k =
      Ok (tt, set_nmem n (set_inodes (<[a := d']> (k_inodes k)) k)) ∧
    carries id d' ∧ id_needs_xattr_update d' = id_needs_xattr_update d.
Proof.
  intros Hm Hid Hd Ha Hck Hso. destruct (Hd i) as (H0 & x & v & Hx & Hpos & Hv).
  pose proof (fill_on_disk id v Hid Hv) as Hfill. destruct Hid as [Hb Hl].
  unfold check_disk_xattr. mstep (load_inode_some _ _ _ Ha). rewrite Hck, Hso. cbn [negb andb when].
  erewrite (bind_ok (store_inode _ _)); [|by eapply store_inode_some]. unfold getxattr at 1. mred.
  cbn [set_inodes k_disk]. destruct (vfs_getxattr (k_disk k) de i _CITADEL_XATTR_IN_REALM 0) as [rd w].
  simpl in H0. destruct (Z.geb_spec rd 0); [|lia]. cbn [when].
  erewrite (bind_ok (store_inode _ _)); [|eapply store_inode_some; cbn; by rewrite lookup_alter_eq, Ha].
  unfold get_xattr_identifier. rewrite bind_assoc. erewrite (bind_ok kmalloc) by done.
  rewrite bind_assoc. unfold getxattr. mred. cbn [set_inodes set_nmem k_disk k_nmem k_inodes]. rewrite Hx, Hm.
  destruct (Z.gtb_spec x 0); [|lia]. rewrite Hfill.
  destruct id as [|b0 id0] eqn:Eid; [done|].
  erewrite (bind_ok (hexstring_to_bytes_k _)); [|by apply hexstring_to_bytes_k_ok]. mred.
  cbv iota beta. rewrite Hl. cbn [Nat.ltb Nat.leb _CITADEL_IDENTIFIER_LENGTH].
  erewrite store_inode_some; [|cbn; by rewrite !lookup_alter_eq, Ha].
  cbn [set_inodes set_nmem k_disk k_nmem k_inodes].
  rewrite !alter_alter_eq, (alter_lookup _ _ _ _ Ha).
  eexists _, _. split; [reflexivity|].
  split; [|done]. split; [done| |done].
  change (take _CITADEL_IDENTIFIER_LENGTH (b0 :: id0) = b0 :: id0). apply take_ge. by rewrite Hl.
Qed.

(** Attributes that are written are read back; a write cannot remove the
    other attribute. *)
Lemma set_in_realm_on_disk D de D1 D2 id v de' :
  vfs_setxattr_noperm D de _CITADEL_XATTR_IDENTIFIER v = (0, D1) →
  vfs_setxattr_noperm D1 de _CITADEL_XATTR_IN_REALM [] = (0, D2) →
  v = hex_body id ∨ v = hex_body id ++ [0] → identifier_ok id → d_ref de' = d_ref de → on_disk D2 de' id.
Proof.
  intros H1 H2 Hv Hid Hde i. pose proof (hex_identifier_length id Hid) as Hl. split.
  - rewrite (get_setxattr _ _ _ i _ _ _ _ H2 Hde) by (simpl; lia). done.
  - rewrite (get_setxattr_ne _ _ _ i _ _ _ _ _ _ H2) by done.
    assert (0 < length v ≤ 33)%nat as Hlv
      by (destruct Hv as [->| ->]; rewrite ?length_app, Hl; simpl; lia).
    rewrite (get_setxattr _ _ _ i _ _ _ _ H1 Hde)
      by (unfold _CITADEL_ENCODED_IDENTIFIER_LENGTH, _CITADEL_IDENTIFIER_LENGTH; lia).
    exists (Z.of_nat (length v)), v. split_and!; [done|lia|done].
Qed.
Lemma set_identifier_on_disk D de D1 D2 id v de' :
  vfs_setxattr_noperm D de _CITADEL_XATTR_IN_REALM [] = (0, D1) →
  vfs_setxattr_noperm D1 de _CITADEL_XATTR_IDENTIFIER v = (0, D2) →
  v = hex_body id ∨ v = hex_body id ++ [0] → identifier_ok id → d_ref de' = d_ref de → on_disk D2 de' id.
Proof.
  intros H1 H2 Hv Hid Hde i. pose proof (hex_identifier_length id Hid) as Hl. split.
  - rewrite (get_setxattr_ne _ _ _ i _ _ _ _ _ _ H2) by done.
    rewrite (get_setxattr _ _ _ i _ _ _ _ H1 Hde) by (simpl; lia). done.
  - assert (0 < length v ≤ 33)%nat as Hlv
      by (destruct Hv as [->| ->]; rewrite ?length_app, Hl; simpl; lia).
    rewrite (get_setxattr _ _ _ i _ _ _ _ H2 Hde)
      by (unfold _CITADEL_ENCODED_IDENTIFIER_LENGTH, _CITADEL_IDENTIFIER_LENGTH; lia).
    exists (Z.of_nat (length v)), v. split_and!; [done|lia|done].
Qed.

(** Nothing is written for a blob that is up to date. *)
Lemma write_disk_xattr_clean k a de d :
  k_inodes k !! a = Some d → id_needs_xattr_update d = false → write_disk_xattr (Some a) de k = Ok (tt, k).
Proof.
  intros Ha Hn. unfold write_disk_xattr. mstep (load_inode_some _ _ _ Ha).
  by rewrite Hn, andb_false_l, andb_false_r.
Qed.

(** The housekeeping of a regular file whose blob is new: the label comes from
    the disk. *)
Lemma d_instantiate_reads k current de ino id d td :
  (∀ n, kmem n = true) → identifier_ok id → (∀ de', d_ref de' = d_ref de → on_disk (k_disk k) de' id) →
  i_security ino = true → i_magic ino ≠ PIPEFS_MAGIC → k_inodes k !! i_ref ino = Some d →
  k_creds k !! ts_cred current = Some td →
  id_checked_disk_xattr d = false → id_is_socket d = false → id_needs_xattr_update d = false →
  ∃ k' d', trm_d_instantiate current de (Some ino) k = Ok (tt, k') ∧
    k_inodes k' !! i_ref ino = Some d' ∧ carries id d'.
Proof.
  intros Hm Hid Hd Hs Hp Hi Hc Hck Hso Hn. unfold trm_d_instantiate, dentry_housekeeping.
  pose proof (inode_housekeeping_ok k current ino d td Hs Hi Hc) as He.
  assert (inode_kept ino td d = d) as Hkept
    by (unfold inode_kept; rewrite (proj2 (Z.eqb_neq _ _) Hp), andb_false_r; done).
  rewrite Hkept, insert_id, set_inodes_id in He by done.
  cbn [citadel_inode] in *. rewrite Hs in *. mstep He.
  destruct (check_disk_xattr_reads k (i_ref ino) (Dentry (d_ref de) (Some ino) (d_real_inode de)) (Some ino) id d)
    as (n & d' & He2 & Hca & Hn'); [done|done|by apply Hd|done..|].
  mstep He2. exists (set_nmem n (set_inodes (<[i_ref ino := d']> (k_inodes k)) k)), d'. split_and!; [|cbn; apply lookup_insert_eq|done].
  eapply write_disk_xattr_clean; [cbn; apply lookup_insert_eq|congruence].
Qed.
End labels.
