(* ===== verification/ProtocolSpec.v ===== *)
(** * What the protocol handlers do

    Updates, installation requests and registration, against the records they
    carry and the key they are sealed under. *)

From S2P Require Import Prelude Shared Hex RBTree Kernel Ring Tickets TicketsSpec CacheModel Access.
From S2P Require Import Crypto PayloadIO FileIO Shm Hooks AccessSpec LabelSpec.

(** The payload of an update: a header and its records; the padding of a
    record is arbitrary. *)
Definition enc_update (pad : bytes) (h : citadel_update_header) (recs : list citadel_update_record) : bytes :=
  enc_update_header h ++ concat (enc_update_record pad <$> recs).

Section protocol.
Context `{HKer : Kernel} `{HRb : RbTree} `{HCry : KernelCrypto} `{HLaw : !CryptoLaws}.
Implicit Types (k : kstate) (A : acache).

Lemma refines_ext k k' A :
  refines k A → k_heap k' = k_heap k → k_brk k' = k_brk k → k_resv k' = k_resv k →
  k_creds k' = k_creds k → k_nclk k' = k_nclk k → refines k' A.
Proof.
  intros [(L & Hr & HL) Hq Hg Hn] Hh Hb Hs Hc Hk. split; [| |by rewrite Hc|by rewrite Hk].
  - exists L. split; [|done]. eapply rep_ext; [exact Hr|done|done|rewrite Hs; apply Hr|].
    intros [q|c] _; cbn [head_of]; by rewrite ?Hs, ?Hc.
  - intros q Hq0. unfold pty_pending, node_of. rewrite Hs. by apply Hq.
Qed.

Definition abs_inserts (recs : list citadel_update_record) A : acache := foldl (λ A r, abs_insert r A) A recs.

Lemma install_records_ok pad pre suf i recs k A :
  (∀ n, kmem n = true) → length pad = 2%nat → length pre = record_offset i →
  Forall update_record_ok recs → Forall (λ r, is_pid (ur_pid r)) recs → refines k A →
  ∃ k', install_records (pre ++ concat (enc_update_record pad <$> recs) ++ suf) i (length recs) k = Ok (tt, k') ∧
    refines k' (abs_inserts recs A) ∧ k_creds k' = k_creds k ∧ cache_frame k k'.
Proof.
  intros Hm Hpad. revert pre i k A.
  induction recs as [|r recs IH]; intros pre i k A Hpre Hok Hpid Hr; [by exists k|].
  apply Forall_cons in Hok as [Hok Hoks]. apply Forall_cons in Hpid as [Hp Hps].
  pose proof (enc_update_record_length pad r Hpad Hok) as Hlr.
  cbn [length install_records].
  destruct (Nat.ltb_spec (length (pre ++ concat (enc_update_record pad <$> r :: recs) ++ suf)) (record_offset i + 22)) as [Hlt|_].
  { rewrite fmap_cons in Hlt. cbn [concat] in Hlt. rewrite !length_app, Hlr, Hpre in Hlt. lia. }
  rewrite fmap_cons. cbn [concat].
  rewrite drop_app_length' by done. rewrite <- app_assoc, dec_enc_update_record by done.
  destruct (insert_sim k A r Hm Hr Hp) as (k1 & He & Hr1 & Hc1 & Hf1). mstep He.
  destruct (IH (pre ++ enc_update_record pad r) (S i) k1 (abs_insert r A)) as (k2 & He2 & Hr2 & Hc2 & Hf2); [|done..|].
  { rewrite length_app, Hlr, Hpre. unfold record_offset.
    change (sizeof citadel_update_record_fields) with 24%nat. lia. }
  exists k2. rewrite <- app_assoc in He2. split_and!; [done|done|congruence|by etrans].
Qed.

(** The handlers decrypt into a zeroed buffer of the size of the message. *)
Lemma decrypted_buffer key iv payload :
  length iv = _CITADEL_IV_LENGTH →
  fill (length (seal key iv payload)) payload = payload ++ replicate 28 0.
Proof. intros Hiv. rewrite seal_length by done. apply fill_app. Qed.

Lemma enc_update_length pad h recs :
  length pad = 2%nat → update_header_ok h → Forall update_record_ok recs →
  length (enc_update pad h recs) = (25 + 24 * length recs)%nat.
Proof.
  intros Hp Hh Hr. unfold enc_update. rewrite length_app, enc_update_header_length by done. f_equal.
  induction Hr as [|r recs Hr _ IH]; [done|]. rewrite fmap_cons. cbn [concat length].
  rewrite length_app, IH, enc_update_record_length by done. lia.
Qed.

Lemma too_short_seal key iv payload :
  length iv = _CITADEL_IV_LENGTH → (0 < length payload)%nat → too_short (length (seal key iv payload)) = false.
Proof.
  intros Hiv Hp. unfold too_short. rewrite seal_length by done.
  apply Nat.leb_gt. unfold _CITADEL_IV_LENGTH, _CITADEL_TAG_LENGTH. lia.
Qed.

Lemma update_aes_key_ok key k :
  length key = 16%nat →
  update_aes_key key k = Ok (tt, set_pio (pio_set_aes_key (xor_bytes (aes_key (k_pio k)) key) (k_pio k)) k).
Proof.
  intros Hl. unfold update_aes_key. rewrite Hl. cbn [Nat.leb _CITADEL_AES_KEY_LENGTH when].
  rewrite take_ge by (unfold _CITADEL_AES_KEY_LENGTH; lia). done.
Qed.

Lemma process_received_update_ok pad h recs iv k A :
  (∀ n, kmem n = true) → registered (k_pio k) = true → length (aes_key (k_pio k)) = 16%nat →
  length iv = _CITADEL_IV_LENGTH → length pad = 2%nat → update_header_ok h →
  Forall update_record_ok recs → Forall (λ r, is_pid (ur_pid r)) recs →
  uh_records h = Z.of_nat (length recs) → refines k A →
  ∃ k', process_received_update (seal (aes_key (k_pio k)) iv (enc_update pad h recs)) k = Ok (tt, k') ∧
    refines k' (abs_inserts recs A) ∧
    k_pio k' = pio_set_aes_key (xor_bytes (aes_key (k_pio k)) (uh_key_update h)) (k_pio k) ∧
    k_creds k' = k_creds k ∧ k_inodes k' = k_inodes k ∧ k_rsa_available k' = k_rsa_available k ∧
    k_disk k' = k_disk k ∧ k_aes_available k' = k_aes_available k.
Proof.
  intros Hm Hreg Hk Hiv Hpad Hh Hok Hpid Hn Hr.
  set (payload := enc_update pad h recs). set (key := aes_key (k_pio k)) in *.
  pose proof (enc_update_length pad h recs Hpad Hh Hok) as Hlen. fold payload in Hlen.
  unfold process_received_update, system_ready. mred. rewrite Hreg, too_short_seal by (done || lia). cbn [negb].
  erewrite (bind_ok kmalloc_unchecked); [|by apply kmalloc_unchecked_ok]. mred. cbn [set_nmem k_pio]. fold key.
  set (k1 := set_nmem (S (k_nmem k)) k).
  mstep (trm_aes_decrypt_ok key iv payload (length (seal key iv payload)) k1 Hm Hk Hiv
    ltac:(rewrite seal_length by done; lia)).
  cbv zeta. cbn [from_option id]. rewrite decrypted_buffer by done.
  assert (dec_update_header (payload ++ replicate 28 0) = h) as Hhdr
    by (unfold payload, enc_update; rewrite <- app_assoc; by apply dec_enc_update_header).
  rewrite Hhdr, Hn, Nat2Z.id. unfold payload, enc_update. rewrite <- app_assoc.
  destruct (install_records_ok pad (enc_update_header h) (replicate 28 0) 0 recs (aes_spent k1) A)
    as (k2 & He2 & Hr2 & Hc2 & Hf2);
    [done|done|rewrite enc_update_header_length by done; reflexivity|done|done|by eapply refines_ext|].
  mstep He2. rewrite update_aes_key_ok by apply Hh. eexists. split; [reflexivity|].
  rewrite (cf_pio _ _ Hf2). cbn [set_pio k_pio k_creds k_inodes k_rsa_available k_disk k_aes_available k1 aes_spent set_nmem].
  split_and!; [by eapply refines_ext|done|by rewrite Hc2|by rewrite (cf_inodes _ _ Hf2)|by rewrite (cf_rsa _ _ Hf2)
              |by rewrite (cf_disk _ _ Hf2)|by rewrite (cf_aes _ _ Hf2)].
Qed.

Lemma dec_zero_header n :
  (25 ≤ n)%nat → dec_update_header (replicate n 0) = UpdateHeader (replicate 8 0) (replicate 16 0) 0.
Proof.
  intros Hn. replace n with (25 + (n - 25))%nat by lia. rewrite replicate_add.
  change (replicate 25 0) with (enc_update_header (UpdateHeader (replicate 8 0) (replicate 16 0) 0)).
  apply dec_enc_update_header. by split_and!.
Qed.

(** A message that does not decrypt is a message of zeros: no records, and a
    key update that changes nothing. *)
Lemma process_received_update_forged update k :
  (∀ n, kmem n = true) → length (aes_key (k_pio k)) = 16%nat →
  (∀ iv payload, length iv = _CITADEL_IV_LENGTH → update ≠ seal (aes_key (k_pio k)) iv payload) →
  ∃ n, process_received_update update k = Ok (tt, set_nmem n k).
Proof.
  intros Hm Hk Hforged. set (key := aes_key (k_pio k)) in *.
  unfold process_received_update, system_ready. mred.
  destruct (registered (k_pio k)); [|exists (k_nmem k); by destruct k]. cbn [negb].
  destruct (too_short (length update)) eqn:Ets; [exists (k_nmem k); by destruct k|].
  unfold too_short in Ets. apply Nat.leb_gt in Ets. unfold _CITADEL_IV_LENGTH, _CITADEL_TAG_LENGTH in Ets.
  erewrite (bind_ok kmalloc_unchecked); [|by apply kmalloc_unchecked_ok]. mred. cbn [set_nmem k_pio]. fold key.
  set (k1 := set_nmem (S (k_nmem k)) k).
  destruct (trm_aes_decrypt_eq key update (length update) k1 Hm Hk) as (err & _ & He); [lia|lia|].
  destruct (decide (err = 0)) as [Herr|Hne]; [rewrite Herr in He|rewrite (proj2 (Z.eqb_neq _ _) Hne) in He].
  { destruct (trm_aes_decrypt_authentic key update (length update) k1 _ _ Hm Hk ltac:(lia) ltac:(lia) He)
      as (iv & Hiv & Hs). destruct (Hforged iv _ Hiv Hs). }
  mstep He. cbv zeta. cbn [from_option id]. 
  change (fill (length update) []) with (fill (length (@nil Z) + length update) []). rewrite fill_app. cbn [app].
  rewrite dec_zero_header by lia. cbn [uh_records uh_key_update]. change (Z.to_nat 0) with 0%nat. cbn [install_records]. mred.
  rewrite update_aes_key_ok by done. exists (S (S (S (S (k_nmem k))))). do 2 f_equal.
  cbn [k1 aes_spent set_nmem k_pio k_nmem]. fold key. rewrite xor_bytes_zero by done.
  replace (pio_set_aes_key key (k_pio k)) with (k_pio k) by (unfold key; by destruct (k_pio k)). done.
Qed.
End protocol.

(** ** Installation requests *)
Section installation.
Context `{HKer : Kernel} `{HRb : RbTree} `{HCry : KernelCrypto} `{HLaw : !CryptoLaws}.
Implicit Types (k : kstate).

(** The part before the record is looked at, for a message that was sealed
    under the current key. *)
Lemma installation_accepts pad h r iv de k :
  let key := aes_key (k_pio k) in
  let p := citadel_inode (d_inode de) in
  let k1 := set_nmem (S (S (S (S (k_nmem k))))) k in
  (∀ n, kmem n = true) → registered (k_pio k) = true → length key = 16%nat →
  length iv = _CITADEL_IV_LENGTH → length pad = 2%nat → update_header_ok h → update_record_ok r →
  uh_signature h = challenge_signature → uh_records h = 1 →
  xattr_enclave_installation (seal key iv (enc_update pad h [r])) de k =
  (if has_flag (ur_operation r) CITADEL_OP_DECLASSIFY
   then declassify de p h ≫= λ _, crash Indeterminate else induct de p h r) k1.
Proof.
  intros key p k1 Hm Hreg Hk Hiv Hpad Hh Hr Hsig Hn.
  set (payload := enc_update pad h [r]).
  assert (length payload = 49%nat) as Hlen by (apply (enc_update_length pad h [r]); [done|done|by apply Forall_singleton]).
  unfold xattr_enclave_installation, system_ready. fold p. mred. rewrite Hreg, too_short_seal by (done || lia). cbn [negb].
  erewrite (bind_ok kmalloc) by done. mred. cbn [set_nmem k_pio]. fold key.
  mstep (trm_aes_decrypt_ok key iv payload (length (seal key iv payload)) (set_nmem (S (k_nmem k)) k) Hm Hk Hiv
    ltac:(rewrite seal_length by done; lia)).
  cbv zeta. rewrite Hm. cbn [Z.eqb negb from_option id]. rewrite decrypted_buffer by done.
  assert (dec_update_header (payload ++ replicate 28 0) = h) as Hhdr
    by (unfold payload, enc_update; rewrite <- app_assoc; by apply dec_enc_update_header).
  assert (dec_update_record (drop (record_offset 0) (payload ++ replicate 28 0)) = r) as Hrec.
  { unfold payload, enc_update. rewrite <- app_assoc.
    rewrite drop_app_length' by (by rewrite enc_update_header_length).
    cbn [fmap list_fmap concat]. rewrite app_nil_r. by apply dec_enc_update_record. }
  rewrite Hhdr, Hrec, Hsig, bytes_eqb_refl, Hn. cbn [negb Z.eqb Pos.eqb].
  destruct (Nat.ltb_spec (length (payload ++ replicate 28 0)) (record_offset 0 + 22)) as [Hlt|_].
  { rewrite length_app, Hlen in Hlt. change (record_offset 0) with 25%nat in Hlt. simpl in Hlt. lia. }
  done.
Qed.

Lemma induct_ok de a d h r k D1 :
  (∀ n, kmem n = true) → k_inodes k !! a = Some d → update_header_ok h → identifier_ok (ur_identifier r) →
  vfs_setxattr_noperm (k_disk k) de _CITADEL_XATTR_IDENTIFIER (hex_body (ur_identifier r)) = (0, D1) →
  let D2 := if has_flag (ur_operation r) CITADEL_OP_REGISTER
            then (vfs_setxattr_noperm D1 de _CITADEL_XATTR_IN_REALM []).2 else D1 in
  let d' := induct_label r (id_set_checked_disk_xattr true (id_set_needs_xattr_update false d)) in
  induct de (Some a) h r k = Ok (0,
    set_pio (pio_set_aes_key (xor_bytes (aes_key (k_pio k)) (uh_key_update h)) (k_pio k))
      (set_inodes (<[a := d']> (k_inodes k)) (set_disk D2 (set_nmem (S (k_nmem k)) k)))).
Proof.
  intros Hm Ha Hh Hid HD D2 d'. pose proof (hex_identifier_length _ Hid) as Hl. destruct Hid as [Hb Hlid].
  unfold induct. erewrite (bind_ok (store_inode _ _)); [|by eapply store_inode_some].
  erewrite (bind_ok (store_inode _ _)); [|eapply store_inode_some; cbn; by rewrite lookup_alter_eq, Ha].
  unfold to_hexstring_k. rewrite to_hexstring_some by (intros E; by rewrite E in Hlid).
  rewrite bind_assoc. erewrite (bind_ok kmalloc_unchecked); [|by apply kmalloc_unchecked_ok]. mred.
  cbn [from_option id]. change (2 * _CITADEL_IDENTIFIER_LENGTH)%nat with 32%nat. rewrite <- Hl, take_length_app.
  cbn [set_inodes set_nmem k_inodes k_nmem]. rewrite alter_alter_eq, (alter_lookup _ _ _ _ Ha).
  erewrite (bind_ok (setxattr_noperm _ _ _)); [|apply setxattr_ok; exact HD].
  set (k2 := set_disk D1 _). rewrite bind_when.
  assert (∀ (m : M kstate Z) (kk : kstate), ((setxattr_noperm de _CITADEL_XATTR_IN_REALM [] ≫= λ _, mret tt) ≫= λ _, m) kk =
    m (set_disk (vfs_setxattr_noperm (k_disk kk) de _CITADEL_XATTR_IN_REALM []).2 kk)) as Hset.
  { intros m kk. destruct (vfs_setxattr_noperm (k_disk kk) de _CITADEL_XATTR_IN_REALM []) as [rc D] eqn:E.
    rewrite !bind_assoc. by mstep (setxattr_ok _ _ _ _ _ _ E). }
  set (k3 := set_disk D2 k2).
  transitivity ((store_inode (Some a) (induct_label r) ≫= λ _,
     update_aes_key (uh_key_update h) ≫= λ _, mret 0) k3).
  { unfold k3, D2. destruct (has_flag (ur_operation r) CITADEL_OP_REGISTER); [by rewrite Hset|by destruct k]. }
  erewrite (bind_ok (store_inode _ _)); [|eapply store_inode_some; cbn; apply lookup_insert_eq].
  mstep (update_aes_key_ok (uh_key_update h) (set_inodes (alter (induct_label r) a (k_inodes k3)) k3)
    ltac:(apply Hh)).
  cbn. rewrite alter_insert_eq. done.
Qed.

(** A message that was not sealed under the current key, or has no signature,
    or does not hold exactly one record. *)
Lemma installation_rejects value de k :
  let key := aes_key (k_pio k) in
  (∀ n, kmem n = true) → length key = 16%nat →
  (∀ iv payload, length iv = _CITADEL_IV_LENGTH → value = seal key iv payload →
     let hdr := dec_update_header (payload ++ replicate 28 0) in
     uh_signature hdr ≠ challenge_signature ∨ uh_records hdr ≠ 1) →
  ∃ n, xattr_enclave_installation value de k = Ok (- 1, set_nmem n k).
Proof.
  intros key Hm Hk Hbad. unfold xattr_enclave_installation, system_ready. mred.
  destruct (registered (k_pio k)); [|exists (k_nmem k); by destruct k]. cbn [negb].
  destruct (too_short (length value)) eqn:Ets; [exists (k_nmem k); by destruct k|].
  unfold too_short in Ets. apply Nat.leb_gt in Ets. unfold _CITADEL_IV_LENGTH, _CITADEL_TAG_LENGTH in Ets.
  erewrite (bind_ok kmalloc) by done. mred. cbn [set_nmem k_pio]. fold key.
  set (k1 := set_nmem (S (k_nmem k)) k).
  destruct (trm_aes_decrypt_eq key value (length value) k1 Hm Hk) as (err & _ & He); [lia|lia|].
  destruct (decide (err = 0)) as [Herr|Hne].
  2:{ rewrite (proj2 (Z.eqb_neq _ _) Hne) in He. mstep He. rewrite (proj2 (Z.eqb_neq _ _) Hne). cbn [negb].
      by exists (S (S (S (S (k_nmem k))))). }
  rewrite Herr in He. cbn [Z.eqb] in He. set (payload := take _ _) in He.
  destruct (trm_aes_decrypt_authentic key value (length value) k1 _ _ Hm Hk ltac:(lia) ltac:(lia) He)
    as (iv & Hiv & Hs).
  mstep He. cbv zeta. cbn [Z.eqb negb from_option id]. rewrite Hm. cbn [negb].
  rewrite Hs. rewrite decrypted_buffer by done.
  destruct (bytes_eqb _ challenge_signature) eqn:Esig; cbn [negb]; [|by exists (S (S (S (S (k_nmem k)))))].
  apply bytes_eqb_eq in Esig.
  destruct (Z.eqb_spec (uh_records (dec_update_header (payload ++ replicate 28 0))) 1) as [E1|E1]; cbn [negb];
    [|by exists (S (S (S (S (k_nmem k)))))].
  exfalso. by destruct (Hbad iv payload Hiv Hs).
Qed.
End installation.
