(* ===== verification/ProtocolTheorems.v ===== *)
(** * Theorems on the protocol with the enclave *)

From S2P Require Import Prelude Shared Hex RBTree Kernel Ring Tickets TicketsSpec CacheModel Access.
From S2P Require Import Crypto Concrete CacheTheorems PayloadIO FileIO Shm Hooks AccessSpec AccessTheorems LabelSpec ProtocolSpec.

Section registration.
Context `{HKer : Kernel} `{HRb : RbTree} `{HCry : KernelCrypto} `{HLaw : !CryptoLaws}.
Implicit Types (k : kstate) (A : acache).

(** What the private key of the module makes of a response. *)
Definition rsa_plain (response : bytes) : option bytes :=
  let r := crypto_akcipher_decrypt (RSA_PRIV_KEY lsm_key_priv) response in
  if bool_decide (aead_wait_async_op r = Some 0) then Some (fill 256 (cr_out r)) else None.

Lemma trm_rsa_decrypt_ok response k :
  (∀ n, kmem n = true) → (length response ≤ PAGE_SIZE)%nat →
  ∃ n, trm_rsa_decrypt response k = Ok (rsa_plain response, set_nmem n k).
Proof.
  intros Hm Hl. unfold trm_rsa_decrypt, rsa_plain. cbv zeta.
  erewrite (bind_ok kmalloc) by done. rewrite Hm. cbn [negb].
  unfold trm_akcrypto_decrypt_priv, trm_akcrypto. rewrite akcipher_available. cbn [Z.eqb negb].
  rewrite bind_assoc. erewrite (bind_ok kmalloc) by done. rewrite Hm. cbn [negb].
  unfold uf_akcrypto. rewrite bind_assoc. erewrite (bind_ok kmalloc) by done. rewrite Hm. cbn [negb].
  rewrite bind_assoc. erewrite (bind_ok kmalloc) by done. rewrite Hm. cbn [negb].
  destruct (Nat.ltb_spec PAGE_SIZE (length response)); [lia|].
  destruct (proj2 (akcipher_completes (RSA_PRIV_KEY lsm_key_priv) response)) as [err He]. cbv zeta.
  rewrite bind_assoc. erewrite (bind_ok (await _)); [|by apply await_ok]. rewrite He.
  destruct (Z.eqb_spec err 0) as [->|Hne]; cbn [negb].
  - rewrite bool_decide_true by done. rewrite akcipher_size, bind_assoc.
    erewrite (bind_ok (memcpy_out _ _)); [|apply memcpy_out_ok; rewrite fill_length; unfold _CITADEL_RSA_KEY_LENGTH, PAGE_SIZE; lia].
    mred. cbn [rsa_copy_out]. erewrite (bind_ok kmalloc_unchecked); [|by apply kmalloc_unchecked_ok].
    eexists. reflexivity.
  - rewrite bool_decide_false by congruence. mred. cbn [rsa_copy_out]. destruct err; [done|..]; eexists; reflexivity.
Qed.

(** The state after a response whose decryption is [plain]. *)
Definition registered_by (plain : option bytes) k : kstate :=
  match plain with
  | None => k
  | Some p =>
      let c := dec_challenge p in
      if bytes_eqb (ch_signature c) challenge_signature && bytes_eqb (ch_challenge c) (current_challenge (k_pio k))
      then set_pio (pio_register c (k_pio k)) k else k
  end.

Lemma process_challenge_response_ok response k :
  (∀ n, kmem n = true) → length response = _CITADEL_RSA_KEY_LENGTH →
  ∃ n, process_challenge_response response k = Ok (tt, set_nmem n (registered_by (rsa_plain response) k)).
Proof.
  intros Hm Hl. unfold process_challenge_response. rewrite Hl. cbn [Nat.eqb negb _CITADEL_RSA_KEY_LENGTH].
  change (256 =? 256)%nat with true. cbn [negb].
  destruct (trm_rsa_decrypt_ok response k Hm ltac:(rewrite Hl; unfold PAGE_SIZE, _CITADEL_RSA_KEY_LENGTH; lia)) as (n & He).
  mstep He. unfold registered_by.
  destruct (rsa_plain response) as [p|] eqn:E; [|by exists n].
  assert (length p = 256%nat) as Hp.
  { unfold rsa_plain in E. case_bool_decide; [|done]. injection E as <-. apply fill_length. }
  rewrite Hp. change (256 <? sizeof citadel_challenge_fields)%nat with false. cbv iota zeta. mred.
  cbn [set_nmem k_pio].
  destruct (bytes_eqb (ch_signature _) _); cbn [negb andb]; [|by exists n].
  destruct (bytes_eqb (ch_challenge _) _); cbn [negb]; by exists n.
Qed.

(** C24: registration.  A response of the right length either registers the
    enclave with the name, key and PID it carries, which happens exactly when
    its decryption under the private key of the module holds the protocol
    signature and the challenge that is current, or it changes nothing; the
    module never faults on it. *)
Theorem registration_decides response k :
  (∀ n, kmem n = true) → length response = _CITADEL_RSA_KEY_LENGTH →
  ∃ n k', process_challenge_response response k = Ok (tt, set_nmem n k') ∧
  ((∃ plain, rsa_plain response = Some plain ∧
      let c := dec_challenge plain in
      ch_signature c = challenge_signature ∧ ch_challenge c = current_challenge (k_pio k) ∧
      k' = set_pio (Payload (current_challenge (k_pio k)) (ch_name c) (ch_key c) (ch_key c) true (ch_pid c)) k)
   ∨ (k' = k ∧ ∀ plain, rsa_plain response = Some plain →
      ch_signature (dec_challenge plain) ≠ challenge_signature ∨
      ch_challenge (dec_challenge plain) ≠ current_challenge (k_pio k))).
Proof.
  intros Hm Hl. destruct (process_challenge_response_ok response k Hm Hl) as (n & He).
  exists n. eexists. split; [exact He|]. unfold registered_by.
  destruct (rsa_plain response) as [p|]; [|right; naive_solver].
  destruct (bytes_eqb (ch_signature _) _) eqn:E1, (bytes_eqb (ch_challenge _) _) eqn:E2; cbn [andb];
    rewrite ?bytes_eqb_eq, ?bytes_eqb_neq in *; [left; eauto|right..]; naive_solver.
Qed.

(** A response can be replayed.  The challenge is not discarded when it
    has been answered: after an accepted response, presenting the same bytes
    again, in any later state in which no new challenge was generated, is
    accepted again and sets the session key back to the key of the response,
    whatever updates have advanced it to. *)
Theorem challenge_can_be_replayed response k n k1 k2 :
  (∀ m, kmem m = true) → length response = _CITADEL_RSA_KEY_LENGTH →
  registered (k_pio k) = false →
  process_challenge_response response k = Ok (tt, set_nmem n k1) → registered (k_pio k1) = true →
  current_challenge (k_pio k2) = current_challenge (k_pio k1) →
  ∃ m, process_challenge_response response k2 =
    Ok (tt, set_nmem m (set_pio (k_pio k1) k2)).
Proof.
  intros Hm Hl Hr0 He Hr1 Hcur. destruct (process_challenge_response_ok response k Hm Hl) as (n' & He').
  rewrite He in He'. apply (f_equal (obs (λ _, k_pio))) in He'.
  assert (k_pio k1 = k_pio (registered_by (rsa_plain response) k)) as Hp by (by injection He').
  destruct (process_challenge_response_ok response k2 Hm Hl) as (m & He2). exists m. rewrite He2.
  do 3 f_equal. revert Hp. unfold registered_by. destruct (rsa_plain response) as [p|].
  2:{ intros Hp. rewrite Hp, Hr0 in Hr1. done. }
  destruct (bytes_eqb (ch_signature _) _); cbn [andb]; [|intros Hp; by rewrite Hp, Hr0 in Hr1].
  destruct (bytes_eqb (ch_challenge _) (current_challenge (k_pio k))) eqn:E; [|intros Hp; by rewrite Hp, Hr0 in Hr1].
  intros Hp. rewrite Hcur, Hp. cbn [set_pio k_pio pio_register current_challenge]. rewrite E.
  f_equal. unfold pio_register. by rewrite Hcur, Hp.
Qed.

(** Any other length is undefined behaviour.  [challenge_receive] accepts
    writes of 1 to 256 bytes; for every length but 256 the handler frees a
    pointer that was never assigned. *)
Theorem short_response_faults buf k :
  (∀ m, kmem m = true) → k_rsa_available k = true → (0 < length buf < 256)%nat →
  challenge_receive buf true k = Fault Indeterminate.
Proof.
  intros Hm Hrsa Hl. unfold challenge_receive, CHALLENGE_MAX_SIZE. cbv zeta.
  destruct (Z.eqb_spec (Z.of_nat (length buf)) 0); [lia|].
  destruct (Z.gtb_spec (Z.of_nat (length buf)) 256); [lia|]. cbn [orb].
  unfold is_rsa_available. mred. rewrite Hrsa. cbn [negb].
  erewrite (bind_ok kmalloc) by done. rewrite Hm. cbn [negb]. unfold process_challenge_response.
  destruct (Nat.eqb_spec (length buf) _CITADEL_RSA_KEY_LENGTH); [unfold _CITADEL_RSA_KEY_LENGTH in *; lia|].
  done.
Qed.
End registration.

Section updates.
Context `{HKer : Kernel} `{HKLaw : !KernelLaws} `{HRb : RbTree} `{HCry : KernelCrypto} `{HLaw : !CryptoLaws}.
Implicit Types (k : kstate) (A : acache).

(** C23: an update of the enclave is installed.  A message sealed under the
    session key whose header announces its records is processed without a
    fault: every record is inserted into the ticket cache in order, exactly as
    the abstract cache prescribes, the session key advances by the key update
    of the header, and credentials and labels are untouched. *)
Theorem update_installs_tickets pad h recs iv k A :
  (∀ n, kmem n = true) → registered (k_pio k) = true → length (aes_key (k_pio k)) = 16%nat →
  length iv = _CITADEL_IV_LENGTH → length pad = 2%nat → update_header_ok h →
  Forall update_record_ok recs → Forall (λ r, is_pid (ur_pid r)) recs →
  uh_records h = Z.of_nat (length recs) → refines k A →
  ∃ k', process_received_update (seal (aes_key (k_pio k)) iv (enc_update pad h recs)) k = Ok (tt, k') ∧
    refines k' (foldl (λ A r, abs_insert r A) A recs) ∧
    k_pio k' = pio_set_aes_key (xor_bytes (aes_key (k_pio k)) (uh_key_update h)) (k_pio k) ∧
    k_creds k' = k_creds k ∧ k_inodes k' = k_inodes k.
Proof.
  intros. destruct (process_received_update_ok pad h recs iv k A) as (k' & He & Hr & Hp & Hc & Hi & _); [done..|].
  by exists k'.
Qed.

(** C27: forged updates and forged labelling requests change nothing.  Bytes
    that were not sealed under the session key leave the ticket cache, the
    labels, the disk, the credentials and the session key as they were, whether
    they are written to the update file or set as the installation attribute;
    the latter is refused.  (The update handler ignores the failure of the
    decryption; it is saved by the zeroed buffer it decrypts into.) *)
Theorem forged_messages_change_nothing msg de k :
  (∀ n, kmem n = true) → length (aes_key (k_pio k)) = 16%nat →
  (∀ iv payload, length iv = _CITADEL_IV_LENGTH → msg ≠ seal (aes_key (k_pio k)) iv payload) →
  (∃ n, process_received_update msg k = Ok (tt, set_nmem n k)) ∧
  (∃ n, xattr_enclave_installation msg de k = Ok (- 1, set_nmem n k)).
Proof.
  intros Hm Hk Hf. split; [by apply process_received_update_forged|].
  apply installation_rejects; [done|done|]. intros iv payload Hiv E. by destruct (Hf iv payload Hiv).
Qed.

(** C28: an installation request labels the file, in memory and on disk, and
    the label survives.  After the request, the blob of the inode carries the
    identifier of the record and the session key has advanced; and when the
    inode is evicted and the file is looked up again, [d_instantiate] restores
    the same label from the extended attributes, although the identifier was
    stored without its terminator. *)
Theorem installed_label_survives pad h r iv de ino d k ino' d' current td :
  (∀ n, kmem n = true) → (∀ D de n v, (vfs_setxattr_noperm D de n v).1 = 0) →
  registered (k_pio k) = true → length (aes_key (k_pio k)) = 16%nat →
  length iv = _CITADEL_IV_LENGTH → length pad = 2%nat → update_header_ok h → update_record_ok r →
  bytes_ok (ur_identifier r) → uh_signature h = challenge_signature → uh_records h = 1 →
  has_flag (ur_operation r) CITADEL_OP_DECLASSIFY = false → has_flag (ur_operation r) CITADEL_OP_REGISTER = true →
  d_inode de = Some ino → i_security ino = true → k_inodes k !! i_ref ino = Some d →
  i_security ino' = true → i_magic ino' ≠ PIPEFS_MAGIC →
  id_checked_disk_xattr d' = false → id_is_socket d' = false → id_needs_xattr_update d' = false →
  k_creds k !! ts_cred current = Some td →
  ∃ k1 d1, xattr_enclave_installation (seal (aes_key (k_pio k)) iv (enc_update pad h [r])) de k = Ok (0, k1) ∧
    k_inodes k1 !! i_ref ino = Some d1 ∧ carries (ur_identifier r) d1 ∧
    aes_key (k_pio k1) = xor_bytes (aes_key (k_pio k)) (uh_key_update h) ∧
  ∃ k2 d2, trm_d_instantiate current de (Some ino')
      (set_inodes (<[i_ref ino' := d']> (k_inodes k1)) k1) = Ok (tt, k2) ∧
    k_inodes k2 !! i_ref ino' = Some d2 ∧ carries (ur_identifier r) d2.
Proof.
  intros Hm Hset Hreg Hk Hiv Hpad Hh Hr Hb Hsig Hone Hndec Hregf Hde Hs Hi Hs' Hp' Hck Hso Hn Hc.
  assert (identifier_ok (ur_identifier r)) as Hid by (split; [done|apply Hr]).
  rewrite installation_accepts by done. rewrite Hndec, Hde. cbn [citadel_inode]. rewrite Hs.
  set (k0 := set_nmem _ k).
  destruct (vfs_setxattr_noperm (k_disk k) de _CITADEL_XATTR_IDENTIFIER (hex_body (ur_identifier r))) as [rc D1] eqn:E1.
  pose proof (Hset (k_disk k) de _CITADEL_XATTR_IDENTIFIER (hex_body (ur_identifier r))) as H0.
  rewrite E1 in H0. simpl in H0. subst rc.
  rewrite (induct_ok de (i_ref ino) d h r k0 D1) by done. rewrite Hregf.
  destruct (vfs_setxattr_noperm D1 de _CITADEL_XATTR_IN_REALM []) as [rc D2] eqn:E2.
  pose proof (Hset D1 de _CITADEL_XATTR_IN_REALM []) as H0. rewrite E2 in H0. simpl in H0. subst rc.
  eexists _, _. split; [reflexivity|]. cbn [set_pio set_inodes set_disk k_inodes k_pio snd].
  split_and!; [apply lookup_insert_eq|split; [exact Hregf|done|done]|done|].
  eapply d_instantiate_reads; [done|exact Hid| |done|done|cbn; apply lookup_insert_eq|exact Hc|done..].
  intros de' Hde'. cbn [set_inodes k_disk set_pio set_disk].
  eapply (set_in_realm_on_disk _ _ _ _ _ _ _ E1 E2); [by left|done|done].
Qed.

(** A declassification request always ends in undefined behaviour: once
    it has been authenticated, every path of the declassification branch frees
    or prints [identifier_hex], which only the other branch assigns. *)
Theorem declassification_faults pad h r iv de ino d k :
  (∀ n, kmem n = true) → registered (k_pio k) = true → length (aes_key (k_pio k)) = 16%nat →
  length iv = _CITADEL_IV_LENGTH → length pad = 2%nat → update_header_ok h → update_record_ok r →
  uh_signature h = challenge_signature → uh_records h = 1 →
  has_flag (ur_operation r) CITADEL_OP_DECLASSIFY = true →
  d_inode de = Some ino → i_security ino = true → k_inodes k !! i_ref ino = Some d →
  xattr_enclave_installation (seal (aes_key (k_pio k)) iv (enc_update pad h [r])) de k = Fault Indeterminate.
Proof.
  intros Hm Hreg Hk Hiv Hpad Hh Hr Hsig Hone Hdec Hde Hs Hi.
  rewrite installation_accepts by done. rewrite Hdec, Hde. cbn [citadel_inode]. rewrite Hs.
  set (k1 := set_nmem _ k). assert (k_inodes k1 !! i_ref ino = Some d) as Hi1 by done.
  unfold declassify. rewrite bind_assoc. mstep (load_inode_some _ _ _ Hi1).
  destruct (negb (id_in_realm d)).
  { by mstep (update_aes_key_ok (uh_key_update h) k1 ltac:(apply Hh)). }
  rewrite bind_assoc. erewrite (bind_ok (store_inode _ _)); [|by eapply store_inode_some].
  rewrite bind_assoc. erewrite (bind_ok (store_inode _ _)); [|eapply store_inode_some; cbn; by rewrite lookup_alter_eq, Hi].
  rewrite bind_assoc. unfold removexattr. unfold mbind at 1, M_bind at 1.
  destruct (vfs_removexattr _ _ _) as [rc D]. destruct (rc =? 0).
  - rewrite bind_assoc. erewrite (bind_ok (store_inode _ _)); [|eapply store_inode_some; cbn; by rewrite !lookup_alter_eq, Hi].
    erewrite (bind_ok (update_aes_key _)); [|apply update_aes_key_ok; apply Hh]. done.
  - erewrite (bind_ok (store_inode _ _)); [|eapply store_inode_some; cbn; by rewrite !lookup_alter_eq, Hi]. done.
Qed.

Lemma generate_ptoken_sealed current td k :
  let prot := PTokenProtected challenge_signature (ts_pid current) (krand (k_nrnd k) 8) (td_identifier td) in
  (∀ n, kmem n = true) → registered (k_pio k) = true → length (ptoken_aes_key (k_pio k)) = 16%nat →
  k_creds k !! ts_cred current = Some td → length (td_identifier td) = 16%nat →
  is_pid (ts_pid current) → is_i32 (enclave_pid (k_pio k)) →
  ∃ buf k' iv, generate_ptoken current k = Ok ((Some buf, Some 100), k') ∧ length buf = 100%nat ∧
    k' = set_nrnd (k_nrnd k') (set_nmem (k_nmem k') k) ∧ length iv = 12%nat ∧ ptoken_protected_ok prot ∧
    dec_ptoken buf = PToken challenge_signature (enclave_pid (k_pio k)) (krand (k_nrnd k) 8) (td_identifier td)
      (seal (ptoken_aes_key (k_pio k)) iv (enc_ptoken_protected prot)).
Proof.
  intros prot Hm Hreg Hk Hc Hid Hp Hep. unfold generate_ptoken, system_ready. mred. rewrite Hreg. cbn [negb].
  mstep (load_cred_some _ _ _ Hc). erewrite (bind_ok kmalloc_unchecked); [|by apply kmalloc_unchecked_ok].
  erewrite (bind_ok (get_random_bytes _)) by done. unfold citadel_pid. mred.
  assert (int32 (ts_pid current) = ts_pid current) as -> by (apply int32_id; unfold is_pid in Hp; lia).
  change (krand _ _CITADEL_PROCESS_PTOKEN_LENGTH) with (krand (k_nrnd k) 8).
  set (tok := krand (k_nrnd k) 8) in *. assert (length tok = 8%nat) as Htok by apply krand_length.
  fold prot.
  assert (ptoken_protected_ok prot) as Hprot
    by (split_and!; [done|cbn; unfold is_i32, is_pid in *; lia|done|done]).
  pose proof (enc_ptoken_protected_length prot Hprot) as Hl. rewrite Hl.
  erewrite (bind_ok kmalloc_unchecked); [|by apply kmalloc_unchecked_ok]. mred.
  cbn [set_nmem set_nrnd k_pio].
  set (key := ptoken_aes_key (k_pio k)) in *.
  erewrite (bind_ok (trm_aes_encrypt _ _ _)); [|apply trm_aes_encrypt_ok; [done|done|apply krand_length|rewrite Hl; unfold _CITADEL_TAG_LENGTH, _CITADEL_IV_LENGTH; lia]].
  cbn [set_nmem set_nrnd k_nrnd Z.eqb negb from_option id].
  set (iv := krand (S (k_nrnd k)) 12). assert (length iv = 12%nat) as Hiv by apply krand_length.
  set (c := seal key iv (enc_ptoken_protected prot)).
  assert (length c = 64%nat) as Hlc by (unfold c; rewrite seal_length, Hl by done; done).
  erewrite (bind_ok (memcpy_out _ _)); [|apply memcpy_out_ok; rewrite Hlc; by apply Nat.leb_le].
  unfold to_hexstring_k. rewrite (to_hexstring_some tok), (to_hexstring_some (td_identifier td))
    by (intros E; rewrite E in *; done).
  rewrite bind_assoc. erewrite (bind_ok kmalloc_unchecked); [|by apply kmalloc_unchecked_ok]. mred.
  rewrite bind_assoc. erewrite (bind_ok kmalloc_unchecked); [|by apply kmalloc_unchecked_ok]. mred.
  assert (fill _CITADEL_PROCESS_SIGNED_PTOKEN_LENGTH c = c) as ->.
  { rewrite <- (take_fill 64 64 c) at 2 by (done || lia). rewrite take_ge; [done|]. by rewrite fill_length. }
  set (t := PToken challenge_signature (enclave_pid (k_pio k)) tok (td_identifier td) c).
  assert (ptoken_ok t) as Ht by (by split_and!).
  eexists (enc_ptoken t), _, iv. split; [reflexivity|]. rewrite dec_enc_ptoken by done.
  split_and!; [by apply enc_ptoken_length|by destruct k|done..].
Qed.

Lemma generate_ptoken_ok current td k :
  (∀ n, kmem n = true) → registered (k_pio k) = true → length (ptoken_aes_key (k_pio k)) = 16%nat →
  k_creds k !! ts_cred current = Some td → length (td_identifier td) = 16%nat →
  is_pid (ts_pid current) → is_i32 (enclave_pid (k_pio k)) →
  ∃ buf k', generate_ptoken current k = Ok ((Some buf, Some 100), k') ∧ length buf = 100%nat ∧
    let t := dec_ptoken buf in
    pt_signature t = challenge_signature ∧ pt_citadel_pid t = enclave_pid (k_pio k) ∧
    pt_ptoken t = krand (k_nrnd k) 8 ∧ pt_process_identifier t = td_identifier td ∧
    ∀ k'', ∃ p, trm_aes_decrypt (ptoken_aes_key (k_pio k)) (pt_signed_ptoken t) 64 k'' = Ok ((0, Some p), aes_spent k'') ∧
      dec_ptoken_protected p = PTokenProtected challenge_signature (ts_pid current) (pt_ptoken t) (td_identifier td).
Proof.
  intros Hm Hreg Hk Hc Hid Hp Hep.
  destruct (generate_ptoken_sealed current td k) as (buf & k' & iv & He & Hl & _ & Hiv & Hok & Hd); [done..|].
  exists buf, k'. rewrite Hd. cbv zeta. split_and!; [done..|]. intros k''. eexists. split; [|by apply dec_enc_ptoken_protected].
  cbn [pt_signed_ptoken]. apply trm_aes_decrypt_ok; [done..|]. rewrite enc_ptoken_protected_length by done. lia.
Qed.

(** Process tokens.  [generate_ptoken] returns a token of 100 bytes; the
    receiver reads the enclave's PID, the identifier of the process and a fresh
    nonce from it, and the sealed part, opened with the key that the enclave
    registered, repeats the nonce and the identifier and adds the PID of the
    process. *)
Theorem ptoken_vouches_for_process current td k :
  (∀ n, kmem n = true) → registered (k_pio k) = true → length (ptoken_aes_key (k_pio k)) = 16%nat →
  k_creds k !! ts_cred current = Some td → length (td_identifier td) = 16%nat →
  is_pid (ts_pid current) → is_i32 (enclave_pid (k_pio k)) →
  ∃ buf k', generate_ptoken current k = Ok ((Some buf, Some 100), k') ∧ length buf = 100%nat ∧
    let t := dec_ptoken buf in
    pt_signature t = challenge_signature ∧ pt_citadel_pid t = enclave_pid (k_pio k) ∧
    pt_ptoken t = krand (k_nrnd k) 8 ∧ pt_process_identifier t = td_identifier td ∧
    ∀ k'', ∃ p, trm_aes_decrypt (ptoken_aes_key (k_pio k)) (pt_signed_ptoken t) 64 k'' = Ok ((0, Some p), aes_spent k'') ∧
      dec_ptoken_protected p = PTokenProtected challenge_signature (ts_pid current) (pt_ptoken t) (td_identifier td).
Proof. intros. by apply generate_ptoken_ok. Qed.
End updates.

(** ** Witnesses *)
#[local] Existing Instance demo_kernel.
#[local] Existing Instance demo_laws.
#[local] Existing Instance rb_rotating.
#[local] Existing Instance demo_crypto.
#[local] Existing Instance demo_crypto_laws.

Definition demo_key : bytes := replicate 16 5.
Definition demo_iv : bytes := replicate 12 1.
Definition demo_pio : payload_statics := Payload (replicate 32 0) (replicate 40 0) demo_key demo_key true 99.
Definition session : kstate := set_pio demo_pio demo_world.
Definition demo_header (n : Z) : citadel_update_header := UpdateHeader challenge_signature (replicate 16 3) n.

Lemma session_refines : refines session empty_cache.
Proof. eapply refines_ext; [apply demo_world_refines|done..]. Qed.

Lemma demo_header_ok n : is_u8 n → update_header_ok (demo_header n).
Proof. intros Hn. by split_and!. Qed.
Lemma demo_record_ok pid id op : is_i32 pid → is_u16 op → update_record_ok (demo_record pid id op).
Proof. intros. by split_and!. Qed.

Lemma update_installs_tickets_witness :
  let recs := [demo_record 10 7 CITADEL_OP_OPEN; demo_record 11 9 CITADEL_OP_SHM] in
  ∃ k', process_received_update (seal demo_key demo_iv (enc_update [0; 0] (demo_header 2) recs)) session = Ok (tt, k') ∧
    aes_key (k_pio k') = replicate 16 6.
Proof.
  intros recs. destruct (update_installs_tickets [0; 0] (demo_header 2) recs demo_iv session empty_cache)
    as (k' & He & _ & Hp & _); [done|done|done|done|done| | | |done|apply session_refines|].
  - apply demo_header_ok. unfold is_u8. lia.
  - repeat (constructor; [apply demo_record_ok; [unfold is_i32|vm_compute]; by split|]). constructor.
  - repeat (constructor; [unfold is_pid; cbn; lia|]). constructor.
  - exists k'. split; [done|]. rewrite Hp. reflexivity.
Defined.

Lemma zeros_not_sealed iv payload : length iv = _CITADEL_IV_LENGTH → replicate 64 0 ≠ seal demo_key iv payload.
Proof.
  intros Hiv E. pose proof (f_equal length E) as Hl.
  rewrite seal_length in Hl by done. rewrite length_replicate in Hl.
  apply (f_equal (lookup 36%nat)) in E. unfold seal in E. cbn [crypto_aead_encrypt demo_crypto demo_encrypt cr_out] in E.
  rewrite <- app_assoc, lookup_app_r in E by lia. replace (36 - length payload)%nat with 0%nat in E by lia.
  discriminate E.
Qed.

Lemma forged_messages_change_nothing_witness :
  ∃ n, process_received_update (replicate 64 0) session = Ok (tt, set_nmem n session).
Proof.
  exact (proj1 (forged_messages_change_nothing (replicate 64 0) (Dentry 1 None None) session
    (λ _, eq_refl) eq_refl zeros_not_sealed)).
Defined.

Definition demo_dentry : dentry := Dentry 1 (Some demo_inode) (Some demo_inode).
Definition blank_label : citadel_inode_data := InodeData false false false false true (replicate 16 0).

Lemma installed_label_survives_witness :
  ∃ k1, xattr_enclave_installation
      (seal demo_key demo_iv (enc_update [0; 0] (demo_header 1) [demo_record 0 42 CITADEL_OP_REGISTER]))
      demo_dentry session = Ok (0, k1) ∧
  ∃ k2 d2, trm_d_instantiate (Task 10 (demo_cred 10)) demo_dentry (Some (Inode 6 101 false 0xEF53 true))
      (set_inodes (<[6%positive := blank_label]> (k_inodes k1)) k1) = Ok (tt, k2) ∧
    k_inodes k2 !! 6%positive = Some d2 ∧ id_identifier d2 = replicate 16 42.
Proof.
  destruct (installed_label_survives [0; 0] (demo_header 1) (demo_record 0 42 CITADEL_OP_REGISTER) demo_iv
    demo_dentry demo_inode demo_label session (Inode 6 101 false 0xEF53 true) blank_label
    (Task 10 (demo_cred 10)) (demo_task 10)) as (k1 & d1 & He & _ & _ & _ & k2 & d2 & He2 & Hd2 & Hca); try done.
  - apply Forall_replicate. unfold byte_ok. lia.
  - exists k1. split; [done|]. exists k2, d2. split_and!; [done|done|]. apply Hca.
Defined.

Lemma declassification_faults_witness :
  xattr_enclave_installation
    (seal demo_key demo_iv (enc_update [0; 0] (demo_header 1) [demo_record 0 7 CITADEL_OP_DECLASSIFY]))
    demo_dentry session = Fault Indeterminate.
Proof.
  apply (declassification_faults [0; 0] (demo_header 1) (demo_record 0 7 CITADEL_OP_DECLASSIFY) demo_iv
    demo_dentry demo_inode demo_label session); done.
Defined.

Lemma ptoken_vouches_for_process_witness :
  ∃ buf k', generate_ptoken (Task 10 (demo_cred 10)) session = Ok ((Some buf, Some 100), k') ∧
    pt_citadel_pid (dec_ptoken buf) = 99.
Proof.
  destruct (ptoken_vouches_for_process (Task 10 (demo_cred 10)) (demo_task 10) session)
    as (buf & k' & He & _ & _ & Hp & _); try done.
  by exists buf, k'.
Defined.

(** The response of an enclave with PID 99 to the challenge of zeros. *)
Definition demo_response : bytes :=
  demo_rsa_pad (enc_challenge (Challenge challenge_signature (replicate 32 0) (replicate 40 66)
    demo_key 99 (replicate 114 1))).

Lemma registration_decides_witness :
  ∃ n k', process_challenge_response demo_response demo_world = Ok (tt, set_nmem n k') ∧
    registered (k_pio k') = true ∧ enclave_pid (k_pio k') = 99.
Proof.
  destruct (registration_decides demo_response demo_world) as (n & k' & He & [(p & Hp & _ & _ & ->)|[_ Hno]]);
    [done|vm_compute; reflexivity| |].
  - exists n. eexists. split; [exact He|]. split; [done|]. cbn.
    vm_compute in Hp. injection Hp as <-. vm_compute. reflexivity.
  - exfalso. destruct (Hno (take 216 (drop 1 demo_response) ++ replicate 40 0)) as [H|H];
      [vm_compute; reflexivity|apply H; vm_compute; reflexivity..].
Defined.

Lemma challenge_can_be_replayed_witness :
  ∃ m, process_challenge_response demo_response (set_pio demo_pio demo_world) =
    Ok (tt, set_nmem m (set_pio (Payload (replicate 32 0) (replicate 40 66) demo_key demo_key true 99) (set_pio demo_pio demo_world))).
Proof.
  destruct (process_challenge_response_ok demo_response demo_world) as (n & He); [done|vm_compute; reflexivity|].
  assert (k_pio (registered_by (rsa_plain demo_response) demo_world) =
    Payload (replicate 32 0) (replicate 40 66) demo_key demo_key true 99) as Hp by (vm_compute; reflexivity).
  rewrite <- Hp.
  apply (challenge_can_be_replayed demo_response demo_world n _ (set_pio demo_pio demo_world));
    [done|vm_compute; reflexivity|done|exact He|by rewrite Hp|by rewrite Hp].
Defined.

Lemma short_response_faults_witness : challenge_receive [1; 2; 3] true demo_world = Fault Indeterminate.
Proof. apply (short_response_faults [1; 2; 3] demo_world); [done|done|simpl; lia]. Defined.
