(* ===== verification/ShmTheorems.v ===== *)
(** * Theorems on shared memory *)

From S2P Require Import Prelude Shared Hex RBTree Kernel Ring Tickets TicketsSpec CacheModel Access.
From S2P Require Import Crypto Concrete CacheTheorems PayloadIO FileIO Shm Hooks AccessSpec AccessTheorems.

Section shm.
Context `{HKer : Kernel} `{HRb : RbTree}.
Implicit Type k : kstate.

(** The processes that joined a segment. *)
Definition inhabitants k (key : Z) : list Z :=
  match shmid_search (k_shm k) key with Some n => sn_pids n | None => [] end.

Lemma shm_search_store lo t key key' f :
  (∀ n, sn_shmid (f n) = sn_shmid n) → bst sn_shmid lo t → in_window lo key → in_window lo key' →
  shmid_search (rb_store (key_cmp sn_shmid key) f t) key' =
  if bool_decide (key = key') then f <$> shmid_search t key' else shmid_search t key'.
Proof. intros. unfold shmid_search. by apply (rb_walk_store _ lo). Qed.

Lemma find_or_create_shm_ok k lo key :
  bst sn_shmid lo (k_shm k) → in_window lo key → (∀ n, kmem n = true) →
  ∃ k' n, find_or_create_shm key k = Ok (Some n, k') ∧ bst sn_shmid lo (k_shm k') ∧
    shmid_search (k_shm k') key = Some n ∧ sn_pids n = inhabitants k key ∧
    (∀ key', in_window lo key' → inhabitants k' key' = inhabitants k key') ∧
    k_creds k' = k_creds k ∧ k_inodes k' = k_inodes k.
Proof.
  intros Hb Hw Hm. unfold find_or_create_shm, inhabitants. mred.
  destruct (shmid_search (k_shm k) key) as [n|] eqn:E.
  { exists k, n. by rewrite E. }
  erewrite (bind_ok kmalloc) by done. rewrite Hm. cbn [negb].
  destruct (rb_insert_spec sn_shmid lo (k_shm k) (ShmNode key [])) as (t' & Hl & Hb' & Hs); [done|done|exact E|].
  unfold insert_shmid. rewrite Hl. cbn [fmap option_fmap option_map].
  eexists _, (ShmNode key []). split; [reflexivity|]. cbn [set_shm set_nmem k_shm k_creds k_inodes].
  assert (shmid_search (rb_insert_color t') key = Some (ShmNode key [])) as Hk
    by (unfold shmid_search; rewrite Hs by done; by rewrite bool_decide_true).
  split_and!; try done. intros key' Hw'. unfold shmid_search at 1. rewrite Hs by done.
  case_bool_decide as Hkk; [|done]. cbn in Hkk. rewrite <- Hkk, E. done.
Qed.

Lemma add_to_shmid_ok k lo key pid :
  bst sn_shmid lo (k_shm k) → in_window lo key → (∀ n, kmem n = true) →
  ∃ k', add_to_shmid key pid k = Ok (true, k') ∧ bst sn_shmid lo (k_shm k') ∧
    (∀ key', in_window lo key' → inhabitants k' key' =
       if bool_decide (key = key' ∧ pid ∉ inhabitants k key) then inhabitants k key ++ [pid]
       else inhabitants k key').
Proof.
  intros Hb Hw Hm. destruct (find_or_create_shm_ok k lo key Hb Hw Hm) as (k1 & n & He & Hb1 & Hs1 & Hn & Hin & _).
  unfold add_to_shmid. mstep He. rewrite Hn. case_bool_decide as Hp.
  - exists k1. split_and!; [done|done|]. intros key' Hw'. rewrite bool_decide_false by tauto. by apply Hin.
  - erewrite (bind_ok kmalloc) by done. rewrite Hm. cbn [negb]. eexists. split; [reflexivity|].
    cbn [set_shm set_nmem k_shm]. split; [by apply bst_store|]. intros key' Hw'.
    unfold inhabitants at 1. cbn [set_shm set_nmem k_shm]. rewrite (shm_search_store lo) by done.
    destruct (decide (key = key')) as [<-|Hne].
    + rewrite !bool_decide_true by done. rewrite Hs1. cbn. by rewrite Hn.
    + rewrite !bool_decide_false by tauto. by apply Hin.
Qed.

(** [add_to_shmid] adds the process to the segment once.  The PID is
    appended to the list of its key unless it is there already, no other
    segment changes, and the index stays ordered, as long as all keys lie in a
    range of 2^31 values. *)
Theorem add_to_shmid_spec k lo key pid :
  bst sn_shmid lo (k_shm k) → in_window lo key → (∀ n, kmem n = true) → NoDup (inhabitants k key) →
  ∃ k', add_to_shmid key pid k = Ok (true, k') ∧ bst sn_shmid lo (k_shm k') ∧
    pid ∈ inhabitants k' key ∧ NoDup (inhabitants k' key) ∧
    (∀ q, q ∈ inhabitants k' key ↔ q = pid ∨ q ∈ inhabitants k key) ∧
    (∀ key', in_window lo key' → key' ≠ key → inhabitants k' key' = inhabitants k key').
Proof.
  intros Hb Hw Hm Hnd. destruct (add_to_shmid_ok k lo key pid Hb Hw Hm) as (k' & He & Hb' & Hin).
  exists k'. split; [done|]. split; [done|]. rewrite (Hin key Hw).
  assert (∀ key', in_window lo key' → key' ≠ key → inhabitants k' key' = inhabitants k key') as Hother
    by (intros key' Hw' Hne; rewrite Hin, bool_decide_false by naive_solver; done).
  case_bool_decide as Hp.
  - destruct Hp as [_ Hp]. split_and!; [set_solver|apply NoDup_app; split_and!; [done|set_solver|apply NoDup_singleton]|set_solver|done].
  - assert (pid ∈ inhabitants k key) as Hpin by (destruct (decide (pid ∈ inhabitants k key)); [done|exfalso; auto]).
    split_and!; [done|done|set_solver|done].
Qed.

Lemma concat_le_bytes_ok l : bytes_ok (concat (le_bytes 4 <$> l)).
Proof. induction l as [|x l IH]; [constructor|]. rewrite fmap_cons. cbn [concat]. apply bytes_ok_app. split; [apply le_bytes_ok|done]. Qed.

(** The query attribute tells who has joined.  Asked with the key of a
    segment in hexadecimal, [get_shmid_inhabitants] returns the hexadecimal
    encoding of the PIDs that joined it, in order, with its length; asked for
    the length only, it returns the same length. *)
Theorem shm_query_roundtrip k key :
  (∀ n, kmem n = true) → is_i32 key → inhabitants k key ≠ [] →
  let pids := inhabitants k key in
  let len := 8 * Z.of_nat (length pids) + 1 in
  ∃ h k1 k2, get_shmid_inhabitants (hex_body (le_bytes 4 key) ++ [0]) true k = Ok ((len, Some h), k1) ∧
    get_shmid_inhabitants (hex_body (le_bytes 4 key) ++ [0]) false k = Ok ((len, None), k2) ∧
    Z.of_nat (length h) = len ∧ hexstring_to_bytes h = Some (concat (le_bytes 4 <$> pids)).
Proof.
  intros Hm Hkey Hne pids len. unfold inhabitants in Hne.
  assert (∀ alloc, ∃ n, get_shmid_inhabitants (hex_body (le_bytes 4 key) ++ [0]) alloc k =
    match shmid_search (k_shm k) key with
    | None => mret (0, None)
    | Some nd => let count := Z.of_nat (length (sn_pids nd)) in
        if negb alloc then mret (2 * count * 4 + 1, None) else
        kmalloc ≫= λ p, if negb p then mret (uint64 (- ENOMEM), None) else
        to_hexstring_k (concat (le_bytes 4 <$> sn_pids nd)) ≫= λ hex,
        match hex with None => mret (uint64 (- ENOMEM), None) | Some h => mret (2 * count * 4 + 1, Some h) end
    end (set_nmem n k)) as Hget.
  { intros alloc. unfold get_shmid_inhabitants.
    rewrite cstring_nul by apply hex_body_nonzero, le_bytes_ok.
    rewrite hex_body_length, le_bytes_length. cbn [Nat.mul Nat.add Nat.eqb negb].
    erewrite (bind_ok (hexstring_to_bytes_k _)); [|by apply hexstring_to_bytes_k_ok; [|apply le_bytes_ok|]]. mred.
    cbv iota beta. mred. assert (i32_at 0 (le_bytes 4 key) = key) as ->.
    { unfold i32_at. rewrite field_all by apply le_bytes_length. by apply i32_bytes. }
    cbn [set_nmem k_shm k_nmem]. exists (S (k_nmem k)). by destruct (shmid_search (k_shm k) key). }
  unfold len, pids, inhabitants. destruct (shmid_search (k_shm k) key) as [nd|]; [|done].
  destruct (Hget true) as [n1 E1], (Hget false) as [n2 E2]. cbn [negb] in E1, E2.
  set (body := concat (le_bytes 4 <$> sn_pids nd)) in *.
  assert (length body = (4 * length (sn_pids nd))%nat) as Hlb.
  { unfold body. clear. induction (sn_pids nd) as [|x l IH]; [done|].
    rewrite fmap_cons. cbn [concat length]. rewrite length_app, le_bytes_length, IH. lia. }
  assert (body ≠ []) as Hbne.
  { intros E. rewrite E in Hlb. destruct (sn_pids nd); [done|]. simpl in Hlb. lia. }
  exists (hex_body body ++ [0]). do 2 eexists. split_and!.
  - rewrite E1. erewrite (bind_ok kmalloc) by done. rewrite Hm. cbn [negb].
    unfold to_hexstring_k. rewrite to_hexstring_some by done. rewrite bind_assoc.
    erewrite (bind_ok kmalloc_unchecked); [|by apply kmalloc_unchecked_ok]. mred.
    replace (8 * Z.of_nat (length (sn_pids nd)) + 1) with (2 * Z.of_nat (length (sn_pids nd)) * 4 + 1) by lia.
    reflexivity.
  - rewrite E2.
    replace (8 * Z.of_nat (length (sn_pids nd)) + 1) with (2 * Z.of_nat (length (sn_pids nd)) * 4 + 1) by lia.
    reflexivity.
  - rewrite length_app, hex_body_length, Hlb. simpl. lia.
  - apply hexstring_to_bytes_body, concat_le_bytes_ok.
Qed.

(** ** The decision for shared memory *)
Lemma shm_scan_decides k current perm d td l :
  k_creds k !! ts_cred current = Some td → k_ipcs k !! ipc_ref perm = Some d →
  ring (k_heap k) (td_ticket_head td) l →
  negb (td_in_realm td) && negb (ip_in_realm d) = false → ts_pid current ≠ enclave_pid (k_pio k) →
  shm_can_access current (Some perm) k =
  match l with
  | [] => Fault NullDeref
  | _ => if existsb (grants (ip_identifier d) CITADEL_OP_SHM) (visible 0 l.*2)
         then allow_shm_access current (ipc_key perm)
                (set_ipcs (alter (ip_set_in_realm true) (ipc_ref perm) (k_ipcs k))
                  (if ip_in_realm d then set_creds (alter (td_set_in_realm true) (ts_cred current) (k_creds k)) k else k))
         else Ok (- EACCES, k)
  end.
Proof.
  intros Hc Hi Hr Hdom Hpid. unfold shm_can_access. cbv zeta. cbn [citadel_ipc fmap option_fmap option_map].
  mstep (load_cred_some _ _ _ Hc). mstep (load_ipc_some _ _ _ Hi). rewrite Hdom.
  unfold citadel_pid. mred. rewrite (proj2 (Z.eqb_neq _ _) Hpid). mred.
  destruct l as [|c l].
  { cbn in Hr. rewrite Hr. unfold heap_fuel. cbn [scan_tickets]. done. }
  mstep (scan_tickets_ring k (ip_identifier d) CITADEL_OP_SHM (td_ticket_head td) (c :: l) ltac:(done) Hr).
  destruct (existsb _ _); [|done].
  destruct (ip_in_realm d) eqn:Ei; cbn [when].
  - mstep (store_cred_some _ _ _ (td_set_in_realm true) Hc).
    erewrite (bind_ok (load_cred _)); [|apply load_cred_some; cbn; by rewrite lookup_alter_eq, Hc].
    cbn [td_set_in_realm td_in_realm when].
    erewrite (bind_ok (store_ipc _ _)); [|by eapply store_ipc_some]. done.
  - mred. mstep (load_cred_some _ _ _ Hc). rewrite andb_true_r in Hdom. apply negb_false_iff in Hdom. rewrite Hdom.
    cbn [when]. erewrite (bind_ok (store_ipc _ _)); [|by eapply store_ipc_some]. done.
Qed.

(** A segment outside the realm is open to processes outside the realm, and
    every segment to the enclave: neither case looks at a ticket or moves the
    taint. *)
Lemma shm_access_free k current perm d td :
  k_creds k !! ts_cred current = Some td → k_ipcs k !! ipc_ref perm = Some d →
  td_in_realm td || ip_in_realm d = false ∨ ts_pid current = enclave_pid (k_pio k) →
  shm_can_access current (Some perm) k = allow_shm_access current (ipc_key perm) k.
Proof.
  intros Hc Hi Hfree. unfold shm_can_access. cbv zeta. cbn [citadel_ipc fmap option_fmap option_map].
  mstep (load_cred_some _ _ _ Hc). mstep (load_ipc_some _ _ _ Hi). rewrite <- negb_orb.
  destruct (td_in_realm td || ip_in_realm d); cbn [negb]; [|done].
  destruct Hfree as [|Hpid]; [done|]. unfold citadel_pid. mred. by rewrite (proj2 (Z.eqb_eq _ _) Hpid).
Qed.

(** C36: shared memory.  The hooks for associating with a segment, controlling
    it and attaching it decide alike.  When neither the process nor the segment
    is in the realm, or the process is the enclave, access is allowed without a
    ticket and only the process is recorded.  Otherwise a process whose ticket
    list is not empty is allowed exactly when one of the tickets the scan visits
    matches the segment and carries the shared-memory right; the taint then
    moves both ways and the process is recorded; when none does it gets
    [-EACCES] and nothing changes.  A process without any ticket makes the
    kernel dereference NULL instead of being refused. *)
Theorem shm_access_decides k current perm d td l hook :
  hook ∈ [trm_shm_associate; trm_shm_shmctl; trm_shm_shmat] →
  k_creds k !! ts_cred current = Some td → k_ipcs k !! ipc_ref perm = Some d →
  ring (k_heap k) (td_ticket_head td) l →
  ∀ arg, hook current (Some perm) arg k =
  if negb (td_in_realm td || ip_in_realm d) || (ts_pid current =? enclave_pid (k_pio k))
  then allow_shm_access current (ipc_key perm) k
  else match l with
  | [] => Fault NullDeref
  | _ => if existsb (grants (ip_identifier d) CITADEL_OP_SHM) (visible 0 l.*2)
         then allow_shm_access current (ipc_key perm)
                (set_ipcs (alter (ip_set_in_realm true) (ipc_ref perm) (k_ipcs k))
                  (if ip_in_realm d then set_creds (alter (td_set_in_realm true) (ts_cred current) (k_creds k)) k else k))
         else Ok (- EACCES, k)
  end.
Proof.
  intros Hh Hc Hi Hr arg.
  assert (hook current (Some perm) arg k = shm_can_access current (Some perm) k) as ->
    by (set_unfold in Hh; naive_solver).
  destruct (td_in_realm td || ip_in_realm d) eqn:Er; cbn [negb orb]; [|by eapply shm_access_free; eauto].
  destruct (Z.eqb_spec (ts_pid current) (enclave_pid (k_pio k))) as [Hp|Hp]; [by eapply shm_access_free; eauto|].
  eapply shm_scan_decides; eauto. by rewrite <- negb_orb, Er.
Qed.
End shm.

(** ** Witnesses *)
#[local] Existing Instance demo_kernel.
#[local] Existing Instance rb_rotating.

Definition shm_tree : tree citadel_shm_node := Node Leaf (ShmNode 7 [10; 300]) Leaf.
Definition shm_world : kstate := set_shm shm_tree demo_world.

Lemma add_to_shmid_spec_witness :
  ∃ k', add_to_shmid 9 11 shm_world = Ok (true, k') ∧ 11 ∈ inhabitants k' 9.
Proof.
  destruct (add_to_shmid_spec shm_world 0 9 11) as (k' & He & _ & Hp & _).
  - split; cbn; repeat constructor; unfold in_window; cbn; lia.
  - unfold in_window. lia.
  - done.
  - constructor.
  - by exists k'.
Defined.

Lemma shm_query_roundtrip_witness :
  ∃ h k1, get_shmid_inhabitants (hex_body (le_bytes 4 7) ++ [0]) true shm_world = Ok ((17, Some h), k1).
Proof.
  destruct (shm_query_roundtrip shm_world 7) as (h & k1 & k2 & He & _); [done|unfold is_i32; lia|done|].
  by exists h, k1.
Defined.

Definition ipc_world : kstate :=
  set_ipcs {[ 8%positive := IpcData true (replicate 16 7) ]}
    (demo_state {[ 20%positive := TaskData false false None 10 (replicate 16 1) ]} ∅).

(** The same segment, and a process with one ticket for it. *)
Definition ipc_ticket_world (op : Z) : kstate :=
  set_heap {[ 1%positive := cell (Info (replicate 16 7) op 5) (Some 1%positive) (Some 1%positive) ]}
    (set_creds {[ 20%positive := TaskData false false (Some 1%positive) 10 (replicate 16 1) ]} ipc_world).

Lemma shm_access_decides_witness :
  trm_shm_associate (Task 10 20) (Some (IpcPerm 8 7)) 0 ipc_world = Fault NullDeref ∧
  trm_shm_shmctl (Task 10 20) (Some (IpcPerm 8 7)) 0 (ipc_ticket_world CITADEL_OP_OPEN) =
    Ok (- EACCES, ipc_ticket_world CITADEL_OP_OPEN) ∧
  obs (λ r k, (r, inhabitants k 7, td_in_realm <$> k_creds k !! 20%positive))
    (trm_shm_shmat (Task 10 20) (Some (IpcPerm 8 7)) 0 (ipc_ticket_world CITADEL_OP_SHM)) = Some (0, [10], Some true).
Proof.
  split_and!.
  - rewrite (shm_access_decides ipc_world (Task 10 20) (IpcPerm 8 7) (IpcData true (replicate 16 7))
      (TaskData false false None 10 (replicate 16 1)) [] trm_shm_associate); [done|set_solver|done..].
  - rewrite (shm_access_decides (ipc_ticket_world CITADEL_OP_OPEN) (Task 10 20) (IpcPerm 8 7)
      (IpcData true (replicate 16 7)) (TaskData false false (Some 1%positive) 10 (replicate 16 1))
      [(1%positive, Info (replicate 16 7) CITADEL_OP_OPEN 5)] trm_shm_shmctl); [done|set_solver|done|done|].
    repeat split; repeat constructor; set_solver.
  - rewrite (shm_access_decides (ipc_ticket_world CITADEL_OP_SHM) (Task 10 20) (IpcPerm 8 7)
      (IpcData true (replicate 16 7)) (TaskData false false (Some 1%positive) 10 (replicate 16 1))
      [(1%positive, Info (replicate 16 7) CITADEL_OP_SHM 5)] trm_shm_shmat);
      [vm_compute; reflexivity|set_solver|done|done|].
    repeat split; repeat constructor; set_solver.
Defined.

(** Keys that are far apart get lost.  The index compares keys by the sign
    of their 32-bit difference, which is not an order on all keys: with the
    keys -1500000000, 0 and 1500000000 and a rebalancing that rotates at the
    root, the process that joined the first segment is no longer found. *)
Theorem far_keys_are_lost :
  obs (λ _ k, inhabitants k (-1500000000))
    ((add_to_shmid (-1500000000) 10;; add_to_shmid 0 10;; add_to_shmid 1500000000 10) demo_world) = Some [] ∧
  obs (λ _ k, inhabitants k (-1500000000))
    ((add_to_shmid (-1500000000) 10;; add_to_shmid 0 10;; add_to_shmid 15 10) demo_world) = Some [10].
Proof. split; vm_compute; reflexivity. Qed.
