(* ===== verification/InterfaceTheorems.v ===== *)
(** * Theorems on the interfaces of the module

    Extended attributes as user space sees them, the securityfs files, the
    binary layout of the messages, and the availability of the ciphers. *)

From S2P Require Import Prelude Shared Hex RBTree Kernel Ring Tickets TicketsSpec CacheModel Access.
From S2P Require Import Crypto Concrete CacheTheorems PayloadIO FileIO Shm Hooks AccessSpec AccessTheorems Invariants.

Section attributes.
Context `{HKer : Kernel} `{HRb : RbTree} `{HCry : KernelCrypto}.
Implicit Type k : kstate.

(** C33: user space cannot forge or strip labels.  Setting any attribute under
    [security.citadel] other than the installation request is refused with
    -EPERM and changes nothing; removing one is refused with -EACCES; and
    before the enclave has registered, an installation request is refused with
    -ECANCELED and changes nothing. *)
Theorem citadel_attributes_are_protected current de name value flags k :
  String.prefix _CITADEL_XATTR_ROOT name = true →
  (name ≠ _CITADEL_XATTR_INSTALL → trm_inode_setxattr de name value flags k = Ok (- EPERM, k)) ∧
  (registered (k_pio k) = false → name = _CITADEL_XATTR_INSTALL →
     trm_inode_setxattr de name value flags k = Ok (- ECANCELED, k)) ∧
  (∀ r k', trm_inode_removexattr current de name k = Ok (r, k') → r = - EACCES).
Proof.
  intros Hp. unfold trm_inode_setxattr, trm_inode_removexattr. rewrite Hp. split_and!.
  - intros Hne. destruct (String.eqb_spec name _CITADEL_XATTR_INSTALL); [done|]. done.
  - intros Hr ->. rewrite String.eqb_refl. unfold system_ready. mred. by rewrite Hr.
  - intros r k' ([] & k1 & _ & H)%bind_ok_inv. cbn [negb] in H. by injection H as <- _.
Qed.

(** A read of the sealed keys ignores the position.  From the start, with
    room for all of it, the file is returned whole; but a read at a later
    position copies bytes from the start of the keys again, so a reader that
    uses more than one read does not obtain the contents of the file. *)
Theorem sealed_keys_read_spec count pos k :
  let len := Z.of_nat (length enclave_keys_sealed) in
  0 ≤ count → 0 ≤ pos < len →
  let n := Z.min count (len - pos) in
  sealed_keys_read count pos true k = Ok (ReadResult n (take (Z.to_nat n) enclave_keys_sealed) (pos + n), k) ∧
  (pos = 0 → len ≤ count → take (Z.to_nat n) enclave_keys_sealed = enclave_keys_sealed).
Proof.
  intros len Hc Hp n. split.
  - unfold sealed_keys_read. fold len. destruct (Z.geb_spec pos len); [lia|]. unfold copy_out. cbv zeta. fold len.
    destruct (Z.ltb_spec count (len - pos)).
    + replace n with count by lia. destruct (Z.ltb_spec len count); [lia|]. done.
    + replace n with (len - pos) by lia. destruct (Z.ltb_spec len (len - pos)); [lia|]. done.
  - intros -> Hl. apply take_ge. lia.
Qed.

(** No function of the module changes what was announced, except
    [crypto_init]. *)
Definition same_avail (k k' : kstate) : Prop :=
  k_rsa_available k' = k_rsa_available k ∧ k_aes_available k' = k_aes_available k.
#[local] Instance same_avail_po : PreOrder same_avail.
Proof. split; [done|]. intros x y z [] []. split; congruence. Qed.
#[local] Instance same_avail_kept : Kept same_avail.
Proof. split; [exact _|..]; intros; by split. Qed.

Lemma aes_self_test_avail k a k' : trm_aes_self_test k = Ok (a, k') → same_avail k k'.
Proof.
  pose proof (keeps_prepare_aead same_avail) as Hp.
  pose proof (keeps_kmalloc_unchecked same_avail) as Hm.
  assert (keeps same_avail trm_aes_self_test) as Hk; [|by apply Hk].
  unfold trm_aes_self_test, random_bytes, trm_aes_encrypt, trm_aes_decrypt. keep_tac.
Qed.

Lemma rsa_self_test_returns_0 k r k' : trm_rsa_self_test k = Ok (r, k') → r = 0.
Proof.
  unfold trm_rsa_self_test. cbv zeta. intros (c & k1 & _ & H)%bind_ok_inv. revert H.
  case_if; [by intros [= <- _]|]. intros ([e o] & k2 & _ & H)%bind_ok_inv. revert H.
  intros (u & k3 & _ & H)%bind_ok_inv. revert H. intros (b & k4 & _ & H)%bind_ok_inv. revert H.
  case_if; [by intros [= <- _]|]. destruct o as [o|]; [|done].
  intros ([e' o'] & k5 & _ & H)%bind_ok_inv. revert H.
  intros (u' & k6 & _ & H)%bind_ok_inv. by injection H as <- _.
Qed.

(** The AES self test does not decide anything.  Whatever the two self
    tests report, once [crypto_init] has returned both ciphers are announced
    as available: the RSA test always reports success, and the result of the
    AES test is not looked at. *)
Theorem crypto_init_enables_both k k' :
  crypto_init k = Ok (tt, k') → k_rsa_available k' = true ∧ k_aes_available k' = true.
Proof.
  unfold crypto_init. intros (res & k1 & H1 & H)%bind_ok_inv.
  apply rsa_self_test_returns_0 in H1 as ->. cbn [Z.eqb when] in H. rewrite bind_modify in H.
  apply bind_ok_inv in H as (ra & k2 & H2 & H). apply aes_self_test_avail in H2 as [H2 _].
  unfold modify in H. apply (f_equal (obs (λ _ k, (k_rsa_available k, k_aes_available k)))) in H.
  cbn in H. injection H as Hr Ha. split; [|done]. by rewrite <- Hr, H2.
Qed.

(** Sealing.  What [trm_aes_encrypt] returns is 28 bytes longer than its
    input, [trm_aes_decrypt] under the same key returns the input, and every
    message that [trm_aes_decrypt] accepts under a key was sealed under it. *)
Theorem aes_seals_messages `{HLaw : !CryptoLaws} `{HK : !KernelLaws} key data k :
  (∀ n, kmem n = true) → length key = 16%nat →
  (∃ c k', trm_aes_encrypt key data (length data + 28) k = Ok ((0, Some c), k') ∧
     length c = (length data + 28)%nat ∧
     ∀ k2, trm_aes_decrypt key c (length data) k2 = Ok ((0, Some data), aes_spent k2)) ∧
  (∀ msg out k2, (28 ≤ length msg)%nat → trm_aes_decrypt key msg (length msg) k = Ok ((0, Some out), k2) →
     ∃ iv, length iv = _CITADEL_IV_LENGTH ∧ msg = seal key iv out).
Proof.
  intros Hm Hk. split.
  - rewrite trm_aes_encrypt_ok by (done || lia || apply krand_length). eexists _, _. split; [reflexivity|].
    split; [apply seal_length, krand_length|]. intros k2. apply trm_aes_decrypt_ok; [done|done|apply krand_length|lia].
  - intros msg out k2 Hl Hd. eapply trm_aes_decrypt_authentic; [done|done|done| |exact Hd]. lia.
Qed.
End attributes.

(** The layout of the messages.  The offsets at which the decoders read
    are the offsets that the x86-64 ABI gives to the fields, and the sizes are
    those the protocol relies on: a request and a reply have the same 90 bytes,
    a process token is 100 bytes, and a challenge is 216 bytes, two more than
    the largest RSA payload it was padded for. *)
Theorem message_layout :
  offsets citadel_challenge_fields = [0; 8; 40; 80; 96; 100]%nat ∧ sizeof citadel_challenge_fields = 216%nat ∧
  offsets citadel_update_header_fields = [0; 8; 24]%nat ∧ sizeof citadel_update_header_fields = 25%nat ∧
  offsets citadel_update_record_fields = [0; 4; 20]%nat ∧ sizeof citadel_update_record_fields = 24%nat ∧
  offsets citadel_ptoken_fields = [0; 8; 12; 20; 36]%nat ∧ sizeof citadel_ptoken_fields = 100%nat ∧
  offsets citadel_ptoken_protected_fields = [0; 8; 12; 20]%nat ∧ sizeof citadel_ptoken_protected_fields = 36%nat ∧
  offsets citadel_op_request_fields = [0; 8; 10; 26]%nat ∧ sizeof citadel_op_request_fields = 90%nat ∧
  offsets citadel_op_reply_fields = [0; 8; 10; 26; 34; 35]%nat ∧ sizeof citadel_op_reply_fields = 90%nat ∧
  offsets citadel_op_extended_request_fields = [0; 90; 91; 92]%nat ∧
  sizeof citadel_challenge_fields = (_CITADEL_MAX_RSA_PAYLOAD + 2)%nat.
Proof. by vm_compute. Qed.

(** The layout of the structures loses nothing.  For every structure whose
    fields have their declared widths, the view of its bytes through a pointer
    of its type has the same fields, also when other bytes follow. *)
Theorem messages_roundtrip c h r pad t p rq rp x rest :
  challenge_ok c → update_header_ok h → update_record_ok r → ptoken_ok t → ptoken_protected_ok p →
  op_request_ok rq → op_reply_ok rp → ext_request_ok x →
  dec_challenge (enc_challenge c) = c ∧ dec_update_header (enc_update_header h ++ rest) = h ∧
  dec_update_record (enc_update_record pad r ++ rest) = r ∧ dec_ptoken (enc_ptoken t) = t ∧
  dec_ptoken_protected (enc_ptoken_protected p) = p ∧ dec_op_request (enc_op_request rq ++ rest) = rq ∧
  dec_op_reply (enc_op_reply rp ++ rest) = rp ∧ dec_ext_request (enc_ext_request x) = x.
Proof.
  intros. split_and!.
  - by apply dec_enc_challenge.
  - by apply dec_enc_update_header.
  - by apply dec_enc_update_record.
  - by apply dec_enc_ptoken.
  - by apply dec_enc_ptoken_protected.
  - by apply dec_enc_op_request.
  - by apply dec_enc_op_reply.
  - by apply dec_enc_ext_request.
Qed.

(** [citadel_error] names the six status codes, but its guard compares the
    code with the size of the table in bytes, so codes 6 to 47 read past the
    end of the table; from 48 on the fallback text is returned. *)
Theorem citadel_error_spec code :
  (0 ≤ code < 6 → ∃ s, citadel_error code = Ok s ∧ s ∈ citadel_status_names) ∧
  (6 ≤ code < 48 → citadel_error code = Fault OutOfBounds) ∧
  (48 ≤ code → citadel_error code = Ok "Invalid error"%string).
Proof.
  unfold citadel_error. change (8 * Z.of_nat (length citadel_status_names)) with 48. split_and!; intros Hc.
  - destruct (Z.geb_spec code 48); [lia|].
    destruct (lookup_lt_is_Some_2 citadel_status_names (Z.to_nat code)) as [s Hs]; [simpl; lia|].
    rewrite Hs. exists s. split; [done|]. by eapply list_elem_of_lookup_2.
  - destruct (Z.geb_spec code 48); [lia|]. rewrite lookup_ge_None_2; [done|]. simpl. lia.
  - destruct (Z.geb_spec code 48); [done|lia].
Qed.

(** ** Witnesses *)
#[local] Existing Instance demo_kernel.
#[local] Existing Instance demo_laws.
#[local] Existing Instance rb_rotating.
#[local] Existing Instance demo_crypto.
#[local] Existing Instance demo_crypto_laws.

Lemma citadel_attributes_are_protected_witness :
  trm_inode_setxattr (Dentry 1 None None) "security.citadel.in_realm" [] 0 demo_world = Ok (- EPERM, demo_world).
Proof.
  by apply (citadel_attributes_are_protected (Task 10 3) (Dentry 1 None None) "security.citadel.in_realm" [] 0 demo_world).
Defined.

Lemma sealed_keys_read_spec_witness :
  sealed_keys_read 2 2 true demo_world = Ok (ReadResult 2 [10; 20] 4, demo_world).
Proof.
  refine (proj1 (sealed_keys_read_spec 2 2 demo_world _ _)); cbn; lia.
Defined.

Lemma crypto_init_enables_both_witness :
  ∃ k', crypto_init demo_world = Ok (tt, k') ∧ k_aes_available k' = true.
Proof.
  destruct (crypto_init demo_world) as [[[] k']|f] eqn:E.
  - exists k'. split; [done|]. by apply (crypto_init_enables_both demo_world k' E).
  - exfalso. apply (f_equal (obs (λ _ _, true))) in E. vm_compute in E. discriminate E.
Defined.

Lemma aes_seals_messages_witness :
  ∃ c k', trm_aes_encrypt (replicate 16 5) [1; 2; 3] 31 demo_world = Ok ((0, Some c), k') ∧ length c = 31%nat.
Proof.
  destruct (proj1 (aes_seals_messages (replicate 16 5) [1; 2; 3] demo_world (λ _, eq_refl) eq_refl))
    as (c & k' & He & Hl & _).
  by exists c, k'.
Defined.

Lemma messages_roundtrip_witness :
  dec_update_record (enc_update_record [0; 0] (demo_record 10 7 CITADEL_OP_OPEN) ++ [1]) = demo_record 10 7 CITADEL_OP_OPEN.
Proof.
  apply (messages_roundtrip
    (Challenge (replicate 8 1) (replicate 32 2) (replicate 40 3) (replicate 16 4) 5 (replicate 114 6))
    (UpdateHeader (replicate 8 1) (replicate 16 2) 1) (demo_record 10 7 CITADEL_OP_OPEN) [0; 0]
    (PToken (replicate 8 1) 2 (replicate 8 3) (replicate 16 4) (replicate 64 5))
    (PTokenProtected (replicate 8 1) 2 (replicate 8 3) (replicate 16 4))
    (OpRequest (replicate 8 1) 2 (replicate 16 3) (replicate 64 4))
    (OpReply (replicate 8 1) 2 (replicate 16 3) (replicate 8 4) 5 (replicate 55 6))
    (ExtRequest (OpRequest (replicate 8 1) 2 (replicate 16 3) (replicate 64 4)) true false (replicate 4096 0)) [1]);
    repeat split; done.
Defined.

Lemma citadel_error_spec_witness : citadel_error 7 = Fault OutOfBounds.
Proof. apply (citadel_error_spec 7). lia. Defined.
