(* ===== verification/LibState.v ===== *)
(** * The state of a process that uses libcitadel

    The cache items of libcitadel/include/citadel/cache.h live on a heap; the
    static variables of cache.c, init.c and ipc.c are fields of the state.  The
    operating system is a parameter: a type of worlds and the effect of each
    system call on it.  The calls that were made are recorded in [l_trace], the
    latest first, so that theorems can speak about what the library did.  The
    clock, the success of malloc and the contents of uninitialised automatic
    variables are streams, read in order. *)

From S2P Require Import Prelude Shared Hex.

Definition EPERM : Z := 1.
Definition EAGAIN : Z := 11.
Definition EWOULDBLOCK : Z := 11.
Definition EACCES : Z := 13.
Definition O_CREAT : Z := 0x40.
Definition O_NONBLOCK : Z := 0x800.
Definition AF_UNIX : Z := 1.
Definition AF_LOCAL : Z := 1.

(** ** System calls

    A path is the byte string up to and without its terminator. *)
Record sockaddr := SockAddr { sa_family : Z; sun_path : bytes }.

Inductive syscall :=
  | sys_socket
  | sys_fcntl_getfl (fd : Z)
  | sys_fcntl_setfl (fd flags : Z)
  | sys_connect (fd : Z) (addr : sockaddr)
  | sys_bind (fd : Z) (addr : sockaddr)
  | sys_listen (fd backlog : Z)
  | sys_write (fd : Z) (data : bytes)
  | sys_read (fd count : Z)
  | sys_pread (fd count offset : Z)
  | sys_pwrite (fd : Z) (data : bytes) (offset : Z)
  | sys_send (fd : Z) (data : bytes) (flags : Z)
  | sys_recv (fd count flags : Z)
  | sys_writev (fd : Z) (iov : list bytes)
  | sys_sendfile (out_fd in_fd count : Z)
  | sys_peercred (fd : Z)
  | sys_close (fd : Z)
  | sys_fgetxattr (fd : Z) (name : string) (size : nat)
  | sys_getxattr (path : bytes) (name : string) (size : nat)
  | sys_access (path : bytes)
  | sys_open (path : bytes) (oflag mode : Z)
  | sys_unlink (path : bytes)
  | sys_mkfifo (path : bytes) (mode : Z)
  | sys_fopen (path : bytes) (mode : string)
  | sys_fread (size : nat)
  | sys_fclose
  | sys_shmget (key size shmflg : Z)
  | sys_shmat (shmid shmaddr shmflg : Z)
  | sys_shmctl (shmid cmd : Z)
  | sys_socketpair (domain type protocol : Z)
  | sys_getpid
  | sys_getppid
  | sys_time
  | sys_fork.

(** The return value; the error code, which is stored in errno when the return
    value is -1; the bytes or numbers the call writes to the caller's memory. *)
Record sysret := SysRet { sr_ret : Z; sr_errno : Z; sr_out : bytes; sr_nums : list Z }.

Class Posix := {
  world : Type;
  sys : syscall → world → sysret * world;
  clock : nat → Z;                (** seconds of CLOCK_MONOTONIC_RAW, successively *)
  mem : nat → bool;               (** whether successive mallocs succeed *)
  stack : nat → nat → bytes;      (** contents of uninitialised variables *)
}.
(** A variable has as many bytes as its type. *)
Class PosixLaws `{Posix} := { stack_length n len : length (stack n len) = len }.

(** ** Cache items

    create_cache_entry leaves [data], [fd], [shmid] and [update] unassigned:
    [None] is an indeterminate value.  The buffer behind [data] belongs to its
    item alone, so the item holds its contents.  Only the seconds of the time
    stamp are ever read. *)
Inductive citadel_update_function := _citadel_file_open_fd_ptr | _citadel_socket_ptr.

Record libcitadel_cache_item := CacheItem {
  ci_data : option (option bytes);
  ci_next : ptr;
  ci_time : Z;
  ci_op : Z;
  ci_fd : option Z;
  ci_shmid : option Z;
  ci_update : option citadel_update_function }.

Definition LIBCITADEL_CACHE_MAX_GROUPS : Z := 3.
Definition LIBCITADEL_CACHE_FILE_NAMES : Z := 0.
Definition LIBCITADEL_CACHE_FD : Z := 1.
Definition LIBCITADEL_CACHE_SHM : Z := 2.

Definition ci_set_data (v : option bytes) (i : libcitadel_cache_item) : libcitadel_cache_item :=
  CacheItem (Some v) (ci_next i) (ci_time i) (ci_op i) (ci_fd i) (ci_shmid i) (ci_update i).
Definition ci_set_next (v : ptr) (i : libcitadel_cache_item) : libcitadel_cache_item :=
  CacheItem (ci_data i) v (ci_time i) (ci_op i) (ci_fd i) (ci_shmid i) (ci_update i).
Definition ci_set_time (v : Z) (i : libcitadel_cache_item) : libcitadel_cache_item :=
  CacheItem (ci_data i) (ci_next i) v (ci_op i) (ci_fd i) (ci_shmid i) (ci_update i).
Definition ci_set_op (v : Z) (i : libcitadel_cache_item) : libcitadel_cache_item :=
  CacheItem (ci_data i) (ci_next i) (ci_time i) v (ci_fd i) (ci_shmid i) (ci_update i).
Definition ci_set_fd (v : Z) (i : libcitadel_cache_item) : libcitadel_cache_item :=
  CacheItem (ci_data i) (ci_next i) (ci_time i) (ci_op i) (Some v) (ci_shmid i) (ci_update i).
Definition ci_set_shmid (v : Z) (i : libcitadel_cache_item) : libcitadel_cache_item :=
  CacheItem (ci_data i) (ci_next i) (ci_time i) (ci_op i) (ci_fd i) (Some v) (ci_update i).
Definition ci_set_update (v : citadel_update_function) (i : libcitadel_cache_item) : libcitadel_cache_item :=
  CacheItem (ci_data i) (ci_next i) (ci_time i) (ci_op i) (ci_fd i) (ci_shmid i) (Some v).

(** ** The static variables of init.c *)
Record init_statics := InitStatics {
  citadel_pid : Z; own_pid : Z; parent_pid : Z; known_taint : bool;
  identifier : bytes; parent_identifier : bytes;
  ptoken : option bytes; signed_ptoken : option bytes }.

Record lstate `{Posix} := LState {
  l_heap : gmap positive libcitadel_cache_item;
  l_brk : positive;
  l_groups : Z → ptr;
  l_self : init_statics;
  l_buffer : bytes;
  l_errno : Z;
  l_nclk : nat;
  l_nmem : nat;
  l_nstk : nat;
  l_world : world;
  l_trace : list syscall }.

Section state.
Context `{HPos : Posix}.
Implicit Type l : lstate.
Abbreviation L := (M lstate).

(** ** Field updates *)
Definition put_heap (v : gmap positive libcitadel_cache_item) l : lstate :=
  LState _ v (l_brk l) (l_groups l) (l_self l) (l_buffer l) (l_errno l) (l_nclk l) (l_nmem l) (l_nstk l) (l_world l) (l_trace l).
Definition put_brk (v : positive) l : lstate :=
  LState _ (l_heap l) v (l_groups l) (l_self l) (l_buffer l) (l_errno l) (l_nclk l) (l_nmem l) (l_nstk l) (l_world l) (l_trace l).
Definition put_groups (v : Z → ptr) l : lstate :=
  LState _ (l_heap l) (l_brk l) v (l_self l) (l_buffer l) (l_errno l) (l_nclk l) (l_nmem l) (l_nstk l) (l_world l) (l_trace l).
Definition put_self (v : init_statics) l : lstate :=
  LState _ (l_heap l) (l_brk l) (l_groups l) v (l_buffer l) (l_errno l) (l_nclk l) (l_nmem l) (l_nstk l) (l_world l) (l_trace l).
Definition put_buffer (v : bytes) l : lstate :=
  LState _ (l_heap l) (l_brk l) (l_groups l) (l_self l) v (l_errno l) (l_nclk l) (l_nmem l) (l_nstk l) (l_world l) (l_trace l).
Definition put_errno (v : Z) l : lstate :=
  LState _ (l_heap l) (l_brk l) (l_groups l) (l_self l) (l_buffer l) v (l_nclk l) (l_nmem l) (l_nstk l) (l_world l) (l_trace l).
Definition put_nclk (v : nat) l : lstate :=
  LState _ (l_heap l) (l_brk l) (l_groups l) (l_self l) (l_buffer l) (l_errno l) v (l_nmem l) (l_nstk l) (l_world l) (l_trace l).
Definition put_nmem (v : nat) l : lstate :=
  LState _ (l_heap l) (l_brk l) (l_groups l) (l_self l) (l_buffer l) (l_errno l) (l_nclk l) v (l_nstk l) (l_world l) (l_trace l).
Definition put_nstk (v : nat) l : lstate :=
  LState _ (l_heap l) (l_brk l) (l_groups l) (l_self l) (l_buffer l) (l_errno l) (l_nclk l) (l_nmem l) v (l_world l) (l_trace l).
Definition put_world (v : world) l : lstate :=
  LState _ (l_heap l) (l_brk l) (l_groups l) (l_self l) (l_buffer l) (l_errno l) (l_nclk l) (l_nmem l) (l_nstk l) v (l_trace l).
Definition put_trace (v : list syscall) l : lstate :=
  LState _ (l_heap l) (l_brk l) (l_groups l) (l_self l) (l_buffer l) (l_errno l) (l_nclk l) (l_nmem l) (l_nstk l) (l_world l) v.

(** ** Calls and memory *)

(** A system call.  errno is set by a failing call only. *)
Definition call (c : syscall) : L sysret := λ l,
  let r := sys c (l_world l) in
  Ok (r.1, put_trace (c :: l_trace l) (put_world r.2
        (if sr_ret r.1 =? - 1 then put_errno (sr_errno r.1) l else l))).
(** A call of which only the return value is used. *)
Definition call_ret (c : syscall) : L Z := r ← call c; mret (sr_ret r).

Definition clock_gettime : L Z := λ l, Ok (clock (l_nclk l), put_nclk (S (l_nclk l)) l).
Definition malloc : L bool := λ l, Ok (mem (l_nmem l), put_nmem (S (l_nmem l)) l).
(** An allocation whose result is written to without a test. *)
Definition malloc_unchecked : L unit :=
  ok ← malloc; if ok : bool then mret tt else crash NullDeref.
Definition uninitialised (len : nat) : L bytes := λ l,
  Ok (stack (l_nstk l) len, put_nstk (S (l_nstk l)) l).

Definition set_errno (e : Z) : L unit := modify (put_errno e).

Definition load_item (p : ptr) : L libcitadel_cache_item := λ l,
  match p with
  | None => Fault NullDeref
  | Some a => match l_heap l !! a with Some i => Ok (i, l) | None => Fault BadAccess end
  end.
Definition store_item (p : ptr) (f : libcitadel_cache_item → libcitadel_cache_item) : L unit := λ l,
  match p with
  | None => Fault NullDeref
  | Some a => match l_heap l !! a with
              | Some _ => Ok (tt, put_heap (alter f a (l_heap l)) l)
              | None => Fault BadAccess
              end
  end.
Definition free_item (p : ptr) : L unit := λ l,
  match p with
  | None => Ok (tt, l)
  | Some a => match l_heap l !! a with
              | Some _ => Ok (tt, put_heap (delete a (l_heap l)) l)
              | None => Fault BadAccess
              end
  end.
(** A fresh item with indeterminate contents; [next], [op] and [time] are
    assigned by the only caller before anything is read. *)
Definition new_item : L ptr := λ l,
  Ok (Some (l_brk l), put_brk (l_brk l + 1)%positive
    (put_heap (<[l_brk l := CacheItem None None 0 0 None None None]> (l_heap l)) l)).

Definition group_head (g : Z) : L ptr := gets (λ l, l_groups l g).
Definition set_group_head (g : Z) (p : ptr) : L unit :=
  modify (λ l, put_groups (<[g := p]> (l_groups l)) l).

(** The value of a field that may be indeterminate. *)
Definition defined {A} (v : option A) : L A :=
  match v with Some a => mret a | None => crash Indeterminate end.
(** A use of a pointer that may be NULL. *)
Definition nonnull {A} (v : option A) : L A :=
  match v with Some a => mret a | None => crash NullDeref end.

(** memcpy(_, p, n). *)
Definition memcpy (p : bytes) (n : nat) : L bytes :=
  if (length p <? n)%nat then crash OutOfBounds else mret (take n p).

End state.

(** memcmp(a, b, n) == 0, comparing byte by byte up to the first difference:
    [None] when the end of a buffer is passed before that.  An implementation that
    reads on after a difference would also pass the end of a shorter buffer;
    cache_hit (file.c) compares paths with shorter cached ones. *)
Fixpoint memcmp_eq (n : nat) (a b : bytes) : option bool :=
  match n, a, b with
  | O, _, _ => Some true
  | S n, x :: a, y :: b => if x =? y then memcmp_eq n a b else Some false
  | S _, _, _ => None
  end.
Definition memcmp {S} (n : nat) (a b : bytes) : M S bool :=
  match memcmp_eq n a b with Some r => mret r | None => crash OutOfBounds end.
