(* ===== verification/Printing.v ===== *)
(** * Hexadecimal output of the enclave and of the library

    daemon/enclave_core/Enclave.cpp keeps the digits in a static buffer,
    libcitadel/src/common.c in one that it allocates.  Where the text goes is not
    modelled: printing returns it. *)

From S2P Require Import Prelude Shared Hex LibState.

Module EnclavePrint.
Definition hex_buffer_size : nat := 2 * _CITADEL_MAX_METADATA_SIZE + 1.

(** The state is the static buffer.  The loop stops at the size of the buffer, the
    terminator does not. *)
Definition load_hex_buffer (buf : option bytes) (len : nat) : M bytes unit :=
  match buf with
  | None => mret tt
  | Some buf =>
      if (len =? 0)%nat then mret tt else
      let count := Nat.min len _CITADEL_MAX_METADATA_SIZE in
      if (length buf <? count)%nat then crash OutOfBounds else
      modify (overwrite 0 (hex_body (take count buf)));;
      if (len * 2 <? hex_buffer_size)%nat then modify (overwrite (len * 2) [0]) else crash OutOfBounds
  end.

Definition reset_hex_buffer : M bytes unit := modify (λ _, replicate hex_buffer_size 0).

(** The text, whichever of the two printing functions gets it. *)
Definition _print_hex (buf : option bytes) (len : nat) : M bytes bytes := load_hex_buffer buf len;; gets cstring.

Definition timer_pulse : M bytes unit := mret tt.
Definition generate_random_number : M bytes Z := mret 0.

(** Up to 4096 bytes are printed in full, and read back; more are a write past
    the end of the buffer. *)
Lemma print_hex_exact b old :
  bytes_ok b → (0 < length b)%nat → length old = hex_buffer_size →
  if (length b <=? _CITADEL_MAX_METADATA_SIZE)%nat
  then ∃ s, _print_hex (Some b) (length b) old = Ok (hex_body b, s) ∧ length s = hex_buffer_size ∧ hexstring_to_bytes s = Some b
  else _print_hex (Some b) (length b) old = Fault OutOfBounds.
Proof.
  intros Hb Hl Ho. unfold _print_hex, load_hex_buffer. destruct (Nat.eqb_spec (length b) 0); [lia|].
  pose proof (hex_body_length b) as Hh. unfold hex_buffer_size in *.
  change _CITADEL_MAX_METADATA_SIZE with 4096%nat in *. destruct (Nat.leb_spec (length b) 4096) as [Hle|Hgt].
  - rewrite Nat.min_l, Nat.ltb_irrefl, firstn_all by done. rewrite bind_assoc. mred.
    destruct (Nat.ltb_spec (length b * 2) (2 * 4096 + 1)); [|lia]. mred.
    set (s := overwrite _ _ _). assert (s = hex_body b ++ 0 :: drop (S (length b * 2)) old) as Hs.
    { unfold s, overwrite. rewrite take_0. cbn [app]. rewrite take_app_length' by lia.
      rewrite drop_app_ge, drop_drop by (cbn; lia). cbn [length app]. repeat f_equal. lia. }
    exists s. split_and!.
    + unfold gets. rewrite Hs at 1. by rewrite cstring_nul by by apply hex_body_nonzero.
    + rewrite Hs, length_app, Hh. cbn [length]. rewrite length_drop. lia.
    + rewrite Hs. by apply hexstring_to_bytes_body.
  - rewrite Nat.min_r by lia. destruct (Nat.ltb_spec (length b) 4096); [lia|]. rewrite bind_assoc. mred.
    destruct (Nat.ltb_spec (length b * 2) (2 * 4096 + 1)); [lia|done].
Qed.
End EnclavePrint.

Module LibPrint.
Section library.
Context `{HPos : Posix}.

Definition to_hexstring (buf : option bytes) (len : nat) : M lstate (option bytes) :=
  match buf with
  | None => mret None
  | Some buf =>
      if (len =? 0)%nat then mret None else
      malloc_unchecked;;
      if (length buf <? len)%nat then crash OutOfBounds else mret (Some (hex_body (take len buf) ++ [0]))
  end.

(** The C library prints a null pointer as text of its own. *)
Definition print_hex (buf : option bytes) (len : nat) : M lstate (option bytes) :=
  hex ← to_hexstring buf len; mret (cstring <$> hex).
End library.
End LibPrint.
