(* ===== verification/LibCache.v ===== *)
(** * The permission cache of libcitadel (libcitadel/src/cache.c)

    Three singly linked lists of items.  A loop over a list takes an amount of
    fuel; one more than the number of live items is enough for every list that
    is not cyclic, and a loop over a cyclic list does not end in the program
    either. *)

From S2P Require Import Prelude Shared Hex LibState.

Section cache.
Context `{HPos : Posix}.
Abbreviation L := (M lstate).

Definition list_fuel (l : lstate) : nat := S (size (l_heap l)).

Definition init_cache : L unit :=
  set_group_head 0 None;; set_group_head 1 None;; set_group_head 2 None.

(** [while (current) { count++; current = current->next; }] *)
Fixpoint count_entries (fuel : nat) (current : ptr) (count : Z) : L Z :=
  match current, fuel with
  | None, _ => mret count
  | Some _, O => crash OutOfFuel
  | Some _, S fuel => item ← load_item current; count_entries fuel (ci_next item) (count + 1)
  end.

(** The first item that is young enough, or NULL. *)
Fixpoint skip_old (fuel : nat) (now : Z) (current : ptr) : L ptr :=
  match current, fuel with
  | None, _ => mret None
  | Some _, O => crash OutOfFuel
  | Some _, S fuel =>
      item ← load_item current;
      if uint64 (now - ci_time item) <? _CITADEL_TICKET_EXPIRY then mret current
      else skip_old fuel now (ci_next item)
  end.

(** Free the items from [head] up to [current]. *)
Fixpoint free_until (fuel : nat) (head current : ptr) : L unit :=
  if bool_decide (head = current) then mret tt
  else match fuel with
  | O => crash OutOfFuel
  | S fuel =>
      item ← load_item head;
      defined (ci_data item);;
      free_item head;;
      free_until fuel (ci_next item) current
  end.

Definition cleanup_cache_group (group : Z) : L unit :=
  head ← group_head group;
  match head with
  | None => mret tt
  | Some _ =>
      fuel ← gets list_fuel;
      count_entries fuel head 0;;
      now ← clock_gettime;
      current ← skip_old fuel now head;
      free_until fuel head current;;
      set_group_head group current
  end.

Definition cache_group_head (group : Z) : L ptr :=
  if group >=? LIBCITADEL_CACHE_MAX_GROUPS then mret None else
  when (group =? LIBCITADEL_CACHE_FILE_NAMES) (cleanup_cache_group group);;
  group_head group.

(** [while (current->next) current = current->next;] *)
Fixpoint last_item (fuel : nat) (current : ptr) : L ptr :=
  match fuel with
  | O => crash OutOfFuel
  | S fuel =>
      item ← load_item current;
      match ci_next item with
      | None => mret current
      | Some a => last_item fuel (Some a)
      end
  end.

Definition create_cache_entry (group : Z) : L ptr :=
  if group >=? LIBCITADEL_CACHE_MAX_GROUPS then mret None else
  ok ← malloc;
  if negb ok then mret None else
  item ← new_item;
  store_item item (ci_set_next None);;
  store_item item (ci_set_op 0);;
  now ← clock_gettime;
  store_item item (ci_set_time now);;
  head ← group_head group;
  match head with
  | None => set_group_head group item
  | Some _ =>
      fuel ← gets list_fuel;
      last ← last_item fuel head;
      store_item last (ci_set_next item)
  end;;
  mret item.

Definition entry_in_date (item : ptr) : L bool :=
  match item with
  | None => mret false
  | Some _ =>
      now ← clock_gettime;
      i ← load_item item;
      mret (uint64 (now - ci_time i + 1) <? _CITADEL_TICKET_EXPIRY)
  end.

Definition pop_group_head (group : Z) : L ptr :=
  if group >=? LIBCITADEL_CACHE_MAX_GROUPS then mret None else
  old ← group_head group;
  match old with
  | None => mret None
  | Some _ =>
      i ← load_item old;
      set_group_head group (ci_next i);;
      mret old
  end.

Definition update_cache_timestamp (item : ptr) : L unit :=
  now ← clock_gettime; store_item item (ci_set_time now).

Definition is_null (p : ptr) : bool := match p with None => true | Some _ => false end.

Definition move_cache_item_to_end (item prev : ptr) (group : Z) : L unit :=
  i ← load_item item;
  if is_null prev && is_null (ci_next i) then mret tt else
  (if is_null prev then pop_group_head group;; mret tt
   else store_item prev (ci_set_next (ci_next i)));;
  fuel ← gets list_fuel;
  current ← last_item fuel item;
  store_item current (ci_set_next item);;
  store_item item (ci_set_next None).

(** init.c: the same computation as in the kernel module, with malloc. *)
Definition _hex_identifier_to_bytes (hexstring : bytes) : L (option bytes) :=
  if negb (existsb (Z.eqb 0) hexstring) then crash OutOfBounds else
  match hexstring_to_bytes hexstring with
  | None => mret None
  | Some [] => malloc;; mret (Some [])
  | Some b => malloc_unchecked;; mret (Some b)
  end.

(** The identifier, and the value of [*tainted]. *)
Definition get_fd_identifier (fd : Z) : L (option bytes * bool) :=
  malloc_unchecked;;
  rest ← uninitialised (_CITADEL_ENCODED_IDENTIFIER_LENGTH - 1);
  r ← call (sys_fgetxattr fd _CITADEL_XATTR_IDENTIFIER _CITADEL_ENCODED_IDENTIFIER_LENGTH);
  let read := sr_ret r in
  let id := sr_out r ++ drop (length (sr_out r)) (rest ++ [0]) in
  if (read =? Z.of_nat _CITADEL_ENCODED_IDENTIFIER_LENGTH)
     || (read =? Z.of_nat _CITADEL_ENCODED_IDENTIFIER_LENGTH - 1)
  then id_raw ← _hex_identifier_to_bytes id; mret (id_raw, true)
  else if read =? - 1 then mret (None, false)
  else mret (None, true).

Definition prepare_entry_for_child (item : ptr) : L unit :=
  store_item item (ci_set_time 0);;
  i ← load_item item;
  when (ci_op i =? CITADEL_OP_NOP) (store_item item (ci_set_op CITADEL_OP_PARENT)).

(** [while (head->next) { prepare_entry_for_child(head->next); head = head->next; }] *)
Fixpoint prepare_rest (fuel : nat) (head : ptr) : L unit :=
  match fuel with
  | O => crash OutOfFuel
  | S fuel =>
      i ← load_item head;
      match ci_next i with
      | None => mret tt
      | Some a => prepare_entry_for_child (Some a);; prepare_rest fuel (Some a)
      end
  end.

Definition prepare_group (group : Z) : L unit :=
  head ← group_head group;
  match head with
  | None => mret tt
  | Some _ =>
      prepare_entry_for_child head;;
      fuel ← gets list_fuel;
      prepare_rest fuel head
  end.

Definition cache_on_fork : L unit := prepare_group 0;; prepare_group 1;; prepare_group 2.

Fixpoint find_fd (fuel : nat) (fd : Z) (head : ptr) : L bool :=
  match head, fuel with
  | None, _ => mret false
  | Some _, O => crash OutOfFuel
  | Some _, S fuel =>
      i ← load_item head;
      f ← defined (ci_fd i);
      if f =? fd then mret true else find_fd fuel fd (ci_next i)
  end.

Definition citadel_fd_is_declared (fd : Z) : L bool :=
  if fd =? - 1 then mret false else
  head ← group_head LIBCITADEL_CACHE_FD;
  fuel ← gets list_fuel;
  find_fd fuel fd head.

(** The loop of citadel_remove_fd: [prev = head] and [head = prev->next] are
    executed also after [head] has been freed. *)
Fixpoint remove_rest (fuel : nat) (fd : Z) (prev head : ptr) : L unit :=
  match head, fuel with
  | None, _ => mret tt
  | Some _, O => crash OutOfFuel
  | Some _, S fuel =>
      i ← load_item head;
      f ← defined (ci_fd i);
      (if f =? fd then
         store_item prev (ci_set_next (ci_next i));;
         defined (ci_data i);;
         free_item head
       else mret tt);;
      j ← load_item head;
      remove_rest fuel fd head (ci_next j)
  end.

Definition citadel_remove_fd (fd : Z) : L unit :=
  head ← group_head LIBCITADEL_CACHE_FD;
  if is_null head || (fd =? - 1) then mret tt else
  i ← load_item head;
  fuel ← gets list_fuel;
  remove_rest fuel fd head (ci_next i);;
  head ← group_head LIBCITADEL_CACHE_FD;
  j ← load_item head;
  f ← defined (ci_fd j);
  if f =? fd then
    set_group_head LIBCITADEL_CACHE_FD (ci_next j);;
    defined (ci_data j);;
    free_item head
  else mret tt.

End cache.
