(* ===== verification/LibIpc.v ===== *)
(** * Transactions with the daemon (libcitadel/src/ipc.c)

    The static receive buffer keeps what earlier transactions left in it. *)

From S2P Require Import Prelude Shared Hex LibState.

Section ipc.
Context `{HPos : Posix}.
Abbreviation L := (M lstate).

Definition ipc_timeout : Z := 100 * 1000.
Definition sizeof_request : nat := sizeof citadel_op_request_fields.
Definition sizeof_reply : nat := sizeof citadel_op_reply_fields.
Definition sizeof_extended : nat := sizeof citadel_op_extended_request_fields.

Definition path_bytes (s : string) : bytes :=
  (λ c, Z.of_N (Ascii.N_of_ascii c)) <$> String.list_ascii_of_string s.
Definition _CITADEL_IPC_FILE : string := "/run/citadel.socket".

(** A connected non-blocking socket, or -1. *)
Definition init_socket : L Z :=
  socket_fd ← call_ret sys_socket;
  if socket_fd =? - 1 then mret (- 1) else
  flags ← call_ret (sys_fcntl_getfl socket_fd);
  res ← call_ret (sys_fcntl_setfl socket_fd (Z.lor flags O_NONBLOCK));
  if negb (res =? 0) then mret (- 1) else
  res ← call_ret (sys_connect socket_fd (SockAddr AF_UNIX (path_bytes _CITADEL_IPC_FILE)));
  if res =? - 1 then mret (- 1) else mret socket_fd.

Definition would_block (e : Z) : bool := (e =? EWOULDBLOCK) || (e =? EAGAIN).

(** Every attempt writes the message from its start. *)
Fixpoint ipc_send_loop (fuel : nat) (fd : Z) (data : bytes) (attempts sent : Z) : L bool :=
  match fuel with
  | O => crash OutOfFuel
  | S fuel =>
      let len := Z.of_nat (length data) in
      rv ← call_ret (sys_write fd data);
      errno ← gets l_errno;
      let sent := sent + (if rv >? 0 then rv else 0) in
      if (sent <? len) || ((rv =? - 1) && would_block errno) then
        set_errno 0;;
        let attempts := attempts + 1 in
        if attempts >=? ipc_timeout then mret false
        else ipc_send_loop fuel fd data attempts sent
      else mret (sent =? len)
  end.
Definition ipc_send (fd : Z) (data : bytes) : L bool :=
  ipc_send_loop (Z.to_nat ipc_timeout) fd data 0 0.

Fixpoint ipc_recv_loop (fuel : nat) (fd : Z) (attempts : Z) : L bool :=
  match fuel with
  | O => crash OutOfFuel
  | S fuel =>
      r ← call (sys_read fd (Z.of_nat sizeof_extended));
      errno ← gets l_errno;
      let rv := sr_ret r in
      modify (λ l, put_buffer (if rv >? 0 then sr_out r ++ drop (length (sr_out r)) (l_buffer l)
                               else l_buffer l) l);;
      if (rv =? - 1) && would_block errno then
        set_errno 0;;
        let attempts := attempts + 1 in
        if attempts >=? ipc_timeout then mret false
        else ipc_recv_loop fuel fd attempts
      else mret (rv >? 0)
  end.
Definition ipc_recv (fd : Z) : L bool := ipc_recv_loop (Z.to_nat ipc_timeout) fd 0.

Definition get_citadel_pid : L Z := gets (λ l, citadel_pid (l_self l)).
Definition get_ptoken : L (option bytes) := gets (λ l, ptoken (l_self l)).

(** The part of the transaction after a reply has arrived. *)
Definition check_reply (socket : Z) : L bool :=
  r ← call (sys_peercred socket);
  pid ← defined (head (sr_nums r));
  cpid ← get_citadel_pid;
  if uint64 pid =? uint64 cpid then
    reply ← gets (λ l, dec_op_reply (l_buffer l));
    own ← get_ptoken;
    own ← nonnull own;
    token_ok ← memcmp _CITADEL_PROCESS_PTOKEN_LENGTH (rp_ptoken reply) own;
    (* && : the signature is compared only when the token differs *)
    sig_ok ← (if token_ok : bool then mret true
              else memcmp _CITADEL_SIGNATURE_LENGTH (rp_signature reply) challenge_signature);
    if negb token_ok && negb sig_ok then call (sys_close socket);; mret false
    else
      (if rp_result reply =? CITADEL_OP_APPROVED
       then call (sys_close socket);; mret tt else mret tt);;
      call (sys_close socket);;
      set_errno 0;;
      mret (rp_result reply =? CITADEL_OP_APPROVED)
  else call (sys_close socket);; mret false.

Definition ipc_transaction (request : bytes) : L bool :=
  set_errno 0;;
  socket ← init_socket;
  if socket <? 0 then mret false else
  if negb (length request =? sizeof_request)%nat && negb (length request =? sizeof_extended)%nat
  then mret false else
  sent ← ipc_send socket request;
  if sent : bool then
    received ← ipc_recv socket;
    if received : bool then check_reply socket
    else call (sys_close socket);; mret false
  else call (sys_close socket);; mret false.

End ipc.
