(* ===== verification/LibClient.v ===== *)
(** * The operations of libcitadel

    libcitadel/src/init.c, file.c, shm.c, socket.c and citadel_validate_fd of
    cache.c.  Fields of a request that the source leaves unassigned are sent
    with whatever the stack held. *)

From S2P Require Import Prelude Shared Hex LibState LibCache LibIpc.

Section client.
Context `{HPos : Posix}.
Abbreviation L := (M lstate).

(** ** init.c: getters and setters *)
Definition get_own_pid : L Z := gets (λ l, citadel_pid (l_self l)).
Definition get_parent_pid : L Z := gets (λ l, citadel_pid (l_self l)).
Definition get_identifier : L bytes := gets (λ l, identifier (l_self l)).
Definition get_parent_identifier : L bytes := gets (λ l, parent_identifier (l_self l)).
Definition am_tainted : L bool := gets (λ l, known_taint (l_self l)).
Definition get_signed_ptoken : L (option bytes) := gets (λ l, signed_ptoken (l_self l)).
Definition set_self (f : init_statics → init_statics) : L unit :=
  modify (λ l, put_self (f (l_self l)) l).
Definition set_taint : L unit := set_self (λ s,
  InitStatics (citadel_pid s) (own_pid s) (parent_pid s) true (identifier s)
    (parent_identifier s) (ptoken s) (signed_ptoken s)).

(** [memcpy(request.signed_ptoken, get_signed_ptoken(), 64)] *)
Definition copy_signed_ptoken : L bytes :=
  t ← get_signed_ptoken; t ← nonnull t; memcpy t _CITADEL_PROCESS_SIGNED_PTOKEN_LENGTH.

(** A request whose subject is assigned, and one whose subject is not. *)
Definition send_request (operation : Z) (subject : bytes) : L bool :=
  token ← copy_signed_ptoken;
  ipc_transaction (enc_op_request (OpRequest challenge_signature operation subject token)).
Definition send_anonymous_request (operation : Z) : L bool :=
  subject ← uninitialised _CITADEL_IDENTIFIER_LENGTH;
  send_request operation subject.

(** ** init.c: registration *)
Definition ipc_declare_self : L bool := send_anonymous_request CITADEL_OP_REGISTER.
Definition citadel_pty : L bool := send_anonymous_request CITADEL_OP_PTY_ACCESS.

Definition _CITADEL_PROCESS_GET_PTOKEN_PATH : string := "/sys/kernel/security/citadel/get_ptoken".

Definition save_ptoken (t : citadel_ptoken) (s : init_statics) : init_statics :=
  InitStatics (pt_citadel_pid t) (own_pid s) (parent_pid s) (known_taint s)
    (pt_process_identifier t) (parent_identifier s) (Some (pt_ptoken t)) (Some (pt_signed_ptoken t)).

Definition fetch_kernel_ptoken : L bool :=
  f ← call_ret (sys_fopen (path_bytes _CITADEL_PROCESS_GET_PTOKEN_PATH) "rb");
  if f =? 0 then mret false else
  r ← call (sys_fread _CITADEL_PTOKEN_PAYLOAD_SIZE);
  call sys_fclose;;
  if sr_ret r =? 0 then mret false else
  let payload := dec_ptoken (sr_out r) in
  same ← memcmp _CITADEL_SIGNATURE_LENGTH (pt_signature payload) challenge_signature;
  if negb same then mret false else
  malloc_unchecked;;
  malloc_unchecked;;
  set_self (save_ptoken payload);;
  mret true.

Definition inherit_identifier (s : init_statics) : init_statics :=
  InitStatics (citadel_pid s) (own_pid s) (parent_pid s) (known_taint s) (identifier s)
    (identifier s) (ptoken s) (signed_ptoken s).
Definition set_pids (pid ppid : Z) (s : init_statics) : init_statics :=
  InitStatics (citadel_pid s) pid ppid (known_taint s) (identifier s)
    (parent_identifier s) (ptoken s) (signed_ptoken s).

(** The result and the value of [*is_child]. *)
Definition init_pid : L (bool * bool) :=
  pid ← call_ret sys_getpid;
  ppid ← call_ret sys_getppid;
  own ← gets (λ l, own_pid (l_self l));
  if pid =? own then mret (false, false) else
  is_child ← (if (own >? 0) && negb (own =? pid) && negb (own =? ppid) then mret false
              else if own =? ppid then
                cache_on_fork;; set_self inherit_identifier;; mret true
              else mret false);
  set_self (set_pids pid ppid);;
  mret (true, is_child).

(** init_rand seeds the generator of the C library, which the library does not
    use: only the call of time() is visible. *)
Definition init_rand : L unit := call sys_time;; mret tt.

Definition citadel_init : L bool :=
  '(fresh, is_child) ← init_pid;
  if negb fresh then mret true else
  init_rand;;
  when (negb is_child) init_cache;;
  ok ← fetch_kernel_ptoken;
  if ok : bool then ipc_declare_self else mret false.

Definition citadel_parent_pipe : L bool :=
  pp ← gets (λ l, parent_pid (l_self l));
  if pp =? 0 then mret false else
  id ← get_parent_identifier;
  send_request CITADEL_OP_OPEN id.

(** ** file.c and socket.c: the update functions of cache items *)
(** create_cache_entry(FD) and the assignments that follow it. *)
Definition add_fd_entry (fd : Z) (data : bytes) (op : Z) (u : citadel_update_function) : L unit :=
  entry ← create_cache_entry LIBCITADEL_CACHE_FD;
  store_item entry (ci_set_op op);;
  store_item entry (ci_set_fd fd);;
  malloc_unchecked;;
  store_item entry (ci_set_update u);;
  id ← memcpy data _CITADEL_IDENTIFIER_LENGTH;
  store_item entry (ci_set_data (Some id)).

Definition _citadel_file_open_fd (fd : Z) (identifier : option bytes) (operation : Z)
    (add_cache : bool) : L bool :=
  token ← copy_signed_ptoken;
  id ← nonnull identifier;
  subject ← memcpy id _CITADEL_IDENTIFIER_LENGTH;
  success ← ipc_transaction (enc_op_request (OpRequest challenge_signature operation subject token));
  when (success && add_cache) (add_fd_entry fd id operation _citadel_file_open_fd_ptr);;
  mret success.
Definition _citadel_socket (fd : Z) (identifier : option bytes) (operation : Z)
    (add_cache : bool) : L bool :=
  id ← nonnull identifier;
  subject ← memcpy id _CITADEL_IDENTIFIER_LENGTH;
  token ← copy_signed_ptoken;
  success ← ipc_transaction (enc_op_request (OpRequest challenge_signature operation subject token));
  when (success && add_cache) (add_fd_entry fd id operation _citadel_socket_ptr);;
  mret success.
Definition run_update (u : citadel_update_function) : Z → option bytes → Z → bool → L bool :=
  match u with
  | _citadel_file_open_fd_ptr => _citadel_file_open_fd
  | _citadel_socket_ptr => _citadel_socket
  end.

(** ** cache.c: validation of a file descriptor *)

(** What is done with the item that was found. *)
Definition validate_item (fd : Z) (identifier : option bytes) (prev head : ptr) : L bool :=
  in_date ← entry_in_date head;
  if in_date : bool then mret true else
  i ← load_item head;
  if has_flag (ci_op i) CITADEL_OP_NOP then mret true else
  u ← defined (ci_update i);
  ret ← run_update u fd identifier (ci_op i) false;
  if negb ret then mret false else
  update_cache_timestamp head;;
  j ← load_item head;
  when (negb (is_null (ci_next j))) (move_cache_item_to_end head prev LIBCITADEL_CACHE_FD);;
  mret true.

(** [None] when no item matches. *)
Fixpoint validate_scan (fuel : nat) (fd : Z) (identifier : option bytes) (op : option Z)
    (prev head : ptr) : L (option bool) :=
  match head, fuel with
  | None, _ => mret None
  | Some _, O => crash OutOfFuel
  | Some _, S fuel =>
      i ← load_item head;
      f ← defined (ci_fd i);
      if (f =? fd) && (match op with None => true | Some o => o =? ci_op i end) then
        id ← nonnull identifier;
        data ← defined (ci_data i);
        data ← nonnull data;
        same ← memcmp _CITADEL_IDENTIFIER_LENGTH id data;
        if same : bool then r ← validate_item fd identifier prev head; mret (Some r)
        else validate_scan fuel fd identifier op head (ci_next i)
      else validate_scan fuel fd identifier op head (ci_next i)
  end.

(** The result and the value of [*tainted]. *)
Definition citadel_validate_fd (fd : Z) (identifier : option bytes) (op : option Z)
    (execute : option citadel_update_function) : L (bool * bool) :=
  '(identifier, _taint) ← (match identifier with
                           | Some id => mret (Some id, true)
                           | None => get_fd_identifier fd
                           end);
  if negb _taint then mret (true, false) else
  head ← cache_group_head LIBCITADEL_CACHE_FD;
  fuel ← gets list_fuel;
  found ← validate_scan fuel fd identifier op None head;
  match found with
  | Some r => mret (r, true)
  | None =>
      match op, execute with
      | Some o, Some u => r ← run_update u fd identifier o true; mret (r, true)
      | _, _ => mret (false, true)
      end
  end.

Definition citadel_validate_fd_anon (fd : Z) : L bool :=
  '(r, _) ← citadel_validate_fd fd None None None; mret r.

(** ** file.c *)
Fixpoint cache_hit_scan (fuel : nat) (path : bytes) (length op : Z) (head : ptr) : L bool :=
  match head, fuel with
  | None, _ => mret false
  | Some _, O => crash OutOfFuel
  | Some _, S fuel =>
      i ← load_item head;
      data ← defined (ci_data i);
      data ← nonnull data;
      same ← memcmp (Z.to_nat length) path data;
      if same && has_flag (ci_op i) op then mret true
      else cache_hit_scan fuel path length op (ci_next i)
  end.
Definition cache_hit (path : bytes) (length op : Z) : L bool :=
  head ← cache_group_head LIBCITADEL_CACHE_FILE_NAMES;
  fuel ← gets list_fuel;
  cache_hit_scan fuel path length op head.

(** A request about a path: the rest of the metadata, the subject and
    [translate_success] are not assigned. *)
Definition send_path_request (path : bytes) (length operation : Z) (translate : bool) : L bool :=
  subject ← uninitialised _CITADEL_IDENTIFIER_LENGTH;
  flag ← uninitialised 1;
  rest ← uninitialised _CITADEL_MAX_METADATA_SIZE;
  token ← copy_signed_ptoken;
  name ← memcpy path (Z.to_nat length);
  if length >? Z.of_nat _CITADEL_MAX_METADATA_SIZE then crash OutOfBounds else
  ipc_transaction (enc_ext_request (ExtRequest
    (OpRequest challenge_signature operation subject token) translate (bool_at 0 flag)
    (name ++ drop (Z.to_nat length) rest))).

Definition add_path_entry (path : bytes) (length op : Z) : L unit :=
  entry ← create_cache_entry LIBCITADEL_CACHE_FILE_NAMES;
  store_item entry (ci_set_op op);;
  malloc_unchecked;;
  name ← memcpy path (Z.to_nat length);
  store_item entry (ci_set_data (Some name)).

Definition bad_length (length : Z) : bool :=
  (length >? Z.of_nat _CITADEL_MAX_METADATA_SIZE) || (length <? 2).

Definition _citadel_file_claim (path : bytes) (length : Z) : L bool :=
  if bad_length length then mret false else
  hit ← cache_hit path length CITADEL_OP_CLAIM;
  if hit : bool then mret true else
  success ← send_path_request path length (Z.lor CITADEL_OP_CLAIM CITADEL_OP_OPEN) false;
  when success (add_path_entry path length (Z.lor CITADEL_OP_CLAIM CITADEL_OP_OPEN));;
  mret success.

(** sizeof(_CITADEL_XATTR_IDENTIFIER): the length of the attribute's name. *)
Definition sizeof_xattr_name : Z := Z.of_nat (S (String.length _CITADEL_XATTR_IDENTIFIER)).

Definition citadel_file_claim (path : bytes) (length : Z) : L bool :=
  xattr_len ← call_ret (sys_getxattr (cstring path) _CITADEL_XATTR_IDENTIFIER 0);
  if uint64 xattr_len =? sizeof_xattr_name then mret true else _citadel_file_claim path length.
Definition citadel_file_claim_force (path : bytes) (length : Z) : L bool :=
  call_ret (sys_getxattr (cstring path) _CITADEL_XATTR_IDENTIFIER 0);;
  _citadel_file_claim path length.

(** The result and whether [*from_cache] was set. *)
Definition citadel_file_open_ext (path : bytes) (length : Z) : L (bool * bool) :=
  if bad_length length then mret (false, false) else
  hit ← cache_hit path length CITADEL_OP_OPEN;
  if hit : bool then mret (true, true) else
  success ← send_path_request path length CITADEL_OP_OPEN true;
  when success (add_path_entry path length CITADEL_OP_OPEN);;
  mret (success, false).
Definition citadel_file_open (path : bytes) (length : Z) : L bool :=
  '(r, _) ← citadel_file_open_ext path length; mret r.

Definition citadel_declare_fd (fd op : Z) : L unit :=
  '(id, tainted) ← get_fd_identifier fd;
  match id with
  | Some id =>
      if negb tainted then mret tt else
      parent ← get_parent_identifier;
      add_fd_entry fd (if has_flag op CITADEL_OP_PARENT then parent else id) op _citadel_file_open_fd_ptr
  | None => mret tt
  end.

Definition citadel_declassify (path : bytes) (length : Z) : L bool :=
  send_path_request path length CITADEL_OP_DECLASSIFY false.

(** ** shm.c *)
Fixpoint shm_scan (fuel : nat) (key : Z) (is_shmid : bool) (head : ptr) : L bool :=
  match head, fuel with
  | None, _ => mret false
  | Some _, O => crash OutOfFuel
  | Some _, S fuel =>
      i ← load_item head;
      v ← defined (if is_shmid then ci_shmid i else ci_fd i);
      if key =? v then mret true else shm_scan fuel key is_shmid (ci_next i)
  end.
Definition shm_cache_hit (key : Z) (is_shmid : bool) : L bool :=
  head ← cache_group_head LIBCITADEL_CACHE_SHM;
  fuel ← gets list_fuel;
  shm_scan fuel key is_shmid head.

Definition citadel_shm_access (key : Z) (is_shmid : bool) : L bool :=
  hit ← shm_cache_hit key is_shmid;
  if hit : bool then mret true else
  if is_shmid then mret false else
  success ← send_request CITADEL_OP_SHM (le_bytes 4 key ++ replicate 12 0);
  when success (
    entry ← create_cache_entry LIBCITADEL_CACHE_SHM;
    store_item entry (ci_set_op 0);;
    store_item entry (ci_set_fd key);;
    store_item entry (ci_set_data None));;
  mret success.

Fixpoint declare_scan (fuel : nat) (key shmid : Z) (head : ptr) : L unit :=
  match head, fuel with
  | None, _ => mret tt
  | Some _, O => crash OutOfFuel
  | Some _, S fuel =>
      i ← load_item head;
      f ← defined (ci_fd i);
      if key =? f then store_item head (ci_set_shmid shmid)
      else declare_scan fuel key shmid (ci_next i)
  end.
Definition declare_shmid_from_key (key shmid : Z) : L unit :=
  head ← cache_group_head LIBCITADEL_CACHE_SHM;
  fuel ← gets list_fuel;
  declare_scan fuel key shmid head.

(** ** socket.c *)
Definition citadel_socket (socket_fd : Z) (address : sockaddr) : L (bool * bool) :=
  let operation := if (sa_family address =? AF_UNIX) || (sa_family address =? AF_LOCAL)
                   then CITADEL_OP_SOCKET_INTERNAL else CITADEL_OP_SOCKET_EXTERNAL in
  citadel_validate_fd socket_fd None (Some operation) (Some _citadel_socket_ptr).

End client.
