(* ===== verification/Shim.v ===== *)
(** * The system call shim (libcitadel/src/shim.c)

    Each wrapper asks the library before it makes the call. *)

From S2P Require Import Prelude Shared Hex LibState LibCache LibIpc LibClient.

Section shim.
Context `{HPos : Posix}.
Abbreviation L := (M lstate).

(** strlen(path) + 1, and a path with its terminator. *)
Definition path_length (path : bytes) : Z := Z.of_nat (S (length path)).
Definition terminated (path : bytes) : bytes := path ++ [0].

(** In the child the library registers again; the result is only logged. *)
Definition c_fork : L Z :=
  res ← call_ret sys_fork;
  (if res =? 0 then citadel_init;; mret tt else mret tt);;
  mret res.

Definition c_bind (sockfd : Z) (addr : sockaddr) : L Z :=
  '(ok, tainted) ← citadel_socket sockfd addr;
  if ok : bool then
    res ← call_ret (sys_bind sockfd addr);
    if tainted && (res >=? 0) && (sa_family addr =? AF_UNIX) then
      claimed ← citadel_file_claim_force (terminated (sun_path addr)) (path_length (sun_path addr));
      if negb claimed then call (sys_unlink (sun_path addr));; mret (- EPERM) else mret res
    else mret res
  else mret (- EPERM).

Definition c_connect (sockfd : Z) (addr : sockaddr) : L Z :=
  '(ok, tainted) ← citadel_socket sockfd addr;
  if ok : bool then
    allowed ← (if tainted && (sa_family addr =? AF_UNIX)
               then citadel_file_open (terminated (sun_path addr)) (path_length (sun_path addr))
               else mret true);
    if negb allowed then mret (- EPERM) else call_ret (sys_connect sockfd addr)
  else mret (- EPERM).

Definition c_listen (sockfd backlog : Z) : L Z :=
  '(ok, _) ← citadel_validate_fd sockfd None None None;
  if ok : bool then call_ret (sys_listen sockfd backlog) else mret (- EPERM).

Definition c_mkfifo (pathname : bytes) (mode : Z) : L Z :=
  res ← call_ret (sys_mkfifo pathname mode);
  claimed ← (if res >=? 0 then citadel_file_claim_force (terminated pathname) (path_length pathname)
             else mret true);
  if (res >=? 0) && negb claimed then call (sys_unlink pathname);; mret (- EPERM)
  else mret res.

(** The first part of c_open: [Some r] when it returns [r] already. *)
Definition open_untainted (pathname : bytes) (oflag mode : Z) (creating : bool) : L (option Z) :=
  tainted ← am_tainted;
  if negb tainted || creating then
    fd ← call_ret (sys_open pathname oflag mode);
    errno ← gets l_errno;
    if negb tainted && (fd >? 0) then mret (Some fd) else
    if (fd =? - 1) && (negb (errno =? EPERM) && negb (errno =? EACCES)) then mret (Some (- 1)) else
    (if negb (fd =? - 1) then call (sys_close fd);; mret tt else mret tt);;
    mret None
  else mret None.

Definition c_open (pathname : bytes) (oflag mode : Z) : L Z :=
  acc ← call_ret (sys_access pathname);
  let creating := (acc =? - 1) && (Z.land oflag O_CREAT >? 0) in
  early ← open_untainted pathname oflag mode creating;
  match early with
  | Some r => mret r
  | None =>
      set_errno 0;;
      '(ok, _) ← citadel_file_open_ext (terminated pathname) (path_length pathname);
      if negb ok then mret (- EPERM) else
      fd ← call_ret (sys_open pathname oflag mode);
      citadel_declare_fd fd CITADEL_OP_OPEN;;
      tainted ← am_tainted;
      when (negb tainted) set_taint;;
      mret fd
  end.

Definition c_close (fd : Z) : L Z :=
  if fd =? - 1 then mret (- 1) else
  citadel_remove_fd fd;;
  call_ret (sys_close fd).

(** The stream, as the value of its pointer. *)
Definition c_fopen (pathname : bytes) (mode : string) : L Z :=
  ok ← citadel_file_open (terminated pathname) (path_length pathname);
  if negb ok then mret (- EPERM) else call_ret (sys_fopen pathname mode).

Definition c_shmget (key size shmflg : Z) : L Z :=
  ok ← citadel_shm_access key false;
  if negb ok then mret (- EPERM) else
  shmid ← call_ret (sys_shmget key size shmflg);
  declare_shmid_from_key key shmid;;
  mret shmid.

Definition c_shmat (shmid shmaddr shmflg : Z) : L Z :=
  ok ← citadel_shm_access shmid true;
  if negb ok then mret (- EPERM) else call_ret (sys_shmat shmid shmaddr shmflg).

Definition c_shmctl (shmid cmd : Z) : L Z :=
  ok ← citadel_shm_access shmid true;
  if negb ok then mret (- EPERM) else call_ret (sys_shmctl shmid cmd).

(** The shape of the wrappers of data transfers: -1 with errno EPERM unless
    the descriptor is validated. *)
Definition if_valid (fd : Z) (c : syscall) : L sysret :=
  ok ← citadel_validate_fd_anon fd;
  if ok : bool then call c
  else set_errno EPERM;; mret (SysRet (- 1) EPERM [] []).

Definition c_read (fildes nbyte : Z) : L sysret := if_valid fildes (sys_read fildes nbyte).
Definition c_write (fd : Z) (buf : bytes) : L sysret := if_valid fd (sys_write fd buf).
Definition c_pread (fd count offset : Z) : L sysret := if_valid fd (sys_pread fd count offset).
Definition c_pwrite (fd : Z) (buf : bytes) (offset : Z) : L sysret := if_valid fd (sys_pwrite fd buf offset).
Definition c_send (socket : Z) (buffer : bytes) (flags : Z) : L sysret :=
  if_valid socket (sys_send socket buffer flags).
Definition c_recv (sockfd len flags : Z) : L sysret := if_valid sockfd (sys_recv sockfd len flags).
Definition c_writev (fd : Z) (iov : list bytes) : L sysret := if_valid fd (sys_writev fd iov).

Definition c_sendfile (out_fd in_fd count : Z) : L sysret :=
  ok ← citadel_validate_fd_anon out_fd;
  ok' ← (if ok : bool then citadel_validate_fd_anon in_fd else mret false);
  if ok' : bool then call (sys_sendfile out_fd in_fd count)
  else set_errno EPERM;; mret (SysRet (- 1) EPERM [] []).

(** The two descriptors are the numbers the call writes to [sv]. *)
Definition c_socketpair (domain type protocol : Z) : L sysret :=
  r ← call (sys_socketpair domain type protocol);
  (if sr_ret r =? 0 then
     a ← defined (sr_nums r !! 0%nat);
     b ← defined (sr_nums r !! 1%nat);
     citadel_declare_fd a CITADEL_OP_NOP;;
     citadel_declare_fd b CITADEL_OP_NOP
   else mret tt);;
  mret r.

End shim.
