(* ===== verification/LibCacheSpec.v ===== *)
(** * What the permission cache of libcitadel stands for

    The representation of the three linked lists of cache.c, and the effect of
    each operation on the lists they hold. *)

From S2P Require Import Prelude Shared Hex LibState LibCache.

Abbreviation item := libcitadel_cache_item.
(** Items with their addresses; the [ci_next] of an entry is not looked at. *)
Abbreviation items := (list (positive * item)).
Abbreviation iheap := (gmap positive item).

Definition head_or (l : items) (n : ptr) : ptr :=
  match l with [] => n | (a, _) :: _ => Some a end.

(** [lseg h l n]: the items of [l] are linked in order, the last points to [n]. *)
Fixpoint lseg (h : iheap) (l : items) (n : ptr) : Prop :=
  match l with
  | [] => True
  | (a, i) :: l => h !! a = Some (ci_set_next (head_or l n) i) ∧ lseg h l n
  end.

Lemma head_or_app l1 l2 n : head_or (l1 ++ l2) n = head_or l1 (head_or l2 n).
Proof. by destruct l1 as [|[a i] l1]. Qed.

Lemma lseg_app h l1 l2 n : lseg h (l1 ++ l2) n ↔ lseg h l1 (head_or l2 n) ∧ lseg h l2 n.
Proof.
  induction l1 as [|[a i] l1 IH]; simpl; [tauto|]. rewrite IH, head_or_app. tauto.
Qed.

Lemma lseg_frame h h' l n :
  (∀ a, a ∈ l.*1 → h' !! a = h !! a) → lseg h l n → lseg h' l n.
Proof.
  induction l as [|[a i] l IH]; intros Hh; simpl; [done|]. intros [Ha Hl]. split.
  - rewrite Hh; [done|]. simpl. constructor.
  - apply IH; [|done]. intros b Hb. apply Hh. simpl. by constructor.
Qed.

Lemma lseg_lookup h l n a : lseg h l n → a ∈ l.*1 → is_Some (h !! a).
Proof.
  induction l as [|[b i] l IH]; simpl; [set_solver|].
  intros [Hb Hl] [->|Ha]%elem_of_cons; eauto.
Qed.

Lemma lseg_alter_other h l n f a : a ∉ l.*1 → lseg h l n → lseg (alter f a h) l n.
Proof. intros Ha. apply lseg_frame. intros b Hb. apply lookup_alter_ne. by intros ->. Qed.
Lemma lseg_insert_other h l n c a : a ∉ l.*1 → lseg h l n → lseg (<[a := c]> h) l n.
Proof. intros Ha. apply lseg_frame. intros b Hb. apply lookup_insert_ne. by intros ->. Qed.

(** A write to a field other than the link. *)
Definition keeps_link (f : item → item) : Prop := ∀ n i, f (ci_set_next n i) = ci_set_next n (f i).

Lemma lseg_store h pre a i post n f :
  keeps_link f → NoDup (pre ++ (a, i) :: post).*1 → lseg h (pre ++ (a, i) :: post) n →
  lseg (alter f a h) (pre ++ (a, f i) :: post) n.
Proof.
  intros Hf Hnd. rewrite !lseg_app. intros [Hpre [Ha Hpost]].
  rewrite fmap_app, fmap_cons in Hnd. apply NoDup_app in Hnd as (_ & Hd & [Hn _]%NoDup_cons).
  split; [|split].
  - apply lseg_alter_other; [|done]. intros Hin. apply (Hd a Hin). constructor.
  - by rewrite lookup_alter_eq, Ha; simpl; rewrite Hf.
  - by apply lseg_alter_other.
Qed.

(** Redirecting the link of the last item. *)
Lemma lseg_set_last h pre a i n m :
  NoDup (pre ++ [(a, i)]).*1 → lseg h (pre ++ [(a, i)]) n →
  lseg (alter (ci_set_next m) a h) (pre ++ [(a, i)]) m.
Proof.
  intros Hnd. rewrite !lseg_app. cbn [lseg head_or]. intros [Hpre [Ha _]].
  rewrite fmap_app in Hnd. apply NoDup_app in Hnd as (_ & Hd & _).
  split; [|split; [|done]].
  - apply lseg_alter_other; [|done]. intros Hin. apply (Hd a Hin). simpl. constructor.
  - by rewrite lookup_alter_eq, Ha.
Qed.

(** ** The representation *)
Definition is_group (g : Z) : Prop := 0 ≤ g < LIBCITADEL_CACHE_MAX_GROUPS.

Section representation.
Context `{HPos : Posix}.
Implicit Type l : lstate.
Abbreviation L := (M lstate).

Record cache_rep l (C : Z → items) : Prop := CacheRep {
  cr_head : ∀ g, is_group g → l_groups l g = head_or (C g) None;
  cr_chain : ∀ g, is_group g → lseg (l_heap l) (C g) None;
  cr_nodup : ∀ g, is_group g → NoDup (C g).*1;
  cr_disj : ∀ g g' a, is_group g → is_group g' → a ∈ (C g).*1 → a ∈ (C g').*1 → g = g';
  cr_fresh : ∀ a, is_Some (l_heap l !! a) → (a < l_brk l)%positive }.

(** What the cache operations leave alone. *)
Record lib_frame l l' : Prop := LibFrame {
  lf_self : l_self l' = l_self l; lf_buffer : l_buffer l' = l_buffer l;
  lf_errno : l_errno l' = l_errno l; lf_stk : l_nstk l' = l_nstk l;
  lf_world : l_world l' = l_world l; lf_trace : l_trace l' = l_trace l }.

#[export] Instance lib_frame_po : PreOrder lib_frame.
Proof. split; [done|]. intros x y z [] []. split; congruence. Qed.

Lemma cr_update l l' C g xs :
  cache_rep l C → is_group g →
  l_groups l' g = head_or xs None → (∀ g', g' ≠ g → l_groups l' g' = l_groups l g') →
  lseg (l_heap l') xs None → NoDup xs.*1 →
  (∀ g' a, is_group g' → g' ≠ g → a ∈ (C g').*1 → l_heap l' !! a = l_heap l !! a ∧ a ∉ xs.*1) →
  (∀ a, is_Some (l_heap l' !! a) → (a < l_brk l')%positive) →
  cache_rep l' (<[g := xs]> C).
Proof.
  intros Hr Hg Hh Hh' Hs Hnd Ho Hf.
  split; [| | | |done]; intros g1.
  - intros H1. destruct (decide (g1 = g)) as [->|N]; [by rewrite fn_lookup_insert|].
    rewrite fn_lookup_insert_ne, Hh' by done. by apply Hr.
  - intros H1. destruct (decide (g1 = g)) as [->|N]; [by rewrite fn_lookup_insert|].
    rewrite fn_lookup_insert_ne by done. eapply lseg_frame; [|by apply Hr].
    intros a Ha. by apply (Ho g1).
  - intros H1. destruct (decide (g1 = g)) as [->|N]; [by rewrite fn_lookup_insert|].
    rewrite fn_lookup_insert_ne by done. by apply Hr.
  - intros g2 a H1 H2.
    destruct (decide (g1 = g)) as [->|N1], (decide (g2 = g)) as [->|N2];
      rewrite ?fn_lookup_insert, ?fn_lookup_insert_ne by done; intros Ha1 Ha2.
    + done.
    + by destruct (Ho g2 a) as [_ []].
    + by destruct (Ho g1 a) as [_ []].
    + by eapply (cr_disj l C).
Qed.

Lemma cr_ext l l' C :
  cache_rep l C → l_heap l' = l_heap l → l_brk l' = l_brk l → l_groups l' = l_groups l →
  cache_rep l' C.
Proof. intros [] Hh Hb Hg. split; rewrite ?Hh, ?Hb, ?Hg; auto. Qed.

#[export] Instance cache_rep_proper l : Proper (pointwise_relation Z eq ==> iff) (cache_rep l).
Proof.
  assert (∀ C C', pointwise_relation Z eq C C' → cache_rep l C → cache_rep l C') as Himp.
  { intros C C' HC [Hh Hc Hn Hd Hf]. split; try done; intros g; intros; rewrite <- ?HC in *; eauto. }
  intros C C' HC. split; apply Himp; [done|by symmetry].
Qed.

Lemma groups_insert_id (C : Z → items) g xs :
  C g = xs → pointwise_relation Z eq (<[g := xs]> C) C.
Proof.
  intros <- g'. destruct (decide (g' = g)) as [->|N];
    [by rewrite fn_lookup_insert|by rewrite fn_lookup_insert_ne].
Qed.

Lemma cr_length l C g : cache_rep l C → is_group g → (length (C g) ≤ size (l_heap l))%nat.
Proof.
  intros Hr Hg. rewrite <- (length_fmap fst). apply nodup_dom_length; [by apply Hr|].
  intros a Ha. eapply lseg_lookup; [by apply (cr_chain l C Hr g)|done].
Qed.

Lemma cr_item l C g pre a i post :
  cache_rep l C → is_group g → C g = pre ++ (a, i) :: post →
  l_heap l !! a = Some (ci_set_next (head_or post None) i).
Proof.
  intros Hr Hg HC. pose proof (cr_chain l C Hr g Hg) as Hc. rewrite HC in Hc.
  apply lseg_app in Hc as [_ [Ha _]]. done.
Qed.

(** ** Loads and stores *)
Lemma load_item_ok l a i : l_heap l !! a = Some i → load_item (Some a) l = Ok (i, l).
Proof. intros H. unfold load_item. by rewrite H. Qed.
Lemma store_item_ok l a i f :
  l_heap l !! a = Some i → store_item (Some a) f l = Ok (tt, put_heap (alter f a (l_heap l)) l).
Proof. intros H. unfold store_item. by rewrite H. Qed.

(** Addresses outside the group keep their contents when an item of the group
    is written. *)
Lemma cr_other l C g g' a b :
  cache_rep l C → is_group g → is_group g' → g' ≠ g → a ∈ (C g).*1 → b ∈ (C g').*1 → b ≠ a.
Proof. intros Hr Hg Hg' Hne Ha Hb ->. apply Hne. by eapply (cr_disj l C Hr g' g a). Qed.

Lemma store_item_rep l C g pre a i post f :
  cache_rep l C → is_group g → C g = pre ++ (a, i) :: post → keeps_link f →
  ∃ l', store_item (Some a) f l = Ok (tt, l') ∧ cache_rep l' (<[g := pre ++ (a, f i) :: post]> C) ∧
    l' = put_heap (alter f a (l_heap l)) l.
Proof.
  intros Hr Hg HC Hf. eexists. split; [|split; [|done]].
  { eapply store_item_ok. by eapply cr_item. }
  assert (a ∈ (C g).*1) as Hin.
  { rewrite HC, fmap_app, fmap_cons. apply elem_of_app. right. constructor. }
  pose proof (cr_nodup l C Hr g Hg) as Hnd. rewrite HC in Hnd.
  eapply cr_update; try done; cbn [put_heap l_heap l_groups l_brk].
  - rewrite (cr_head l C Hr g Hg), HC. by destruct pre as [|[??]?].
  - apply lseg_store; [done..|]. rewrite <- HC. by apply Hr.
  - rewrite fmap_app, fmap_cons; by rewrite fmap_app, fmap_cons in Hnd.
  - intros g' b Hg' Hne Hb. assert (b ≠ a) by (by eapply (cr_other l C g g')). split.
    + by apply lookup_alter_ne.
    + intros Hb'. apply Hne. eapply (cr_disj l C Hr g' g b); try done.
      rewrite HC, fmap_app, fmap_cons. by rewrite fmap_app, fmap_cons in Hb'.
  - intros b Hb. apply (cr_fresh l C Hr). destruct (decide (a = b)) as [<-|N].
    + by apply lookup_alter_is_Some in Hb.
    + by rewrite lookup_alter_ne in Hb.
Qed.

(** ** Creating an entry *)
Lemma last_item_ok l xs a i fuel :
  lseg (l_heap l) (xs ++ [(a, i)]) None → (length xs < fuel)%nat →
  last_item fuel (head_or (xs ++ [(a, i)]) None) l = Ok (Some a, l).
Proof.
  revert fuel. induction xs as [|[b j] xs IH]; intros [|fuel] Hs Hf; simpl in Hf; try lia.
  - destruct Hs as [Ha _]. cbn [app head_or last_item].
    by rewrite (bind_ok _ _ _ _ _ (load_item_ok _ _ _ Ha)).
  - destruct Hs as [Hb Hs]. cbn [app head_or last_item].
    rewrite (bind_ok _ _ _ _ _ (load_item_ok _ _ _ Hb)). cbn [ci_next ci_set_next].
    specialize (IH fuel Hs ltac:(lia)).
    destruct (head_or (xs ++ [(a, i)]) None) as [c|] eqn:E; [done|].
    by destruct xs as [|[??]?].
Qed.

(** The item that create_cache_entry returns. *)
Definition blank_item (now : Z) : item := CacheItem None None now 0 None None None.

Lemma alter_insert_same (h : iheap) a x f : alter f a (<[a := x]> h) = <[a := f x]> h.
Proof. rewrite (alter_lookup _ _ _ x) by apply lookup_insert_eq. apply insert_insert_eq. Qed.

(** The state after the allocation and the initialisation of an item. *)
Definition with_blank l : lstate :=
  put_nclk (S (l_nclk l)) (put_brk (l_brk l + 1)%positive
    (put_heap (<[l_brk l := blank_item (clock (l_nclk l))]> (l_heap l)) (put_nmem (S (l_nmem l)) l))).

Lemma create_prepare {B} l (k : ptr → L B) :
  (item ← new_item;
   store_item item (ci_set_next None);;
   store_item item (ci_set_op 0);;
   now ← clock_gettime;
   store_item item (ci_set_time now);;
   k item) (put_nmem (S (l_nmem l)) l) = k (Some (l_brk l)) (with_blank l).
Proof.
  unfold new_item, clock_gettime, mbind, M_bind, store_item.
  cbn [put_nmem put_brk put_heap put_nclk l_heap l_brk l_nclk].
  rewrite lookup_insert_eq. cbn [put_heap l_heap put_nclk l_nclk].
  rewrite alter_insert_same, lookup_insert_eq. cbn [put_heap l_heap put_nclk l_nclk].
  rewrite alter_insert_same, lookup_insert_eq. cbn [put_heap l_heap put_nclk l_nclk].
  rewrite alter_insert_same. done.
Qed.

(** The new item is linked to nothing yet: its address is not in any list. *)
Lemma brk_fresh l C g b : cache_rep l C → is_group g → b ∈ (C g).*1 → b ≠ l_brk l.
Proof.
  intros Hr Hg Hb ->. assert (l_brk l < l_brk l)%positive; [|lia].
  apply (cr_fresh l C Hr). eapply lseg_lookup; [by apply (cr_chain l C Hr g Hg)|done].
Qed.
Lemma with_blank_fresh l C x :
  cache_rep l C → is_Some (l_heap (with_blank l) !! x) → (x < l_brk (with_blank l))%positive.
Proof.
  intros Hr. cbn [with_blank put_nclk put_brk put_heap l_heap l_brk].
  intros [->|[_ Hx]]%lookup_insert_is_Some; [lia|]. apply (cr_fresh l C Hr) in Hx. lia.
Qed.
Lemma append_nodup l C g i : cache_rep l C → is_group g → NoDup (C g ++ [(l_brk l, i)]).*1.
Proof.
  intros Hr Hg. rewrite fmap_app. apply NoDup_app. split_and!; [by apply Hr| |apply NoDup_singleton].
  intros x Hx [=->]%list_elem_of_singleton. by eapply (brk_fresh l C g).
Qed.
(** A list of another group is apart from the old items and the new one. *)
Lemma append_other l C g g' i b :
  cache_rep l C → is_group g → is_group g' → g' ≠ g → b ∈ (C g').*1 → b ∉ (C g ++ [(l_brk l, i)]).*1.
Proof.
  intros Hr Hg Hg' Hne Hb. rewrite fmap_app. intros [Hb'|[=->]%list_elem_of_singleton]%elem_of_app.
  - apply Hne. by eapply (cr_disj l C Hr g' g b).
  - by eapply (brk_fresh l C g').
Qed.

Lemma append_first l C g :
  cache_rep l C → is_group g → C g = [] →
  cache_rep (put_groups (<[g := Some (l_brk l)]> (l_groups l)) (with_blank l))
    (<[g := C g ++ [(l_brk l, blank_item (clock (l_nclk l)))]]> C).
Proof.
  intros Hr Hg HC. eapply cr_update; try done; cbn [put_groups with_blank put_nclk put_brk put_heap put_nmem l_heap l_groups].
  - by rewrite fn_lookup_insert, HC.
  - intros g' Hg'. by rewrite fn_lookup_insert_ne.
  - rewrite HC. split; [|done]. by rewrite lookup_insert_eq.
  - by apply append_nodup.
  - intros g' b Hg' Hne Hb. split; [|by eapply append_other].
    rewrite lookup_insert_ne; [done|]. intros <-. by eapply (brk_fresh l C g').
  - intros x. by apply (with_blank_fresh l C).
Qed.

Lemma append_next l C g xs a i :
  cache_rep l C → is_group g → C g = xs ++ [(a, i)] →
  cache_rep (put_heap (alter (ci_set_next (Some (l_brk l))) a (l_heap (with_blank l))) (with_blank l))
    (<[g := C g ++ [(l_brk l, blank_item (clock (l_nclk l)))]]> C).
Proof.
  intros Hr Hg HC.
  assert (a ∈ (C g).*1) as Hin by (rewrite HC, fmap_app; apply elem_of_app; right; constructor).
  assert (l_brk l ∉ (C g).*1) as Hnin by (intros Hb; by eapply (brk_fresh l C g)).
  eapply cr_update; try done; cbn [put_heap l_heap l_groups l_brk].
  - change (l_groups (with_blank l)) with (l_groups l). rewrite (cr_head l C Hr g Hg), HC.
    by destruct xs as [|[??]?].
  - rewrite lseg_app. cbn [lseg head_or]. split.
    + rewrite HC. eapply lseg_set_last; rewrite <- HC; [by apply Hr|].
      apply lseg_insert_other; [done|by apply Hr].
    + split; [|done]. rewrite lookup_alter_ne by (by eapply (brk_fresh l C g)). apply lookup_insert_eq.
  - by apply append_nodup.
  - intros g' b Hg' Hne Hb. split; [|by eapply append_other].
    rewrite lookup_alter_ne; [|intros <-; by eapply (cr_other l C g g' a a)].
    apply lookup_insert_ne. intros <-. by eapply (brk_fresh l C g').
  - intros x Hx. apply (with_blank_fresh l C); [done|]. destruct (decide (a = x)) as [<-|N].
    + by apply lookup_alter_is_Some in Hx.
    + by rewrite lookup_alter_ne in Hx.
Qed.

Lemma create_cache_entry_ok l C g :
  cache_rep l C → is_group g → mem (l_nmem l) = true →
  ∃ l', create_cache_entry g l = Ok (Some (l_brk l), l') ∧
    cache_rep l' (<[g := C g ++ [(l_brk l, blank_item (clock (l_nclk l)))]]> C) ∧
    lib_frame l l' ∧ l_nclk l' = S (l_nclk l) ∧ l_nmem l' = S (l_nmem l).
Proof.
  intros Hr Hg Hm. unfold create_cache_entry.
  assert (g >=? LIBCITADEL_CACHE_MAX_GROUPS = false) as -> by (unfold is_group in Hg; lia).
  rewrite (bind_ok malloc _ _ true (put_nmem (S (l_nmem l)) l)) by (unfold malloc; by rewrite Hm).
  cbn [negb]. rewrite create_prepare. unfold group_head. mred.
  change (l_groups (with_blank l) g) with (l_groups l g). rewrite (cr_head l C Hr g Hg).
  destruct (head_or (C g) None) as [p|] eqn:Ehd.
  - destruct (C g) as [|[a i] xs _] eqn:EC using rev_ind; [done|]. rewrite bind_assoc. mred. rewrite bind_assoc.
    assert (lseg (l_heap (with_blank l)) (xs ++ [(a, i)]) None) as Hseg.
    { apply lseg_insert_other; rewrite <- EC; [|by apply Hr]. intros Hb. by eapply (brk_fresh l C g). }
    erewrite (bind_ok (last_item _ _)); [|rewrite <- Ehd; apply last_item_ok; [done|]].
    2:{ unfold list_fuel. pose proof (cr_length l C g Hr Hg) as Hlen. rewrite EC, length_app in Hlen.
        cbn [with_blank put_nclk put_brk put_heap l_heap]. rewrite map_size_insert_None; [simpl in *; lia|].
        apply eq_None_not_Some. intros Hs. apply (cr_fresh l C Hr) in Hs. lia. }
    apply lseg_app in Hseg as [_ [Ha _]].
    erewrite (bind_ok (store_item _ _)); [|by eapply store_item_ok].
    eexists. split_and!; [done| |done..]. rewrite <- EC. by eapply append_next.
  - destruct (C g) as [|[??]?] eqn:EC; [|done]. unfold set_group_head. mred.
    eexists. split_and!; [done| |done..]. pose proof (append_first l C g Hr Hg EC) as Hf. by rewrite EC in Hf.
Qed.

Lemma create_cache_entry_null l g :
  is_group g → mem (l_nmem l) = false →
  create_cache_entry g l = Ok (None, put_nmem (S (l_nmem l)) l).
Proof.
  intros Hg Hm. unfold create_cache_entry.
  assert (g >=? LIBCITADEL_CACHE_MAX_GROUPS = false) as -> by (unfold is_group in Hg; lia).
  rewrite (bind_ok malloc _ _ false (put_nmem (S (l_nmem l)) l)) by (unfold malloc; by rewrite Hm).
  done.
Qed.

End representation.
