(* ===== verification/LibCacheOps.v ===== *)
(** * The operations of the permission cache on the lists they hold

    Pruning, moving an item to the end, preparing the lists for a child
    process, looking up and removing a descriptor. *)

From S2P Require Import Prelude Shared Hex LibState LibCache LibCacheSpec.

(** ** Pruning *)
Definition expired (now : Z) (i : item) : bool :=
  negb (uint64 (now - ci_time i) <? _CITADEL_TICKET_EXPIRY).

Fixpoint drop_old (now : Z) (xs : items) : items :=
  match xs with
  | [] => []
  | x :: xs' => if expired now x.2 then drop_old now xs' else xs
  end.
Fixpoint take_old (now : Z) (xs : items) : items :=
  match xs with
  | [] => []
  | x :: xs' => if expired now x.2 then x :: take_old now xs' else []
  end.

Lemma take_drop_old now xs : take_old now xs ++ drop_old now xs = xs.
Proof. induction xs as [|x xs IH]; simpl; [done|]. destruct (expired now x.2); simpl; by rewrite ?IH. Qed.

Fixpoint free_items (xs : items) (h : iheap) : iheap :=
  match xs with [] => h | (a, _) :: xs => free_items xs (delete a h) end.

Lemma free_items_ne xs h a : a ∉ xs.*1 → free_items xs h !! a = h !! a.
Proof.
  revert h. induction xs as [|[b i] xs IH]; intros h Ha; [done|]. simpl in *.
  rewrite not_elem_of_cons in Ha. destruct Ha as [Hb Ha]. rewrite IH by done. by apply lookup_delete_ne.
Qed.
Lemma free_items_sub xs h a : is_Some (free_items xs h !! a) → is_Some (h !! a).
Proof.
  revert h. induction xs as [|[b i] xs IH]; intros h Hs; [done|]. simpl in Hs.
  apply IH in Hs. by apply lookup_delete_is_Some in Hs as [_ ?].
Qed.

Section operations.
Context `{HPos : Posix}.
Implicit Type l : lstate.
Abbreviation L := (M lstate).

Lemma count_entries_ok l xs fuel c :
  lseg (l_heap l) xs None → (length xs ≤ fuel)%nat →
  count_entries fuel (head_or xs None) c l = Ok (c + Z.of_nat (length xs), l).
Proof.
  revert fuel c. induction xs as [|[a i] xs IH]; intros fuel c Hs Hf.
  - destruct fuel; simpl; by rewrite Z.add_0_r.
  - destruct fuel as [|fuel]; simpl in Hf; [lia|]. destruct Hs as [Ha Hs].
    cbn [head_or count_entries]. rewrite (bind_ok _ _ _ _ _ (load_item_ok _ _ _ Ha)).
    cbn [ci_next ci_set_next]. rewrite IH by (done || lia). do 2 f_equal. simpl. lia.
Qed.

Lemma skip_old_ok l xs fuel now :
  lseg (l_heap l) xs None → (length xs ≤ fuel)%nat →
  skip_old fuel now (head_or xs None) l = Ok (head_or (drop_old now xs) None, l).
Proof.
  revert fuel. induction xs as [|[a i] xs IH]; intros fuel Hs Hf; [by destruct fuel|].
  destruct fuel as [|fuel]; simpl in Hf; [lia|]. destruct Hs as [Ha Hs].
  cbn [head_or skip_old]. rewrite (bind_ok _ _ _ _ _ (load_item_ok _ _ _ Ha)).
  cbn [ci_time ci_next ci_set_next drop_old snd]. unfold expired at 1.
  destruct (uint64 (now - ci_time i) <? _CITADEL_TICKET_EXPIRY); [done|]. cbn [negb].
  apply IH; [done|lia].
Qed.

Lemma head_or_in xs a : head_or xs None = Some a → a ∈ xs.*1.
Proof. destruct xs as [|[b i] xs]; simpl; [done|]. intros [= ->]. constructor. Qed.

Lemma free_until_ok l old young fuel :
  lseg (l_heap l) (old ++ young) None → NoDup (old ++ young).*1 →
  Forall (λ x, is_Some (ci_data x.2)) old → (length old ≤ fuel)%nat →
  free_until fuel (head_or (old ++ young) None) (head_or young None) l =
    Ok (tt, put_heap (free_items old (l_heap l)) l).
Proof.
  revert l fuel. induction old as [|[a i] old IH]; intros l fuel Hs Hnd Hd Hf.
  - destruct fuel; cbn [app free_until]; rewrite bool_decide_true by done; by destruct l.
  - destruct fuel as [|fuel]; simpl in Hf; [lia|]. destruct Hs as [Ha Hs].
    apply Forall_cons in Hd as [[d Hd] Hds]. cbn [snd] in Hd.
    rewrite <- app_comm_cons, fmap_cons in Hnd. apply NoDup_cons in Hnd as [Hni Hnd].
    cbn [app head_or free_until]. rewrite bool_decide_false.
    2:{ intros He. apply Hni. cbn [fst]. rewrite fmap_app. apply elem_of_app. right.
        by apply head_or_in. }
    rewrite (bind_ok _ _ _ _ _ (load_item_ok _ _ _ Ha)). cbn [ci_data ci_next ci_set_next].
    rewrite Hd. cbn [defined]. mred.
    erewrite (bind_ok (free_item _)); [|unfold free_item; by rewrite Ha].
    rewrite IH; cbn [put_heap l_heap]; [done| |done|done|lia].
    eapply lseg_frame; [|done]. intros b Hb. apply lookup_delete_ne. by intros ->.
Qed.

Lemma cleanup_cache_group_ok l C g :
  cache_rep l C → is_group g → Forall (λ x, is_Some (ci_data x.2)) (C g) →
  ∃ l', cleanup_cache_group g l = Ok (tt, l') ∧
    cache_rep l' (<[g := drop_old (clock (l_nclk l)) (C g)]> C) ∧ lib_frame l l' ∧
    l_nmem l' = l_nmem l ∧ l_brk l' = l_brk l ∧
    l_nclk l' = (match C g with [] => l_nclk l | _ => S (l_nclk l) end).
Proof.
  intros Hr Hg Hd. unfold cleanup_cache_group, group_head. mred.
  rewrite (cr_head l C Hr g Hg). destruct (head_or (C g) None) as [p|] eqn:Ehd.
  2:{ destruct (C g) as [|[??]?] eqn:EC; [|done]. exists l. split_and!; try done.
      by rewrite groups_insert_id. }
  mred. pose proof (cr_length l C g Hr Hg) as Hlen. pose proof (cr_chain l C Hr g Hg) as Hseg.
  set (now := clock (l_nclk l)). rewrite <- Ehd.
  erewrite (bind_ok (count_entries _ _ _)); [|apply count_entries_ok; [done|unfold list_fuel; lia]].
  erewrite (bind_ok clock_gettime); [|done].
  erewrite (bind_ok (skip_old _ _ _)); [|apply skip_old_ok; [done|unfold list_fuel; lia]].
  pose proof (take_drop_old now (C g)) as Htd.
  assert (length (take_old now (C g)) ≤ length (C g))%nat as Hlt.
  { rewrite <- Htd at 2. rewrite length_app. lia. }
  pose proof (free_until_ok (put_nclk (S (l_nclk l)) l) (take_old now (C g)) (drop_old now (C g))
    (list_fuel l)) as Hfree. rewrite Htd in Hfree.
  erewrite (bind_ok (free_until _ _ _)).
  2:{ apply Hfree; [done|by apply Hr| |unfold list_fuel; lia].
      rewrite <- Htd in Hd. by apply Forall_app in Hd as [Hd _]. }
  unfold set_group_head, modify. eexists. split; [done|].
  cbn [put_groups put_heap put_nclk l_nmem l_brk l_nclk]. split_and!; try done.
  2:{ by destruct (C g). }
  pose proof (cr_nodup l C Hr g Hg) as Hnd.
  assert (∀ a, a ∈ (drop_old now (C g)).*1 → a ∈ (C g).*1 ∧ a ∉ (take_old now (C g)).*1) as Hsub.
  { rewrite <- Htd, fmap_app, NoDup_app in Hnd. destruct Hnd as (_ & Hx & _).
    intros a Ha. split; [rewrite <- Htd, fmap_app; by apply elem_of_app; right|].
    intros Hb. by apply (Hx a Hb). }
  eapply cr_update; try done; cbn [put_groups put_heap put_nclk l_heap l_groups l_brk].
  - by rewrite fn_lookup_insert.
  - intros g' Hg'. by rewrite fn_lookup_insert_ne.
  - eapply lseg_frame; [|rewrite <- Htd in Hseg; by apply lseg_app in Hseg as [_ ?]].
    intros a Ha. apply free_items_ne. by apply Hsub.
  - rewrite <- Htd, fmap_app, NoDup_app in Hnd. by destruct Hnd as (_ & _ & ?).
  - intros g' a Hg' Hne Ha. assert (a ∉ (C g).*1) as Hni.
    { intros Hin. apply Hne. by eapply (cr_disj l C Hr g' g a). }
    split; [|by intros [Hb _]%Hsub].
    apply free_items_ne. intros Hb. apply Hni. rewrite <- Htd, fmap_app. by apply elem_of_app; left.
  - intros a Ha. apply (cr_fresh l C Hr). by eapply free_items_sub.
Qed.

(** ** Moving an item to the end *)
Definition prev_of (pre : items) : ptr := fst <$> last pre.

Lemma prev_of_snoc pre x : prev_of (pre ++ [x]) = Some x.1.
Proof. unfold prev_of. by rewrite last_snoc. Qed.

Definition detached l (g : Z) (pre : items) (n : ptr) : lstate :=
  match prev_of pre with
  | None => put_groups (<[g := n]> (l_groups l)) l
  | Some b => put_heap (alter (ci_set_next n) b (l_heap l)) l
  end.

(** The item leaves its place. *)
Lemma detach_ok l C g pre a i post :
  cache_rep l C → is_group g → C g = pre ++ (a, i) :: post →
  (if is_null (prev_of pre) then pop_group_head g;; mret tt
   else store_item (prev_of pre) (ci_set_next (head_or post None))) l =
  Ok (tt, detached l g pre (head_or post None)).
Proof.
  intros Hr Hg HC. unfold detached. pose proof (cr_item l C g pre a i post Hr Hg HC) as Ha.
  destruct pre as [|[b j] pre _] using rev_ind.
  - cbn [prev_of last fmap option_fmap option_map is_null]. unfold pop_group_head, group_head.
    assert (g >=? LIBCITADEL_CACHE_MAX_GROUPS = false) as -> by (unfold is_group in Hg; lia).
    rewrite bind_assoc. mred. rewrite (cr_head l C Hr g Hg), HC. cbn [app head_or].
    rewrite bind_assoc, (bind_ok _ _ _ _ _ (load_item_ok _ _ _ Ha)). done.
  - rewrite prev_of_snoc. cbn [is_null fst]. eapply store_item_ok.
    pose proof (cr_chain l C Hr g Hg) as Hc. rewrite HC, <- app_assoc in Hc.
    apply lseg_app in Hc as [_ [Hb _]]. exact Hb.
Qed.

Lemma detached_facts l C g pre a i post :
  cache_rep l C → is_group g → C g = pre ++ (a, i) :: post →
  let l1 := detached l g pre (head_or post None) in
  lseg (l_heap l1) pre (head_or post None) ∧ lseg (l_heap l1) ((a, i) :: post) None ∧
  (∀ b, b ∉ pre.*1 → l_heap l1 !! b = l_heap l !! b) ∧
  (∀ b, is_Some (l_heap l1 !! b) ↔ is_Some (l_heap l !! b)) ∧
  l_groups l1 g = head_or pre (head_or post None) ∧
  (∀ g', g' ≠ g → l_groups l1 g' = l_groups l g') ∧ size (l_heap l1) = size (l_heap l) ∧
  lib_frame l l1 ∧ l_nclk l1 = l_nclk l ∧ l_nmem l1 = l_nmem l ∧ l_brk l1 = l_brk l.
Proof.
  intros Hr Hg HC l1. subst l1. unfold detached.
  pose proof (cr_chain l C Hr g Hg) as Hc. pose proof (cr_nodup l C Hr g Hg) as Hnd.
  pose proof (cr_head l C Hr g Hg) as Hh. rewrite HC in Hc, Hnd, Hh.
  destruct pre as [|[b j] pre _] using rev_ind.
  - cbn [prev_of last fmap option_fmap option_map].
    cbn [put_groups l_heap l_groups l_nclk l_nmem l_brk]. split_and!; try done.
    + by rewrite fn_lookup_insert.
    + intros g' Hne. by rewrite fn_lookup_insert_ne.
  - rewrite prev_of_snoc. cbn [put_heap l_heap l_groups l_nclk l_nmem l_brk fst].
    apply lseg_app in Hc as [Hpre Hrest]. rewrite fmap_app in Hnd.
    apply NoDup_app in Hnd as (Hnp & Hd & _).
    assert (b ∈ (pre ++ [(b, j)]).*1) as Hin.
    { rewrite fmap_app. apply elem_of_app. right. simpl. constructor. }
    split_and!; try done.
    + by eapply lseg_set_last.
    + apply lseg_alter_other; [|done]. by apply Hd.
    + intros c Hc. apply lookup_alter_ne. intros <-. by apply Hc.
    + intros c. apply lookup_alter_is_Some.
    + rewrite Hh. by rewrite <- !app_assoc; destruct pre as [|[??]?].
    + by rewrite <- !size_dom, dom_alter_L.
Qed.

Lemma move_cache_item_to_end_ok l C g pre a i post :
  cache_rep l C → is_group g → C g = pre ++ (a, i) :: post → post ≠ [] →
  ∃ l', move_cache_item_to_end (Some a) (prev_of pre) g l = Ok (tt, l') ∧
    cache_rep l' (<[g := pre ++ post ++ [(a, i)]]> C) ∧ lib_frame l l' ∧
    l_nclk l' = l_nclk l ∧ l_nmem l' = l_nmem l ∧ l_brk l' = l_brk l.
Proof.
  intros Hr Hg HC Hne. unfold move_cache_item_to_end.
  pose proof (cr_item l C g pre a i post Hr Hg HC) as Ha.
  pose proof (cr_nodup l C Hr g Hg) as Hnd. pose proof (cr_length l C g Hr Hg) as Hlen.
  rewrite (bind_ok _ _ _ _ _ (load_item_ok _ _ _ Ha)). cbn [ci_next ci_set_next].
  assert (is_null (head_or post None) = false) as -> by (by destruct post as [|[??]?]).
  rewrite andb_false_r. rewrite (bind_ok _ _ _ _ _ (detach_ok l C g pre a i post Hr Hg HC)).
  destruct (detached_facts l C g pre a i post Hr Hg HC)
    as (Hpre & [Ha1 Hpost] & Ho & Hi & Hgr & Hgr' & Hsz & Hfr & Hn1 & Hn2 & Hn3).
  set (l1 := detached l g pre (head_or post None)) in *. mred.
  destruct post as [|[c k] post _] using rev_ind; [done|]. clear Hne.
  rewrite HC, !fmap_app, fmap_cons, fmap_app in Hnd. cbn [fmap list_fmap fst] in Hnd.
  assert (a ≠ c ∧ a ∉ pre.*1 ∧ c ∉ pre.*1 ∧ a ∉ post.*1 ∧ c ∉ post.*1 ∧ NoDup pre.*1 ∧ NoDup post.*1
    ∧ (∀ b, b ∈ post.*1 → b ∉ pre.*1)) as (Hac & Hap & Hcp & Haq & Hcq & Hnp & Hnq & Hpq).
  { apply NoDup_app in Hnd as (? & Hd & [Hx (? & Hy & _)%NoDup_app]%NoDup_cons).
    rewrite not_elem_of_app, not_elem_of_cons in Hx.
    split_and!; try done; try set_solver. }
  erewrite (bind_ok (last_item _ _)).
  2:{ apply (last_item_ok l1 ((a, i) :: post) c k); [by split|]. unfold list_fuel.
      rewrite Hsz. rewrite HC, length_app in Hlen. simpl in *. rewrite length_app in Hlen. simpl in *. lia. }
  apply lseg_app in Hpost as Hc. destruct Hc as [_ [Hc _]].
  erewrite (bind_ok (store_item _ _)); [|by eapply store_item_ok].
  erewrite store_item_ok; [|cbn [put_heap l_heap]; by rewrite lookup_alter_ne].
  eexists. split; [done|]. cbn [put_heap l_nclk l_nmem l_brk].
  split_and!; try done; [|etrans; [exact Hfr|done]].
  eapply cr_update; try done; cbn [put_heap l_heap l_groups l_brk].
  - rewrite Hgr. by rewrite !head_or_app.
  - rewrite !lseg_app. cbn [lseg head_or]. split_and!; try done.
    + do 2 (apply lseg_alter_other; [done|]). rewrite head_or_app in Hpre. by rewrite !head_or_app.
    + apply lseg_alter_other; [done|]. apply lseg_alter_other; [done|].
      apply lseg_app in Hpost as [Hpost _]. exact Hpost.
    + by rewrite lookup_alter_ne, lookup_alter_eq, Hc.
    + by rewrite lookup_alter_eq, lookup_alter_ne, Ha1.
  - rewrite !fmap_app. cbn [fmap list_fmap fst]. apply (NoDup_Permutation_proper _ _ (Permutation_refl _)).
    revert Hnd. apply NoDup_Permutation_proper. solve_Permutation.
  - intros g' b Hg' Hgne Hb.
    assert (b ∉ (C g).*1) as Hni by (intros Hin; apply Hgne; by eapply (cr_disj l C Hr g' g b)).
    rewrite HC in Hni. rewrite !fmap_app, fmap_cons, fmap_app in Hni. cbn [fmap list_fmap fst] in Hni.
    rewrite !not_elem_of_app, not_elem_of_cons, not_elem_of_app in Hni.
    destruct Hni as (Hb1 & Hb2 & Hb3 & Hb4). split.
    + rewrite !lookup_alter_ne by (intros ->; set_solver). by apply Ho.
    + rewrite !fmap_app. cbn [fmap list_fmap fst]. set_solver.
  - intros b Hb. rewrite Hn3. apply (cr_fresh l C Hr). apply Hi.
    by apply lookup_alter_is_Some, lookup_alter_is_Some in Hb.
Qed.

(** ** The lists of a child process *)
Definition child_item (i : item) : item :=
  CacheItem (ci_data i) (ci_next i) 0 (if ci_op i =? CITADEL_OP_NOP then CITADEL_OP_PARENT else ci_op i)
    (ci_fd i) (ci_shmid i) (ci_update i).
Definition child_items (xs : items) : items := prod_map id child_item <$> xs.
Fixpoint alter_items (f : item → item) (xs : items) (h : iheap) : iheap :=
  match xs with [] => h | (a, _) :: xs => alter_items f xs (alter f a h) end.

Lemma child_items_fst xs : (child_items xs).*1 = xs.*1.
Proof. unfold child_items. rewrite <- list_fmap_compose. by apply list_fmap_ext. Qed.
Lemma child_items_head xs : head_or (child_items xs) None = head_or xs None.
Proof. by destruct xs as [|[a i] xs]. Qed.

Lemma alter_items_ne f xs h a : a ∉ xs.*1 → alter_items f xs h !! a = h !! a.
Proof.
  revert h. induction xs as [|[b i] xs IH]; intros h Ha; [done|]. simpl in *.
  rewrite not_elem_of_cons in Ha. destruct Ha as [Hb Ha]. rewrite IH by done. by apply lookup_alter_ne.
Qed.
Lemma alter_items_is_Some f xs h a : is_Some (alter_items f xs h !! a) ↔ is_Some (h !! a).
Proof.
  revert h. induction xs as [|[b i] xs IH]; intros h; [done|]. simpl.
  rewrite IH. apply lookup_alter_is_Some.
Qed.
Lemma lseg_children h xs :
  NoDup xs.*1 → lseg h xs None → lseg (alter_items child_item xs h) (child_items xs) None.
Proof.
  revert h. induction xs as [|[a i] xs IH]; intros h Hnd; [done|]. simpl in *.
  apply NoDup_cons in Hnd as [Hni Hnd]. intros [Ha Hs]. split.
  - rewrite alter_items_ne by done. rewrite lookup_alter_eq, Ha. cbn [fmap option_fmap option_map prod_map fst snd].
    by rewrite child_items_head.
  - apply IH; [done|]. by apply lseg_alter_other.
Qed.

Lemma prepare_entry_ok l a i :
  l_heap l !! a = Some i →
  prepare_entry_for_child (Some a) l = Ok (tt, put_heap (alter child_item a (l_heap l)) l).
Proof.
  intros Ha. unfold prepare_entry_for_child.
  rewrite (bind_ok _ _ _ _ _ (store_item_ok _ _ _ _ Ha)), (alter_lookup _ _ _ _ Ha).
  erewrite (bind_ok (load_item _)); [|apply load_item_ok, lookup_insert_eq].
  cbn [ci_op ci_set_time]. rewrite (alter_lookup _ _ _ _ Ha).
  destruct (ci_op i =? CITADEL_OP_NOP) eqn:E; cbn [when].
  - erewrite store_item_ok by apply lookup_insert_eq. cbn [put_heap l_heap].
    rewrite alter_insert_same. unfold child_item, ci_set_op, ci_set_time. by rewrite E.
  - unfold child_item, ci_set_time. by rewrite E.
Qed.

Lemma prepare_rest_ok l a i xs fuel :
  NoDup ((a, i) :: xs).*1 → lseg (l_heap l) ((a, i) :: xs) None → (length xs < fuel)%nat →
  prepare_rest fuel (Some a) l = Ok (tt, put_heap (alter_items child_item xs (l_heap l)) l).
Proof.
  revert l a i fuel. induction xs as [|[b j] xs IH]; intros l a i [|fuel] Hnd [Ha Hs] Hf; simpl in Hf; try lia;
    cbn [prepare_rest]; rewrite (bind_ok _ _ _ _ _ (load_item_ok _ _ _ Ha));
    cbn [ci_next ci_set_next head_or].
  - by destruct l.
  - destruct Hs as [Hb Hs]. rewrite (bind_ok _ _ _ _ _ (prepare_entry_ok _ _ _ Hb)).
    simpl in Hnd. apply NoDup_cons in Hnd as [_ Hnd]. apply NoDup_cons in Hnd as Hbn. destruct Hbn as [Hbn _].
    rewrite (IH _ b (child_item j)); [done| | |lia].
    + done.
    + split; [|by apply lseg_alter_other]. cbn [put_heap l_heap]. by rewrite lookup_alter_eq, Hb.
Qed.

Lemma prepare_group_ok l C g :
  cache_rep l C → is_group g →
  ∃ l', prepare_group g l = Ok (tt, l') ∧ cache_rep l' (<[g := child_items (C g)]> C) ∧
    lib_frame l l' ∧ l_nclk l' = l_nclk l ∧ l_nmem l' = l_nmem l ∧ l_brk l' = l_brk l.
Proof.
  intros Hr Hg. unfold prepare_group, group_head. mred. rewrite (cr_head l C Hr g Hg).
  pose proof (cr_chain l C Hr g Hg) as Hs. pose proof (cr_nodup l C Hr g Hg) as Hnd.
  pose proof (cr_length l C g Hr Hg) as Hlen.
  destruct (C g) as [|[a i] xs] eqn:EC; cbn [head_or].
  { exists l. split_and!; try done. by rewrite groups_insert_id. }
  destruct Hs as [Ha Hs]. simpl in Hnd. apply NoDup_cons in Hnd as Hni. destruct Hni as [Hni _].
  rewrite (bind_ok _ _ _ _ _ (prepare_entry_ok _ _ _ Ha)). mred.
  rewrite (prepare_rest_ok _ a (child_item i) xs); cbn [put_heap l_heap]; try done.
  3:{ unfold list_fuel. cbn [put_heap l_heap]. rewrite <- size_dom, dom_alter_L, size_dom. simpl in Hlen. lia. }
  2:{ split; [by rewrite lookup_alter_eq, Ha|by apply lseg_alter_other]. }
  eexists. split; [done|]. split_and!; try done.
  change (alter_items child_item xs (alter child_item a (l_heap l)))
    with (alter_items child_item ((a, i) :: xs) (l_heap l)).
  eapply cr_update; try done; cbn [put_heap l_heap l_groups l_brk].
  - by rewrite child_items_head, (cr_head l C Hr g Hg), EC.
  - apply lseg_children; [done|by split].
  - by rewrite child_items_fst.
  - intros g' b Hg' Hne Hb. rewrite child_items_fst.
    assert (b ∉ ((a, i) :: xs).*1).
    { rewrite <- EC. intros Hin. apply Hne. by eapply (cr_disj l C Hr g' g b). }
    split; [by apply alter_items_ne|done].
  - intros b Hb%alter_items_is_Some. by apply (cr_fresh l C Hr).
Qed.

Lemma cache_on_fork_ok l C :
  cache_rep l C →
  ∃ l', cache_on_fork l = Ok (tt, l') ∧ cache_rep l' (λ g, child_items (C g)) ∧
    lib_frame l l' ∧ l_nclk l' = l_nclk l ∧ l_nmem l' = l_nmem l ∧ l_brk l' = l_brk l.
Proof.
  intros Hr. unfold cache_on_fork.
  destruct (prepare_group_ok l C 0 Hr) as (l1 & E1 & Hr1 & F1 & ? & ? & ?); [done|].
  destruct (prepare_group_ok l1 _ 1 Hr1) as (l2 & E2 & Hr2 & F2 & ? & ? & ?); [done|].
  destruct (prepare_group_ok l2 _ 2 Hr2) as (l3 & E3 & Hr3 & F3 & ? & ? & ?); [done|].
  rewrite (bind_ok _ _ _ _ _ E1), (bind_ok _ _ _ _ _ E2), E3.
  exists l3. split_and!; [done| |by do 2 (etrans; [done|])|congruence..].
  destruct Hr3 as [Hh Hc Hn Hd Hf].
  assert (∀ g, is_group g → <[2 := child_items (<[1 := child_items (<[0 := child_items (C 0)]> C 1)]>
    (<[0 := child_items (C 0)]> C) 2)]> (<[1 := child_items (<[0 := child_items (C 0)]> C 1)]>
    (<[0 := child_items (C 0)]> C)) g = child_items (C g)) as Hx.
  { intros g Hg. assert (g = 0 ∨ g = 1 ∨ g = 2) as [-> | [-> | ->]] by (unfold is_group, LIBCITADEL_CACHE_MAX_GROUPS in Hg; lia); done. }
  split; [| | | |done].
  - intros g Hg. rewrite <- Hx by done. by apply Hh.
  - intros g Hg. rewrite <- Hx by done. by apply Hc.
  - intros g Hg. rewrite <- Hx by done. by apply Hn.
  - intros g g' b Hg Hg'. rewrite <- (Hx g Hg), <- (Hx g' Hg'). by apply Hd.
Qed.

(** ** Looking up and removing a descriptor *)
Definition has_fd (fd : Z) (x : positive * item) : bool := bool_decide (ci_fd x.2 = Some fd).
Definition fd_defined (x : positive * item) : Prop := is_Some (ci_fd x.2) ∧ is_Some (ci_data x.2).

Lemma find_fd_ok l xs fuel fd :
  lseg (l_heap l) xs None → Forall fd_defined xs → (length xs ≤ fuel)%nat →
  find_fd fuel fd (head_or xs None) l = Ok (existsb (has_fd fd) xs, l).
Proof.
  revert fuel. induction xs as [|[a i] xs IH]; intros fuel Hs Hd Hf; [by destruct fuel|].
  destruct fuel as [|fuel]; simpl in Hf; [lia|]. destruct Hs as [Ha Hs].
  apply Forall_cons in Hd as [[[f Hfd] _] Hd]. cbn [snd] in Hfd.
  cbn [head_or find_fd existsb]. rewrite (bind_ok _ _ _ _ _ (load_item_ok _ _ _ Ha)).
  cbn [ci_fd ci_next ci_set_next]. rewrite Hfd. cbn [defined]. mred. unfold has_fd at 1. cbn [snd].
  rewrite Hfd. destruct (Z.eqb_spec f fd) as [->|Hne].
  - by rewrite bool_decide_true.
  - rewrite bool_decide_false by congruence. apply IH; [done..|lia].
Qed.

(** The loop over the items after the first. *)
Lemma remove_rest_ok l b xs fuel fd :
  lseg (l_heap l) xs None → Forall fd_defined xs → (length xs ≤ fuel)%nat → existsb (has_fd fd) xs = false →
  remove_rest fuel fd b (head_or xs None) l = Ok (tt, l).
Proof.
  revert b fuel. induction xs as [|[a i] xs IH]; intros b fuel Hs Hd Hf Hno; [by destruct fuel|].
  destruct fuel as [|fuel]; simpl in Hf; [lia|]. destruct Hs as [Ha Hs].
  apply Forall_cons in Hd as [[[f Hfd] _] Hd]. cbn [snd] in Hfd.
  cbn [existsb] in Hno. apply orb_false_iff in Hno as [Hno Hnos].
  unfold has_fd in Hno. cbn [snd] in Hno. rewrite Hfd in Hno. apply bool_decide_eq_false in Hno.
  cbn [head_or remove_rest]. rewrite (bind_ok _ _ _ _ _ (load_item_ok _ _ _ Ha)).
  cbn [ci_fd ci_next ci_set_next]. rewrite Hfd. cbn [defined]. mred.
  destruct (Z.eqb_spec f fd) as [->|Hne]; [done|]. mred.
  rewrite (bind_ok _ _ _ _ _ (load_item_ok _ _ _ Ha)). cbn [ci_next ci_set_next].
  apply IH; [done..|lia|done].
Qed.

(** Once an item after the first has been freed, its link is read. *)
Lemma remove_rest_faults l b j xs fuel fd :
  lseg (l_heap l) xs None → NoDup xs.*1 → Forall fd_defined xs → (length xs ≤ fuel)%nat →
  l_heap l !! b = Some j → b ∉ xs.*1 → existsb (has_fd fd) xs = true →
  remove_rest fuel fd (Some b) (head_or xs None) l = Fault BadAccess.
Proof.
  revert b j fuel. induction xs as [|[a i] xs IH]; intros b j fuel Hs Hnd Hd Hf Hb Hbn Hyes; [done|].
  destruct fuel as [|fuel]; simpl in Hf; [lia|]. destruct Hs as [Ha Hs].
  apply Forall_cons in Hd as [[[f Hfd] [d Hdd]] Hd]. cbn [snd] in Hfd, Hdd.
  simpl in Hnd, Hbn. apply NoDup_cons in Hnd as [Hni Hnd]. apply not_elem_of_cons in Hbn as [Hba Hbn].
  cbn [existsb] in Hyes. unfold has_fd at 1 in Hyes. cbn [snd] in Hyes. rewrite Hfd in Hyes.
  cbn [head_or remove_rest]. rewrite (bind_ok _ _ _ _ _ (load_item_ok _ _ _ Ha)).
  cbn [ci_fd ci_next ci_data ci_set_next]. rewrite Hfd, Hdd. cbn [defined]. mred.
  destruct (Z.eqb_spec f fd) as [->|Hne].
  - rewrite bind_assoc, (bind_ok _ _ _ _ _ (store_item_ok _ _ _ _ Hb)). rewrite bind_assoc. mred.
    erewrite (bind_ok (free_item _)).
    2:{ unfold free_item. cbn [put_heap l_heap]. by rewrite lookup_alter_ne, Ha by done. }
    apply bind_fault. unfold load_item. cbn [put_heap l_heap]. by rewrite lookup_delete_eq.
  - mred. rewrite (bind_ok _ _ _ _ _ (load_item_ok _ _ _ Ha)). cbn [ci_next ci_set_next].
    eapply (IH a); try done; [lia|]. rewrite bool_decide_false in Hyes by congruence. done.
Qed.

Lemma citadel_remove_fd_ok l C fd x xs :
  cache_rep l C → C LIBCITADEL_CACHE_FD = x :: xs → Forall fd_defined (x :: xs) → fd ≠ - 1 →
  existsb (has_fd fd) xs = false →
  ∃ l', citadel_remove_fd fd l = Ok (tt, l') ∧
    cache_rep l' (<[LIBCITADEL_CACHE_FD := if has_fd fd x then xs else x :: xs]> C) ∧ lib_frame l l'.
Proof.
  intros Hr HC Hd Hfd Hno. set (g := LIBCITADEL_CACHE_FD) in *. assert (is_group g) as Hg by done.
  destruct x as [a i]. unfold citadel_remove_fd, group_head. fold g. mred.
  pose proof (cr_length l C g Hr Hg) as Hlen. rewrite HC in Hlen. simpl in Hlen.
  pose proof (cr_chain l C Hr g Hg) as Hs. rewrite HC in Hs. destruct Hs as [Ha Hs].
  rewrite (cr_head l C Hr g Hg), HC. cbn [head_or is_null].
  assert (fd =? - 1 = false) as -> by lia. cbn [orb].
  rewrite (bind_ok _ _ _ _ _ (load_item_ok _ _ _ Ha)). cbn [ci_next ci_set_next]. mred.
  apply Forall_cons in Hd as [[[f Hf] [d Hdd]] Hd]. cbn [snd] in Hf, Hdd.
  erewrite (bind_ok (remove_rest _ _ _ _)); [|apply remove_rest_ok; [done..|unfold list_fuel; lia|done]].
  mred. rewrite (cr_head l C Hr g Hg), HC. cbn [head_or].
  rewrite (bind_ok _ _ _ _ _ (load_item_ok _ _ _ Ha)). cbn [ci_fd ci_data ci_next ci_set_next].
  rewrite Hf, Hdd. cbn [defined]. mred. unfold has_fd. cbn [snd]. rewrite Hf.
  destruct (Z.eqb_spec f fd) as [->|Hne].
  2:{ rewrite bool_decide_false by congruence. exists l. split_and!; [done| |done].
      by rewrite groups_insert_id. }
  rewrite bool_decide_true by done. unfold set_group_head. mred.
  unfold free_item. cbn [put_groups l_heap]. rewrite Ha. eexists. split_and!; [done| |done].
  pose proof (cr_nodup l C Hr g Hg) as Hnd. rewrite HC in Hnd. simpl in Hnd. apply NoDup_cons in Hnd as [Hni Hnd].
  eapply cr_update; try done; cbn [put_groups put_heap l_heap l_groups l_brk].
  - intros g' Hg'. by rewrite fn_lookup_insert_ne.
  - eapply lseg_frame; [|done]. intros b Hb. apply lookup_delete_ne. by intros ->.
  - intros g' b Hg' Hgne Hb. assert (b ∉ (C g).*1) as Hni'.
    { intros Hin. apply Hgne. by eapply (cr_disj l C Hr g' g b). }
    rewrite HC in Hni'. simpl in Hni'. apply not_elem_of_cons in Hni' as [? ?].
    split; [by apply lookup_delete_ne|done].
  - intros b [_ Hb]%lookup_delete_is_Some. by apply (cr_fresh l C Hr).
Qed.

Lemma citadel_remove_fd_faults l C fd x xs :
  cache_rep l C → C LIBCITADEL_CACHE_FD = x :: xs → Forall fd_defined (x :: xs) → fd ≠ - 1 →
  existsb (has_fd fd) xs = true → citadel_remove_fd fd l = Fault BadAccess.
Proof.
  intros Hr HC Hd Hfd Hyes. set (g := LIBCITADEL_CACHE_FD) in *. assert (is_group g) as Hg by done.
  destruct x as [a i]. unfold citadel_remove_fd, group_head. fold g. mred.
  pose proof (cr_length l C g Hr Hg) as Hlen. rewrite HC in Hlen. simpl in Hlen.
  pose proof (cr_chain l C Hr g Hg) as Hs. rewrite HC in Hs. destruct Hs as [Ha Hs].
  pose proof (cr_nodup l C Hr g Hg) as Hnd. rewrite HC in Hnd. simpl in Hnd. apply NoDup_cons in Hnd as [Hni Hnd].
  rewrite (cr_head l C Hr g Hg), HC. cbn [head_or is_null].
  assert (fd =? - 1 = false) as -> by lia. cbn [orb].
  rewrite (bind_ok _ _ _ _ _ (load_item_ok _ _ _ Ha)). cbn [ci_next ci_set_next]. mred.
  apply Forall_cons in Hd as [_ Hd]. apply bind_fault.
  eapply remove_rest_faults; try done. unfold list_fuel; lia.
Qed.

End operations.
