(* ===== verification/LibCacheTheorems.v ===== *)
(** * The permission cache of libcitadel implements lists of permissions

    The abstract cache is a list of items per group and the number of clock
    readings; the operations that libcitadel composes its functions from are
    shown to implement it. *)

From S2P Require Import Prelude Shared Hex LibState LibCache LibIpc LibClient LibCacheSpec LibCacheOps.

Section model.
Context `{HPos : Posix}.
Implicit Type l : lstate.
Abbreviation L := (M lstate).

Record libcache := LibCacheModel { lc_group : Z → list item; lc_reads : nat }.
Implicit Type A : libcache.

Inductive lib_call :=
  | AddFd (fd : Z) (id : bytes) (op : Z) (u : citadel_update_function)
  | AddPath (path : bytes) (op : Z)
  | PrunePaths
  | PrepareChild.

(** A permission for a path is kept until it is fifteen seconds old; in a
    child process every permission is outdated, and one for a transient
    descriptor becomes one of the parent. *)
Definition fresh_at (now : Z) (i : item) : bool := now - ci_time i <? _CITADEL_TICKET_EXPIRY.

Definition abs_call (c : lib_call) A : libcache :=
  let now := clock (lc_reads A) in
  match c with
  | AddFd fd id op u => LibCacheModel
      (<[LIBCITADEL_CACHE_FD := lc_group A LIBCITADEL_CACHE_FD ++
           [CacheItem (Some (Some (take 16 id))) None now op (Some fd) None (Some u)]]> (lc_group A))
      (S (lc_reads A))
  | AddPath path op => LibCacheModel
      (<[LIBCITADEL_CACHE_FILE_NAMES := lc_group A LIBCITADEL_CACHE_FILE_NAMES ++
           [CacheItem (Some (Some path)) None now op None None None]]> (lc_group A))
      (S (lc_reads A))
  | PrunePaths => LibCacheModel
      (<[LIBCITADEL_CACHE_FILE_NAMES := List.filter (fresh_at now) (lc_group A LIBCITADEL_CACHE_FILE_NAMES)]> (lc_group A))
      (match lc_group A LIBCITADEL_CACHE_FILE_NAMES with [] => lc_reads A | _ => S (lc_reads A) end)
  | PrepareChild => LibCacheModel (λ g, child_item <$> lc_group A g) (lc_reads A)
  end.

Definition run_call (c : lib_call) : L unit :=
  match c with
  | AddFd fd id op u => add_fd_entry fd id op u
  | AddPath path op => add_path_entry path (Z.of_nat (length path)) op
  | PrunePaths => cache_group_head LIBCITADEL_CACHE_FILE_NAMES;; mret tt
  | PrepareChild => cache_on_fork
  end.
Fixpoint run_calls (cs : list lib_call) : L unit :=
  match cs with [] => mret tt | c :: cs => run_call c;; run_calls cs end.
Definition abs_calls (cs : list lib_call) A : libcache := foldl (λ A c, abs_call c A) A cs.

Definition call_ok (c : lib_call) : Prop :=
  match c with AddFd _ id _ _ => (16 ≤ length id)%nat | _ => True end.

(** The lists in memory hold the abstract items, link fields apart. *)
Record lib_refines l A : Prop := LibRefines {
  lr_rep : ∃ C, cache_rep l C ∧ ∀ g, is_group g → ci_set_next None <$> (C g).*2 = lc_group A g;
  lr_reads : l_nclk l = lc_reads A }.

(** Items are in the order of their time stamps, which are in the past, and
    the items of paths have their data. *)
Record lib_ordered A : Prop := LibOrdered {
  lo_sorted : ∀ g, is_group g → StronglySorted Z.le (ci_time <$> lc_group A g);
  lo_past : ∀ g i, is_group g → i ∈ lc_group A g → 0 ≤ ci_time i ≤ clock (lc_reads A);
  lo_data : ∀ i, i ∈ lc_group A LIBCITADEL_CACHE_FILE_NAMES → is_Some (ci_data i) }.

Hypothesis Hclock : ∀ n, 0 ≤ clock n ≤ clock (S n) ∧ clock n < 2 ^ 64.
Hypothesis Hmem : ∀ n, mem n = true.

(** ** Entries *)
Lemma malloc_unchecked_ok l : malloc_unchecked l = Ok (tt, put_nmem (S (l_nmem l)) l).
Proof. unfold malloc_unchecked, malloc. unfold mbind, M_bind. by rewrite Hmem. Qed.

Lemma insert_twice {A : Type} (C : Z → A) g x y : pointwise_relation Z eq (<[g := x]> (<[g := y]> C)) (<[g := x]> C).
Proof.
  intros g'. destruct (decide (g' = g)) as [->|N];
    [by rewrite !fn_lookup_insert|by rewrite !fn_lookup_insert_ne].
Qed.

(** A store to the item that was appended last. *)
Lemma store_last l C g xs a i f :
  cache_rep l (<[g := xs ++ [(a, i)]]> C) → is_group g → keeps_link f →
  ∃ l', store_item (Some a) f l = Ok (tt, l') ∧ cache_rep l' (<[g := xs ++ [(a, f i)]]> C) ∧
    lib_frame l l' ∧ l_nclk l' = l_nclk l ∧ l_nmem l' = l_nmem l.
Proof.
  intros Hr Hg Hf. destruct (store_item_rep l _ g xs a i [] f Hr Hg) as (l' & E & Hr' & ->); [|done|].
  { by rewrite fn_lookup_insert. }
  eexists. split_and!; [done| |done..]. by rewrite insert_twice in Hr'.
Qed.

(** What an entry is made of after its creation: a sequence of stores. *)
Lemma add_fd_entry_ok l C fd id op u :
  cache_rep l C → (16 ≤ length id)%nat →
  ∃ l', add_fd_entry fd id op u l = Ok (tt, l') ∧
    cache_rep l' (<[LIBCITADEL_CACHE_FD := C LIBCITADEL_CACHE_FD ++ [(l_brk l,
      CacheItem (Some (Some (take 16 id))) None (clock (l_nclk l)) op (Some fd) None (Some u))]]> C) ∧
    lib_frame l l' ∧ l_nclk l' = S (l_nclk l).
Proof.
  intros Hr Hid. unfold add_fd_entry. set (g := LIBCITADEL_CACHE_FD).
  assert (is_group g) as Hg by done.
  destruct (create_cache_entry_ok l C g Hr Hg (Hmem _)) as (l0 & E0 & R0 & F0 & N0 & _).
  destruct (store_last l0 _ g _ _ _ (ci_set_op op) R0 Hg) as (l1 & E1 & R1 & F1 & N1 & _); [done|].
  destruct (store_last l1 _ g _ _ _ (ci_set_fd fd) R1 Hg) as (l2 & E2 & R2 & F2 & N2 & _); [done|].
  assert (cache_rep (put_nmem (S (l_nmem l2)) l2) (<[g := C g ++ [(l_brk l,
    ci_set_fd fd (ci_set_op op (blank_item (clock (l_nclk l)))))]]> C)) as R2' by by eapply cr_ext.
  destruct (store_last _ _ g _ _ _ (ci_set_update u) R2' Hg) as (l3 & E3 & R3 & F3 & N3 & _); [done|].
  destruct (store_last l3 _ g _ _ _ (ci_set_data (Some (take 16 id))) R3 Hg) as (l4 & E4 & R4 & F4 & N4 & _); [done|].
  rewrite (bind_ok _ _ _ _ _ E0), (bind_ok _ _ _ _ _ E1), (bind_ok _ _ _ _ _ E2).
  rewrite (bind_ok _ _ _ _ _ (malloc_unchecked_ok l2)), (bind_ok _ _ _ _ _ E3).
  unfold memcpy. assert ((length id <? _CITADEL_IDENTIFIER_LENGTH)%nat = false) as ->.
  { apply Nat.ltb_ge. exact Hid. }
  mred. exists l4. split_and!; [done|done| |simpl in *; congruence].
  etrans; [done|]. etrans; [done|]. etrans; [done|]. etrans; [|done]. etrans; [|done]. done.
Qed.

Lemma add_path_entry_ok l C path op :
  cache_rep l C →
  ∃ l', add_path_entry path (Z.of_nat (length path)) op l = Ok (tt, l') ∧
    cache_rep l' (<[LIBCITADEL_CACHE_FILE_NAMES := C LIBCITADEL_CACHE_FILE_NAMES ++ [(l_brk l,
      CacheItem (Some (Some path)) None (clock (l_nclk l)) op None None None)]]> C) ∧
    lib_frame l l' ∧ l_nclk l' = S (l_nclk l).
Proof.
  intros Hr. unfold add_path_entry. set (g := LIBCITADEL_CACHE_FILE_NAMES).
  assert (is_group g) as Hg by done.
  destruct (create_cache_entry_ok l C g Hr Hg (Hmem _)) as (l0 & E0 & R0 & F0 & N0 & _).
  destruct (store_last l0 _ g _ _ _ (ci_set_op op) R0 Hg) as (l1 & E1 & R1 & F1 & N1 & _); [done|].
  assert (cache_rep (put_nmem (S (l_nmem l1)) l1) (<[g := C g ++ [(l_brk l,
    ci_set_op op (blank_item (clock (l_nclk l))))]]> C)) as R1' by by eapply cr_ext.
  destruct (store_last _ _ g _ _ _ (ci_set_data (Some path)) R1' Hg) as (l2 & E2 & R2 & F2 & N2 & _); [done|].
  rewrite (bind_ok _ _ _ _ _ E0), (bind_ok _ _ _ _ _ E1), (bind_ok _ _ _ _ _ (malloc_unchecked_ok l1)).
  unfold memcpy. rewrite Nat2Z.id, Nat.ltb_irrefl, take_ge by done. mred.
  exists l2. split_and!; [done|done| |simpl in *; congruence].
  etrans; [done|]. etrans; [done|]. etrans; [|done]. done.
Qed.

(** ** Simulation *)
Abbreviation strip := (ci_set_next None).

Lemma expired_fresh now i : 0 ≤ ci_time i ≤ now → now < 2 ^ 64 → expired now i = negb (fresh_at now (strip i)).
Proof.
  intros Hi Hn. unfold expired, fresh_at, uint64. cbn [ci_time ci_set_next].
  by rewrite Z.mod_small by lia.
Qed.

Lemma filter_fresh_all now (t : Z) (xs : list item) :
  now - t < _CITADEL_TICKET_EXPIRY → Forall (Z.le t) (ci_time <$> xs) → List.filter (fresh_at now) xs = xs.
Proof.
  intros Ht. induction xs as [|i xs IH]; [done|]. rewrite fmap_cons. intros [Hi Hxs]%Forall_cons.
  simpl. unfold fresh_at at 1. assert (now - ci_time i <? _CITADEL_TICKET_EXPIRY = true) as -> by lia.
  by rewrite IH.
Qed.

Lemma drop_old_filter now (xs : items) :
  now < 2 ^ 64 → Forall (λ x : positive * item, 0 ≤ ci_time x.2 ≤ now) xs →
  StronglySorted Z.le (ci_time <$> (strip <$> xs.*2)) →
  strip <$> (drop_old now xs).*2 = List.filter (fresh_at now) (strip <$> xs.*2).
Proof.
  intros Hn. induction xs as [|[a i] xs IH]; [done|]. intros [Hi Hp]%Forall_cons Hs.
  cbn [fmap list_fmap snd] in Hs. apply StronglySorted_inv in Hs as [Hs Hle].
  cbn [drop_old snd fmap list_fmap List.filter]. cbn [snd] in Hi. rewrite expired_fresh by done.
  destruct (fresh_at now (strip i)) eqn:E; cbn [negb]; [|by apply IH].
  cbn [fmap list_fmap snd]. f_equal. symmetry. eapply filter_fresh_all; [|done].
  unfold fresh_at in E. lia.
Qed.

Lemma clock_mono n : clock n ≤ clock (S n).
Proof. by destruct (Hclock n) as [[_ ?] _]. Qed.

(** Appending an item with the current time. *)
Lemma append_ordered A g i :
  lib_ordered A → is_group g → ci_time i = clock (lc_reads A) → is_Some (ci_data i) →
  lib_ordered (LibCacheModel (<[g := lc_group A g ++ [i]]> (lc_group A)) (S (lc_reads A))).
Proof.
  intros [Hs Hp Hd] Hg Ht Hi. pose proof (Hclock (lc_reads A)) as [[? ?] ?].
  split; cbn [lc_group lc_reads].
  - intros g' Hg'. destruct (decide (g' = g)) as [->|N]; [|by rewrite fn_lookup_insert_ne; auto].
    rewrite fn_lookup_insert, fmap_app. apply StronglySorted_app_2; [|by apply Hs|cbn; repeat constructor].
    intros x y (j & -> & Hj)%list_elem_of_fmap Hy. cbn in Hy. apply list_elem_of_singleton in Hy as ->.
    destruct (Hp g j Hg Hj). lia.
  - intros g' j Hg'. destruct (decide (g' = g)) as [->|N].
    + rewrite fn_lookup_insert. intros [Hj| ->%list_elem_of_singleton]%elem_of_app; [|lia].
      destruct (Hp g j Hg Hj). lia.
    + rewrite fn_lookup_insert_ne by done. intros Hj. destruct (Hp g' j Hg' Hj). lia.
  - intros j. destruct (decide (LIBCITADEL_CACHE_FILE_NAMES = g)) as [<-|N].
    + rewrite fn_lookup_insert. intros [Hj| ->%list_elem_of_singleton]%elem_of_app; auto.
    + rewrite fn_lookup_insert_ne by done. auto.
Qed.

(** Replacing the list of one group on both sides. *)
Lemma refines_insert l' C A g xs ys n :
  (∀ g, is_group g → strip <$> (C g).*2 = lc_group A g) → strip <$> xs.*2 = ys →
  cache_rep l' (<[g := xs]> C) → l_nclk l' = n →
  lib_refines l' (LibCacheModel (<[g := ys]> (lc_group A)) n).
Proof.
  intros HC Hxs Hr Hn. split; [|done]. exists (<[g := xs]> C). split; [done|].
  intros g' Hg'. cbn [lc_group]. destruct (decide (g' = g)) as [->|N].
  - by rewrite !fn_lookup_insert.
  - rewrite !fn_lookup_insert_ne by done. by apply HC.
Qed.

Lemma prune_ordered A : lib_ordered A → lib_ordered (abs_call PrunePaths A).
Proof.
  intros [Hs Hp Hd]. set (g := LIBCITADEL_CACHE_FILE_NAMES) in *.
  assert (∀ f i, i ∈ List.filter f (lc_group A g) → i ∈ lc_group A g) as Hsub.
  { intros f i. rewrite !list_elem_of_In. by intros [? _]%filter_In. }
  assert (clock (lc_reads A) ≤ clock (lc_reads (abs_call PrunePaths A))) as Hle.
  { cbn [abs_call lc_reads]. destruct (lc_group A _); [lia|apply clock_mono]. }
  split.
  - intros g' Hg'. cbn [abs_call lc_group]. fold g. destruct (decide (g' = g)) as [->|N].
    + rewrite fn_lookup_insert. specialize (Hs g Hg'). clear -Hs.
      induction (lc_group A g) as [|i xs IH]; [done|]. cbn [fmap list_fmap] in Hs.
      apply StronglySorted_inv in Hs as [Hs Hi]. simpl.
      destruct (fresh_at _ i); [|by apply IH]. cbn [fmap list_fmap]. constructor; [by apply IH|].
      rewrite Forall_fmap, Forall_forall in Hi |- *. intros j Hj. apply Hi.
      rewrite list_elem_of_In in Hj |- *. by apply filter_In in Hj as [? _].
    + rewrite fn_lookup_insert_ne by done. auto.
  - intros g' i Hg' Hi. cbn [abs_call lc_group] in Hi. fold g in Hi. destruct (decide (g' = g)) as [->|N].
    + rewrite fn_lookup_insert in Hi. apply Hsub in Hi. destruct (Hp g i Hg' Hi). lia.
    + rewrite fn_lookup_insert_ne in Hi by done. destruct (Hp g' i Hg' Hi). lia.
  - intros i. cbn [abs_call lc_group]. fold g. rewrite fn_lookup_insert. intros Hi. by apply Hd, (Hsub _ _ Hi).
Qed.

Lemma child_ordered A : lib_ordered A → lib_ordered (abs_call PrepareChild A).
Proof.
  intros [Hs Hp Hd]. split; cbn [abs_call lc_group lc_reads].
  - intros g _. induction (lc_group A g) as [|i xs IH]; cbn [fmap list_fmap]; [constructor|].
    constructor; [done|]. rewrite Forall_fmap. apply Forall_fmap, Forall_forall. intros j _. done.
  - intros g i Hg (j & -> & Hj)%list_elem_of_fmap. cbn. pose proof (Hclock (lc_reads A)). lia.
  - intros i (j & -> & Hj)%list_elem_of_fmap. cbn. auto.
Qed.

Lemma run_call_sim c l A :
  lib_refines l A → lib_ordered A → call_ok c →
  ∃ l', run_call c l = Ok (tt, l') ∧ lib_refines l' (abs_call c A) ∧ lib_ordered (abs_call c A).
Proof.
  intros [(C & Hr & HC) Hn] Ho Hc. destruct c as [fd id op u|path op| |]; cbn [run_call call_ok] in *.
  - destruct (add_fd_entry_ok l C fd id op u Hr Hc) as (l' & E & Hr' & _ & Hn').
    exists l'. split_and!; [done| |by apply append_ordered].
    eapply refines_insert; [done| |done|congruence].
    rewrite !fmap_app, HC by done. by rewrite <- Hn.
  - destruct (add_path_entry_ok l C path op Hr) as (l' & E & Hr' & _ & Hn').
    exists l'. split_and!; [done| |by apply append_ordered].
    eapply refines_insert; [done| |done|congruence].
    rewrite !fmap_app, HC by done. by rewrite <- Hn.
  - set (g := LIBCITADEL_CACHE_FILE_NAMES). assert (is_group g) as Hg by done.
    destruct (cleanup_cache_group_ok l C g Hr Hg) as (l' & E & Hr' & _ & _ & _ & Hn').
    { apply Forall_forall. intros x Hx. destruct (lo_data A Ho (strip x.2)) as [d Hd]; [|by exists d].
      rewrite <- (HC LIBCITADEL_CACHE_FILE_NAMES Hg), <- list_fmap_compose. by apply (list_elem_of_fmap_2 (strip ∘ snd)). }
    exists l'. split_and!; [|eapply refines_insert; [done| |done|]|by apply prune_ordered].
    + unfold cache_group_head, group_head.
      change (g >=? LIBCITADEL_CACHE_MAX_GROUPS) with false. cbv iota.
      change (when (g =? LIBCITADEL_CACHE_FILE_NAMES)) with (when (S := lstate) true). cbn [when].
      rewrite bind_assoc, (bind_ok _ _ _ _ _ E). done.
    + rewrite drop_old_filter; [by rewrite HC, Hn| | |].
      * apply (Hclock _).
      * apply Forall_forall. intros x Hx. rewrite Hn.
        apply (lo_past A Ho g (strip x.2) Hg). rewrite <- (HC g Hg), <- list_fmap_compose.
        by apply (list_elem_of_fmap_2 (strip ∘ snd)).
      * rewrite HC by done. by apply Ho.
    + rewrite Hn', <- (HC LIBCITADEL_CACHE_FILE_NAMES Hg), Hn. subst g. by destruct (C LIBCITADEL_CACHE_FILE_NAMES).
  - destruct (cache_on_fork_ok l C Hr) as (l' & E & Hr' & _ & Hn' & _).
    exists l'. split_and!; [done| |by apply child_ordered].
    split; [|cbn; congruence]. eexists. split; [done|]. intros g Hg. cbn [abs_call lc_group].
    rewrite <- HC by done. unfold child_items. rewrite <- !list_fmap_compose. apply list_fmap_ext. done.
Qed.

Lemma run_calls_sim cs l A :
  lib_refines l A → lib_ordered A → Forall call_ok cs →
  ∃ l', run_calls cs l = Ok (tt, l') ∧ lib_refines l' (abs_calls cs A) ∧ lib_ordered (abs_calls cs A).
Proof.
  revert l A. induction cs as [|c cs IH]; intros l A Hr Ho Hc; [by exists l|].
  apply Forall_cons in Hc as [Hc Hcs]. destruct (run_call_sim c l A Hr Ho Hc) as (l1 & E & Hr1 & Ho1).
  destruct (IH l1 _ Hr1 Ho1 Hcs) as (l2 & E2 & ?). exists l2. split; [|done].
  cbn [run_calls]. by rewrite (bind_ok _ _ _ _ _ E).
Qed.

End model.
