(* ===== verification/LibIpcTheorems.v ===== *)
(** * Transactions with the daemon: when they succeed, and that they end *)

From S2P Require Import Prelude Shared Hex LibState LibCache LibIpc.

Section ipc_lemmas.
Context `{HPos : Posix}.
Implicit Type l : lstate.
Abbreviation L := (M lstate).

(** What a transaction leaves alone; the trace only grows. *)
Record ipc_frame l l' : Prop := IpcFrame {
  if_heap : l_heap l' = l_heap l; if_brk : l_brk l' = l_brk l; if_groups : l_groups l' = l_groups l;
  if_self : l_self l' = l_self l; if_nclk : l_nclk l' = l_nclk l; if_nmem : l_nmem l' = l_nmem l;
  if_nstk : l_nstk l' = l_nstk l;
  if_trace : ∃ t, l_trace l' = t ++ l_trace l }.

#[export] Instance ipc_frame_po : PreOrder ipc_frame.
Proof.
  split; [by split; try exists []|]. intros x y z [? ? ? ? ? ? ? [t1 H1]] [? ? ? ? ? ? ? [t2 H2]].
  split; try congruence. exists (t2 ++ t1). by rewrite <- app_assoc, <- H1.
Qed.

(** The state after a system call. *)
Definition called (c : syscall) l : lstate :=
  put_trace (c :: l_trace l) (put_world (sys c (l_world l)).2
    (if sr_ret (sys c (l_world l)).1 =? - 1 then put_errno (sr_errno (sys c (l_world l)).1) l else l)).

Lemma call_eq c l : call c l = Ok ((sys c (l_world l)).1, called c l).
Proof. done. Qed.
Lemma call_ret_eq c l : call_ret c l = Ok (sr_ret (sys c (l_world l)).1, called c l).
Proof. done. Qed.
Lemma called_frame c l : ipc_frame l (called c l).
Proof. unfold called. case_if; split; try done; by exists [c]. Qed.
Lemma called_buffer c l : l_buffer (called c l) = l_buffer l.
Proof. unfold called. by case_if. Qed.
Lemma called_trace c l : l_trace (called c l) = c :: l_trace l.
Proof. done. Qed.
Lemma errno_frame e l : ipc_frame l (put_errno e l).
Proof. split; try done. by exists []. Qed.

(** ** The two loops end within their attempts *)
Lemma ipc_send_loop_ok fuel fd data attempts sent l :
  attempts < ipc_timeout → Z.to_nat (ipc_timeout - attempts) = fuel →
  ∃ b l' n, ipc_send_loop fuel fd data attempts sent l = Ok (b, l') ∧ ipc_frame l l' ∧
    l_buffer l' = l_buffer l ∧ l_trace l' = replicate (S n) (sys_write fd data) ++ l_trace l.
Proof.
  revert attempts sent l. induction fuel as [|fuel IH]; intros attempts sent l Ha Hf; [lia|].
  cbn [ipc_send_loop]. rewrite (bind_ok _ _ _ _ _ (call_ret_eq _ l)). mred.
  set (l1 := called (sys_write fd data) l). pose proof (called_frame (sys_write fd data) l) as Hfr.
  pose proof (called_buffer (sys_write fd data) l) as Hbu. fold l1 in Hfr, Hbu.
  cbv zeta. set (sent' := sent + _).
  case_if; [|by eexists _, l1, O]. unfold set_errno. mred.
  case_if; [exists false, (put_errno 0 l1), O; split_and!; try done; by etrans; [|apply errno_frame]|].
  destruct (IH (attempts + 1) sent' (put_errno 0 l1)) as (b & l' & n & Es & F & B & T); [lia..|].
  exists b, l', (S n). split_and!; [done| |by rewrite B|].
  - etrans; [done|]. etrans; [apply errno_frame|done].
  - rewrite T. cbn [put_errno l_trace]. unfold l1. rewrite called_trace.
    change (sys_write fd data :: l_trace l) with ([sys_write fd data] ++ l_trace l).
    by rewrite app_assoc, <- replicate_cons_app.
Qed.

Lemma ipc_send_ok fd data l :
  ∃ b l' n, ipc_send fd data l = Ok (b, l') ∧ ipc_frame l l' ∧ l_buffer l' = l_buffer l ∧
    l_trace l' = replicate (S n) (sys_write fd data) ++ l_trace l.
Proof. by apply ipc_send_loop_ok. Qed.

Lemma ipc_recv_loop_ok fuel fd attempts l :
  attempts < ipc_timeout → Z.to_nat (ipc_timeout - attempts) = fuel →
  ∃ b l', ipc_recv_loop fuel fd attempts l = Ok (b, l') ∧ ipc_frame l l' ∧
    (length (l_buffer l) ≤ length (l_buffer l'))%nat.
Proof.
  revert attempts l. induction fuel as [|fuel IH]; intros attempts l Ha Hf; [lia|].
  cbn [ipc_recv_loop]. rewrite (bind_ok _ _ _ _ _ (call_eq _ l)). mred.
  set (r := (sys _ _).1). set (l1 := called _ l).
  pose proof (called_frame (sys_read fd (Z.of_nat sizeof_extended)) l) as Hfr.
  pose proof (called_buffer (sys_read fd (Z.of_nat sizeof_extended)) l) as Hbu. fold l1 in Hfr, Hbu.
  set (l2 := put_buffer _ l1).
  assert (ipc_frame l l2 ∧ (length (l_buffer l) ≤ length (l_buffer l2))%nat) as [Hf2 Hb2].
  { split; [destruct Hfr; by split|]. subst l2. cbn [put_buffer l_buffer]. rewrite <- Hbu.
    case_if; [|lia]. rewrite length_app, length_drop. lia. }
  case_if; [|by exists (sr_ret r >? 0), l2]. unfold set_errno. mred.
  case_if; [exists false, (put_errno 0 l2); split_and!; try done; by etrans; [|apply errno_frame]|].
  destruct (IH (attempts + 1) (put_errno 0 l2)) as (b & l' & Es & F & B); [lia..|].
  exists b, l'. split_and!; [done| |by etrans; [exact Hb2|exact B]].
  etrans; [done|]. etrans; [apply errno_frame|done].
Qed.

Lemma ipc_recv_ok fd l :
  ∃ b l', ipc_recv fd l = Ok (b, l') ∧ ipc_frame l l' ∧ (length (l_buffer l) ≤ length (l_buffer l'))%nat.
Proof. by apply ipc_recv_loop_ok. Qed.

(** ** Connecting *)
Definition daemon_addr : sockaddr := SockAddr AF_UNIX (path_bytes _CITADEL_IPC_FILE).

Lemma init_socket_ok l :
  ∃ fd l', init_socket l = Ok (fd, l') ∧ ipc_frame l l' ∧ l_buffer l' = l_buffer l ∧
    (0 ≤ fd → sys_connect fd daemon_addr ∈ l_trace l').
Proof.
  unfold init_socket. rewrite (bind_ok _ _ _ _ _ (call_ret_eq _ l)).
  set (fd := sr_ret _). set (l1 := called _ l).
  assert (ipc_frame l l1 ∧ l_buffer l1 = l_buffer l) as [F1 B1].
  { split; [apply called_frame|apply called_buffer]. }
  case_if; [exists (- 1), l1; split_and!; try done; lia|].
  rewrite (bind_ok _ _ _ _ _ (call_ret_eq _ l1)).
  set (flags := sr_ret _). set (l2 := called _ l1).
  assert (ipc_frame l l2 ∧ l_buffer l2 = l_buffer l) as [F2 B2].
  { split; [etrans; [done|apply called_frame]|unfold l2; by rewrite called_buffer]. }
  rewrite (bind_ok _ _ _ _ _ (call_ret_eq _ l2)).
  set (res := sr_ret _). set (l3 := called _ l2).
  assert (ipc_frame l l3 ∧ l_buffer l3 = l_buffer l) as [F3 B3].
  { split; [etrans; [done|apply called_frame]|unfold l3; by rewrite called_buffer]. }
  case_if; [exists (- 1), l3; split_and!; try done; lia|].
  rewrite (bind_ok _ _ _ _ _ (call_ret_eq _ l3)).
  set (res' := sr_ret _). set (l4 := called _ l3).
  assert (ipc_frame l l4 ∧ l_buffer l4 = l_buffer l) as [F4 B4].
  { split; [etrans; [done|apply called_frame]|unfold l4; by rewrite called_buffer]. }
  case_if; [exists (- 1), l4; split_and!; try done; lia|].
  exists fd, l4. split_and!; try done. intros _. unfold l4. rewrite called_trace. constructor.
Qed.

(** ** Checking the reply *)
Lemma memcmp_ok {S} n a b (s : S) : length a = n → length b = n → memcmp n a b s = Ok (bytes_eqb a b, s).
Proof.
  intros Ha Hb. unfold memcmp. assert (memcmp_eq n a b = Some (bytes_eqb a b)) as ->; [|done].
  revert a b Ha Hb. induction n as [|n IH]; intros [|x a] [|y b] Ha Hb; try done.
  simpl in *. destruct (x =? y); [apply IH; lia|done].
Qed.

(** The process that the reply came from, as the socket reports it. *)
Definition peer_is_citadel (socket : Z) l : Prop :=
  ∃ pid, head (sr_nums (sys (sys_peercred socket) (l_world l)).1) = Some pid ∧
    uint64 pid = uint64 (citadel_pid (l_self l)).

Definition reply_ok (tok : bytes) (r : citadel_op_reply) : Prop :=
  (rp_ptoken r = tok ∨ rp_signature r = challenge_signature) ∧ rp_result r = CITADEL_OP_APPROVED.

Lemma check_reply_ok socket l tok :
  (sizeof_reply ≤ length (l_buffer l))%nat → ptoken (l_self l) = Some tok →
  length tok = _CITADEL_PROCESS_PTOKEN_LENGTH →
  sr_nums (sys (sys_peercred socket) (l_world l)).1 ≠ [] →
  ∃ b l', check_reply socket l = Ok (b, l') ∧ ipc_frame l l' ∧ l_buffer l' = l_buffer l ∧
    (b = true ↔ peer_is_citadel socket l ∧ reply_ok tok (dec_op_reply (l_buffer l))).
Proof.
  intros Hlen Htok Hl8 Hpeer. unfold check_reply, peer_is_citadel.
  change sizeof_reply with 90%nat in Hlen.
  rewrite (bind_ok _ _ _ _ _ (call_eq _ l)).
  pose proof (called_frame (sys_peercred socket) l) as F1. pose proof (called_buffer (sys_peercred socket) l) as B1.
  set (l1 := called _ l) in *. destruct (sr_nums _) as [|pid nums]; [done|]. clear Hpeer.
  cbn [head defined]. unfold get_citadel_pid, get_ptoken. mred. rewrite (if_self _ _ F1).
  assert (∀ c, ipc_frame l (called c l1) ∧ l_buffer (called c l1) = l_buffer l) as Hcl.
  { intros c. split; [etrans; [done|apply called_frame]|by rewrite called_buffer]. }
  destruct (Z.eqb_spec (uint64 pid) (uint64 (citadel_pid (l_self l)))) as [Hpid|Hpid].
  2:{ rewrite (bind_ok _ _ _ _ _ (call_eq _ l1)). eexists false, _. split; [done|].
      split_and!; [apply Hcl..|]. split; [done|]. by intros [(? & [= <-] & ?) _]. }
  mred. rewrite (if_self _ _ F1), Htok, B1. cbn [nonnull]. mred.
  set (r := dec_op_reply (l_buffer l)).
  assert (length (rp_ptoken r) = 8%nat ∧ length (rp_signature r) = 8%nat) as [Hr1 Hr2].
  { subst r. cbn [dec_op_reply rp_ptoken rp_signature]. unfold field.
    rewrite !length_take, !length_drop. lia. }
  erewrite (bind_ok (memcmp _ _ _)); [|by apply memcmp_ok].
  assert (∀ b, ((if bytes_eqb (rp_ptoken r) tok then mret true
     else memcmp _CITADEL_SIGNATURE_LENGTH (rp_signature r) challenge_signature) ≫= b : L bool) l1
     = b (bytes_eqb (rp_ptoken r) tok || bytes_eqb (rp_signature r) challenge_signature) l1) as Hsig.
  { intros b. destruct (bytes_eqb (rp_ptoken r) tok); [done|]. cbn [orb].
    erewrite (bind_ok (memcmp _ _ _)); [done|by apply memcmp_ok]. }
  rewrite Hsig. clear Hsig.
  destruct (bytes_eqb (rp_ptoken r) tok || bytes_eqb (rp_signature r) challenge_signature) eqn:Ets.
  - cbn [negb]. rewrite andb_false_r. apply orb_true_iff in Ets. rewrite !bytes_eqb_eq in Ets.
    destruct (Z.eqb_spec (rp_result r) CITADEL_OP_APPROVED) as [Hres|Hres].
    + rewrite bind_assoc, (bind_ok _ _ _ _ _ (call_eq _ l1)). mred.
      rewrite (bind_ok _ _ _ _ _ (call_eq _ _)). unfold set_errno. mred.
      eexists true, _. split; [done|]. set (l2 := called (sys_close socket) l1).
      split_and!; [|unfold put_errno, l_buffer at 1; fold (l_buffer (called (sys_close socket) l2));
        rewrite called_buffer; apply Hcl|].
      * etrans; [apply (Hcl (sys_close socket))|]. etrans; [apply called_frame|apply errno_frame].
      * split; [|done]. intros _. split; [by exists pid|]. by split.
    + mred. rewrite (bind_ok _ _ _ _ _ (call_eq _ l1)). unfold set_errno. mred.
      eexists false, _. split; [done|]. split_and!; [|apply (Hcl (sys_close socket))|].
      * etrans; [apply (Hcl (sys_close socket))|apply errno_frame].
      * split; [done|]. by intros [_ [_ ?]].
  - apply orb_false_iff in Ets as [Et Es]. rewrite Et. cbn [negb andb].
    rewrite (bind_ok _ _ _ _ _ (call_eq _ l1)). eexists false, _. split; [done|].
    split_and!; [apply Hcl..|]. split; [done|]. intros [_ [[Hx|Hx] _]].
    + apply bytes_eqb_neq in Et. done.
    + apply bytes_eqb_neq in Es. done.
Qed.

(** ** The transaction *)
Lemma ipc_transaction_ok request l tok :
  (sizeof_reply ≤ length (l_buffer l))%nat → ptoken (l_self l) = Some tok →
  length tok = _CITADEL_PROCESS_PTOKEN_LENGTH →
  (∀ fd w, sr_nums (sys (sys_peercred fd) w).1 ≠ []) →
  ∃ b l', ipc_transaction request l = Ok (b, l') ∧ ipc_frame l l' ∧
    (length (l_buffer l) ≤ length (l_buffer l'))%nat ∧
    (b = true → ∃ fd l1, 0 ≤ fd ∧ ipc_frame l l1 ∧ ipc_frame l1 l' ∧
       sys_connect fd daemon_addr ∈ l_trace l1 ∧ sys_write fd request ∈ l_trace l1 ∧
       peer_is_citadel fd l1 ∧ reply_ok tok (dec_op_reply (l_buffer l'))).
Proof.
  intros Hb Htok Hl8 Hpeer. unfold ipc_transaction, set_errno. mred.
  destruct (init_socket_ok (put_errno 0 l)) as (fd & l1 & E1 & F1 & B1 & T1).
  rewrite (bind_ok _ _ _ _ _ E1). clear E1.
  assert (ipc_frame l l1) as F1' by (etrans; [apply errno_frame|done]).
  assert (l_buffer l1 = l_buffer l) as B1' by exact B1.
  case_if; [exists false, l1; split_and!; try done; by rewrite B1'|].
  case_if; [exists false, l1; split_and!; try done; by rewrite B1'|].
  destruct (ipc_send_ok fd request l1) as (b2 & l2 & n & E2 & F2 & B2 & T2).
  rewrite (bind_ok _ _ _ _ _ E2). clear E2.
  destruct b2.
  2:{ rewrite (bind_ok _ _ _ _ _ (call_eq _ l2)). eexists false, _. split; [done|]. split_and!; [|rewrite called_buffer; rewrite B2, B1'; done|done].
      etrans; [done|]. etrans; [done|apply called_frame]. }
  destruct (ipc_recv_ok fd l2) as (b3 & l3 & E3 & F3 & B3). rewrite (bind_ok _ _ _ _ _ E3). clear E3.
  assert (ipc_frame l l3) as F3' by (etrans; [done|]; etrans; done).
  assert (length (l_buffer l) ≤ length (l_buffer l3))%nat as B3' by (rewrite B2, B1' in B3; done).
  destruct b3.
  2:{ rewrite (bind_ok _ _ _ _ _ (call_eq _ l3)). eexists false, _. split; [done|]. split_and!; [|by rewrite called_buffer|done].
      etrans; [done|apply called_frame]. }
  destruct (check_reply_ok fd l3 tok) as (b4 & l4 & E4 & F4 & B4 & Hiff);
    [lia|by rewrite (if_self _ _ F3')|done|done|].
  exists b4, l4. split_and!; [done|by etrans|by rewrite B4|]. intros [Hp Hr]%Hiff.
  exists fd, l3. split_and!; try done; [lia| | |by rewrite B4].
  - destruct (if_trace _ _ F3) as [t3 ->]. destruct (if_trace _ _ F2) as [t2 ->].
    do 2 (apply elem_of_app; right). apply T1. lia.
  - destruct (if_trace _ _ F3) as [t3 ->]. apply elem_of_app. right. rewrite T2. simpl. constructor.
Qed.

End ipc_lemmas.


(** A short write corrupts the request.  When the socket accepts only the
    first [n] bytes, the next attempt writes the message from its start again;
    if the remaining count is then accepted, [ipc_send] reports success although
    the receiver obtained the first [n] bytes twice. *)
Theorem short_write_repeats_message `{HPos : Posix} fd data l n w1 w2 :
  (0 < n < length data)%nat → data !! n ≠ data !! 0%nat →
  sys (sys_write fd data) (l_world l) = (SysRet (Z.of_nat n) 0 [] [], w1) →
  sys (sys_write fd data) w1 = (SysRet (Z.of_nat (length data - n)) 0 [] [], w2) →
  (∃ l', ipc_send fd data l = Ok (true, l') ∧ l_world l' = w2 ∧
     l_trace l' = sys_write fd data :: sys_write fd data :: l_trace l) ∧
  take n data ++ take (length data - n) data ≠ data.
Proof.
  intros Hn Hne Hw1 Hw2. split.
  - unfold ipc_send. change (Z.to_nat ipc_timeout) with (S (S (Z.to_nat 99998))).
    cbn [ipc_send_loop]. rewrite (bind_ok _ _ _ _ _ (call_ret_eq _ l)). unfold called. rewrite Hw1.
    cbn [fst snd sr_ret]. assert (Z.of_nat n =? - 1 = false) as -> by lia. mred.
    assert (Z.of_nat n >? 0 = true) as -> by lia. cbn [orb]. rewrite Z.add_0_l.
    assert (Z.of_nat n <? Z.of_nat (length data) = true) as -> by lia. cbn [orb].
    unfold set_errno. mred. change (0 + 1 >=? ipc_timeout) with false. cbv iota.
    rewrite (bind_ok _ _ _ _ _ (call_ret_eq _ _)). unfold called.
    cbn [l_world put_errno put_trace put_world l_trace]. rewrite Hw2. cbn [fst snd sr_ret].
    assert (Z.of_nat (length data - n) =? - 1 = false) as -> by (apply Z.eqb_neq; lia). mred.
    assert (Z.of_nat (length data - n) >? 0 = true) as -> by (apply Z.gtb_lt; lia).
    assert (Z.of_nat n + Z.of_nat (length data - n) = Z.of_nat (length data)) as -> by lia.
    rewrite Z.ltb_irrefl, Z.eqb_refl. by eexists.
  - intros He. apply Hne. rewrite <- He at 1. rewrite lookup_app_r by (rewrite length_take; lia).
    rewrite length_take. replace (n - n `min` length data)%nat with 0%nat by lia.
    apply lookup_take_lt. lia.
Qed.
