(* ===== verification/LibClientSpec.v ===== *)
(** * Validation of file descriptors and of paths

    Lemmas about citadel_validate_fd, the update functions and cache_hit. *)

From S2P Require Import Prelude Shared Hex LibState LibCache LibIpc LibClient.
From S2P Require Import LibCacheSpec LibCacheOps LibCacheTheorems LibIpcTheorems.

Section client.
Context `{HPos : Posix} `{HLaw : !PosixLaws}.
Implicit Type l : lstate.
Abbreviation L := (M lstate).

Hypothesis Hmem : ∀ n, mem n = true.
Hypothesis Hpeer : ∀ fd w, sr_nums (sys (sys_peercred fd) w).1 ≠ [].

(** What looking at an attribute leaves alone. *)
Record quiet l l' : Prop := Quiet {
  q_heap : l_heap l' = l_heap l; q_brk : l_brk l' = l_brk l; q_groups : l_groups l' = l_groups l;
  q_self : l_self l' = l_self l; q_nclk : l_nclk l' = l_nclk l; q_buffer : l_buffer l' = l_buffer l }.

(** A process that has registered. *)
Record live l (tok : bytes) : Prop := Live {
  lv_ptoken : ptoken (l_self l) = Some tok; lv_length : length tok = 8%nat;
  lv_signed : ∃ t, signed_ptoken (l_self l) = Some t ∧ (64 ≤ length t)%nat;
  lv_buffer : (90 ≤ length (l_buffer l))%nat }.

(** ** The identifier of a descriptor *)
Definition probe (fd : Z) : syscall :=
  sys_fgetxattr fd _CITADEL_XATTR_IDENTIFIER _CITADEL_ENCODED_IDENTIFIER_LENGTH.

(** The attribute is there, as the kernel module or the daemon wrote it. *)
Definition tagged (fd : Z) (id : bytes) (w : world) : Prop :=
  let r := (sys (probe fd) w).1 in
  (sr_ret r = 33 ∧ sr_out r = hex_body id ++ [0]) ∨ (sr_ret r = 32 ∧ sr_out r = hex_body id).
Definition untagged (fd : Z) (w : world) : Prop := sr_ret (sys (probe fd) w).1 = - 1.

Definition probed (fd : Z) l : lstate :=
  called (probe fd) (put_nstk (S (l_nstk l)) (put_nmem (S (l_nmem l)) l)).

Lemma probed_quiet fd l : quiet l (probed fd l).
Proof. unfold probed, called. case_if; by split. Qed.

Lemma get_fd_identifier_untagged fd l :
  untagged fd (l_world l) → get_fd_identifier fd l = Ok ((None, false), probed fd l).
Proof.
  intros Hu. unfold get_fd_identifier.
  rewrite (bind_ok _ _ _ _ _ (malloc_unchecked_ok Hmem l)).
  rewrite (bind_ok (uninitialised _) _ _ _ _ eq_refl), (bind_ok _ _ _ _ _ (call_eq _ _)).
  unfold untagged, probe in Hu. cbn [put_nstk put_nmem l_world]. rewrite Hu. done.
Qed.

Lemma get_fd_identifier_tagged fd id l :
  tagged fd id (l_world l) → bytes_ok id → length id = 16%nat →
  get_fd_identifier fd l = Ok ((Some id, true), put_nmem (S (l_nmem (probed fd l))) (probed fd l)).
Proof.
  intros Ht Hok Hlen. unfold get_fd_identifier.
  rewrite (bind_ok _ _ _ _ _ (malloc_unchecked_ok Hmem l)).
  rewrite (bind_ok (uninitialised _) _ _ _ _ eq_refl), (bind_ok _ _ _ _ _ (call_eq _ _)).
  fold (probe fd). cbn [put_nstk put_nmem l_world]. fold (probed fd l).
  set (rest := stack _ _). set (r := (sys (probe fd) (l_world l)).1).
  assert (sr_out r ++ drop (length (sr_out r)) (rest ++ [0]) = hex_body id ++ [0]) as ->.
  { pose proof (hex_body_length id) as Hh. rewrite Hlen in Hh.
    assert (length rest = 32%nat) as Hrest by apply stack_length.
    destruct Ht as [[_ Ho]|[_ Ho]]; fold r in Ho; rewrite Ho.
    - rewrite length_app, Hh, drop_ge by (rewrite length_app, Hrest; simpl; lia). by rewrite app_nil_r.
    - rewrite Hh. change (2 * 16)%nat with 32%nat. by rewrite <- Hrest, drop_app_length. }
  assert ((sr_ret r =? Z.of_nat _CITADEL_ENCODED_IDENTIFIER_LENGTH)
     || (sr_ret r =? Z.of_nat _CITADEL_ENCODED_IDENTIFIER_LENGTH - 1) = true) as ->.
  { destruct Ht as [[Hr _]|[Hr _]]; fold r in Hr; by rewrite Hr. }
  unfold _hex_identifier_to_bytes. rewrite existsb_app. cbn [existsb]. rewrite Z.eqb_refl.
  rewrite !orb_true_r. cbn [negb]. destruct id as [|x id]; [done|].
  rewrite hexstring_to_bytes_body by done. rewrite bind_assoc.
  by rewrite (bind_ok _ _ _ _ _ (malloc_unchecked_ok Hmem _)).
Qed.

(** The attribute has a length that no identifier has: the descriptor counts as
    tagged, with a NULL identifier. *)
Definition mistagged (fd : Z) (w : world) : Prop :=
  let n := sr_ret (sys (probe fd) w).1 in n ≠ - 1 ∧ n ≠ 32 ∧ n ≠ 33.

Lemma get_fd_identifier_mistagged fd l :
  mistagged fd (l_world l) → get_fd_identifier fd l = Ok ((None, true), probed fd l).
Proof.
  intros (H1 & H2 & H3). unfold get_fd_identifier. rewrite (bind_ok _ _ _ _ _ (malloc_unchecked_ok Hmem l)).
  rewrite (bind_ok (uninitialised _) _ _ _ _ eq_refl), (bind_ok _ _ _ _ _ (call_eq _ _)).
  fold (probe fd). cbn [put_nstk put_nmem l_world]. change (Z.of_nat _CITADEL_ENCODED_IDENTIFIER_LENGTH) with 33. change (33 - 1) with 32.
  rewrite (proj2 (Z.eqb_neq _ _) H3), (proj2 (Z.eqb_neq _ _) H2), (proj2 (Z.eqb_neq _ _) H1). done.
Qed.

(** ** Asking the daemon *)
Lemma copy_signed_ptoken_ok l tok : live l tok → ∃ t, copy_signed_ptoken l = Ok (t, l).
Proof.
  intros [_ _ (t & Ht & Hl) _]. unfold copy_signed_ptoken, get_signed_ptoken. mred. rewrite Ht.
  cbn [nonnull]. mred. unfold memcpy.
  assert ((length t <? _CITADEL_PROCESS_SIGNED_PTOKEN_LENGTH)%nat = false) as -> by by apply Nat.ltb_ge.
  by eexists.
Qed.

Lemma run_update_ok u fd id op l tok :
  live l tok → length id = 16%nat →
  ∃ b l', run_update u fd (Some id) op false l = Ok (b, l') ∧ ipc_frame l l' ∧
    (90 ≤ length (l_buffer l'))%nat ∧ (b = true → reply_ok tok (dec_op_reply (l_buffer l'))).
Proof.
  intros Hl Hid. destruct (copy_signed_ptoken_ok l tok Hl) as [t Et]. destruct Hl as [Hp Hl8 _ Hb].
  destruct (ipc_transaction_ok (enc_op_request (OpRequest challenge_signature op (take 16 id) t)) l tok Hb Hp Hl8 Hpeer)
    as (b & l' & E & F & B & Hok).
  exists b, l'. split_and!; [|done|lia|by intros (? & ? & ? & ? & ? & ? & ? & ? & ?)%Hok].
  assert ((length id <? _CITADEL_IDENTIFIER_LENGTH)%nat = false) as Hlt by (by rewrite Hid).
  destruct u; cbn [run_update]; unfold _citadel_file_open_fd, _citadel_socket, memcpy; cbn [nonnull];
    mred; rewrite ?Hlt; mred; rewrite (bind_ok _ _ _ _ _ Et); mred; rewrite ?Hlt; mred;
    rewrite (bind_ok _ _ _ _ _ E), andb_false_r; done.
Qed.

(** ** The item that was found *)
Definition young (now : Z) (i : item) : bool := uint64 (now - ci_time i + 1) <? _CITADEL_TICKET_EXPIRY.
Definition item_good (x : positive * item) : Prop :=
  is_Some (ci_fd x.2) ∧ (∃ d, ci_data x.2 = Some (Some d) ∧ length d = 16%nat) ∧ is_Some (ci_update x.2).

Lemma frame_rep l l' C : cache_rep l C → ipc_frame l l' → cache_rep l' C.
Proof. intros Hr []. by eapply cr_ext. Qed.

Lemma frame_live l l' tok : live l tok → ipc_frame l l' → (90 ≤ length (l_buffer l'))%nat → live l' tok.
Proof. intros [Hp Hl Hs _] F Hb. rewrite <- (if_self _ _ F) in Hp, Hs. by split. Qed.

(** A refreshed item goes to the end of its list. *)
Lemma refresh_ok l C pre a i post :
  let g := LIBCITADEL_CACHE_FD in
  let i' := ci_set_time (clock (l_nclk l)) i in
  cache_rep l C → C g = pre ++ (a, i) :: post →
  ∃ l', (update_cache_timestamp (Some a);;
         j ← load_item (Some a);
         when (negb (is_null (ci_next j))) (move_cache_item_to_end (Some a) (prev_of pre) g);;
         mret true) l = Ok (true, l') ∧
    cache_rep l' (<[g := pre ++ post ++ [(a, i')]]> C) ∧ lib_frame l l'.
Proof.
  intros g i' Hr HC. assert (is_group g) as Hg by done.
  unfold update_cache_timestamp. rewrite bind_assoc, (bind_ok clock_gettime _ _ _ _ eq_refl).
  set (l1 := put_nclk (S (l_nclk l)) l). assert (cache_rep l1 C) as Hr1 by by eapply cr_ext.
  destruct (store_item_rep l1 C g pre a i post (ci_set_time (clock (l_nclk l))) Hr1 Hg HC)
    as (l2 & E2 & Hr2 & Hl2); [done|]. fold i' in Hr2.
  rewrite (bind_ok _ _ _ _ _ E2).
  assert ((<[g := pre ++ (a, i') :: post]> C) g = pre ++ (a, i') :: post) as HC2 by by rewrite fn_lookup_insert.
  rewrite (bind_ok _ _ _ _ _ (load_item_ok _ _ _ (cr_item l2 _ g pre a i' post Hr2 Hg HC2))).
  cbn [ci_next ci_set_next].
  destruct post as [|x post].
  - cbn [head_or is_null negb when]. mred. exists l2. split_and!; [done|done|by subst l2].
  - assert (is_null (head_or (x :: post) None) = false) as -> by by destruct x.
    cbn [negb when].
    destruct (move_cache_item_to_end_ok l2 _ g pre a i' (x :: post) Hr2 Hg HC2) as (l3 & E3 & Hr3 & F3 & _); [done|].
    rewrite (bind_ok _ _ _ _ _ E3). mred. exists l3. split_and!; [done|by rewrite insert_twice in Hr3|].
    etrans; [|done]. by subst l2.
Qed.

Definition refreshed l C l' (r : bool) (pre : items) (a : positive) (i : item) (post : items) : Prop :=
  cache_rep l' (if r then <[LIBCITADEL_CACHE_FD := pre ++ post ++ [(a, ci_set_time (clock (S (l_nclk l))) i)]]> C else C).

Lemma validate_item_ok l C fd id pre a i post tok :
  cache_rep l C → C LIBCITADEL_CACHE_FD = pre ++ (a, i) :: post → item_good (a, i) → live l tok → length id = 16%nat →
  ∃ r l', validate_item fd (Some id) (prev_of pre) (Some a) l = Ok (r, l') ∧
    if young (clock (l_nclk l)) i || has_flag (ci_op i) CITADEL_OP_NOP
    then r = true ∧ l' = put_nclk (S (l_nclk l)) l
    else refreshed l C l' r pre a i post ∧ (r = true → reply_ok tok (dec_op_reply (l_buffer l'))).
Proof.
  intros Hr HC (_ & _ & [u Hu]) Hl Hid. unfold validate_item. cbn [snd] in Hu.
  assert (is_group LIBCITADEL_CACHE_FD) as Hg by done.
  pose proof (cr_item l C _ pre a i post Hr Hg HC) as Ha. unfold entry_in_date.
  rewrite bind_assoc, (bind_ok clock_gettime _ _ _ _ eq_refl). set (l1 := put_nclk (S (l_nclk l)) l).
  assert (load_item (Some a) l1 = Ok (ci_set_next (head_or post None) i, l1)) as Hload by by apply load_item_ok.
  rewrite bind_assoc, (bind_ok _ _ _ _ _ Hload). mred.
  fold (young (clock (l_nclk l)) (ci_set_next (head_or post None) i)).
  change (young (clock (l_nclk l)) (ci_set_next (head_or post None) i)) with (young (clock (l_nclk l)) i).
  destruct (young (clock (l_nclk l)) i); [by exists true, l1|]. cbn [orb].
  rewrite (bind_ok _ _ _ _ _ Hload). cbn [ci_op ci_update ci_set_next].
  destruct (has_flag (ci_op i) CITADEL_OP_NOP); [by exists true, l1|].
  rewrite Hu. cbn [defined]. mred.
  destruct (run_update_ok u fd id (ci_op i) l1 tok) as (b & l2 & E2 & F2 & B2 & Hok); [by destruct Hl|done|].
  rewrite (bind_ok _ _ _ _ _ E2). assert (cache_rep l1 C) as Hr1 by by eapply cr_ext.
  assert (cache_rep l2 C) as Hr2 by by eapply frame_rep.
  destruct b; cbn [negb]; [|by exists false, l2].
  destruct (refresh_ok l2 C pre a i post Hr2 HC) as (l3 & E3 & Hr3 & F3).
  exists true, l3. split; [exact E3|]. split.
  - unfold refreshed. rewrite (if_nclk _ _ F2) in Hr3. exact Hr3.
  - intros _. rewrite (lf_buffer _ _ F3). by apply Hok.
Qed.

(** ** The scan *)
Definition entry_matches (fd : Z) (id : bytes) (op : option Z) (x : positive * item) : bool :=
  has_fd fd x && (match op with None => true | Some o => o =? ci_op x.2 end)
  && bool_decide (ci_data x.2 = Some (Some id)).

Lemma validate_scan_ok l fd id op (pre xs : items) fuel :
  length id = 16%nat → lseg (l_heap l) xs None → Forall item_good xs → (length xs ≤ fuel)%nat →
  match List.find (entry_matches fd id op) xs with
  | None => validate_scan fuel fd (Some id) op (prev_of pre) (head_or xs None) l = Ok (None, l)
  | Some (a, i) => ∃ pre' post, xs = pre' ++ (a, i) :: post ∧
      validate_scan fuel fd (Some id) op (prev_of pre) (head_or xs None) l =
      (r ← validate_item fd (Some id) (prev_of (pre ++ pre')) (Some a); mret (Some r)) l
  end.
Proof.
  intros Hid. revert pre fuel. induction xs as [|[a i] xs IH]; intros pre fuel Hs Hgood Hf; [by destruct fuel|].
  destruct fuel as [|fuel]; simpl in Hf; [lia|]. destruct Hs as [Ha Hs].
  apply Forall_cons in Hgood as [([f Hfd] & (d & Hd & Hdl) & _) Hgood]. cbn [snd] in Hfd, Hd.
  assert (validate_scan (S fuel) fd (Some id) op (prev_of pre) (Some a) l =
    if entry_matches fd id op (a, i)
    then (r ← validate_item fd (Some id) (prev_of pre) (Some a); mret (Some r)) l
    else validate_scan fuel fd (Some id) op (Some a) (head_or xs None) l) as Hstep.
  { cbn [validate_scan]. rewrite (bind_ok _ _ _ _ _ (load_item_ok _ _ _ Ha)).
    cbn [ci_fd ci_op ci_data ci_next ci_set_next]. rewrite Hfd, Hd. cbn [defined]. mred.
    unfold entry_matches, has_fd. cbn [snd]. rewrite Hfd, Hd.
    assert (bool_decide (Some f = Some fd) = (f =? fd)) as ->.
    { destruct (Z.eqb_spec f fd) as [->|N]; [by apply bool_decide_true|apply bool_decide_false; congruence]. }
    destruct ((f =? fd) && _); [|done]. cbn [nonnull andb]. mred.
    change (nonnull (Some d)) with (mret d : L bytes). mred.
    erewrite (bind_ok (memcmp _ _ _)); [|by apply memcmp_ok].
    destruct (bytes_eqb id d) eqn:Eb.
    - apply bytes_eqb_eq in Eb as <-. by rewrite bool_decide_true.
    - apply bytes_eqb_neq in Eb. by rewrite bool_decide_false by congruence. }
  cbn [List.find head_or]. rewrite Hstep. clear Hstep.
  destruct (entry_matches fd id op (a, i)).
  { exists [], xs. split; [done|]. by rewrite app_nil_r. }
  specialize (IH (pre ++ [(a, i)]) fuel Hs Hgood ltac:(lia)).
  rewrite (prev_of_snoc pre (a, i)) in IH. cbn [fst] in IH.
  destruct (List.find _ xs) as [[b j]|]; [|exact IH].
  destruct IH as (pre' & post & -> & E'). exists ((a, i) :: pre'), post. split; [done|].
  rewrite E', <- app_assoc. done.
Qed.

(** Without an identifier, the first item with the number of the descriptor is a
    NULL dereference. *)
Lemma validate_scan_null l fd (xs : items) fuel prev :
  lseg (l_heap l) xs None → Forall item_good xs → (length xs ≤ fuel)%nat →
  validate_scan fuel fd None None prev (head_or xs None) l =
    if existsb (has_fd fd) xs then Fault NullDeref else Ok (None, l).
Proof.
  revert fuel prev. induction xs as [|[a i] xs IH]; intros fuel prev Hs Hgood Hf; [by destruct fuel|].
  destruct fuel as [|fuel]; simpl in Hf; [lia|]. destruct Hs as [Ha Hs].
  apply Forall_cons in Hgood as [([f Hfd] & _ & _) Hgood]. cbn [snd] in Hfd. cbn [head_or validate_scan existsb].
  rewrite (bind_ok _ _ _ _ _ (load_item_ok _ _ _ Ha)). cbn [ci_fd ci_next ci_set_next]. rewrite Hfd. cbn [defined]. mred.
  rewrite andb_true_r. unfold has_fd at 1. cbn [snd]. rewrite Hfd.
  destruct (Z.eqb_spec f fd) as [->|N]; [by rewrite bool_decide_true|]. rewrite bool_decide_false by congruence.
  apply IH; [done..|lia].
Qed.

(** ** The whole function *)
Lemma validate_fd_null l C fd :
  cache_rep l C → Forall item_good (C LIBCITADEL_CACHE_FD) → mistagged fd (l_world l) →
  citadel_validate_fd fd None None None l =
    if existsb (has_fd fd) (C LIBCITADEL_CACHE_FD) then Fault NullDeref else Ok ((false, true), probed fd l).
Proof.
  intros Hr Hgood Hm. unfold citadel_validate_fd. rewrite (bind_ok _ _ _ _ _ (get_fd_identifier_mistagged fd l Hm)). cbn [negb].
  set (l1 := probed fd l). assert (cache_rep l1 C) as Hr1 by (destruct (probed_quiet fd l); by eapply cr_ext).
  assert (is_group LIBCITADEL_CACHE_FD) as Hg by done.
  assert (cache_group_head LIBCITADEL_CACHE_FD l1 = Ok (head_or (C LIBCITADEL_CACHE_FD) None, l1)) as Hh.
  { unfold cache_group_head, group_head. cbn [Z.geb Z.eqb when]. mred. rewrite <- (cr_head l1 C Hr1); done. }
  rewrite (bind_ok _ _ _ _ _ Hh). mred. pose proof (cr_length l1 C _ Hr1 Hg) as Hlen.
  pose proof (validate_scan_null l1 fd (C LIBCITADEL_CACHE_FD) (list_fuel l1) None (cr_chain l1 C Hr1 _ Hg) Hgood ltac:(unfold list_fuel; lia)) as Hs.
  unfold mbind at 1, M_bind at 1. rewrite Hs. by destruct (existsb _ _).
Qed.

Lemma validate_fd_ok l C fd id op tok :
  cache_rep l C → Forall item_good (C LIBCITADEL_CACHE_FD) → live l tok →
  tagged fd id (l_world l) → bytes_ok id → length id = 16%nat →
  ∃ r l', citadel_validate_fd fd None op None l = Ok ((r, true), l') ∧
  match List.find (entry_matches fd id op) (C LIBCITADEL_CACHE_FD) with
  | None => r = false ∧ cache_rep l' C ∧ l_trace l' = probe fd :: l_trace l
  | Some (a, i) =>
      if young (clock (l_nclk l)) i || has_flag (ci_op i) CITADEL_OP_NOP
      then r = true ∧ cache_rep l' C ∧ l_trace l' = probe fd :: l_trace l
      else ∃ pre post, C LIBCITADEL_CACHE_FD = pre ++ (a, i) :: post ∧ refreshed l C l' r pre a i post ∧
           (r = true → reply_ok tok (dec_op_reply (l_buffer l')))
  end.
Proof.
  intros Hr Hgood Hl Ht Hok Hid. unfold citadel_validate_fd.
  rewrite (bind_ok _ _ _ _ _ (get_fd_identifier_tagged fd id l Ht Hok Hid)). cbn [negb].
  set (l1 := put_nmem _ _).
  assert (quiet l l1) as Hq by (destruct (probed_quiet fd l); by split).
  assert (cache_rep l1 C) as Hr1 by (destruct Hq; by eapply cr_ext).
  assert (live l1 tok) as Hl1 by (destruct Hl, Hq; split; congruence || by rewrite ?q_self0, ?q_buffer0).
  assert (cache_group_head LIBCITADEL_CACHE_FD l1 = Ok (head_or (C LIBCITADEL_CACHE_FD) None, l1)) as Hh.
  { unfold cache_group_head, group_head. cbn [Z.geb Z.eqb when]. mred.
    rewrite <- (cr_head l1 C Hr1); done. }
  rewrite (bind_ok _ _ _ _ _ Hh). mred.
  pose proof (validate_scan_ok l1 fd id op [] (C LIBCITADEL_CACHE_FD) (list_fuel l1) Hid) as Hscan.
  assert (is_group LIBCITADEL_CACHE_FD) as Hg by done.
  specialize (Hscan (cr_chain l1 C Hr1 _ Hg) Hgood).
  pose proof (cr_length l1 C _ Hr1 Hg) as Hlen. specialize (Hscan ltac:(unfold list_fuel; lia)).
  destruct (List.find _ _) as [[a i]|] eqn:Efind.
  - destruct Hscan as (pre & post & HC & Escan).
    assert (item_good (a, i)) as Hgi.
    { rewrite HC in Hgood. apply Forall_app in Hgood as [_ Hgood]. by apply Forall_cons in Hgood as [? _]. }
    destruct (validate_item_ok l1 C fd id pre a i post tok Hr1 HC Hgi Hl1 Hid) as (r & l2 & E2 & H2).
    exists r, l2. split.
    { erewrite (bind_ok (validate_scan _ _ _ _ _ _)); [|].
      2:{ change (prev_of []) with (@None positive) in Escan. rewrite Escan. cbn [app].
          by rewrite (bind_ok _ _ _ _ _ E2). }
      done. }
    rewrite (q_nclk _ _ Hq) in H2. destruct (young _ i || _).
    + destruct H2 as [-> ->]. split_and!; [done|by eapply cr_ext|done].
    + exists pre, post. unfold refreshed in *. rewrite (q_nclk _ _ Hq) in H2. done.
  - exists false, l1. split; [|done]. erewrite (bind_ok (validate_scan _ _ _ _ _ _)); [|exact Hscan].
    by destruct op.
Qed.

End client.
