(* ===== verification/LibPaths.v ===== *)
(** * Permissions for paths

    Lemmas about cache_hit, citadel_file_open and citadel_file_claim, and about the
    requests they make. *)

From S2P Require Import Prelude Shared Hex LibState LibCache LibIpc LibClient Shim.
From S2P Require Import LibCacheSpec LibCacheOps LibCacheTheorems LibIpcTheorems LibClientSpec.

(** A C string of at most PATH_MAX - 1 characters. *)
Definition path_ok (p : bytes) : Prop := Forall (λ b, b ≠ 0) p ∧ (1 ≤ length p ≤ 4095)%nat.

Lemma path_length_fits p : path_ok p → bad_length (path_length p) = false.
Proof.
  intros [_ Hl]. unfold bad_length, path_length. change (Z.of_nat _CITADEL_MAX_METADATA_SIZE) with 4096.
  apply orb_false_iff. split; [rewrite Z.gtb_ltb; apply Z.ltb_ge; lia|apply Z.ltb_ge; lia].
Qed.

Lemma memcmp_eq_path p q :
  Forall (λ b, b ≠ 0) p → Forall (λ b, b ≠ 0) q →
  memcmp_eq (S (length p)) (p ++ [0]) (q ++ [0]) = Some (bool_decide (p = q)).
Proof.
  intros Hp. revert q. induction Hp as [|x p Hx Hp IH]; intros q Hq.
  - destruct Hq as [|y q Hy Hq]; [done|]. cbn [app memcmp_eq length].
    assert (0 =? y = false) as -> by (apply Z.eqb_neq; lia). by rewrite bool_decide_false.
  - destruct Hq as [|y q Hy Hq].
    + cbn [app memcmp_eq length]. assert (x =? 0 = false) as -> by (apply Z.eqb_neq; lia).
      by rewrite bool_decide_false.
    + change (memcmp_eq (S (length (x :: p))) ((x :: p) ++ [0]) ((y :: q) ++ [0]))
        with (if x =? y then memcmp_eq (S (length p)) (p ++ [0]) (q ++ [0]) else Some false).
      destruct (Z.eqb_spec x y) as [->|N].
      * rewrite IH by done. f_equal. apply bool_decide_ext. split; congruence.
      * by rewrite bool_decide_false by congruence.
Qed.

Definition path_item (x : positive * item) : Prop :=
  ∃ q, ci_data x.2 = Some (Some (terminated q)) ∧ Forall (λ b, b ≠ 0) q.
Definition path_matches (p : bytes) (op : Z) (x : positive * item) : bool :=
  bool_decide (ci_data x.2 = Some (Some (terminated p))) && has_flag (ci_op x.2) op.

(** A live item at the end survives pruning. *)
Lemma drop_old_last now xs x : expired now x.2 = false → ∃ ys, drop_old now (xs ++ [x]) = ys ++ [x].
Proof.
  intros Hx. induction xs as [|y xs [ys IH]]; simpl.
  - rewrite Hx. by exists [].
  - destruct (expired now y.2); [by exists ys|]. by exists (y :: xs).
Qed.
Lemma drop_old_sub now xs x : x ∈ drop_old now xs → x ∈ xs.
Proof.
  intros Hx. rewrite <- (take_drop_old now xs). apply elem_of_app. by right.
Qed.

Lemma existsb_false {A} (f : A → bool) xs : existsb f xs = false ↔ ∀ x, x ∈ xs → f x = false.
Proof.
  induction xs as [|y xs IH]; cbn [existsb].
  - split; [|done]. by intros _ x Hx%elem_of_nil.
  - rewrite orb_false_iff, IH. split.
    + intros [Hy Hxs] x [->|Hx]%elem_of_cons; auto.
    + intros Hall. split; [|intros x Hx]; apply Hall; by constructor.
Qed.

Section paths.
Context `{HPos : Posix}.
Implicit Type l : lstate.
Abbreviation L := (M lstate).

Lemma cache_hit_scan_ok l xs fuel p op :
  Forall (λ b, b ≠ 0) p → lseg (l_heap l) xs None → Forall path_item xs → (length xs ≤ fuel)%nat →
  cache_hit_scan fuel (terminated p) (path_length p) op (head_or xs None) l =
    Ok (existsb (path_matches p op) xs, l).
Proof.
  intros Hp. revert fuel. induction xs as [|[a i] xs IH]; intros fuel Hs Hg Hf; [by destruct fuel|].
  destruct fuel as [|fuel]; simpl in Hf; [lia|]. destruct Hs as [Ha Hs].
  apply Forall_cons in Hg as [(q & Hq & Hqn) Hg]. cbn [snd] in Hq.
  cbn [head_or cache_hit_scan existsb]. rewrite (bind_ok _ _ _ _ _ (load_item_ok _ _ _ Ha)).
  cbn [ci_data ci_op ci_next ci_set_next]. rewrite Hq. cbn [defined]. mred. cbn [nonnull]. mred.
  unfold path_length. rewrite Nat2Z.id. pose proof (memcmp_eq_path p q Hp Hqn) as Hm.
  fold (terminated p) (terminated q) in Hm. unfold memcmp. rewrite Hm.
  mred. unfold path_matches at 1. cbn [snd]. rewrite Hq.
  assert (bool_decide (Some (Some (terminated q)) = Some (Some (terminated p))) = bool_decide (p = q)) as ->.
  { apply bool_decide_ext. unfold terminated. split; [|by intros ->]. intros [= He].
    by apply app_inj_tail in He as [-> _]. }
  destruct (bool_decide (p = q) && has_flag (ci_op i) op); [done|]. apply IH; [done..|lia].
Qed.

(** cache_hit prunes and answers by what is left. *)
Lemma cache_hit_ok l C p op :
  let g := LIBCITADEL_CACHE_FILE_NAMES in
  let xs := drop_old (clock (l_nclk l)) (C g) in
  Forall (λ b, b ≠ 0) p → cache_rep l C → Forall path_item (C g) →
  ∃ l', cache_hit (terminated p) (path_length p) op l = Ok (existsb (path_matches p op) xs, l') ∧
    cache_rep l' (<[g := xs]> C) ∧ lib_frame l l' ∧ l_brk l' = l_brk l.
Proof.
  intros g xs Hp Hr Hg. assert (is_group g) as Hgr by done.
  destruct (cleanup_cache_group_ok l C g Hr Hgr) as (l1 & E1 & Hr1 & F1 & _ & B1 & _).
  { eapply Forall_impl; [done|]. intros x (q & Hq & _). by eexists. }
  fold xs in Hr1. exists l1. split_and!; [|done..]. unfold cache_hit.
  assert (cache_group_head g l = Ok (head_or xs None, l1)) as Hh.
  { unfold cache_group_head, group_head. change (g >=? LIBCITADEL_CACHE_MAX_GROUPS) with false. cbv iota.
    change (when (g =? LIBCITADEL_CACHE_FILE_NAMES)) with (when (S := lstate) true). cbn [when].
    rewrite (bind_ok _ _ _ _ _ E1). unfold gets. rewrite (cr_head l1 _ Hr1 g Hgr), fn_lookup_insert. done. }
  rewrite (bind_ok _ _ _ _ _ Hh). mred.
  pose proof (cr_chain l1 _ Hr1 g Hgr) as Hs. pose proof (cr_length l1 _ g Hr1 Hgr) as Hlen.
  rewrite fn_lookup_insert in Hs, Hlen. apply cache_hit_scan_ok; [done|done| |unfold list_fuel; lia].
  apply Forall_forall. intros x Hx%drop_old_sub. rewrite Forall_forall in Hg. auto.
Qed.

Context `{HLaw : !PosixLaws}.
Hypothesis Hmem : ∀ n, mem n = true.
Hypothesis Hpeer : ∀ fd w, sr_nums (sys (sys_peercred fd) w).1 ≠ [].

Lemma send_path_request_ok l p op tr tok :
  path_ok p → live l tok →
  ∃ b l', send_path_request (terminated p) (path_length p) op tr l = Ok (b, l') ∧
    l_heap l' = l_heap l ∧ l_brk l' = l_brk l ∧ l_groups l' = l_groups l ∧ l_nclk l' = l_nclk l ∧ live l' tok.
Proof.
  intros [_ Hp] Hl. unfold send_path_request.
  do 3 rewrite (bind_ok (uninitialised _) _ _ _ _ eq_refl).
  match goal with |- context [(copy_signed_ptoken ≫= _) ?s] => set (l1 := s) end.
  assert (live l1 tok) as Hl1 by by destruct Hl.
  destruct (copy_signed_ptoken_ok l1 tok Hl1) as [t Et]. rewrite (bind_ok _ _ _ _ _ Et).
  unfold memcpy, path_length. rewrite Nat2Z.id.
  assert ((length (terminated p) <? S (length p))%nat = false) as ->
    by (apply Nat.ltb_ge; unfold terminated; rewrite length_app; simpl; lia).
  mred. assert (Z.of_nat (S (length p)) >? Z.of_nat _CITADEL_MAX_METADATA_SIZE = false) as ->.
  { change (Z.of_nat _CITADEL_MAX_METADATA_SIZE) with 4096. rewrite Z.gtb_ltb. apply Z.ltb_ge. lia. }
  pose proof Hl1 as [Hpt Hl8 _ Hb].
  match goal with |- context [ipc_transaction ?rq l1] =>
    destruct (ipc_transaction_ok rq l1 tok Hb Hpt Hl8 Hpeer) as (b & l' & E & F & B & _) end.
  exists b, l'. split; [exact E|]. split_and!; [apply F..|]. eapply frame_live; [done|done|lia].
Qed.

Lemma file_open_ok l C p tok :
  let g := LIBCITADEL_CACHE_FILE_NAMES in
  let xs := drop_old (clock (l_nclk l)) (C g) in
  path_ok p → cache_rep l C → Forall path_item (C g) → live l tok →
  ∃ b l', citadel_file_open (terminated p) (path_length p) l = Ok (b, l') ∧ live l' tok ∧
  if existsb (path_matches p CITADEL_OP_OPEN) xs
  then b = true ∧ l_trace l' = l_trace l ∧ cache_rep l' (<[g := xs]> C)
  else ∃ a, cache_rep l' (<[g := xs ++ if b : bool then [(a, CacheItem (Some (Some (terminated p))) None
         (clock (pred (l_nclk l'))) CITADEL_OP_OPEN None None None)] else []]> C).
Proof.
  intros g xs Hp Hr Hg Hl. assert (is_group g) as Hgr by done. pose proof Hp as [Hnz Hlen].
  destruct (cache_hit_ok l C p CITADEL_OP_OPEN Hnz Hr Hg) as (l1 & E1 & Hr1 & F1 & B1). fold g xs in E1, Hr1.
  unfold citadel_file_open, citadel_file_open_ext.
  rewrite (path_length_fits p Hp).
  rewrite bind_assoc, (bind_ok _ _ _ _ _ E1). destruct (existsb _ xs).
  { exists true, l1. split_and!; [done| |done|apply F1|done]. destruct Hl, F1 as [Fs Fb]. by split; rewrite ?Fs, ?Fb. }
  assert (live l1 tok) as Hl1 by (destruct Hl, F1 as [Fs Fb]; split; rewrite ?Fs, ?Fb; done).
  destruct (send_path_request_ok l1 p CITADEL_OP_OPEN true tok Hp Hl1) as (b & l2 & E2 & H2h & H2b & H2g & H2n & Hl2).
  rewrite bind_assoc, (bind_ok _ _ _ _ _ E2).
  assert (cache_rep l2 (<[g := xs]> C)) as Hr2 by by eapply cr_ext.
  destruct b; cbn [when]; mred.
  - destruct (add_path_entry_ok Hmem l2 _ (terminated p) CITADEL_OP_OPEN Hr2) as (l3 & E3 & Hr3 & F3 & N3).
    exists true, l3. split; [|split].
    { assert (path_length p = Z.of_nat (length (terminated p))) as ->
        by (unfold path_length, terminated; rewrite length_app; simpl; lia).
      by rewrite bind_assoc, (bind_ok _ _ _ _ _ E3). }
    { destruct Hl2, F3 as [Fs Fb]. by split; rewrite ?Fs, ?Fb. }
    exists (l_brk l2). fold g in Hr3. rewrite insert_twice, fn_lookup_insert in Hr3.
    rewrite N3. exact Hr3.
  - exists false, l2. split_and!; [done|done|]. exists 1%positive. by rewrite app_nil_r.
Qed.

End paths.

(** ** Around a request

    citadel_file_open and citadel_file_claim ask the daemon for a path that is not
    in the cache, and remember an approval; then the state of a process that has
    just started. *)
Section library.
Context `{HPos : Posix} `{HPLaw : !PosixLaws}.
Implicit Type l : lstate.

Lemma copy_signed_ptoken_eq l sealed :
  signed_ptoken (l_self l) = Some sealed → length sealed = 64%nat → copy_signed_ptoken l = Ok (sealed, l).
Proof.
  intros Ht Hl. unfold copy_signed_ptoken, get_signed_ptoken. mred. rewrite Ht. cbn [nonnull]. mred.
  unfold memcpy. rewrite Hl. change (64 <? _CITADEL_PROCESS_SIGNED_PTOKEN_LENGTH)%nat with false. cbv iota.
  by rewrite take_ge by (rewrite Hl; done).
Qed.

(** What the library sends about a path: the string, then what the stack held. *)
Lemma send_path_request_eq l p op tr sealed :
  path_ok p → signed_ptoken (l_self l) = Some sealed → length sealed = 64%nat →
  ∃ subject flag md, length subject = 16%nat ∧ length md = 4096%nat ∧ cstring md = p ∧
    send_path_request (terminated p) (path_length p) op tr l =
    ipc_transaction (enc_ext_request (ExtRequest (OpRequest challenge_signature op subject sealed) tr flag md))
      (put_nstk (S (S (S (l_nstk l)))) l).
Proof.
  intros [Hnz Hp] Ht Hl. unfold send_path_request. do 3 rewrite (bind_ok (uninitialised _) _ _ _ _ eq_refl).
  set (subject := stack _ _). set (flag := stack _ 1%nat). set (rest := stack _ _CITADEL_MAX_METADATA_SIZE).
  exists subject, (bool_at 0 flag), (terminated p ++ drop (S (length p)) rest).
  assert (length rest = 4096%nat) as Hr by apply stack_length.
  split_and!; [apply stack_length| |unfold terminated; rewrite <- app_assoc; by apply cstring_nul|].
  { unfold terminated. rewrite !length_app, length_drop, Hr. cbn [length]. lia. }
  match goal with |- context [(copy_signed_ptoken ≫= _) ?s] => mstep (copy_signed_ptoken_eq s sealed Ht Hl) end.
  unfold memcpy, path_length. rewrite Nat2Z.id.
  assert (length (terminated p) = S (length p)) as Htl by (unfold terminated; rewrite length_app; simpl; lia).
  rewrite Htl, Nat.ltb_irrefl. mred. rewrite <- Htl, firstn_all, Htl.
  assert (Z.of_nat (S (length p)) >? Z.of_nat _CITADEL_MAX_METADATA_SIZE = false) as ->; [|done].
  change (Z.of_nat _CITADEL_MAX_METADATA_SIZE) with 4096. rewrite Z.gtb_ltb. apply Z.ltb_ge. lia.
Qed.

(** A path that the library has to ask for, and what it does with the answer. *)
Definition ask (p : bytes) (op op' : Z) (tr : bool) : M lstate bool :=
  hit ← cache_hit (terminated p) (path_length p) op;
  if hit : bool then mret true else
  success ← send_path_request (terminated p) (path_length p) op' tr;
  when success (add_path_entry (terminated p) (path_length p) op');;
  mret success.

(** The permissions for paths in the cache of the library. *)
Definition lib_rep l (C : Z → items) : Prop := cache_rep l C ∧ Forall path_item (C LIBCITADEL_CACHE_FILE_NAMES).
(** The path is not in the cache, or has expired there. *)
Definition unknown_path l (p : bytes) (op : Z) (C : Z → items) : Prop :=
  existsb (path_matches p op) (drop_old (clock (l_nclk l)) (C LIBCITADEL_CACHE_FILE_NAMES)) = false.
#[export] Instance unknown_path_dec l p op C : Decision (unknown_path l p op C).
Proof. unfold unknown_path. apply _. Defined.
Definition known_path (p : bytes) (op : Z) (C : Z → items) : Prop :=
  existsb (path_matches p op) (C LIBCITADEL_CACHE_FILE_NAMES) = true.

Lemma asked l C p op op' tr :
  (∀ n, mem n = true) → path_ok p → lib_rep l C → unknown_path l p op C → has_flag op' op' = true →
  ∃ l1, lib_frame l l1 ∧ ∀ l2, send_path_request (terminated p) (path_length p) op' tr l1 = Ok (true, l2) →
    ipc_frame (put_nstk (S (S (S (l_nstk l1)))) l1) l2 →
    ∃ l3 C', ask p op op' tr l = Ok (true, l3) ∧ lib_frame l2 l3 ∧ lib_rep l3 C' ∧ known_path p op' C'.
Proof.
  intros Hmem Hp [Hr Hg] Hno Hop. set (g := LIBCITADEL_CACHE_FILE_NAMES) in *. pose proof Hp as [Hnz _].
  destruct (cache_hit_ok l C p op Hnz Hr Hg) as (l1 & E1 & Hr1 & F1 & B1). fold g in E1, Hr1.
  set (xs := drop_old (clock (l_nclk l)) (C g)) in *. exists l1. split; [done|]. intros l2 E2 F2.
  assert (cache_rep l2 (<[g := xs]> C)) as Hr2 by (destruct F2; by eapply cr_ext).
  destruct (add_path_entry_ok Hmem l2 _ (terminated p) op' Hr2) as (l3 & E3 & Hr3 & F3 & _).
  fold g in Hr3. rewrite insert_twice, fn_lookup_insert in Hr3.
  exists l3. eexists. split_and!.
  - unfold ask. mstep E1. unfold unknown_path in Hno. fold g xs in Hno. rewrite Hno. mstep E2. cbn [when]. replace (path_length p) with (Z.of_nat (length (terminated p)))
      by (unfold path_length, terminated; rewrite length_app; simpl; lia). by mstep E3.
  - done.
  - split; [exact Hr3|]. fold g. rewrite fn_lookup_insert. apply Forall_app. split.
    + apply Forall_forall. intros x Hx%drop_old_sub. rewrite Forall_forall in Hg. auto.
    + apply Forall_singleton. by exists p.
  - unfold known_path. fold g. rewrite fn_lookup_insert, existsb_app. apply orb_true_iff. right. cbn [existsb].
    unfold path_matches. cbn [snd ci_data ci_op]. by rewrite bool_decide_true, Hop.
Qed.

(** A path that the daemon refuses is not remembered. *)
Lemma asked_in_vain l C p op op' tr :
  path_ok p → lib_rep l C → unknown_path l p op C →
  ∃ l1, lib_frame l l1 ∧ ∀ l2, send_path_request (terminated p) (path_length p) op' tr l1 = Ok (false, l2) →
    ipc_frame (put_nstk (S (S (S (l_nstk l1)))) l1) l2 →
    ∃ C', ask p op op' tr l = Ok (false, l2) ∧ lib_rep l2 C' ∧ existsb (path_matches p op) (C' LIBCITADEL_CACHE_FILE_NAMES) = false.
Proof.
  intros [Hnz _] [Hr Hg] Hno. destruct (cache_hit_ok l C p op Hnz Hr Hg) as (l1 & E1 & Hr1 & F1 & _).
  exists l1. split; [done|]. intros l2 E2 F2. unfold unknown_path in Hno. eexists. split_and!.
  - unfold ask. mstep E1. rewrite Hno. by mstep E2.
  - split; [destruct F2; by eapply cr_ext|]. rewrite fn_lookup_insert. apply Forall_forall.
    intros x Hx%drop_old_sub. rewrite Forall_forall in Hg. auto.
  - by rewrite fn_lookup_insert.
Qed.

(** A path that the library knows. *)
Lemma remembered l C p op op' tr :
  path_ok p → lib_rep l C → ¬ unknown_path l p op C →
  ∃ l' C', ask p op op' tr l = Ok (true, l') ∧ lib_frame l l' ∧ lib_rep l' C'.
Proof.
  intros [Hnz _] [Hr Hg] Hkn. destruct (cache_hit_ok l C p op Hnz Hr Hg) as (l1 & E1 & Hr1 & F1 & _).
  apply not_false_is_true in Hkn. eexists l1, _. split_and!; [unfold ask; mstep E1; by rewrite Hkn|done|].
  split; [exact Hr1|]. rewrite fn_lookup_insert. apply Forall_forall. intros x Hx%drop_old_sub. rewrite Forall_forall in Hg. auto.
Qed.

Lemma open_asks p l :
  path_ok p → citadel_file_open (terminated p) (path_length p) l = ask p CITADEL_OP_OPEN CITADEL_OP_OPEN true l.
Proof.
  intros Hp. unfold citadel_file_open, citadel_file_open_ext, ask.
  rewrite (path_length_fits p Hp).
  rewrite bind_assoc. unfold mbind, M_bind. destruct (cache_hit _ _ _ l) as [[[] l1]|]; [done| |done].
  destruct (send_path_request _ _ _ _ l1) as [[[] l2]|]; cbn [when]; [|done|done].
  unfold mret, M_ret. by destruct (add_path_entry _ _ _ l2) as [[]|].
Qed.

Lemma claim_asks p l :
  path_ok p →
  _citadel_file_claim (terminated p) (path_length p) l =
  ask p CITADEL_OP_CLAIM (Z.lor CITADEL_OP_CLAIM CITADEL_OP_OPEN) false l.
Proof. intros Hp. unfold _citadel_file_claim, ask. by rewrite (path_length_fits p Hp). Qed.

(** ** A process that starts *)

(** What the start leaves alone, the statics of init.c and the world apart. *)
Record start_frame l l' : Prop := StartFrame {
  sf_heap : l_heap l' = l_heap l; sf_brk : l_brk l' = l_brk l; sf_groups : l_groups l' = l_groups l;
  sf_buffer : l_buffer l' = l_buffer l }.

#[export] Instance start_frame_po : PreOrder start_frame.
Proof. split; [done|]. intros x y z [] []. split; congruence. Qed.

Lemma called_start c l : start_frame l (called c l).
Proof. unfold called. by case_if. Qed.

(** A process that is neither known nor the child of a known one. *)
Lemma init_pid_fresh l :
  let r1 := sys sys_getpid (l_world l) in
  let r2 := sys sys_getppid r1.2 in
  sr_ret r1.1 ≠ own_pid (l_self l) → sr_ret r2.1 ≠ own_pid (l_self l) →
  ∃ l', init_pid l = Ok ((true, false), l') ∧ start_frame l l' ∧ l_world l' = r2.2 ∧
    l_self l' = set_pids (sr_ret r1.1) (sr_ret r2.1) (l_self l).
Proof.
  intros r1 r2 H1 H2. unfold init_pid.
  rewrite (bind_ok _ _ _ _ _ (call_ret_eq _ l)). fold r1. set (l1 := called _ l).
  assert (l_self l1 = l_self l) as S1 by apply (if_self _ _ (called_frame _ _)).
  rewrite (bind_ok _ _ _ _ _ (call_ret_eq _ l1)). change (l_world l1) with r1.2. fold r2. set (l2 := called _ l1).
  assert (l_self l2 = l_self l) as S2 by (rewrite <- S1; apply (if_self _ _ (called_frame _ _))).
  mred. rewrite S2, (proj2 (Z.eqb_neq _ _) H1).
  assert (own_pid (l_self l) =? sr_ret r2.1 = false) as Hp by (by apply Z.eqb_neq).
  rewrite Hp, andb_true_r. exists (put_self (set_pids (sr_ret r1.1) (sr_ret r2.1) (l_self l)) l2). split_and!.
  - unfold set_self. case_if; mred; rewrite S2; done.
  - etrans; [apply (called_start sys_getpid)|]. etrans; [apply (called_start sys_getppid)|]. done.
  - done.
  - done.
Qed.

Lemma init_cache_ok l :
  (∀ a, is_Some (l_heap l !! a) → (a < l_brk l)%positive) →
  ∃ l', init_cache l = Ok (tt, l') ∧ lib_frame l l' ∧ lib_rep l' (λ _, []).
Proof.
  intros Hf. eexists. split; [reflexivity|]. split; [done|]. split; [|by constructor]. split; try done; [|constructor|].
  - intros g Hg. unfold put_groups, l_groups. unfold is_group, LIBCITADEL_CACHE_MAX_GROUPS in Hg.
    assert (g = 0 ∨ g = 1 ∨ g = 2) as [->|[->| ->]] by lia; by rewrite ?fn_lookup_insert, ?fn_lookup_insert_ne by done.
  - by intros g g' a _ _ ?%elem_of_nil.
Qed.
End library.
