(* ===== verification/LibTheorems.v ===== *)
(** * What libcitadel promises to the programs that link it *)

From S2P Require Import Prelude Shared Hex LibState LibCache LibIpc LibClient Shim.
From S2P Require Import LibCacheSpec LibCacheOps LibCacheTheorems LibIpcTheorems LibClientSpec LibPaths.

(** C29: the permission cache implements lists of permissions.  Any sequence of
    additions of descriptors and paths, prunings and fork preparations runs
    without a fault on the linked lists, ends in a state that holds what the
    abstract cache computes, and keeps the items in the order of their time
    stamps, so that pruning the expired prefix removes exactly the permissions
    that are fifteen seconds old.  It needs memory and a clock that does not run
    backwards. *)
Theorem lib_cache_refines_lists `{HPos : Posix} cs l A :
  (∀ n, 0 ≤ clock n ≤ clock (S n) ∧ clock n < 2 ^ 64) → (∀ n, mem n = true) →
  lib_refines l A → lib_ordered A → Forall call_ok cs →
  ∃ l', run_calls cs l = Ok (tt, l') ∧ lib_refines l' (abs_calls cs A) ∧ lib_ordered (abs_calls cs A).
Proof. intros. by apply run_calls_sim. Qed.


(** The wrappers of data transfers on one descriptor, with the call they make. *)
Inductive transfer `{Posix} (fd : Z) : syscall → M lstate sysret → Prop :=
  | transfer_read n : transfer fd (sys_read fd n) (c_read fd n)
  | transfer_write b : transfer fd (sys_write fd b) (c_write fd b)
  | transfer_pread n o : transfer fd (sys_pread fd n o) (c_pread fd n o)
  | transfer_pwrite b o : transfer fd (sys_pwrite fd b o) (c_pwrite fd b o)
  | transfer_send b f : transfer fd (sys_send fd b f) (c_send fd b f)
  | transfer_recv n f : transfer fd (sys_recv fd n f) (c_recv fd n f)
  | transfer_writev v : transfer fd (sys_writev fd v) (c_writev fd v).

Lemma if_valid_refused `{HPos : Posix} fd c l l' :
  citadel_validate_fd_anon fd l = Ok (false, l') →
  if_valid fd c l = Ok (SysRet (- 1) EPERM [] [], put_errno EPERM l').
Proof. intros E. unfold if_valid. by rewrite (bind_ok _ _ _ _ _ E). Qed.
Lemma if_valid_allowed `{HPos : Posix} fd c l l' :
  citadel_validate_fd_anon fd l = Ok (true, l') →
  if_valid fd c l = Ok ((sys c (l_world l')).1, called c l').
Proof. intros E. unfold if_valid. by rewrite (bind_ok _ _ _ _ _ E). Qed.

(** C32: the shim mediates transfers.  On a tagged descriptor that has no
    permission in the cache every transfer wrapper of the shim fails with -1 and
    EPERM and makes no system call besides the look at the attribute; with a
    young permission, and on a descriptor without the attribute, it makes
    exactly the call of its caller and returns its result. *)
Theorem shim_mediates_transfers `{HPos : Posix} `{HLaw : !PosixLaws} fd l C id tok c wrapper :
  (∀ n, mem n = true) → (∀ fd w, sr_nums (sys (sys_peercred fd) w).1 ≠ []) →
  cache_rep l C → Forall item_good (C LIBCITADEL_CACHE_FD) → live l tok →
  bytes_ok id → length id = 16%nat → transfer fd c wrapper →
  (tagged fd id (l_world l) → List.find (entry_matches fd id None) (C LIBCITADEL_CACHE_FD) = None →
     ∃ l', wrapper l = Ok (SysRet (- 1) EPERM [] [], l') ∧ l_errno l' = EPERM ∧
       l_trace l' = probe fd :: l_trace l) ∧
  ((untagged fd (l_world l) ∨
    tagged fd id (l_world l) ∧ ∃ a i, List.find (entry_matches fd id None) (C LIBCITADEL_CACHE_FD) = Some (a, i) ∧
      young (clock (l_nclk l)) i = true) →
     ∃ r l', wrapper l = Ok (r, l') ∧ l_trace l' = c :: probe fd :: l_trace l).
Proof.
  intros Hmem Hpeer Hr Hg Hl Hok Hid Hin.
  assert (wrapper = if_valid fd c) as -> by by destruct Hin.
  split.
  - intros Ht Hf. destruct (validate_fd_ok Hmem Hpeer l C fd id None tok Hr Hg Hl Ht Hok Hid) as (r & l' & E & H).
    rewrite Hf in H. destruct H as (-> & _ & Htr). exists (put_errno EPERM l'). split_and!; [|done..].
    apply if_valid_refused. unfold citadel_validate_fd_anon. by rewrite (bind_ok _ _ _ _ _ E).
  - intros [Hu|(Ht & a & i & Hf & Hy)].
    + eexists _, _. split; [apply (if_valid_allowed _ _ _ (probed fd l))|done].
      unfold citadel_validate_fd_anon, citadel_validate_fd.
      by rewrite bind_assoc, (bind_ok _ _ _ _ _ (get_fd_identifier_untagged Hmem fd l Hu)).
    + destruct (validate_fd_ok Hmem Hpeer l C fd id None tok Hr Hg Hl Ht Hok Hid) as (r & l' & E & H).
      rewrite Hf, Hy in H. destruct H as (-> & _ & Htr). eexists _, _.
      split; [apply (if_valid_allowed _ _ _ l')|by rewrite called_trace, Htr].
      unfold citadel_validate_fd_anon. by rewrite (bind_ok _ _ _ _ _ E).
Qed.

(** A granted path stays granted.  [citadel_file_open] of a path that is
    not cached always returns; if the daemon grants it, every later call for
    the same path, until the grant is fifteen seconds old, succeeds without any
    system call. *)
Theorem path_grant_is_cached `{HPos : Posix} `{HLaw : !PosixLaws} l C p tok :
  (∀ n, mem n = true) → (∀ fd w, sr_nums (sys (sys_peercred fd) w).1 ≠ []) →
  path_ok p → cache_rep l C → Forall path_item (C LIBCITADEL_CACHE_FILE_NAMES) → live l tok →
  existsb (path_matches p CITADEL_OP_OPEN) (C LIBCITADEL_CACHE_FILE_NAMES) = false →
  ∃ b l1, citadel_file_open (terminated p) (path_length p) l = Ok (b, l1) ∧
    (b = true → ∀ n,
       0 ≤ clock n - clock (pred (l_nclk l1)) < _CITADEL_TICKET_EXPIRY →
       ∃ l2, citadel_file_open (terminated p) (path_length p) (put_nclk n l1) = Ok (true, l2) ∧
         l_trace l2 = l_trace l1).
Proof.
  intros Hmem Hpeer Hp Hr Hg Hl Hno. set (g := LIBCITADEL_CACHE_FILE_NAMES) in *.
  destruct (file_open_ok Hmem Hpeer l C p tok Hp Hr Hg Hl) as (b & l1 & E & Hl0 & H). fold g in H.
  exists b, l1. split; [done|]. intros -> n Hn.
  assert (live (put_nclk n l1) tok) as Hl1 by by destruct Hl0.
  assert (existsb (path_matches p CITADEL_OP_OPEN) (drop_old (clock (l_nclk l)) (C g)) = false) as Hno'.
  { rewrite existsb_false in Hno |- *. intros x Hx%drop_old_sub. auto. }
  rewrite Hno' in H. destruct H as (a & Hr1). set (x := (a, _)) in Hr1.
  assert (cache_rep (put_nclk n l1) (<[g := drop_old (clock (l_nclk l)) (C g) ++ [x]]> C)) as Hr2
    by by eapply cr_ext.
  assert (Forall path_item ((<[g := drop_old (clock (l_nclk l)) (C g) ++ [x]]> C) g)) as Hg2.
  { rewrite fn_lookup_insert. apply Forall_app. split.
    - apply Forall_forall. intros y Hy%drop_old_sub. rewrite Forall_forall in Hg. auto.
    - apply Forall_singleton. exists p. split; [done|apply Hp]. }
  destruct (file_open_ok Hmem Hpeer (put_nclk n l1) _ p tok Hp Hr2 Hg2 Hl1) as (b2 & l2 & E2 & _ & H2).
  fold g in H2. rewrite fn_lookup_insert in H2. cbn [put_nclk l_nclk] in H2.
  destruct (drop_old_last (clock n) (drop_old (clock (l_nclk l)) (C g)) x) as [ys Hys].
  { unfold expired, x. cbn [snd ci_time]. unfold uint64.
    rewrite Z.mod_small by (unfold _CITADEL_TICKET_EXPIRY in Hn; lia).
    apply negb_false_iff, Z.ltb_lt. lia. }
  assert (existsb (path_matches p CITADEL_OP_OPEN) (ys ++ [x]) = true) as Hyes.
  { rewrite existsb_app. apply orb_true_iff. right. cbn [existsb]. apply orb_true_iff. left.
    unfold path_matches, x. cbn [snd ci_data ci_op]. by rewrite bool_decide_true. }
  rewrite Hys, Hyes in H2. destruct H2 as (-> & Htr & _). by exists l2.
Qed.

(** [citadel_remove_fd] frees and then reads.  If no item after the first
    has the descriptor, the first is removed when it has it and nothing else
    changes; but as soon as a later item has it, the item is freed and its
    [next] is loaded afterwards, so that closing any descriptor but the one
    declared first is undefined behaviour. *)
Theorem remove_fd_use_after_free `{HPos : Posix} l C fd x xs :
  cache_rep l C → C LIBCITADEL_CACHE_FD = x :: xs → Forall fd_defined (x :: xs) → fd ≠ - 1 →
  (existsb (has_fd fd) xs = false → ∃ l', citadel_remove_fd fd l = Ok (tt, l') ∧
     cache_rep l' (<[LIBCITADEL_CACHE_FD := if has_fd fd x then xs else x :: xs]> C) ∧ lib_frame l l') ∧
  (existsb (has_fd fd) xs = true → citadel_remove_fd fd l = Fault BadAccess).
Proof.
  intros Hr HC Hd Hfd. split.
  - by apply citadel_remove_fd_ok.
  - by eapply citadel_remove_fd_faults.
Qed.
