(* ===== verification/LibConcrete.v ===== *)
(** * A concrete operating system for libcitadel

    The answers of the system calls are a script, read in order; the peer of
    every socket is process 7.  On it the theorems about the library are applied
    to concrete states. *)

From S2P Require Import Prelude Shared Hex LibState LibCache LibIpc LibClient Shim.
From S2P Require Import LibCacheSpec LibCacheOps LibCacheTheorems LibIpcTheorems LibClientSpec LibPaths LibTheorems.

Definition script_sys (c : syscall) (w : list sysret) : sysret * list sysret :=
  match c with
  | sys_peercred _ => (SysRet 0 0 [] [7], w)
  | _ => match w with r :: w => (r, w) | [] => (SysRet (- 1) EPERM [] [], []) end
  end.
#[local] Instance script_posix : Posix :=
  {| world := list sysret; sys := script_sys; clock := λ n, 100 + Z.min (Z.of_nat n) 1000;
     mem := λ _, true; stack := λ _ len, replicate len 0xAA |}.
#[local] Instance script_laws : PosixLaws.
Proof. split. intros n len. apply length_replicate. Qed.

Lemma script_clock n : 0 ≤ clock n ≤ clock (S n) ∧ clock n < 2 ^ 64.
Proof. cbn. lia. Qed.
Lemma script_peer fd w : sr_nums (sys (sys_peercred fd) w).1 ≠ [].
Proof. done. Qed.

(** A registered process with two declared descriptors. *)
Definition script_self : init_statics :=
  InitStatics 7 10 1 true (replicate 16 1) (replicate 16 2) (Some (replicate 8 9)) (Some (replicate 64 3)).
Definition id_a : bytes := replicate 16 0xA1.
Definition id_b : bytes := replicate 16 0xB2.
Definition item_a : item :=
  CacheItem (Some (Some id_a)) None 100 CITADEL_OP_OPEN (Some 5) None (Some _citadel_file_open_fd_ptr).
Definition item_b : item :=
  CacheItem (Some (Some id_b)) None 100 CITADEL_OP_OPEN (Some 6) None (Some _citadel_file_open_fd_ptr).
Definition no_items : Z → items := λ _, [].
Definition two_items : Z → items := <[LIBCITADEL_CACHE_FD := [(1%positive, item_a); (2%positive, item_b)]]> no_items.

Definition empty_process (w : list sysret) : lstate :=
  LState _ ∅ 1%positive (λ _, None) script_self (replicate 4188 0) 0 0 0 0 w [].
Definition two_process (w : list sysret) : lstate :=
  LState _ (<[1%positive := ci_set_next (Some 2%positive) item_a]> {[2%positive := item_b]}) 3%positive
    (<[LIBCITADEL_CACHE_FD := Some 1%positive]> (λ _, None)) script_self (replicate 4188 0) 0 0 0 0 w [].

Lemma empty_rep w : cache_rep (empty_process w) no_items.
Proof. split; try done; [intros; constructor|by intros ? ? ? ? ? ?%elem_of_nil|]. intros a. cbn. rewrite lookup_empty. by intros []. Qed.

Lemma two_rep w : cache_rep (two_process w) two_items.
Proof.
  split.
  - intros g Hg. cbn [two_process l_groups]. unfold two_items.
    destruct (decide (g = LIBCITADEL_CACHE_FD)) as [->|N]; [by rewrite !fn_lookup_insert|by rewrite !fn_lookup_insert_ne].
  - intros g Hg. cbn [two_process l_heap]. unfold two_items.
    destruct (decide (g = LIBCITADEL_CACHE_FD)) as [->|N]; [by rewrite !fn_lookup_insert|by rewrite !fn_lookup_insert_ne].
  - intros g Hg. unfold two_items.
    destruct (decide (g = LIBCITADEL_CACHE_FD)) as [->|N]; [rewrite !fn_lookup_insert|rewrite !fn_lookup_insert_ne by done; constructor].
    cbn. apply NoDup_cons. split; [|apply NoDup_singleton]. by intros [=]%list_elem_of_singleton.
  - intros g g' a _ _. unfold two_items.
    destruct (decide (g = LIBCITADEL_CACHE_FD)) as [->|N]; [|rewrite fn_lookup_insert_ne by done; by intros ?%elem_of_nil].
    destruct (decide (g' = LIBCITADEL_CACHE_FD)) as [->|N']; [done|]. rewrite (fn_lookup_insert_ne _ _ g') by done.
    by intros _ ?%elem_of_nil.
  - intros a [x Hx]. cbn [two_process l_heap l_brk] in *.
    destruct (decide (a = 1%positive)) as [->|]; [done|]. rewrite lookup_insert_ne in Hx by done.
    by apply lookup_singleton_Some in Hx as [<- _].
Qed.

Lemma two_good : Forall item_good (two_items LIBCITADEL_CACHE_FD).
Proof. repeat (constructor; [split_and!; eauto|]); constructor. Qed.
Lemma process_live w : live (two_process w) (replicate 8 9) ∧ live (empty_process w) (replicate 8 9).
Proof.
  split; (split; [done|done|exists (replicate 64 3); split; [done|rewrite length_replicate; lia]|]);
    cbn [l_buffer two_process empty_process]; rewrite length_replicate; lia.
Qed.

(** The answers to a transaction that the daemon approves. *)
Definition approval : citadel_op_reply :=
  OpReply challenge_signature 0 (replicate 16 0) (replicate 8 9) CITADEL_OP_APPROVED (replicate 55 0).
Definition ok_ret (n : Z) : sysret := SysRet n 0 [] [].
Definition approving (len : Z) : list sysret :=
  [ok_ret 3; ok_ret 0; ok_ret 0; ok_ret 0; ok_ret len; SysRet 90 0 (enc_op_reply approval) []; ok_ret 0; ok_ret 0].
Definition tag_answer (id : bytes) : sysret := SysRet 32 0 (hex_body id) [].

(** ** The theorems on the concrete system *)
Lemma lib_cache_refines_lists_witness :
  ∃ l', run_calls [AddFd 5 id_a CITADEL_OP_NOP _citadel_socket_ptr; AddPath [47; 0] CITADEL_OP_OPEN; PrunePaths; PrepareChild]
    (empty_process []) = Ok (tt, l') ∧ l_nclk l' = 3%nat.
Proof.
  destruct (lib_cache_refines_lists
    [AddFd 5 id_a CITADEL_OP_NOP _citadel_socket_ptr; AddPath [47; 0] CITADEL_OP_OPEN; PrunePaths; PrepareChild]
    (empty_process []) (LibCacheModel (λ _, []) 0)) as (l' & E & Hr & _).
  - exact script_clock.
  - done.
  - split; [|done]. exists no_items. split; [apply empty_rep|done].
  - split; [intros; constructor|by intros g i _ ?%elem_of_nil|by intros i ?%elem_of_nil].
  - repeat constructor.
  - exists l'. split; [exact E|]. exact (lr_reads _ _ Hr).
Defined.


Lemma shim_mediates_transfers_witness :
  ∃ l', c_write 5 [1; 2] (two_process [tag_answer id_b]) = Ok (SysRet (- 1) EPERM [] [], l') ∧ l_trace l' = [probe 5].
Proof.
  destruct (shim_mediates_transfers 5 (two_process [tag_answer id_b]) two_items id_b (replicate 8 9)
    (sys_write 5 [1; 2]) (c_write 5 [1; 2])) as [H _].
  - done.
  - exact script_peer.
  - apply two_rep.
  - apply two_good.
  - apply process_live.
  - repeat constructor; done.
  - done.
  - constructor.
  - destruct H as (l' & E & _ & Ht); [by right|reflexivity|]. by exists l'.
Defined.

Lemma path_grant_is_cached_witness :
  ∃ b l1, citadel_file_open (terminated [47; 97]) 3 (empty_process (approving 4188)) = Ok (b, l1) ∧
    (b = true → ∀ n, 0 ≤ clock n - clock (pred (l_nclk l1)) < 15 →
     ∃ l2, citadel_file_open (terminated [47; 97]) 3 (put_nclk n l1) = Ok (true, l2) ∧ l_trace l2 = l_trace l1).
Proof.
  destruct (path_grant_is_cached (empty_process (approving 4188)) no_items [47; 97] (replicate 8 9)) as (b & l1 & E & H).
  - done.
  - exact script_peer.
  - split; [repeat constructor; done|cbn; lia].
  - apply empty_rep.
  - constructor.
  - apply process_live.
  - done.
  - exists b, l1. split; [exact E|exact H].
Defined.

Lemma remove_fd_use_after_free_witness :
  citadel_remove_fd 6 (two_process []) = Fault BadAccess.
Proof.
  apply (remove_fd_use_after_free (two_process []) two_items 6 (1%positive, item_a) [(2%positive, item_b)]).
  - apply two_rep.
  - done.
  - repeat (constructor; [split; eauto|]); constructor.
  - done.
  - done.
Defined.


Lemma short_write_repeats_message_witness :
  ∃ l', ipc_send 3 challenge_signature (empty_process [ok_ret 4; ok_ret 4]) = Ok (true, l').
Proof.
  destruct (short_write_repeats_message 3 challenge_signature (empty_process [ok_ret 4; ok_ret 4]) 4 [ok_ret 4] [])
    as [(l' & E & _) _].
  - cbn. lia.
  - done.
  - done.
  - done.
  - by exists l'.
Defined.
