(* ===== verification/EndToEnd.v ===== *)
(** * From the kernel module to the library

    The process token travels from payload_io.c through the securityfs file of
    file_io.c into the static variables of libcitadel's init.c. *)

From S2P Require Import LibState LibCache LibIpc LibClient LibCacheTheorems LibPaths LibConcrete.
From S2P Require Import Prelude Shared Hex RBTree Kernel Ring Tickets TicketsSpec CacheModel Access.
From S2P Require Import Crypto Concrete CacheTheorems PayloadIO FileIO Shm Hooks AccessSpec AccessTheorems.
From S2P Require Import ProtocolSpec ProtocolTheorems.

Section endtoend.
Context `{HKer : Kernel} `{HKLaw : !KernelLaws} `{HRb : RbTree} `{HCry : KernelCrypto} `{HLaw : !CryptoLaws}.
Context `{HPos : Posix}.

(** The file hands out the whole token. *)
Lemma ptoken_read_ok current td k count :
  (∀ n, kmem n = true) → k_aes_available k = true → registered (k_pio k) = true →
  length (ptoken_aes_key (k_pio k)) = 16%nat →
  k_creds k !! ts_cred current = Some td → length (td_identifier td) = 16%nat →
  is_pid (ts_pid current) → is_i32 (enclave_pid (k_pio k)) → 100 ≤ count →
  ∃ buf k', generate_ptoken current k = Ok ((Some buf, Some 100), k') ∧ length buf = 100%nat ∧
    ptoken_read current count 0 true k = Ok (ReadResult 100 buf 100, k').
Proof.
  intros Hm Ha Hreg Hk Hc Hid Hp He Hcount.
  destruct (generate_ptoken_ok current td k) as (buf & k' & E & Hl & _); [done..|].
  exists buf, k'. split_and!; [done|done|]. unfold ptoken_read, is_aes_available, system_ready. mred.
  rewrite Ha. cbn [negb]. mred. rewrite Hreg. cbn [negb Z.eqb]. rewrite (bind_ok _ _ _ _ _ E). cbn [read_len]. mred.
  cbn [Z.eqb Pos.eqb]. assert (count =? 0 = false) as -> by (apply Z.eqb_neq; lia). cbn [orb Z.geb Z.compare].
  unfold copy_out. cbv zeta. rewrite Z.sub_0_r.
  assert (count <? 100 = false) as -> by (apply Z.ltb_ge; lia).
  cbn [default from_option id]. rewrite Hl. cbn [negb]. change (Z.of_nat 100 <? 100) with false. cbv iota.
  rewrite take_ge; [done|]. rewrite Hl. vm_compute. lia.
Qed.

(** The library stores what it reads. *)
Lemma fetch_kernel_ptoken_ok (l : lstate) buf w1 w2 fp :
  (∀ n, LibState.mem n = true) → length buf = 100%nat →
  pt_signature (dec_ptoken buf) = challenge_signature →
  sys (sys_fopen (LibIpc.path_bytes LibClient._CITADEL_PROCESS_GET_PTOKEN_PATH) "rb") (l_world l) = (SysRet fp 0 [] [], w1) →
  0 < fp → sys (sys_fread 100) w1 = (SysRet 1 0 buf [], w2) →
  ∃ l', LibClient.fetch_kernel_ptoken l = Ok (true, l') ∧
    l_self l' = LibClient.save_ptoken (dec_ptoken buf) (l_self l) ∧
    l_world l' = (sys sys_fclose w2).2 ∧ start_frame l l'.
Proof.
  intros Hm Hl Hsig Ho Hfp Hr. unfold LibClient.fetch_kernel_ptoken, LibState.call_ret, LibState.call.
  unfold mbind, M_bind, mret, M_ret. cbn [l_world]. rewrite Ho. cbn [fst snd sr_ret].
  assert (fp =? - 1 = false) as -> by (apply Z.eqb_neq; lia).
  assert (fp =? 0 = false) as -> by (apply Z.eqb_neq; lia).
  cbn [LibState.put_trace put_world l_world LibState.l_trace].
  change _CITADEL_PTOKEN_PAYLOAD_SIZE with 100%nat. rewrite Hr. cbn [fst snd sr_ret LibState.sr_out].
  change (1 =? - 1) with false. change (1 =? 0) with false. cbv iota.
  cbn [LibState.put_trace put_world l_world LibState.l_trace].
  destruct (LibState.sys LibState.sys_fclose w2) as [rc w3]. cbn [fst snd].
  rewrite Hsig. change (LibState.memcmp _CITADEL_SIGNATURE_LENGTH challenge_signature challenge_signature)
    with (mret (M := M lstate) true). unfold mret, M_ret. cbn [negb].
  rewrite !(LibCacheTheorems.malloc_unchecked_ok Hm). unfold LibClient.set_self, modify.
  eexists. split; [done|]. by destruct (sr_ret rc =? - 1).
Qed.

(** The process token arrives.  A process that reads its token from the
    securityfs file obtains 100 bytes; when libcitadel reads them, it knows the
    PID of the daemon, the identifier the kernel gave to the process and the
    fresh nonce, and the sealed token it will present to the daemon opens, under
    the key the daemon registered with the kernel, to this very process, nonce
    and identifier. *)
Theorem token_reaches_library current td k count (l : lstate) w1 w2 fp :
  (∀ n, kmem n = true) → (∀ n, LibState.mem n = true) →
  k_aes_available k = true → registered (k_pio k) = true → length (ptoken_aes_key (k_pio k)) = 16%nat →
  k_creds k !! ts_cred current = Some td → length (td_identifier td) = 16%nat →
  is_pid (ts_pid current) → is_i32 (enclave_pid (k_pio k)) → 100 ≤ count →
  ∃ buf k', ptoken_read current count 0 true k = Ok (ReadResult 100 buf 100, k') ∧
  (sys (sys_fopen (LibIpc.path_bytes LibClient._CITADEL_PROCESS_GET_PTOKEN_PATH) "rb") (l_world l) = (SysRet fp 0 [] [], w1) →
   0 < fp → sys (sys_fread 100) w1 = (SysRet 1 0 buf [], w2) →
   ∃ l' sealed, LibClient.fetch_kernel_ptoken l = Ok (true, l') ∧
     LibState.citadel_pid (l_self l') = enclave_pid (k_pio k) ∧ identifier (l_self l') = td_identifier td ∧
     ptoken (l_self l') = Some (krand (k_nrnd k) 8) ∧ signed_ptoken (l_self l') = Some sealed ∧
     ∀ k'', ∃ p, trm_aes_decrypt (ptoken_aes_key (k_pio k)) sealed 64 k'' = Ok ((0, Some p), aes_spent k'') ∧
       dec_ptoken_protected p =
         PTokenProtected challenge_signature (ts_pid current) (krand (k_nrnd k) 8) (td_identifier td)).
Proof.
  intros Hm Hm' Ha Hreg Hk Hc Hid Hp He Hcount.
  destruct (ptoken_read_ok current td k count) as (buf & k' & E & Hl & Er); [done..|].
  destruct (generate_ptoken_ok current td k) as (buf' & k2 & E' & _ & Hs & Hpid & Htok & Hi & Hdec); [done..|].
  rewrite E in E'. injection E' as <- _.
  exists buf, k'. split; [done|]. intros Ho Hfp Hf.
  destruct (fetch_kernel_ptoken_ok l buf w1 w2 fp Hm' Hl Hs Ho Hfp Hf) as (l' & El & Hself & _).
  exists l', (pt_signed_ptoken (dec_ptoken buf)). rewrite Hself.
  cbn [LibClient.save_ptoken LibState.citadel_pid identifier ptoken signed_ptoken].
  split_and!; [done|done|done|by rewrite Htok|done|]. rewrite Htok in Hdec. exact Hdec.
Qed.

End endtoend.

#[local] Existing Instances demo_kernel demo_crypto demo_laws demo_crypto_laws rb_rotating LibConcrete.script_posix.

(** The token that the concrete kernel hands to process 10, and a library
    process whose file operations deliver it. *)
Definition token_kernel : kstate := set_avail true true session.
Definition demo_token : bytes :=
  match ptoken_read (Task 10 (demo_cred 10)) 4096 0 true token_kernel with
  | Ok (r, _) => rr_copied r
  | Fault _ => []
  end.
Definition token_process : lstate :=
  LibConcrete.empty_process [LibConcrete.ok_ret 1; SysRet 1 0 demo_token []; LibConcrete.ok_ret 0].

Lemma token_reaches_library_witness :
  ∃ l', LibClient.fetch_kernel_ptoken token_process = Ok (true, l') ∧
    LibState.citadel_pid (l_self l') = 99 ∧ identifier (l_self l') = replicate 16 10.
Proof.
  destruct (token_reaches_library (HPos := LibConcrete.script_posix) (Task 10 (demo_cred 10)) (demo_task 10)
    token_kernel 4096 token_process [SysRet 1 0 demo_token []; LibConcrete.ok_ret 0] [LibConcrete.ok_ret 0] 1)
    as (buf & k' & E & H); try done.
  assert (demo_token = buf) as Hb by (unfold demo_token; by rewrite E).
  destruct H as (l' & s & El & Hp & Hi & _); [done|done|by rewrite <- Hb|].
  by exists l'.
Defined.
