(* ===== verification/Ltc.v ===== *)
(** * libtomcrypt: registries, numbers and random bytes

    The parts of daemon/enclave_core/crypto/ltc on which the RSA code of the
    enclave stands: the tables of hashes and generators (src/misc/crypt), the
    descriptor of the GMP numbers (src/math/gmp_desc.c) and the allocation of
    several numbers at once (src/math/multi.c).  GMP itself is an external
    library; its numbers are [Z] and each wrapper is the operation GMP
    documents.  The random generator, GMP's random numbers and the success of
    allocations are streams of answers, and the state counts how many have been
    consumed. *)

From S2P Require Import Prelude.
From Stdlib Require Import Zpow_facts Zcong.

(** Error codes (src/headers/tomcrypt.h). *)
Definition CRYPT_OK : Z := 0.
Definition CRYPT_ERROR : Z := 1.
Definition CRYPT_BUFFER_OVERFLOW : Z := 6.
Definition CRYPT_INVALID_PACKET : Z := 7.
Definition CRYPT_ERROR_READPRNG : Z := 9.
Definition CRYPT_INVALID_HASH : Z := 11.
Definition CRYPT_INVALID_PRNG : Z := 12.
Definition CRYPT_MEM : Z := 13.
Definition CRYPT_PK_NOT_PRIVATE : Z := 15.
Definition CRYPT_PK_INVALID_TYPE : Z := 18.
Definition CRYPT_PK_INVALID_SIZE : Z := 22.
Definition CRYPT_PK_INVALID_PADDING : Z := 24.

Definition TAB_SIZE : nat := 34.

Class LtcEnv := {
  rng_bytes : nat → nat → bytes;   (** successive answers of rng_get_bytes: the bytes read *)
  rng_patience : nat;              (** bound on the redraws of one padding byte *)
  mpz_random : nat → Z → Z;        (** successive answers of mpz_random for a number of limbs *)
  xalloc : nat → bool;             (** whether successive allocations succeed *)
}.

(** The descriptor tables hold the name of the descriptor in each slot. *)
Record ltc := Ltc {
  hash_descriptor : list (option string);
  prng_descriptor : list (option string);
  n_rng : nat;
  n_mpz : nat;
  n_alloc : nat }.

Definition empty_table : list (option string) := replicate TAB_SIZE None.
Definition ltc_start : ltc := Ltc empty_table empty_table 0 0 0.

(** ** Registries

    A descriptor is identified by its name: the only ones registered are the
    constants of the library. *)
Fixpoint find_slot (P : option string → bool) (tab : list (option string)) : option nat :=
  match tab with
  | [] => None
  | d :: tab => if P d then Some 0%nat else S <$> find_slot P tab
  end.
Definition is_entry (name : string) (d : option string) : bool :=
  match d with Some n => String.eqb n name | None => false end.
Definition is_blank (d : option string) : bool :=
  match d with Some _ => false | None => true end.

(** [register_hash] and [register_prng]: the index, or -1, and the table. *)
Definition register (name : string) (tab : list (option string)) : Z * list (option string) :=
  match find_slot (is_entry name) tab with
  | Some x => (Z.of_nat x, tab)
  | None =>
      match find_slot is_blank tab with
      | Some x => (Z.of_nat x, <[x := Some name]> tab)
      | None => (- 1, tab)
      end
  end.

Definition slot_is_valid (idx : Z) (tab : list (option string)) : bool :=
  negb ((idx <? 0) || (idx >=? Z.of_nat TAB_SIZE) || is_blank (default None (tab !! Z.to_nat idx))).

Definition register_hash (name : string) : M ltc Z := λ s,
  let '(x, tab) := register name (hash_descriptor s) in
  Ok (x, Ltc tab (prng_descriptor s) (n_rng s) (n_mpz s) (n_alloc s)).
Definition register_prng (name : string) : M ltc Z := λ s,
  let '(x, tab) := register name (prng_descriptor s) in
  Ok (x, Ltc (hash_descriptor s) tab (n_rng s) (n_mpz s) (n_alloc s)).
Definition hash_is_valid (idx : Z) : M ltc Z :=
  tab ← gets hash_descriptor;
  mret (if slot_is_valid idx tab then CRYPT_OK else CRYPT_INVALID_HASH).
Definition prng_is_valid (idx : Z) : M ltc Z :=
  tab ← gets prng_descriptor;
  mret (if slot_is_valid idx tab then CRYPT_OK else CRYPT_INVALID_PRNG).

Section env.
Context `{HLtc : LtcEnv}.

(** [sprng_read]: the bytes of the system generator, perhaps fewer than asked. *)
Definition sprng_read (len : nat) : M ltc bytes := λ s,
  Ok (take len (rng_bytes (n_rng s) len),
      Ltc (hash_descriptor s) (prng_descriptor s) (S (n_rng s)) (n_mpz s) (n_alloc s)).

(** XMALLOC, XCALLOC: whether memory was returned. *)
Definition xmalloc : M ltc bool := λ s,
  Ok (xalloc (n_alloc s),
      Ltc (hash_descriptor s) (prng_descriptor s) (n_rng s) (n_mpz s) (S (n_alloc s))).

(** [ltc_init_multi] on [n] numbers. *)
Fixpoint ltc_init_multi (n : nat) : M ltc Z :=
  match n with
  | O => mret CRYPT_OK
  | S n => ok ← xmalloc; if ok : bool then ltc_init_multi n else mret CRYPT_MEM
  end.

(** [set_rand] *)
Definition mp_rand (limbs : Z) : M ltc Z := λ s,
  Ok (mpz_random (n_mpz s) limbs,
      Ltc (hash_descriptor s) (prng_descriptor s) (n_rng s) (S (n_mpz s)) (n_alloc s)).
End env.

(** ** Numbers (gmp_desc.c) *)

(** [count_bits]: mpz_sizeinbase(a, 2), which is 1 for zero. *)
Definition mp_count_bits (a : Z) : Z := if a =? 0 then 1 else Z.log2 (Z.abs a) + 1.
(** [get_digit_count]: mpz_size, in limbs of 64 bits. *)
Definition mp_get_digit_count (a : Z) : Z := if a =? 0 then 0 else Z.log2 (Z.abs a) / 64 + 1.
(** [unsigned_size] *)
Definition mp_unsigned_bin_size (a : Z) : Z :=
  let t := mp_count_bits a in
  if a =? 0 then 0 else Z.shiftr t 3 + (if Z.land t 7 =? 0 then 0 else 1).

Definition be_value (b : bytes) : Z := foldl (λ v x, 256 * v + x) 0 b.
Definition be_bytes (n : nat) (z : Z) : bytes := reverse (le_bytes n z).

(** [unsigned_read] and [unsigned_write] (the sign is not exported). *)
Definition mp_read_unsigned_bin (b : bytes) : Z := be_value b.
Definition mp_to_unsigned_bin (a : Z) : bytes := be_bytes (Z.to_nat (mp_unsigned_bin_size a)) (Z.abs a).

(** [compare] *)
Inductive mp_ordering := LTC_MP_LT | LTC_MP_EQ | LTC_MP_GT.
Definition mp_cmp (a b : Z) : mp_ordering :=
  match a ?= b with Lt => LTC_MP_LT | Eq => LTC_MP_EQ | Gt => LTC_MP_GT end.

(** [mulmod], [invmod] and [exptmod]; GMP divides by zero for a modulus of
    zero, and for a negative power of a number without an inverse.  [invmod]
    ignores the answer of mpz_invert, which leaves its result unspecified when
    there is no inverse. *)
Definition mp_mulmod (a b c : Z) : M ltc Z :=
  if c =? 0 then crash DivByZero else mret ((a * b) mod Z.abs c).
Definition mp_invmod (a b : Z) : M ltc Z :=
  if b =? 0 then crash DivByZero else
  if Z.gcd a b =? 1 then mret (Z.invmod a (Z.abs b)) else crash Indeterminate.
Definition mp_exptmod (a b c : Z) : M ltc Z :=
  if c =? 0 then crash DivByZero else
  if 0 <=? b then mret (Zpow_mod a b (Z.abs c)) else
  if Z.gcd a c =? 1 then mret (Zpow_mod (Z.invmod a (Z.abs c)) (- b) (Z.abs c)) else crash DivByZero.
