(* ===== verification/LtcRsa.v ===== *)
(** * libtomcrypt: RSA

    src/pk/rsa/rsa_exptmod.c (the modular exponentiation with blinding, the
    Chinese remainder optimisation and the check of its result),
    src/pk/pkcs1/pkcs_1_v1_5_encode.c and pkcs_1_v1_5_decode.c, and
    src/pk/rsa/rsa_encrypt_key.c and rsa_decrypt_key.c on their PKCS #1 v1.5
    path.  The build defines LTC_RSA_BLINDING and LTC_RSA_CRT_HARDENING.  A
    function with an output buffer takes the size [*outlen] it was given and
    returns its code, the new [*outlen] and the bytes it wrote. *)

From S2P Require Import Prelude Ltc.

Definition PK_PUBLIC : Z := 0.
Definition PK_PRIVATE : Z := 1.
Definition LTC_PKCS_1_EMSA : Z := 1.
Definition LTC_PKCS_1_EME : Z := 2.
Definition LTC_PKCS_1_V1_5 : Z := 1.
Definition LTC_PKCS_1_OAEP : Z := 2.

(** The numbers of an initialised key are all allocated. *)
Record rsa_key := RsaKey {
  key_type : Z; key_e : Z; key_d : Z; key_N : Z; key_p : Z; key_q : Z;
  key_qP : Z; key_dP : Z; key_dQ : Z }.

Record outcome := Outcome { oc_err : Z; oc_outlen : Z; oc_out : option bytes }.

Section rsa.
Context `{HLtc : LtcEnv}.
Abbreviation T := (M ltc).

(** ** rsa_exptmod *)
Definition has_crt_parameters (key : rsa_key) : bool :=
  negb (mp_get_digit_count (key_p key) =? 0) && negb (mp_get_digit_count (key_q key) =? 0) &&
  negb (mp_get_digit_count (key_dP key) =? 0) && negb (mp_get_digit_count (key_dQ key) =? 0) &&
  negb (mp_get_digit_count (key_qP key) =? 0).

(** The exponentiation with the private exponent, optimised when the key
    allows it. *)
Definition private_power (key : rsa_key) (tmp : Z) : T Z :=
  if negb (has_crt_parameters key) then mp_exptmod tmp (key_d key) (key_N key) else
  tmpa ← mp_exptmod tmp (key_dP key) (key_p key);
  tmpb ← mp_exptmod tmp (key_dQ key) (key_q key);
  tmp ← mp_mulmod (tmpa - tmpb) (key_qP key) (key_p key);
  mret (tmp * key_q key + tmpb).

(** The private branch: blinding, the power, unblinding and the check. *)
Definition private_op (key : rsa_key) (input : bytes) (tmp : Z) : T (Z * Z) :=
  rnd ← mp_rand (mp_get_digit_count (key_N key));
  rndi ← mp_invmod rnd (key_N key);
  rnd ← mp_exptmod rnd (key_e key) (key_N key);
  tmp ← mp_mulmod tmp rnd (key_N key);
  tmp ← private_power key tmp;
  tmp ← mp_mulmod tmp rndi (key_N key);
  if has_crt_parameters key then
    tmpa ← mp_exptmod tmp (key_e key) (key_N key);
    match mp_cmp tmpa (mp_read_unsigned_bin input) with
    | LTC_MP_EQ => mret (CRYPT_OK, tmp)
    | _ => mret (CRYPT_ERROR, tmp)
    end
  else mret (CRYPT_OK, tmp).

(** The result, padded with zeros in front to the size of the modulus. *)
Definition read_back (key : rsa_key) (tmp cap : Z) : T outcome :=
  let x := mp_unsigned_bin_size (key_N key) in
  if x >? cap then mret (Outcome CRYPT_BUFFER_OVERFLOW x None) else
  if mp_unsigned_bin_size tmp >? x then mret (Outcome CRYPT_ERROR cap None) else
  mret (Outcome CRYPT_OK x
    (Some (replicate (Z.to_nat (x - mp_unsigned_bin_size tmp)) 0 ++ mp_to_unsigned_bin tmp))).

Definition rsa_exptmod (input : bytes) (cap which : Z) (key : rsa_key) : T outcome :=
  if (which =? PK_PRIVATE) && negb (key_type key =? PK_PRIVATE)
  then mret (Outcome CRYPT_PK_NOT_PRIVATE cap None) else
  if negb (which =? PK_PRIVATE) && negb (which =? PK_PUBLIC)
  then mret (Outcome CRYPT_PK_INVALID_TYPE cap None) else
  err ← ltc_init_multi 5;
  if negb (err =? CRYPT_OK) then mret (Outcome err cap None) else
  let tmp := mp_read_unsigned_bin input in
  match mp_cmp (key_N key) tmp with
  | LTC_MP_LT => mret (Outcome CRYPT_PK_INVALID_SIZE cap None)
  | _ =>
      '(err, tmp) ← (if which =? PK_PRIVATE then private_op key input tmp
                     else tmp ← mp_exptmod tmp (key_e key) (key_N key); mret (CRYPT_OK, tmp));
      if negb (err =? CRYPT_OK) then mret (Outcome err cap None) else read_back key tmp cap
  end.

(** ** PKCS #1 v1.5 padding *)
Definition modulus_len_of (modulus_bitlen : Z) : Z :=
  Z.shiftr modulus_bitlen 3 + (if Z.land modulus_bitlen 7 =? 0 then 0 else 1).

(** A zero byte of the padding is drawn again until it is not zero; [None]: the
    generator returned nothing. *)
Fixpoint redraw (fuel : nat) : T (option Z) :=
  match fuel with
  | O => crash OutOfFuel
  | S fuel =>
      r ← sprng_read 1;
      match r with
      | [] => mret None
      | b :: _ => if b =? 0 then redraw fuel else mret (Some b)
      end
  end.
Fixpoint nonzero_ps (ps : bytes) : T (option bytes) :=
  match ps with
  | [] => mret (Some [])
  | b :: ps =>
      b ← (if b =? 0 then redraw rng_patience else mret (Some b));
      match b with
      | None => mret None
      | Some b => ps ← nonzero_ps ps; mret (cons b <$> ps)
      end
  end.

Definition random_ps (ps_len : nat) : T (option bytes) :=
  ps ← sprng_read ps_len;
  if negb (length ps =? ps_len)%nat then mret None else nonzero_ps ps.

Definition pkcs_1_v1_5_encode (msg : bytes) (block_type modulus_bitlen prng_idx cap : Z) : T outcome :=
  let msglen := Z.of_nat (length msg) in
  if negb (block_type =? LTC_PKCS_1_EMSA) && negb (block_type =? LTC_PKCS_1_EME)
  then mret (Outcome CRYPT_PK_INVALID_PADDING cap None) else
  result ← (if block_type =? LTC_PKCS_1_EME then prng_is_valid prng_idx else mret CRYPT_OK);
  if negb (result =? CRYPT_OK) then mret (Outcome result cap None) else
  let modulus_len := modulus_len_of modulus_bitlen in
  if uint64 (msglen + 11) >? modulus_len then mret (Outcome CRYPT_PK_INVALID_SIZE cap None) else
  if cap <? modulus_len then mret (Outcome CRYPT_BUFFER_OVERFLOW modulus_len None) else
  let ps_len := Z.to_nat (modulus_len - msglen - 3) in
  ps ← (if block_type =? LTC_PKCS_1_EME then random_ps ps_len else mret (Some (replicate ps_len 255)));
  match ps with
  | None => mret (Outcome CRYPT_ERROR_READPRNG cap None)
  | Some ps => mret (Outcome CRYPT_OK modulus_len (Some ([0; uint8 block_type] ++ ps ++ [0] ++ msg)))
  end.

(** [msg[i]] *)
Definition msg_at (msg : bytes) (i : Z) : T Z :=
  match msg !! Z.to_nat i with Some b => mret b | None => crash OutOfBounds end.

(** [for (i = from; i < to; i++) if (stop(msg[i])) break;], with [to - from]
    iterations left. *)
Fixpoint scan (stop : Z → bool) (msg : bytes) (i : Z) (n : nat) : T Z :=
  match n with
  | O => mret i
  | S n => b ← msg_at msg i; if stop b then mret i else scan stop msg (i + 1) n
  end.

(** The padding string: its length, and whether its end was found. *)
Definition find_ps (msg : bytes) (block_type modulus_len : Z) : T (Z * bool) :=
  if block_type =? LTC_PKCS_1_EME then
    i ← scan (λ b, b =? 0) msg 2 (Z.to_nat (modulus_len - 2));
    mret (i - 2, i + 1 <? modulus_len)
  else
    i ← scan (λ b, negb (b =? 255)) msg 2 (Z.to_nat (modulus_len - 1 - 2));
    b ← msg_at msg i;
    mret (i - 2, b =? 0).

(** The result, [*outlen], the bytes and [*is_valid]. *)
Definition pkcs_1_v1_5_decode (msg : bytes) (block_type modulus_bitlen cap : Z) : T (outcome * Z) :=
  let msglen := Z.of_nat (length msg) in
  let modulus_len := modulus_len_of modulus_bitlen in
  if (msglen >? modulus_len) || (modulus_len <? 11)
  then mret (Outcome CRYPT_PK_INVALID_SIZE cap None, 0) else
  b0 ← msg_at msg 0;
  b1 ← (if negb (b0 =? 0) then mret 0 else msg_at msg 1);
  let head_ok := (b0 =? 0) && (b1 =? uint8 block_type) in
  '(ps_len, sep_ok) ← find_ps msg block_type modulus_len;
  let rest := uint64 (msglen - (2 + ps_len + 1)) in
  if negb head_ok || negb sep_ok || (ps_len <? 8) || (cap <? rest)
  then mret (Outcome CRYPT_INVALID_PACKET cap None, 0)
  else mret (Outcome CRYPT_OK rest (Some (drop (Z.to_nat (2 + ps_len + 1)) msg)), 1).

(** ** Encryption and decryption of messages

    The callers pass LTC_PKCS_1_V1_5, [padding] is fixed to it. *)
Definition rsa_encrypt_key_ex (msg : bytes) (cap prng_idx : Z) (key : rsa_key) : T outcome :=
  err ← prng_is_valid prng_idx;
  if negb (err =? CRYPT_OK) then mret (Outcome err cap None) else
  let modulus_bitlen := mp_count_bits (key_N key) in
  let modulus_bytelen := mp_unsigned_bin_size (key_N key) in
  if modulus_bytelen >? cap then mret (Outcome CRYPT_BUFFER_OVERFLOW modulus_bytelen None) else
  padded ← pkcs_1_v1_5_encode msg LTC_PKCS_1_EME modulus_bitlen prng_idx cap;
  match oc_out padded with
  | Some p => if negb (oc_err padded =? CRYPT_OK) then mret (Outcome (oc_err padded) cap None)
              else rsa_exptmod p cap PK_PUBLIC key
  | None => mret (Outcome (oc_err padded) cap None)
  end.

Definition rsa_decrypt_key_ex (msg : bytes) (cap : Z) (key : rsa_key) : T (outcome * Z) :=
  let modulus_bitlen := mp_count_bits (key_N key) in
  let modulus_bytelen := mp_unsigned_bin_size (key_N key) in
  if negb (modulus_bytelen =? Z.of_nat (length msg)) then mret (Outcome CRYPT_INVALID_PACKET cap None, 0) else
  ok ← xmalloc;
  if negb ok then mret (Outcome CRYPT_MEM cap None, 0) else
  raw ← rsa_exptmod msg (Z.of_nat (length msg)) PK_PRIVATE key;
  match oc_out raw with
  | Some tmp => if negb (oc_err raw =? CRYPT_OK) then mret (Outcome (oc_err raw) cap None, 0)
                else pkcs_1_v1_5_decode tmp LTC_PKCS_1_EME modulus_bitlen cap
  | None => mret (Outcome (oc_err raw) cap None, 0)
  end.
End rsa.
