(* ===== verification/LtcSpec.v ===== *)
(** * Arithmetic behind libtomcrypt's RSA

    Big-endian numbers, powers modulo a product of two primes, and what the
    private exponentiation computes. *)

From S2P Require Import Prelude Ltc LtcRsa.
From Stdlib Require Import Znumtheory Zdivisibility Zpow_facts Zcong ZmodInv.

(** ** Big-endian numbers *)
Lemma be_value_le b : be_value b = le_value (reverse b).
Proof.
  induction b as [|x b IH] using rev_ind; [done|].
  unfold be_value in *. rewrite foldl_snoc, IH, reverse_snoc. apply Z.add_comm.
Qed.
Lemma be_bytes_length n z : length (be_bytes n z) = n.
Proof. unfold be_bytes. by rewrite length_reverse, le_bytes_length. Qed.
Lemma be_value_bytes n z : be_value (be_bytes n z) = z mod 256 ^ Z.of_nat n.
Proof. rewrite be_value_le. unfold be_bytes. by rewrite reverse_involutive, le_value_bytes. Qed.
Lemma be_value_range b : bytes_ok b → 0 ≤ be_value b < 256 ^ Z.of_nat (length b).
Proof.
  intros Hb. rewrite be_value_le, <- (length_reverse b). apply le_value_range.
  unfold bytes_ok. by rewrite Forall_reverse.
Qed.
Lemma be_bytes_value b : bytes_ok b → be_bytes (length b) (be_value b) = b.
Proof.
  intros Hb. unfold be_bytes. rewrite be_value_le, <- (length_reverse b), le_bytes_value;
    [apply reverse_involutive|unfold bytes_ok; by rewrite Forall_reverse].
Qed.
Lemma be_bytes_ok n z : bytes_ok (be_bytes n z).
Proof. unfold be_bytes, bytes_ok. rewrite Forall_reverse. apply le_bytes_ok. Qed.

Lemma le_bytes_zero n m z : 0 ≤ z < 256 ^ Z.of_nat n → le_bytes (n + m) z = le_bytes n z ++ replicate m 0.
Proof.
  revert z. induction n as [|n IH]; intros z Hz.
  - simpl in *. assert (z = 0) as -> by lia. clear Hz. induction m as [|m IH]; [done|].
    change (0 :: le_bytes m 0 = 0 :: replicate m 0). by rewrite IH.
  - rewrite Nat2Z.inj_succ, Z.pow_succ_r in Hz by lia. change (z mod 256 :: le_bytes (n + m) (z / 256) = z mod 256 :: le_bytes n (z / 256) ++ replicate m 0).
    rewrite IH; [done|]. split; [apply Z.div_pos; lia|]. apply Z.div_lt_upper_bound; lia.
Qed.
Lemma be_bytes_zero n m z :
  0 ≤ z < 256 ^ Z.of_nat n → replicate m 0 ++ be_bytes n z = be_bytes (m + n) z.
Proof.
  intros Hz. unfold be_bytes. rewrite Nat.add_comm, le_bytes_zero, reverse_app, reverse_replicate by done. done.
Qed.

(** The size of a number in bytes. *)
Lemma unsigned_bin_size_nonneg a : 0 ≤ mp_unsigned_bin_size a.
Proof.
  unfold mp_unsigned_bin_size, mp_count_bits. cbv zeta. destruct (Z.eqb_spec a 0); [done|].
  pose proof (Z.log2_nonneg (Z.abs a)). pose proof (proj2 (Z.shiftr_nonneg (Z.log2 (Z.abs a) + 1) 3)).
  destruct (_ =? 0); lia.
Qed.
Lemma unsigned_bin_size_ceil a : 0 < a → mp_unsigned_bin_size a = Z.log2 a / 8 + 1.
Proof.
  intros Ha. unfold mp_unsigned_bin_size, mp_count_bits. cbv zeta.
  destruct (Z.eqb_spec a 0); [lia|]. rewrite Z.abs_eq by lia.
  rewrite Z.shiftr_div_pow2 by done. change 7 with (Z.ones 3). rewrite Z.land_ones by done.
  change (2 ^ 3) with 8. pose proof (Z.log2_nonneg a).
  destruct (Z.eqb_spec ((Z.log2 a + 1) mod 8) 0); Z.div_mod_to_equations; lia.
Qed.
Lemma unsigned_bin_size_modulus a : 0 < a → mp_unsigned_bin_size a = modulus_len_of (mp_count_bits a).
Proof. intros Ha. unfold mp_unsigned_bin_size. cbv zeta. destruct (Z.eqb_spec a 0); [lia|done]. Qed.

Lemma unsigned_bin_size_spec a :
  0 < a → 256 ^ (mp_unsigned_bin_size a - 1) ≤ a < 256 ^ mp_unsigned_bin_size a.
Proof.
  intros Ha. rewrite unsigned_bin_size_ceil by done. destruct (Z.log2_spec a Ha) as [Hl Hu].
  pose proof (Z.log2_nonneg a). change 256 with (2 ^ 8).
  rewrite <- !Z.pow_mul_r by (Z.div_mod_to_equations; lia). split.
  - etrans; [|exact Hl]. apply Z.pow_le_mono_r; [done|]. Z.div_mod_to_equations. lia.
  - eapply Z.lt_le_trans; [exact Hu|]. apply Z.pow_le_mono_r; [done|]. Z.div_mod_to_equations. lia.
Qed.
Lemma unsigned_bin_size_mono a b : 0 ≤ a ≤ b → mp_unsigned_bin_size a ≤ mp_unsigned_bin_size b.
Proof.
  intros Hab. destruct (Z.eqb_spec a 0) as [->|]; [apply unsigned_bin_size_nonneg|].
  rewrite !unsigned_bin_size_ceil by lia. pose proof (Z.log2_le_mono a b ltac:(lia)).
  pose proof (Z.div_le_mono (Z.log2 a) (Z.log2 b) 8). lia.
Qed.

Lemma to_unsigned_bin_padded a n :
  0 ≤ a → mp_unsigned_bin_size a ≤ Z.of_nat n →
  replicate (Z.to_nat (Z.of_nat n - mp_unsigned_bin_size a)) 0 ++ mp_to_unsigned_bin a = be_bytes n a.
Proof.
  intros Ha Hn. unfold mp_to_unsigned_bin. pose proof (unsigned_bin_size_nonneg a).
  rewrite Z.abs_eq, be_bytes_zero by done || (destruct (Z.eqb_spec a 0) as [->|]; [done|];
    rewrite Z2Nat.id by done; pose proof (unsigned_bin_size_spec a); lia).
  f_equal. lia.
Qed.

(** ** Powers modulo a prime *)
Lemma pow_mod_exponent p x a b :
  Z.prime p → 0 < a → 0 < b → a mod (p - 1) = b mod (p - 1) → x ^ a mod p = x ^ b mod p.
Proof.
  intros Hp Ha Hb Hab. pose proof (Z.prime_ge_2 _ Hp).
  assert (∀ y, 0 < y → x ^ y mod p = x ^ (y mod (p - 1) + (p - 1)) mod p) as Hred.
  { intros y Hy. destruct (Z.eq_dec (x mod p) 0) as [E|E].
    - rewrite (Zpower_mod x y), (Zpower_mod x (_ + _)), E by lia.
      pose proof (Z.mod_pos_bound y (p - 1)). rewrite !Z.pow_0_l by lia. done.
    - pose proof (Z.fermat_nz p x Hp E) as Hf.
      assert (∀ k, 0 ≤ k → x ^ (k * (p - 1)) mod p = 1) as Hk.
      { intros k Hk. rewrite Z.mul_comm, Z.pow_mul_r, Zpower_mod, Hf, Z.pow_1_l by lia. apply Z.mod_small. lia. }
      rewrite (Z.div_mod y (p - 1)) at 1 by lia. rewrite (Z.mul_comm (p - 1)).
      pose proof (Z.mod_pos_bound y (p - 1)). pose proof (Z.div_pos y (p - 1)).
      rewrite !Z.pow_add_r, (Z.mul_mod (x ^ (_ * _))), Hk, (Z.mul_mod _ (x ^ (p - 1))), Hf, Z.mul_1_l, Z.mul_1_r by nia. done. }
  rewrite (Hred a), (Hred b), Hab by done. done.
Qed.

(** Numbers below a product are known by their residues. *)
Lemma primes_coprime p q : Z.prime p → Z.prime q → p ≠ q → Z.coprime p q.
Proof.
  intros Hp Hq Hne. apply Z.coprime_prime_l; [done|]. intros Hd.
  pose proof (Z.prime_ge_2 _ Hp). destruct Hq as [H1 Hq].
  pose proof (Z.divide_pos_le p q ltac:(lia) Hd). apply (Hq p); [lia|done].
Qed.
Lemma crt_unique p q a b :
  Z.prime p → Z.prime q → p ≠ q → 0 ≤ a < p * q → 0 ≤ b < p * q →
  a mod p = b mod p → a mod q = b mod q → a = b.
Proof.
  intros Hp Hq Hne Ha Hb Ep Eq. pose proof (Z.prime_ge_2 _ Hp). pose proof (Z.prime_ge_2 _ Hq).
  assert (∀ m, 0 < m → a mod m = b mod m → (m | a - b)) as Hdiv.
  { intros m Hm E. apply Z.mod_divide; [lia|]. rewrite Zminus_mod, E, Z.sub_diag. apply Z.mod_0_l. lia. }
  destruct (Hdiv p ltac:(lia) Ep) as [k Hk].
  assert (q | k) as [j Hj].
  { apply (Z.gauss q p).
    - rewrite Z.mul_comm, <- Hk. apply Hdiv; [lia|done].
    - apply primes_coprime; [done..|congruence]. }
  assert (j = 0) by nia. nia.
Qed.

(** ** RSA keys *)
Record valid_key (key : rsa_key) : Prop := {
  vk_private : key_type key = PK_PRIVATE;
  vk_p : Z.prime (key_p key);
  vk_q : Z.prime (key_q key);
  vk_pq : key_p key ≠ key_q key;
  vk_N : key_N key = key_p key * key_q key;
  vk_e : 0 < key_e key;
  vk_d : 0 < key_d key;
  vk_edp : (key_e key * key_d key) mod (key_p key - 1) = 1 mod (key_p key - 1);
  vk_edq : (key_e key * key_d key) mod (key_q key - 1) = 1 mod (key_q key - 1) }.

(** The parameters of the Chinese remainder theorem. *)
Record valid_crt (key : rsa_key) : Prop := {
  vk_dP : 0 < key_dP key ∧ key_dP key mod (key_p key - 1) = key_d key mod (key_p key - 1);
  vk_dQ : 0 < key_dQ key ∧ key_dQ key mod (key_q key - 1) = key_d key mod (key_q key - 1);
  vk_qP : (key_qP key * key_q key) mod key_p key = 1 }.

Section keys.
Context (key : rsa_key) (Hkey : valid_key key).

Lemma modulus_pos : 0 < key_N key.
Proof.
  rewrite (vk_N _ Hkey). pose proof (Z.prime_ge_2 _ (vk_p _ Hkey)). pose proof (Z.prime_ge_2 _ (vk_q _ Hkey)). nia.
Qed.

Lemma mod_modulus x :
  (x mod key_N key) mod key_p key = x mod key_p key ∧ (x mod key_N key) mod key_q key = x mod key_q key.
Proof.
  pose proof (Z.prime_ge_2 _ (vk_p _ Hkey)). pose proof (Z.prime_ge_2 _ (vk_q _ Hkey)). rewrite (vk_N _ Hkey).
  split; [apply Z.mod_mod_divide; exists (key_q key)|apply Z.mod_mod_divide; exists (key_p key)]; lia.
Qed.

Lemma modulus_unique a b :
  0 ≤ a < key_N key → 0 ≤ b < key_N key →
  a mod key_p key = b mod key_p key → a mod key_q key = b mod key_q key → a = b.
Proof.
  rewrite (vk_N _ Hkey). apply (crt_unique _ _ _ _ (vk_p _ Hkey) (vk_q _ Hkey) (vk_pq _ Hkey)).
Qed.

(** The two exponents invert each other. *)
Lemma power_inverse x : x ^ (key_e key * key_d key) mod key_N key = x mod key_N key.
Proof.
  pose proof modulus_pos. pose proof (vk_e _ Hkey). pose proof (vk_d _ Hkey).
  apply modulus_unique; [by apply Z.mod_pos_bound..| |].
  - rewrite !(proj1 (mod_modulus _)). rewrite <- (Z.pow_1_r x) at 2.
    apply pow_mod_exponent; [apply Hkey|nia|lia|apply Hkey].
  - rewrite !(proj2 (mod_modulus _)). rewrite <- (Z.pow_1_r x) at 2.
    apply pow_mod_exponent; [apply Hkey|nia|lia|apply Hkey].
Qed.

(** Garner's formula recombines the residues. *)
Lemma garner x a b :
  valid_crt key → a = x mod key_p key → b = x mod key_q key →
  ((a - b) * key_qP key) mod key_p key * key_q key + b = x mod key_N key.
Proof.
  intros [_ _ Hinv] -> ->. pose proof (Z.prime_ge_2 _ (vk_p _ Hkey)). pose proof (Z.prime_ge_2 _ (vk_q _ Hkey)).
  set (p := key_p key) in *. set (q := key_q key) in *.
  pose proof (Z.mod_pos_bound x q ltac:(lia)).
  pose proof (Z.mod_pos_bound ((x mod p - x mod q) * key_qP key) p ltac:(lia)).
  apply modulus_unique; [rewrite (vk_N _ Hkey); fold p q; nia|apply Z.mod_pos_bound, modulus_pos| |];
    fold p q; rewrite ?(proj1 (mod_modulus _)), ?(proj2 (mod_modulus _)); fold p q.
  - rewrite Z.add_mod, Z.mul_mod_idemp_l by lia.
    replace ((x mod p - x mod q) * key_qP key * q) with ((x mod p - x mod q) * (key_qP key * q)) by lia.
    rewrite <- (Z.mul_mod_idemp_r _ (key_qP key * q)), Hinv, Z.mul_1_r, <- Z.add_mod by lia.
    replace (x mod p - x mod q + x mod q) with (x mod p) by lia. apply Z.mod_mod. lia.
  - rewrite Z.add_comm, Z_mod_plus_full. apply Z.mod_mod. lia.
Qed.
End keys.

(** ** The operations *)
Section operations.
Context `{HLtc : LtcEnv}.
Implicit Type s : ltc.

Lemma mp_exptmod_ok a b c s : 0 ≤ b → 0 < c → mp_exptmod a b c s = Ok (a ^ b mod c, s).
Proof.
  intros Hb Hc. unfold mp_exptmod. destruct (Z.eqb_spec c 0); [lia|]. destruct (Z.leb_spec 0 b); [|lia].
  rewrite Zpow_mod_correct, Z.abs_eq by lia. done.
Qed.
Lemma mp_mulmod_ok a b c s : 0 < c → mp_mulmod a b c s = Ok ((a * b) mod c, s).
Proof. intros Hc. unfold mp_mulmod. destruct (Z.eqb_spec c 0); [lia|]. by rewrite Z.abs_eq by lia. Qed.

(** The optimised power is the power. *)
Lemma private_power_ok key x s :
  valid_key key → (has_crt_parameters key = true → valid_crt key) →
  private_power key x s = Ok (x ^ key_d key mod key_N key, s).
Proof.
  intros Hk Hcrt. pose proof (modulus_pos key Hk). pose proof (vk_d _ Hk). unfold private_power.
  destruct (has_crt_parameters key); cbn [negb]; [|apply mp_exptmod_ok; lia].
  specialize (Hcrt eq_refl). destruct (vk_dP _ Hcrt) as [HP EP]. destruct (vk_dQ _ Hcrt) as [HQ EQ].
  pose proof (Z.prime_ge_2 _ (vk_p _ Hk)). pose proof (Z.prime_ge_2 _ (vk_q _ Hk)).
  erewrite (bind_ok (mp_exptmod _ _ _)); [|apply mp_exptmod_ok; lia].
  erewrite (bind_ok (mp_exptmod _ _ _)); [|apply mp_exptmod_ok; lia].
  erewrite (bind_ok (mp_mulmod _ _ _)); [|apply mp_mulmod_ok; lia]. unfold mret, M_ret. do 2 f_equal.
  apply garner; [done|done|apply pow_mod_exponent; (apply Hk || done)..].
Qed.

(** What decryption needs of a key, whichever way it takes the power. *)
Record usable_key (key : rsa_key) : Prop := {
  uk_private : key_type key = PK_PRIVATE;
  uk_N : 0 < key_N key;
  uk_e : 0 < key_e key;
  uk_d : 0 < key_d key;
  uk_inverse x : x ^ (key_e key * key_d key) mod key_N key = x mod key_N key;
  uk_power x s : private_power key x s = Ok (x ^ key_d key mod key_N key, s) }.

Lemma valid_usable key : valid_key key → (has_crt_parameters key = true → valid_crt key) → usable_key key.
Proof.
  intros Hk Hcrt. split; [apply Hk|by apply modulus_pos|apply Hk|apply Hk|by apply power_inverse|].
  intros x s. by apply private_power_ok.
Qed.

Definition drew s : ltc := Ltc (hash_descriptor s) (prng_descriptor s) (n_rng s) (S (n_mpz s)) (n_alloc s).
(** The factor the private operation blinds with. *)
Definition blinding key s : Z := mpz_random (n_mpz s) (mp_get_digit_count (key_N key)).

(** Blinding cancels out, and the check of the result passes. *)
Lemma private_op_ok key input s :
  usable_key key → Z.gcd (blinding key s) (key_N key) = 1 → 0 ≤ be_value input < key_N key →
  private_op key input (be_value input) s =
    Ok ((CRYPT_OK, be_value input ^ key_d key mod key_N key), drew s).
Proof.
  intros Hk Hg Hx. pose proof (uk_N _ Hk) as HN. pose proof (uk_d _ Hk). pose proof (uk_e _ Hk).
  set (x := be_value input) in *. set (N := key_N key) in *. set (r := blinding key s) in *.
  unfold private_op. erewrite (bind_ok (mp_rand _)) by done. fold (drew s) r N.
  erewrite (bind_ok (mp_invmod _ _)).
  2:{ unfold mp_invmod. destruct (Z.eqb_spec N 0); [lia|]. change (mpz_random _ _) with r. by rewrite Hg. }
  change (mpz_random _ _) with r. rewrite (Z.abs_eq N) by lia.
  erewrite (bind_ok (mp_exptmod _ _ _)); [|apply mp_exptmod_ok; lia].
  erewrite (bind_ok (mp_mulmod _ _ _)); [|by apply mp_mulmod_ok].
  erewrite (bind_ok (private_power _ _)); [|by apply uk_power].
  erewrite (bind_ok (mp_mulmod _ _ _)); [|by apply mp_mulmod_ok].
  assert ((((x * (r ^ key_e key mod N)) mod N) ^ key_d key mod key_N key * Z.invmod r N) mod N = x ^ key_d key mod N) as ->.
  { fold N. rewrite <- Zpower_mod by done. rewrite Z.mul_mod_idemp_l by lia.
    rewrite Z.pow_mul_l, <- Z.mul_assoc, <- (Z.mul_mod_idemp_r (x ^ _)) by lia.
    rewrite <- (Z.mul_mod_idemp_l ((r ^ key_e key mod N) ^ key_d key)), <- Zpower_mod, <- Z.pow_mul_r by lia.
    unfold N at 1. rewrite (uk_inverse key Hk). fold N. rewrite Z.mul_mod_idemp_l, Z.mul_comm by lia.
    rewrite (Z.mul_comm r), (Z.invmod_coprime' r N Hg), Z.mul_mod_idemp_l, Z.mul_1_l by lia. done. }
  destruct (has_crt_parameters key); [|done].
  erewrite (bind_ok (mp_exptmod _ _ _)); [|apply mp_exptmod_ok; lia].
  fold N. rewrite <- Zpower_mod, <- Z.pow_mul_r, (Z.mul_comm (key_d key)) by lia.
  unfold N at 1. rewrite (uk_inverse key Hk). fold N. rewrite Z.mod_small by done.
  unfold mp_cmp, mp_read_unsigned_bin. fold x. by rewrite Z.compare_refl.
Qed.

Lemma read_back_ok key tmp cap s :
  0 ≤ tmp < key_N key → mp_unsigned_bin_size (key_N key) ≤ cap →
  let n := mp_unsigned_bin_size (key_N key) in
  read_back key tmp cap s = Ok (Outcome CRYPT_OK n (Some (be_bytes (Z.to_nat n) tmp)), s).
Proof.
  intros Ht Hc n. unfold read_back. fold n. pose proof (unsigned_bin_size_nonneg (key_N key)).
  pose proof (unsigned_bin_size_mono tmp (key_N key) ltac:(lia)).
  destruct (Z.gtb_spec n cap); [lia|]. destruct (Z.gtb_spec (mp_unsigned_bin_size tmp) n); [lia|].
  unfold mret, M_ret. do 4 f_equal. rewrite <- (to_unsigned_bin_padded tmp (Z.to_nat n)) by lia. do 3 f_equal. lia.
Qed.

Definition spent_allocs (n : nat) s : ltc :=
  Ltc (hash_descriptor s) (prng_descriptor s) (n_rng s) (n_mpz s) (n + n_alloc s).
Lemma ltc_init_multi_ok n s : (∀ i, xalloc i = true) → ltc_init_multi n s = Ok (CRYPT_OK, spent_allocs n s).
Proof.
  intros Hm. revert s. induction n as [|n IH]; intros s; [by destruct s|].
  cbn [ltc_init_multi]. erewrite (bind_ok xmalloc) by done. rewrite Hm, IH. unfold spent_allocs. cbn.
  do 3 f_equal. lia.
Qed.

Lemma mp_cmp_not_lt a b : b ≤ a → mp_cmp a b ≠ LTC_MP_LT.
Proof. intros Hab. unfold mp_cmp. destruct (Z.compare_spec a b); [done|lia|done]. Qed.
End operations.
