(* ===== verification/LtcTheorems.v ===== *)
(** * Theorems on libtomcrypt's RSA *)

From S2P Require Import Prelude Ltc LtcRsa LtcSpec.
From Stdlib Require Import Znumtheory Zdivisibility Zpow_facts Zcong ZmodInv.

(** What the library relies on: the generator fills the buffer with bytes, and
    among the redraws of a padding byte one is not zero. *)
Class LtcLaws `{LtcEnv} := {
  rng_full n len : length (rng_bytes n len) = len;
  rng_ok n len : bytes_ok (rng_bytes n len);
  rng_live n : ∃ i, (i < rng_patience)%nat ∧ rng_bytes (n + i) 1 ≠ [0];
}.

Section exponentiation.
Context `{HLtc : LtcEnv}.
Implicit Type s : ltc.

(** The part that the private and the public operation share. *)
Lemma rsa_exptmod_ok input cap which key y s s' :
  (∀ i, xalloc i = true) → which = PK_PUBLIC ∨ (which = PK_PRIVATE ∧ key_type key = PK_PRIVATE) →
  be_value input ≤ key_N key → 0 ≤ y < key_N key → mp_unsigned_bin_size (key_N key) ≤ cap →
  (if which =? PK_PRIVATE then private_op key input (be_value input)
   else tmp ← mp_exptmod (be_value input) (key_e key) (key_N key); mret (CRYPT_OK, tmp)) (spent_allocs 5 s) =
    Ok ((CRYPT_OK, y), s') →
  let n := mp_unsigned_bin_size (key_N key) in
  rsa_exptmod input cap which key s = Ok (Outcome CRYPT_OK n (Some (be_bytes (Z.to_nat n) y)), s').
Proof.
  intros Hm Hw Hx Hy Hc E n. unfold rsa_exptmod.
  assert ((which =? PK_PRIVATE) && negb (key_type key =? PK_PRIVATE) = false) as ->
    by (destruct Hw as [->|[-> ->]]; done).
  assert (negb (which =? PK_PRIVATE) && negb (which =? PK_PUBLIC) = false) as ->
    by (destruct Hw as [->|[-> _]]; done).
  erewrite (bind_ok (ltc_init_multi 5)); [|by apply ltc_init_multi_ok]. cbn [Z.eqb negb CRYPT_OK].
  unfold mp_read_unsigned_bin. pose proof (mp_cmp_not_lt _ _ Hx).
  destruct (mp_cmp _ _); [done|..]; rewrite (bind_ok _ _ _ _ _ E); cbn [Z.eqb negb CRYPT_OK]; by apply read_back_ok.
Qed.

Lemma private_operation input cap key s :
  (∀ i, xalloc i = true) → usable_key key →
  Z.gcd (blinding key s) (key_N key) = 1 → 0 ≤ be_value input < key_N key →
  mp_unsigned_bin_size (key_N key) ≤ cap →
  let n := mp_unsigned_bin_size (key_N key) in
  rsa_exptmod input cap PK_PRIVATE key s =
    Ok (Outcome CRYPT_OK n (Some (be_bytes (Z.to_nat n) (be_value input ^ key_d key mod key_N key))),
        drew (spent_allocs 5 s)).
Proof.
  intros Hm Hk Hg Hx Hc n. pose proof (uk_N key Hk).
  apply rsa_exptmod_ok; [done|right; split; [done|apply Hk]|lia|by apply Z.mod_pos_bound|done|].
  by apply private_op_ok.
Qed.

(** C11: RSA decryption is exponentiation.  With a valid key and a
    blinding factor that has an inverse modulo N, the optimised private operation (blinding, two
    exponentiations modulo the prime factors, recombination, unblinding, check)
    returns x^d mod N, padded to the size of the modulus. *)
Theorem private_operation_is_power input cap key s :
  (∀ i, xalloc i = true) → valid_key key → (has_crt_parameters key = true → valid_crt key) →
  Z.gcd (blinding key s) (key_N key) = 1 → 0 ≤ be_value input < key_N key →
  mp_unsigned_bin_size (key_N key) ≤ cap →
  let n := mp_unsigned_bin_size (key_N key) in
  rsa_exptmod input cap PK_PRIVATE key s =
    Ok (Outcome CRYPT_OK n (Some (be_bytes (Z.to_nat n) (be_value input ^ key_d key mod key_N key))),
        drew (spent_allocs 5 s)).
Proof. intros Hm Hk Hcrt Hg Hx Hc n. apply private_operation; [done|by apply valid_usable|done..]. Qed.

Lemma public_operation input cap key s :
  (∀ i, xalloc i = true) → 0 < key_N key → 0 ≤ key_e key → be_value input ≤ key_N key →
  mp_unsigned_bin_size (key_N key) ≤ cap →
  let n := mp_unsigned_bin_size (key_N key) in
  rsa_exptmod input cap PK_PUBLIC key s =
    Ok (Outcome CRYPT_OK n (Some (be_bytes (Z.to_nat n) (be_value input ^ key_e key mod key_N key))),
        spent_allocs 5 s).
Proof.
  intros Hm HN He Hx Hc n. apply rsa_exptmod_ok; [done|by left|done|by apply Z.mod_pos_bound|done|].
  change (PK_PUBLIC =? PK_PRIVATE) with false. cbv iota.
  by erewrite (bind_ok (mp_exptmod _ _ _)); [|by apply mp_exptmod_ok].
Qed.

(** The value of a full-size output. *)
Lemma be_value_sized N y :
  0 < N → 0 ≤ y < N → be_value (be_bytes (Z.to_nat (mp_unsigned_bin_size N)) y) = y.
Proof.
  intros HN Hy. rewrite be_value_bytes, Z2Nat.id by apply unsigned_bin_size_nonneg.
  pose proof (unsigned_bin_size_spec N HN). apply Z.mod_small. lia.
Qed.

(** The last steps of the private operation, for any key. *)
Lemma private_op_checked key input tmp s y s' :
  0 < key_N key → 0 ≤ key_e key → has_crt_parameters key = true →
  private_op key input tmp s = Ok ((CRYPT_OK, y), s') →
  0 ≤ y < key_N key ∧ y ^ key_e key mod key_N key = be_value input.
Proof.
  intros HN He Hcrt H. unfold private_op in H. rewrite Hcrt in H.
  do 5 (apply bind_ok_inv in H as (? & ? & _ & H)).
  apply bind_ok_inv in H as (r & s1 & H1 & H). rewrite mp_mulmod_ok in H1 by done. injection H1 as <- <-.
  apply bind_ok_inv in H as (z & s2 & H2 & H). rewrite mp_exptmod_ok in H2 by done. injection H2 as <- <-.
  unfold mp_cmp, mp_read_unsigned_bin in H. destruct (_ ?= be_value input) eqn:E; [|discriminate H..].
  apply Z.compare_eq in E.
  injection H as <- _. split; [by apply Z.mod_pos_bound|done].
Qed.

(** A faulty computation does not leave the library.  For any key with
    Chinese remainder parameters, however wrong, a private operation that
    reports success returns a number whose public power is the input. *)
Theorem private_operation_is_checked input cap key s o s' :
  0 < key_N key → 0 ≤ key_e key → has_crt_parameters key = true →
  rsa_exptmod input cap PK_PRIVATE key s = Ok (o, s') → oc_err o = CRYPT_OK →
  ∃ out, oc_out o = Some out ∧ be_value out ^ key_e key mod key_N key = be_value input.
Proof.
  intros HN He Hcrt H Ho. unfold rsa_exptmod in H.
  destruct (_ && _); [injection H as <- _; done|]. destruct (_ && _); [injection H as <- _; done|].
  apply bind_ok_inv in H as (err & s1 & _ & H). destruct (Z.eqb_spec err CRYPT_OK) as [->|Hne]; cbn [negb] in H.
  2:{ injection H as <- _. done. }
  set (x := mp_read_unsigned_bin input) in *.
  assert (mp_cmp (key_N key) x = LTC_MP_LT ∨ (private_op key input x ≫= λ '(err, tmp),
    if negb (err =? CRYPT_OK) then mret (Outcome err cap None) else read_back key tmp cap) s1 = Ok (o, s')) as [E|H']
    by (destruct (mp_cmp _ _); auto).
  { rewrite E in H. injection H as <- _. done. }
  apply bind_ok_inv in H' as ([err y] & s2 & Hp & H').
  destruct (Z.eqb_spec err CRYPT_OK) as [->|Hne]; cbn [negb] in H'; [|injection H' as <- _; done].
  destruct (private_op_checked _ _ _ _ _ _ HN He Hcrt Hp) as [Hy Hpow].
  destruct (Z.leb_spec (mp_unsigned_bin_size (key_N key)) cap) as [Hcap|Hcap].
  - rewrite read_back_ok in H' by done. injection H' as <- _. eexists. split; [done|].
    by rewrite be_value_sized.
  - unfold read_back in H'. destruct (Z.gtb_spec (mp_unsigned_bin_size (key_N key)) cap); [|lia].
    injection H' as <- _. done.
Qed.
End exponentiation.

(** ** Padding *)
Section padding.
Context `{HLtc : LtcEnv} `{HLaw : !LtcLaws}.
Implicit Type s : ltc.

Definition read_rng (n : nat) s : ltc :=
  Ltc (hash_descriptor s) (prng_descriptor s) (n + n_rng s) (n_mpz s) (n_alloc s).
Definition nonzero_byte (b : Z) : Prop := 0 < b < 256.

Lemma rng_byte n : ∃ b, rng_bytes n 1 = [b] ∧ 0 ≤ b < 256.
Proof.
  pose proof (rng_full n 1) as Hl. pose proof (rng_ok n 1) as Hb.
  destruct (rng_bytes n 1) as [|b [|]]; [done| |done]. exists b. split; [done|].
  by apply Forall_cons in Hb as [? _].
Qed.

(** A redraw ends with a byte that is not zero. *)
Lemma redraw_ok s : ∃ b n, redraw rng_patience s = Ok (Some b, read_rng n s) ∧ nonzero_byte b.
Proof.
  destruct (rng_live (n_rng s)) as (i & Hi & Hne).
  assert (∀ fuel i s, (i < fuel)%nat → rng_bytes (n_rng s + i) 1 ≠ [0] →
    ∃ b n, redraw fuel s = Ok (Some b, read_rng n s) ∧ nonzero_byte b) as Hgen; [|by apply (Hgen _ i)].
  clear i Hi Hne s. induction fuel as [|fuel IH]; intros i s Hi Hne; [lia|].
  cbn [redraw]. erewrite (bind_ok (sprng_read 1)) by done.
  destruct (rng_byte (n_rng s)) as (b & E & Hb). rewrite E. cbn [take].
  destruct (Z.eqb_spec b 0) as [->|Hb0].
  2:{ exists b, 1%nat. split; [done|unfold nonzero_byte; lia]. }
  destruct i as [|i]; [by rewrite Nat.add_0_r, E in Hne|].
  destruct (IH i (read_rng 1 s)) as (b & n & Eb & Hbn); [lia|by rewrite <- Nat.add_succ_comm in Hne|].
  exists b, (n + 1)%nat. split; [|done]. etrans; [exact Eb|]. unfold read_rng. cbn. by rewrite <- Nat.add_assoc.
Qed.

Lemma nonzero_ps_ok ps s :
  bytes_ok ps → ∃ ps' n, nonzero_ps ps s = Ok (Some ps', read_rng n s) ∧ length ps' = length ps ∧
    Forall nonzero_byte ps'.
Proof.
  intros Hok. revert s. induction Hok as [|b ps Hb _ IH]; intros s.
  { exists [], 0%nat. split; [by destruct s|by split]. }
  assert (∃ b' n, (if b =? 0 then redraw rng_patience else mret (Some b)) s = Ok (Some b', read_rng n s) ∧
    nonzero_byte b') as (b' & n & E & Hb').
  { destruct (Z.eqb_spec b 0); [apply redraw_ok|]. exists b, 0%nat.
    split; [by destruct s|unfold byte_ok, nonzero_byte in *; lia]. }
  destruct (IH (read_rng n s)) as (ps' & m & E' & Hl & Hf).
  exists (b' :: ps'), (m + n)%nat. cbn [nonzero_ps]. mstep E. mstep E'. cbn [fmap option_fmap option_map length].
  split_and!; [|by rewrite Hl|by constructor]. unfold mret, M_ret, read_rng. cbn. by rewrite Nat.add_assoc.
Qed.

Lemma random_ps_ok len s :
  ∃ ps n, random_ps len s = Ok (Some ps, read_rng n s) ∧ length ps = len ∧ Forall nonzero_byte ps.
Proof.
  unfold random_ps. erewrite (bind_ok (sprng_read len)) by done.
  rewrite take_ge by (rewrite rng_full; lia). rewrite rng_full, Nat.eqb_refl. cbn [negb].
  destruct (nonzero_ps_ok (rng_bytes (n_rng s) len) (read_rng 1 s) (rng_ok _ _)) as (ps & n & E & Hl & Hf).
  exists ps, (n + 1)%nat. rewrite rng_full in Hl. split_and!; [|done|done].
  etrans; [exact E|]. unfold read_rng. cbn. by rewrite <- Nat.add_assoc.
Qed.

(** The padded block. *)
Definition eme_block (ps msg : bytes) : bytes := [0; 2] ++ ps ++ [0] ++ msg.

Lemma pkcs_1_v1_5_encode_ok msg bits idx cap s :
  slot_is_valid idx (prng_descriptor s) = true → 0 ≤ bits →
  Z.of_nat (length msg) + 11 ≤ modulus_len_of bits → modulus_len_of bits ≤ cap < 2 ^ 64 →
  ∃ ps n, pkcs_1_v1_5_encode msg LTC_PKCS_1_EME bits idx cap s =
      Ok (Outcome CRYPT_OK (modulus_len_of bits) (Some (eme_block ps msg)), read_rng n s) ∧
    Z.of_nat (length ps) = modulus_len_of bits - Z.of_nat (length msg) - 3 ∧ Forall nonzero_byte ps.
Proof.
  intros Hv Hb Hl Hc. unfold pkcs_1_v1_5_encode. cbn [Z.eqb LTC_PKCS_1_EME LTC_PKCS_1_EMSA Pos.eqb negb andb].
  erewrite (bind_ok (prng_is_valid idx)) by done. rewrite Hv. cbn [Z.eqb CRYPT_OK negb].
  destruct (Z.gtb_spec (uint64 (Z.of_nat (length msg) + 11)) (modulus_len_of bits)) as [Hgt|_].
  { unfold uint64 in Hgt. rewrite Z.mod_small in Hgt; lia. }
  destruct (Z.ltb_spec cap (modulus_len_of bits)); [lia|].
  destruct (random_ps_ok (Z.to_nat (modulus_len_of bits - Z.of_nat (length msg) - 3)) s) as (ps & n & E & Hlp & Hf).
  exists ps, n. mstep E. split_and!; [done|lia|done].
Qed.
End padding.

(** ** Removing the padding *)
Section depadding.
Implicit Type s : ltc.

Lemma scan_stops stop pre mid b rest n s :
  Forall (λ x, stop x = false) mid → stop b = true → (length mid < n)%nat →
  scan stop (pre ++ mid ++ b :: rest) (Z.of_nat (length pre)) n s = Ok (Z.of_nat (length pre + length mid), s).
Proof.
  intros Hmid Hb. revert pre n. induction Hmid as [|x mid Hx _ IH]; intros pre n Hn.
  - destruct n as [|n]; [simpl in Hn; lia|]. cbn [scan app]. unfold msg_at.
    rewrite Nat2Z.id, lookup_app_r, Nat.sub_diag by lia. cbn [lookup list_lookup]. mred. rewrite Hb.
    by rewrite Nat.add_0_r.
  - destruct n as [|n]; [lia|]. cbn [scan length] in *. unfold msg_at.
    rewrite Nat2Z.id, lookup_app_r, Nat.sub_diag by lia. cbn [lookup list_lookup app]. mred. rewrite Hx.
    specialize (IH (pre ++ [x]) n). rewrite <- app_assoc, length_app in IH. cbn [length app] in IH.
    replace (Z.of_nat (length pre) + 1) with (Z.of_nat (length pre + 1)) by lia.
    rewrite IH by lia. do 3 f_equal. lia.
Qed.

(** What a scan has passed over. *)
Lemma scan_inv stop msg n i j s s' :
  0 ≤ i → scan stop msg i n s = Ok (j, s') →
  s' = s ∧ i ≤ j ≤ i + Z.of_nat n ∧ (∀ k, i ≤ k < j → ∃ b, msg !! Z.to_nat k = Some b ∧ stop b = false) ∧
  (j < i + Z.of_nat n → ∃ b, msg !! Z.to_nat j = Some b ∧ stop b = true).
Proof.
  revert i. induction n as [|n IH]; intros i Hi H; cbn [scan] in H.
  { injection H as <- <-. split_and!; [done|lia|lia|intros ? Hk; lia|lia]. }
  unfold msg_at in H. destruct (msg !! Z.to_nat i) as [b|] eqn:E; [|done]. revert H. mred. intros H.
  destruct (stop b) eqn:Eb.
  - injection H as <- <-. split_and!; [done|lia|lia|intros ? Hk; lia|eauto].
  - apply IH in H as (-> & Hr & Hk & Hj); [|lia]. split_and!; [done|lia|lia| |].
    + intros k Hk'. destruct (Z.eq_dec k i) as [->|]; [eauto|apply Hk; lia].
    + intros. apply Hj. lia.
Qed.

Lemma scan_total stop msg i n s :
  0 ≤ i → i + Z.of_nat n ≤ Z.of_nat (length msg) → ∃ j, scan stop msg i n s = Ok (j, s).
Proof.
  revert i. induction n as [|n IH]; intros i Hi Hn; cbn [scan]; [by exists i|].
  destruct (lookup_lt_is_Some_2 msg (Z.to_nat i)) as [b E]; [lia|]. unfold msg_at. rewrite E. mred.
  destruct (stop b); [by exists i|]. apply IH; lia.
Qed.

Lemma find_ps_block b0 b1 ps m s :
  Forall (λ b, b ≠ 0) ps →
  let msg := b0 :: b1 :: ps ++ 0 :: m in
  find_ps msg LTC_PKCS_1_EME (Z.of_nat (length msg)) s = Ok ((Z.of_nat (length ps), (0 <? length m)%nat), s).
Proof.
  intros Hps msg. unfold find_ps. cbn [Z.eqb LTC_PKCS_1_EME Pos.eqb].
  assert (length msg = S (S (length ps + S (length m)))) as Hl by (unfold msg; cbn; by rewrite length_app).
  erewrite (bind_ok (scan _ _ _ _)).
  2:{ apply (scan_stops (λ b, b =? 0) [b0; b1] ps 0 m); [|done|rewrite Hl; lia].
      eapply Forall_impl; [exact Hps|]. intros b Hb. by apply Z.eqb_neq. }
  unfold mret, M_ret. cbn [length]. do 3 f_equal; [lia|]. rewrite Hl.
  destruct (Z.ltb_spec (Z.of_nat (2 + length ps) + 1) (Z.of_nat (S (S (length ps + S (length m))))));
    destruct (Nat.ltb_spec 0 (length m)); done || lia.
Qed.

Lemma find_ps_total msg s :
  (2 ≤ length msg)%nat →
  ∃ l ok, find_ps msg LTC_PKCS_1_EME (Z.of_nat (length msg)) s = Ok ((l, ok), s) ∧
    (ok = true → ∃ b0 b1 ps m, msg = b0 :: b1 :: ps ++ 0 :: m ∧ l = Z.of_nat (length ps) ∧ Forall (λ b, b ≠ 0) ps).
Proof.
  intros Hl. unfold find_ps. cbn [Z.eqb LTC_PKCS_1_EME Pos.eqb].
  destruct (scan_total (λ b, b =? 0) msg 2 (Z.to_nat (Z.of_nat (length msg) - 2)) s) as [j E]; [lia|lia|].
  mstep E. eexists _, _. split; [done|]. intros Hj%Z.ltb_lt.
  apply scan_inv in E as (_ & Hr & Hk & Hj'); [|lia]. destruct Hj' as (z & Hz & Hz0%Z.eqb_eq); [lia|]. subst z.
  destruct msg as [|b0 [|b1 msg]]; [simpl in Hl; lia..|]. set (i := Z.to_nat (j - 2)).
  assert (Z.to_nat j = S (S i)) as Ei by lia. rewrite Ei in Hz. cbn in Hz.
  exists b0, b1, (take i msg), (drop (S i) msg). split_and!.
  - by rewrite (take_drop_middle msg i 0 Hz).
  - rewrite length_take. apply lookup_lt_Some in Hz. lia.
  - apply Forall_lookup. intros k b Hb. assert (k < i)%nat by (apply lookup_lt_Some in Hb; rewrite length_take in Hb; lia).
    rewrite lookup_take_lt in Hb by done. destruct (Hk (Z.of_nat k + 2)) as (b' & Hb' & Hne%Z.eqb_neq); [lia|].
    replace (Z.to_nat (Z.of_nat k + 2)) with (S (S k)) in Hb' by lia. change (msg !! k = Some b') in Hb'.
    rewrite Hb in Hb'. by injection Hb' as ->.
Qed.

(** A block that PKCS #1 v1.5 assigns to a message, for a buffer of [cap]. *)
Definition block_of (block msg : bytes) (cap : Z) : Prop :=
  ∃ ps, block = eme_block ps msg ∧ (8 ≤ length ps)%nat ∧ Forall (λ b, b ≠ 0) ps ∧
    (0 < length msg)%nat ∧ Z.of_nat (length msg) ≤ cap.

(** The first zero separates padding and message. *)
Lemma separator_unique (ps ps' m m' : bytes) :
  Forall (λ b, b ≠ 0) ps → Forall (λ b, b ≠ 0) ps' → ps ++ 0 :: m = ps' ++ 0 :: m' → ps = ps' ∧ m = m'.
Proof.
  intros Hps. revert ps'. induction Hps as [|x ps Hx _ IH]; intros [|y ps'] Hf Hb; cbn in Hb.
  - by injection Hb as ->.
  - injection Hb as <- _. by apply Forall_cons in Hf as [? _].
  - by injection Hb as -> _.
  - injection Hb as -> Hb. apply Forall_cons in Hf as [_ Hf]. by destruct (IH _ Hf Hb) as [-> ->].
Qed.

(** The decision in terms of the parts of the block. *)
Lemma decode_parts b0 b1 ps m cap bits s :
  let msg := b0 :: b1 :: ps ++ 0 :: m in
  Forall (λ b, b ≠ 0) ps → modulus_len_of bits = Z.of_nat (length msg) → (11 ≤ length msg)%nat →
  Z.of_nat (length msg) < 2 ^ 64 →
  pkcs_1_v1_5_decode msg LTC_PKCS_1_EME bits cap s =
    Ok (if (b0 =? 0) && (b1 =? 2) && (0 <? length m)%nat && (8 <=? length ps)%nat && (Z.of_nat (length m) <=? cap)
        then (Outcome CRYPT_OK (Z.of_nat (length m)) (Some m), 1)
        else (Outcome CRYPT_INVALID_PACKET cap None, 0), s).
Proof.
  intros msg Hps Hmod H11 H64. unfold pkcs_1_v1_5_decode. rewrite Hmod.
  destruct (Z.gtb_spec (Z.of_nat (length msg)) (Z.of_nat (length msg))); [lia|].
  destruct (Z.ltb_spec (Z.of_nat (length msg)) 11); [lia|]. cbn [orb].
  pose proof (find_ps_block b0 b1 ps m s Hps) as Hfind. cbv zeta in Hfind. fold msg in Hfind.
  assert (length msg = S (S (length ps + S (length m)))) as Hl by (unfold msg; cbn; by rewrite length_app).
  erewrite (bind_ok (msg_at msg 0)) by done. change (uint8 LTC_PKCS_1_EME) with 2.
  assert (∃ b, (if negb (b0 =? 0) then mret 0 else msg_at msg 1) s = Ok (b, s) ∧
    (b0 =? 0) && (b =? 2) = (b0 =? 0) && (b1 =? 2)) as (b & Eb & Hb).
  { destruct (b0 =? 0) eqn:E; [exists b1|exists 0]; done. }
  mstep Eb. rewrite Hb. mstep Hfind. destruct ((b0 =? 0) && (b1 =? 2)); cbn [negb orb andb]; [|done].
  assert (uint64 (Z.of_nat (length msg) - (2 + Z.of_nat (length ps) + 1)) = Z.of_nat (length m)) as ->
    by (unfold uint64; rewrite Z.mod_small; lia).
  assert (drop (Z.to_nat (2 + Z.of_nat (length ps) + 1)) msg = m) as ->.
  { replace (Z.to_nat (2 + Z.of_nat (length ps) + 1)) with (S (S (length ps + 1))) by lia. unfold msg. cbn [drop].
    rewrite drop_app_add. done. }
  destruct (Nat.ltb_spec 0 (length m)), (Nat.leb_spec 8 (length ps)), (Z.ltb_spec (Z.of_nat (length ps)) 8),
    (Z.ltb_spec cap (Z.of_nat (length m))), (Z.leb_spec (Z.of_nat (length m)) cap); cbn; done || lia.
Qed.

(** C13: decoding PKCS #1 v1.5 blocks.  On a block of the size of the modulus
    the decoder never reads out of bounds.  It succeeds exactly on the blocks of
    the standard (0, 2, at least eight padding bytes that are not zero, 0,
    message) with a message that is not empty and fits the buffer, and returns
    that message; it reports CRYPT_INVALID_PACKET on every other block. *)
Theorem pkcs_1_v1_5_decode_exact block bits cap s :
  modulus_len_of bits = Z.of_nat (length block) → (11 ≤ length block)%nat → Z.of_nat (length block) < 2 ^ 64 →
  (∃ msg, block_of block msg cap ∧
     pkcs_1_v1_5_decode block LTC_PKCS_1_EME bits cap s =
       Ok ((Outcome CRYPT_OK (Z.of_nat (length msg)) (Some msg), 1), s)) ∨
  ((∀ msg, ¬ block_of block msg cap) ∧
   pkcs_1_v1_5_decode block LTC_PKCS_1_EME bits cap s = Ok ((Outcome CRYPT_INVALID_PACKET cap None, 0), s)).
Proof.
  intros Hmod H11 H64.
  destruct (find_ps_total block s) as (l & ok & Hfind & Hparse); [lia|]. destruct ok.
  - destruct (Hparse eq_refl) as (b0 & b1 & ps & m & -> & _ & Hps).
    rewrite (decode_parts b0 b1 ps m cap bits s) by done.
    destruct (_ && _) eqn:E; breflect.
    + left. exists m. split; [|done]. exists ps.
      repeat match goal with H : (_ =? _) = true |- _ => apply Z.eqb_eq in H as -> end.
      split_and!; [done|by apply Nat.leb_le|done|by apply Nat.ltb_lt|by apply Z.leb_le].
    + right. split; [|done]. intros m' (ps' & Hb & H8 & Hps' & Hm & Hc). injection Hb as -> -> Hb.
      destruct (separator_unique ps ps' m m') as [-> ->]; [done..|].
      rewrite (proj2 (Nat.ltb_lt _ _) Hm), (proj2 (Nat.leb_le _ _) H8), (proj2 (Z.leb_le _ _) Hc) in E. done.
  - right. split.
    { intros m (ps & -> & _ & Hps & Hm & _). pose proof (find_ps_block 0 2 ps m s Hps) as Hf. cbv zeta in Hf.
      unfold eme_block in Hfind. cbn [app] in Hfind. rewrite Hfind in Hf. injection Hf as _ Hf.
      symmetry in Hf. by apply Nat.ltb_ge in Hf; lia. }
    unfold pkcs_1_v1_5_decode. rewrite Hmod.
    destruct (Z.gtb_spec (Z.of_nat (length block)) (Z.of_nat (length block))); [lia|].
    destruct (Z.ltb_spec (Z.of_nat (length block)) 11); [lia|]. cbn [orb].
    destruct block as [|b0 [|b1 rest]]; [simpl in H11; lia..|].
    erewrite (bind_ok (msg_at _ 0)) by done.
    assert (∃ b, (if negb (b0 =? 0) then mret 0 else msg_at (b0 :: b1 :: rest) 1) s = Ok (b, s)) as (b & Eb)
      by (destruct (b0 =? 0); eexists; done).
    mstep Eb. mstep Hfind. cbn [negb]. by rewrite orb_true_r.
Qed.
End depadding.

(** ** Messages *)
Section messages.
Context `{HLtc : LtcEnv} `{HLaw : !LtcLaws}.
Implicit Type s : ltc.

(** A block with a leading zero is below a modulus of its size. *)
Lemma padded_value block N :
  0 < N → bytes_ok block → Z.of_nat (S (length block)) = mp_unsigned_bin_size N →
  0 ≤ be_value (0 :: block) < N.
Proof.
  intros HN Hb Hl. change (be_value (0 :: block)) with (be_value block).
  pose proof (be_value_range block Hb). pose proof (unsigned_bin_size_spec N HN) as [Hlo _].
  replace (mp_unsigned_bin_size N - 1) with (Z.of_nat (length block)) in Hlo by lia. lia.
Qed.

Definition same_modulus (pub key : rsa_key) : Prop := key_N pub = key_N key ∧ key_e pub = key_e key.

Section roundtrip.
Context (pub key : rsa_key).
Hypotheses (Hm : ∀ i, xalloc i = true) (Hk : usable_key key).
Abbreviation n := (mp_unsigned_bin_size (key_N key)).

(** The encryption of a block of the size of the modulus. *)
Definition rsa_cipher (block : bytes) : bytes :=
  be_bytes (Z.to_nat n) (be_value block ^ key_e key mod key_N key).

Lemma rsa_encrypt_ok msg cap idx s :
  same_modulus pub key → slot_is_valid idx (prng_descriptor s) = true → bytes_ok msg →
  Z.of_nat (length msg) + 11 ≤ n → n ≤ cap < 2 ^ 64 →
  ∃ ps s1, rsa_encrypt_key_ex msg cap idx pub s = Ok (Outcome CRYPT_OK n (Some (rsa_cipher (eme_block ps msg))), s1) ∧
    Z.of_nat (length (eme_block ps msg)) = n ∧ (8 ≤ length ps)%nat ∧ Forall nonzero_byte ps.
Proof.
  intros [EN Ee] Hv Hb Hl Hcap. pose proof (uk_N key Hk) as HN. pose proof (uk_e _ Hk) as He.
  pose proof (unsigned_bin_size_modulus (key_N key) HN) as Hmod.
  destruct (pkcs_1_v1_5_encode_ok msg (mp_count_bits (key_N key)) idx cap s) as (ps & k & E & Hps & Hnz);
    [done|unfold mp_count_bits; destruct (_ =? 0); [lia|]; pose proof (Z.log2_nonneg (Z.abs (key_N key))); lia|lia|lia|].
  assert (length (eme_block ps msg) = S (S (length ps + S (length msg)))) as Hlb
    by (unfold eme_block; cbn [app length]; by rewrite length_app).
  assert (0 ≤ be_value (eme_block ps msg) < key_N key) as Hval.
  { apply (padded_value ([2] ++ ps ++ [0] ++ msg)); [done| |cbn [length app]; rewrite length_app; cbn; lia].
    unfold bytes_ok. rewrite !Forall_app, !Forall_singleton. unfold byte_ok. split_and!; [lia..| |lia|lia|done].
    eapply Forall_impl; [exact Hnz|]. unfold nonzero_byte. intros. lia. }
  exists ps. eexists. split_and!; [|rewrite Hlb, Hmod; lia|lia|done].
  unfold rsa_encrypt_key_ex. erewrite (bind_ok (prng_is_valid idx)) by done. rewrite Hv, EN. cbn [Z.eqb CRYPT_OK negb].
  destruct (Z.gtb_spec n cap); [lia|]. mstep E. cbn [oc_out oc_err Z.eqb CRYPT_OK negb].
  rewrite public_operation; [|done|rewrite EN; done|rewrite Ee; lia|rewrite EN; lia|rewrite EN; lia].
  unfold rsa_cipher. by rewrite EN, Ee.
Qed.

Lemma rsa_decrypt_ok msg ps cap s :
  Z.of_nat (length (eme_block ps msg)) = n → n < 2 ^ 64 → (8 ≤ length ps)%nat → Forall nonzero_byte ps → bytes_ok msg →
  (0 < length msg)%nat → Z.of_nat (length msg) ≤ cap → Z.gcd (blinding key s) (key_N key) = 1 →
  ∃ s', rsa_decrypt_key_ex (rsa_cipher (eme_block ps msg)) cap key s =
    Ok ((Outcome CRYPT_OK (Z.of_nat (length msg)) (Some msg), 1), s') ∧
    hash_descriptor s' = hash_descriptor s ∧ prng_descriptor s' = prng_descriptor s.
Proof.
  intros Hln H64 H8 Hnz Hb H0 Hc Hg. pose proof (uk_N key Hk) as HN. pose proof (uk_e _ Hk). pose proof (uk_d _ Hk).
  set (x := be_value (eme_block ps msg)).
  pose proof (Z.mod_pos_bound (x ^ key_e key) (key_N key) HN) as Hy.
  assert (bytes_ok ([2] ++ ps ++ [0] ++ msg)) as Hbok.
  { unfold bytes_ok. rewrite !Forall_app, !Forall_singleton. unfold byte_ok. split_and!; [lia..| |lia|lia|done].
    eapply Forall_impl; [exact Hnz|]. unfold nonzero_byte. intros. lia. }
  assert (0 ≤ x < key_N key) as Hx by (apply (padded_value ([2] ++ ps ++ [0] ++ msg)); [done|done|by rewrite <- Hln]).
  unfold rsa_decrypt_key_ex, rsa_cipher. fold x. rewrite be_bytes_length, Z2Nat.id, Z.eqb_refl by lia. cbn [negb].
  erewrite (bind_ok xmalloc) by done. rewrite Hm. cbn [negb].
  erewrite (bind_ok (rsa_exptmod _ _ _ _)); [|apply private_operation; [done..|by rewrite be_value_sized|lia]].
  cbn [oc_out oc_err Z.eqb CRYPT_OK negb]. rewrite be_value_sized by done.
  rewrite <- Zpower_mod, <- Z.pow_mul_r, (uk_inverse key Hk), (Z.mod_small x) by lia || done.
  assert (be_bytes (Z.to_nat n) x = eme_block ps msg) as ->.
  { unfold x. rewrite <- Hln, Nat2Z.id. apply be_bytes_value. apply Forall_cons. split; [unfold byte_ok; lia|done]. }
  eexists. unfold eme_block in *. cbn [app] in *.
  rewrite decode_parts; [|eapply Forall_impl; [exact Hnz|]; unfold nonzero_byte; intros; lia
    |by rewrite <- unsigned_bin_size_modulus|cbn; rewrite length_app; cbn; lia|lia].
  rewrite !Z.eqb_refl. rewrite (proj2 (Nat.ltb_lt _ _) H0), (proj2 (Nat.leb_le _ _) H8).
  by rewrite (proj2 (Z.leb_le _ _) Hc).
Qed.
End roundtrip.

(** C12: RSA encryption round trip.  A message that is not empty and at least
    eleven bytes shorter than the modulus, encrypted under the public half of a
    valid key, decrypts to itself under the private half in any later state of
    the library, whatever padding is drawn, as long as the blinding factor that
    decryption draws has an inverse modulo the modulus. *)
Theorem rsa_messages_roundtrip msg cap idx pub key s :
  (∀ i, xalloc i = true) → valid_key key → (has_crt_parameters key = true → valid_crt key) →
  same_modulus pub key → slot_is_valid idx (prng_descriptor s) = true → bytes_ok msg → (0 < length msg)%nat →
  let n := mp_unsigned_bin_size (key_N key) in
  Z.of_nat (length msg) + 11 ≤ n → n ≤ cap < 2 ^ 64 →
  ∃ c s1, rsa_encrypt_key_ex msg cap idx pub s = Ok (Outcome CRYPT_OK n (Some c), s1) ∧
    Z.of_nat (length c) = n ∧
    ∀ s2 cap', Z.gcd (blinding key s2) (key_N key) = 1 → Z.of_nat (length msg) ≤ cap' →
    ∃ s3, rsa_decrypt_key_ex c cap' key s2 = Ok ((Outcome CRYPT_OK (Z.of_nat (length msg)) (Some msg), 1), s3).
Proof.
  intros Hm Hv0 Hcrt Hp Hv Hb H0 n Hl Hcap. pose proof (valid_usable key Hv0 Hcrt) as Hk.
  destruct (rsa_encrypt_ok pub key Hm Hk msg cap idx s) as (ps & s1 & E & Hlb & H8 & Hnz); [done..|].
  eexists _, s1. split_and!; [exact E| |].
  - unfold rsa_cipher. rewrite be_bytes_length. lia.
  - intros s2 cap' Hg Hc'. destruct (rsa_decrypt_ok key Hm Hk msg ps cap' s2) as (s3 & E3 & _); [done || lia..|]. by exists s3.
Qed.
End messages.
