(* ===== verification/LtcConcrete.v ===== *)
(** * Concrete RSA keys

    Two primes with their certificates, the key they make, a key of 2048 bits
    whose modulus has small factors, and the witnesses of the theorems on
    libtomcrypt. *)

From S2P Require Import Prelude Ltc LtcRsa LtcSpec LtcTheorems.
From Stdlib Require Import Znumtheory Zdivisibility Zpow_facts Zcong ZmodInv.

(** ** Certificates of primality *)
Lemma pow_gcd_one p a u v :
  1 < p → 0 ≤ u → 0 ≤ v → a ^ u mod p = 1 → a ^ v mod p = 1 → a ^ Z.gcd u v mod p = 1.
Proof.
  intros Hp Hu Hv Eu Ev. pose proof (Z.gcd_nonneg u v).
  assert (∀ w k, 0 ≤ w → 0 ≤ k → a ^ w mod p = 1 → a ^ (k * w) mod p = 1) as Hmul.
  { intros w k Hw Hk E. rewrite Z.mul_comm, Z.pow_mul_r, Zpower_mod, E, Z.pow_1_l by lia. apply Z.mod_small. lia. }
  assert (∀ k l, 0 ≤ k → 0 ≤ l → k = Z.gcd u v + l → a ^ k mod p = 1 → a ^ l mod p = 1 → a ^ Z.gcd u v mod p = 1) as Hsub.
  { intros k l Hk Hl -> E1 E2. rewrite Z.pow_add_r, Z.mul_mod, E2, Z.mul_1_r, Z.mod_mod in E1 by lia. done. }
  destruct (Z.gcd_bezout u v _ eq_refl) as (x & y & E).
  destruct (Z.le_gt_cases 0 x) as [Hx|Hx], (Z.le_gt_cases 0 y) as [Hy|Hy].
  - rewrite <- E, Z.pow_add_r, Z.mul_mod, !Hmul, Z.mul_1_l by lia. apply Z.mod_small. lia.
  - apply (Hsub (x * u) (- y * v)); [nia|nia|lia|apply Hmul; lia|apply Hmul; lia].
  - apply (Hsub (y * v) (- x * u)); [nia|nia|lia|apply Hmul; lia|apply Hmul; lia].
  - assert (Z.gcd u v = 0) as -> by nia. apply Z.mod_small. lia.
Qed.

Lemma prime_divisor n : 1 < n → ∃ p, Z.prime p ∧ (p | n).
Proof.
  intros Hn. assert (0 ≤ n) as H0 by lia. revert Hn. pattern n. apply Z_lt_induction; [|done]. clear n H0. intros n IH Hn.
  destruct (prime_dec n) as [Hp|Hp]; [exists n; split; [by apply prime_alt|apply Z.divide_refl]|].
  destruct (not_prime_divide n Hn Hp) as (d & Hd & Hdn).
  destruct (IH d ltac:(lia) ltac:(lia)) as (p & Hp' & Hpd). exists p. split; [done|by etrans].
Qed.

(** Pocklington's criterion with one large prime factor of n - 1. *)
Lemma pocklington q m a :
  Z.prime q → let n := q * m + 1 in 0 < m < q → Zpow_mod a (n - 1) n = 1 → Z.gcd (Zpow_mod a m n - 1) n = 1 →
  Z.prime n.
Proof.
  intros Hq n Hm E1 Eg. pose proof (Z.prime_ge_2 _ Hq). rewrite Zpow_mod_correct in E1, Eg by lia.
  assert (∀ p, Z.prime p → (p | n) → q < p) as Hbig.
  { intros p Hp Hpn. pose proof (Z.prime_ge_2 _ Hp). destruct Hpn as [c Hc].
    assert (∀ x, (x mod n) mod p = x mod p) as Hmod by (intros x; apply Z.mod_mod_divide; by exists c).
    assert (a ^ (n - 1) mod p = 1) as Ep by (rewrite <- Hmod, E1; apply Z.mod_small; lia).
    assert (a mod p ≠ 0) as Hap.
    { intros Ea. rewrite Zpower_mod, Ea, Z.pow_0_l, Z.mod_0_l in Ep by lia. lia. }
    pose proof (Z.fermat_nz p a Hp Hap) as Ef.
    destruct (Znumtheory.Zdivide_dec q (p - 1)) as [Hd|Hd]; [apply Z.divide_pos_le in Hd; lia|].
    assert (a ^ Z.gcd (n - 1) (p - 1) mod p = 1) as Egp by (apply pow_gcd_one; lia).
    assert (Z.gcd (n - 1) (p - 1) | m) as [k Hk].
    { apply (Z.gauss _ q); [replace (q * m) with (n - 1) by lia; apply Z.gcd_divide_l|].
      rewrite Z.gcd_comm. apply Z.coprime_prime_l; [done|]. intros Hqg. apply Hd. etrans; [exact Hqg|apply Z.gcd_divide_r]. }
    assert (a ^ m mod p = 1) as Em.
    { pose proof (Z.gcd_nonneg (n - 1) (p - 1)).
      rewrite Hk, Z.mul_comm, Z.pow_mul_r, Zpower_mod, Egp, Z.pow_1_l by nia. apply Z.mod_small. lia. }
    assert (p | 1) as Hp1; [|apply Z.divide_pos_le in Hp1; lia].
    rewrite <- Eg. apply Z.gcd_greatest; [|by exists c].
    apply Z.mod_divide; [lia|]. by rewrite Zminus_mod, Hmod, Em, (Z.mod_small 1), Z.sub_diag, Z.mod_0_l by lia. }
  split; [lia|]. intros d Hd [c Hc]. assert (1 < c) by nia.
  destruct (prime_divisor d ltac:(lia)) as (p1 & Hp1 & Hd1). destruct (prime_divisor c ltac:(lia)) as (p2 & Hp2 & Hd2).
  pose proof (Hbig p1 Hp1 ltac:(etrans; [exact Hd1|by exists c])).
  pose proof (Hbig p2 Hp2 ltac:(etrans; [exact Hd2|exists d; lia])).
  apply Z.divide_pos_le in Hd1, Hd2; nia.
Qed.

(** Trial division for small numbers. *)
Lemma trial_prime n :
  1 < n → forallb (λ d, negb (n mod Z.of_nat d =? 0)) (seq 2 (Z.to_nat (Z.sqrt n) - 1)) = true → Z.prime n.
Proof.
  intros Hn Hall. split; [done|]. intros d Hd [c Hc]. assert (1 < c) by nia.
  rewrite forallb_forall in Hall. destruct (Z.sqrt_spec n ltac:(lia)) as [_ Hs].
  assert (∀ x, 1 < x → x ≤ Z.sqrt n → (x | n) → False) as Hno.
  { intros x Hx1 Hx Hxn. specialize (Hall (Z.to_nat x)). rewrite Z2Nat.id in Hall by lia.
    apply Z.mod_divide in Hxn; [|lia]. rewrite Hxn in Hall. discriminate Hall. apply in_seq. lia. }
  destruct (Z.le_gt_cases d (Z.sqrt n)); [apply (Hno d); [lia|done|by exists c]|].
  apply (Hno c); [lia| |exists d; lia]. pose proof (Z.sqrt_nonneg n). set (r := Z.sqrt n) in *.
  destruct (Z.le_gt_cases c r); [done|]. assert (Z.succ r * Z.succ r ≤ c * d) by (apply Z.mul_le_mono_nonneg; lia). lia.
Qed.

Definition demo_p : Z := 280239033535753.
Definition demo_q : Z := 278598343991251.

Lemma demo_p_prime : Z.prime demo_p.
Proof.
  change demo_p with (16740371 * 16740312 + 1). apply (pocklington _ _ 2); [|lia|vm_compute; done..].
  change 16740371 with (4093 * 4090 + 1). apply (pocklington _ _ 2); [|lia|vm_compute; done..].
  apply trial_prime; [lia|vm_compute; done].
Qed.
Lemma demo_q_prime : Z.prime demo_q.
Proof.
  change demo_q with (16691281 * 16691250 + 1). apply (pocklington _ _ 2); [|lia|vm_compute; done..].
  change 16691281 with (4091 * 4080 + 1). apply (pocklington _ _ 2); [|lia|vm_compute; done..].
  apply trial_prime; [lia|vm_compute; done].
Qed.

Definition demo_rsa : LtcRsa.rsa_key :=
  RsaKey PK_PRIVATE 65537 28285000600784404665365103473 (demo_p * demo_q) demo_p demo_q
    267648373615836 197365043134049 53350156660973.
Definition demo_rsa_pub : LtcRsa.rsa_key := RsaKey PK_PUBLIC 65537 0 (demo_p * demo_q) 0 0 0 0 0.

Lemma demo_rsa_valid : valid_key demo_rsa.
Proof. split; [done|apply demo_p_prime|apply demo_q_prime|done|done|done|done|vm_compute; done..]. Qed.
Lemma demo_rsa_crt : valid_crt demo_rsa.
Proof. split; [vm_compute; done..]. Qed.

(** ** A key of 2048 bits

    The modulus is a product of many small primes, the public exponent is the
    usual one; everything about it is checked by evaluation. *)
Definition product (ps : list Z) : Z := foldr Z.mul 1 ps.
Lemma product_power ps m x :
  0 < m → Forall (λ p, Z.prime p ∧ m mod (p - 1) = 1 mod (p - 1)) ps → NoDup ps → x ^ m mod product ps = x mod product ps.
Proof.
  intros Hm Hps Hnd. induction Hps as [|p ps [Hp Hmp] Hps IH]; [by rewrite !Z.mod_1_r|].
  apply NoDup_cons in Hnd as [Hn Hnd]. specialize (IH Hnd). cbn [product foldr]. fold (product ps).
  assert (Z.coprime p (product ps) ∧ 0 < product ps) as [Hc Hpos].
  { clear -Hp Hps Hn. induction Hps as [|q ps [Hq _] Hps IH]; [split; [apply Z.gcd_1_r|done]|].
    apply not_elem_of_cons in Hn as [Hne Hn]. destruct (IH Hn) as [Hc Hpos]. pose proof (Z.prime_ge_2 _ Hq). cbn [product foldr]. fold (product ps).
    split; [|lia]. apply Z.coprime_mul_r; [by apply primes_coprime|done]. }
  pose proof (Z.prime_ge_2 _ Hp).
  rewrite (Z.combinecong_complete_coprime_nonneg (x ^ m) p (product ps) x x), (Z.combinecong_complete_coprime_nonneg x p (product ps) x x);
    (done || lia || idtac).
  rewrite <- (Z.pow_1_r x) at 2. apply pow_mod_exponent; (done || lia).
Qed.

Definition trial (n : Z) : bool := forallb (λ d, negb (n mod Z.of_nat d =? 0)) (seq 2 (Z.to_nat (Z.sqrt n) - 1)).
Definition smooth_primes : list Z := filter (λ p, trial p && negb (p =? 211) = true) (seqZ 3 1479).
Definition smooth_d : Z :=
  85353753261993052815793832018572223026710576869163390466672809267761342432498582902931083657122556389243134094033221432794643944394313473.
Definition smooth_key : LtcRsa.rsa_key := RsaKey PK_PRIVATE 65537 smooth_d (product smooth_primes) 0 0 0 0 0.

Lemma smooth_key_power x : x ^ (key_e smooth_key * key_d smooth_key) mod key_N smooth_key = x mod key_N smooth_key.
Proof.
  apply product_power; [done| |apply NoDup_filter, NoDup_seqZ].
  assert (forallb (λ p, (65537 * smooth_d) mod (p - 1) =? 1 mod (p - 1)) smooth_primes = true) as Hd by (by vm_compute).
  rewrite forallb_forall in Hd. apply Forall_forall. intros p Hin. split; [|by apply Z.eqb_eq, Hd, list_elem_of_In].
  apply list_elem_of_filter in Hin as [Ht Hin]. apply andb_true_iff in Ht as [Ht _]. apply elem_of_seqZ in Hin.
  apply trial_prime; [lia|exact Ht].
Qed.
Lemma smooth_key_size : mp_unsigned_bin_size (key_N smooth_key) = 256.
Proof. by vm_compute. Qed.

(** A generator whose answers repeat; some of its bytes are zero. *)
Definition demo_ltc : LtcEnv := {|
  rng_bytes := λ n len, (λ i, Z.of_nat ((n + i) mod 5)) <$> seq 0 len;
  rng_patience := 2;
  mpz_random := λ n _, Z.of_nat n + 2;
  xalloc := λ _, true |}.

Lemma demo_ltc_laws : @LtcLaws demo_ltc.
Proof.
  split; cbn [rng_bytes rng_patience demo_ltc].
  - intros n len. by rewrite length_fmap, length_seq.
  - intros n len. apply Forall_fmap, Forall_forall. intros i _. unfold byte_ok. cbn.
    pose proof (Nat.mod_upper_bound (n + i) 5). lia.
  - intros n. destruct (decide ((n mod 5)%nat = 0%nat)) as [E|E].
    + exists 1%nat. split; [lia|]. change ([Z.of_nat ((n + 1 + 0) mod 5)] ≠ [0]). intros Hl.
      assert (Z.of_nat ((n + 1 + 0) mod 5) = 0) as H by congruence.
      pose proof (Nat.Div0.add_mod n 1 5) as Ha. rewrite E in Ha. change ((n + 1) mod 5 = 1)%nat in Ha.
      rewrite Nat.add_0_r, Ha in H. lia.
    + exists 0%nat. split; [lia|]. change ([Z.of_nat ((n + 0 + 0) mod 5)] ≠ [0]). rewrite !Nat.add_0_r. intros Hl.
      assert (Z.of_nat (n mod 5) = 0) by congruence. lia.
Qed.

#[local] Existing Instances demo_ltc demo_ltc_laws.

Definition ltc_ready : ltc := Ltc empty_table (<[0%nat := Some "sprng"%string]> empty_table) 0 0 0.

Lemma private_operation_is_power_witness :
  rsa_exptmod [1; 2; 3] 12 PK_PRIVATE demo_rsa ltc_ready =
    Ok (Outcome CRYPT_OK 12 (Some (be_bytes 12 (66051 ^ key_d demo_rsa mod key_N demo_rsa))), drew (spent_allocs 5 ltc_ready)).
Proof.
  apply (private_operation_is_power [1; 2; 3] 12 demo_rsa ltc_ready);
    [done|apply demo_rsa_valid|intros _; apply demo_rsa_crt|vm_compute; done..].
Defined.

Lemma private_operation_is_checked_witness :
  ∃ o s' out, rsa_exptmod [1; 2; 3] 12 PK_PRIVATE demo_rsa ltc_ready = Ok (o, s') ∧
    oc_out o = Some out ∧ be_value out ^ key_e demo_rsa mod key_N demo_rsa = 66051.
Proof.
  eexists _, _. destruct (private_operation_is_checked [1; 2; 3] 12 demo_rsa ltc_ready
    (Outcome CRYPT_OK 12 (Some (be_bytes 12 (Zpow_mod 66051 (key_d demo_rsa) (key_N demo_rsa))))) (drew (spent_allocs 5 ltc_ready)))
    as (out & Ho & Hp); [done|done|done|vm_compute; reflexivity|done|].
  exists out. split; [vm_compute; reflexivity|]. by split.
Defined.

Lemma pkcs_1_v1_5_decode_exact_witness :
  pkcs_1_v1_5_decode ([0; 2] ++ replicate 8 7 ++ [0; 42]) LTC_PKCS_1_EME 96 1 ltc_ready =
    Ok ((Outcome CRYPT_OK 1 (Some [42]), 1), ltc_ready).
Proof.
  destruct (pkcs_1_v1_5_decode_exact ([0; 2] ++ replicate 8 7 ++ [0; 42]) 96 1 ltc_ready)
    as [(m & (ps & Hb & _ & Hps & _) & E)|[Hno _]]; [done|vm_compute; lia|done| |].
  - injection Hb as Hb. destruct (separator_unique (replicate 8 7) ps [42] m) as [_ <-]; [by repeat constructor|done..].
  - exfalso. apply (Hno [42]). exists (replicate 8 7). split_and!; [done|done|by repeat constructor|cbn; lia|done].
Defined.

Lemma rsa_messages_roundtrip_witness :
  ∃ c s1 s3, rsa_encrypt_key_ex [42] 256 0 demo_rsa_pub ltc_ready = Ok (Outcome CRYPT_OK 12 (Some c), s1) ∧
    rsa_decrypt_key_ex c 256 demo_rsa ltc_ready = Ok ((Outcome CRYPT_OK 1 (Some [42]), 1), s3).
Proof.
  destruct (rsa_messages_roundtrip [42] 256 0 demo_rsa_pub demo_rsa ltc_ready) as (c & s1 & E & _ & H);
    [done|apply demo_rsa_valid|intros _; apply demo_rsa_crt|done|vm_compute; reflexivity|by apply Forall_singleton|cbn; lia|vm_compute; done|vm_compute; done|].
  destruct (H ltc_ready 256) as (s3 & E3); [vm_compute; done|done|].
  exists c, s1, s3. split; [exact E|exact E3].
Defined.
