(* ===== verification/Der.v ===== *)
(** * libtomcrypt: DER primitives

    The codecs of single ASN.1 values under src/pk/asn1/der: the length field
    (general), BOOLEAN, INTEGER, short INTEGER, BIT STRING (one bit or eight bits
    per char), OCTET STRING, OBJECT IDENTIFIER, IA5, printable and UTF8 strings.

    A decoder gets the memory behind the pointer [in] and the length [inlen] it
    may trust: a read past the memory is a fault, whatever [inlen] says.  Output
    arrays are lists of their full capacity, and a write past it is a fault; a
    decoder returns its code with what it left in the arrays and in the
    parameters it updates.  An encoder gets [*outlen] and returns an [outcome].
    unsigned long has 64 bits.  The pointers that
    LTC_ARGCHK tests are never NULL here; its one other test is in LtcKeys. *)

From S2P Require Import Prelude Ltc LtcRsa.

Definition CRYPT_NOP : Z := 2.
Definition CRYPT_PK_TYPE_MISMATCH : Z := 14.
Definition CRYPT_INVALID_ARG : Z := 16.
Definition CRYPT_OVERFLOW : Z := 19.
Definition CRYPT_PK_ASN1_ERROR : Z := 20.
Definition CRYPT_INPUT_TOO_LONG : Z := 21.

Definition is_ok (err : Z) : bool := err =? CRYPT_OK.

(** A failed check calls crypt_argchk, which is declared not to return and, with
    its body commented out, returns. *)
Definition LTC_ARGCHK {S} (x : bool) : M S unit := if x then mret tt else crash NoReturn.

(** ** Memory *)

(** [in[i]], for an unsigned index. *)
Definition rd {S} (b : bytes) (i : Z) : M S Z :=
  if (0 <=? i) && (i <? Z.of_nat (length b)) then
    match b !! Z.to_nat i with Some v => mret v | None => crash OutOfBounds end
  else crash OutOfBounds.

(** The memory behind [in + x]. *)
Definition at_off (b : bytes) (x : Z) : bytes :=
  if x <=? Z.of_nat (length b) then drop (Z.to_nat x) b else [].

(** The [n] bytes at [in + x], all of them read. *)
Definition rd_range {S} (b : bytes) (x n : Z) : M S bytes :=
  if x + n <=? Z.of_nat (length b) then mret (take (Z.to_nat n) (drop (Z.to_nat x) b)) else crash OutOfBounds.

(** [a[i] = v] *)
Definition wr {S} (a : list Z) (i v : Z) : M S (list Z) :=
  if (0 <=? i) && (i <? Z.of_nat (length a)) then mret (<[Z.to_nat i := v]> a) else crash OutOfBounds.

Section der.
Context `{HLtc : LtcEnv}.
Abbreviation T := (M ltc).

(** ** general *)

(** The loop that accumulates [n] bytes from [in[i]]. *)
Fixpoint rd_be (inp : bytes) (i : Z) (n : nat) (v : Z) : T Z :=
  match n with
  | O => mret v
  | S n => b ← rd inp i; rd_be inp (i + 1) n (uint64 (Z.lor (Z.shiftl v 8) b))
  end.

(** The code, [*inlen] and [*outlen] (0 where it is not assigned). *)
Definition length_checked (inlen decoded_len offset : Z) : Z * Z * Z :=
  if uint64 (inlen - offset) <? decoded_len then (CRYPT_OVERFLOW, inlen, decoded_len)
  else (CRYPT_OK, offset, decoded_len).

Definition der_decode_asn1_length (inp : bytes) (inlen : Z) : T (Z * Z * Z) :=
  if inlen <? 1 then mret (CRYPT_BUFFER_OVERFLOW, inlen, 0) else
  real_len ← rd inp 0;
  if real_len <? 128 then mret (length_checked inlen real_len 1) else
  let real_len := Z.land real_len 127 in
  if real_len =? 0 then mret (CRYPT_PK_ASN1_ERROR, inlen, 0) else
  if 8 <? real_len then mret (CRYPT_OVERFLOW, inlen, 0) else
  if uint64 (inlen - 1) <? real_len then mret (CRYPT_BUFFER_OVERFLOW, inlen, 0) else
  decoded_len ← rd_be inp 1 (Z.to_nat real_len) 0;
  mret (length_checked inlen decoded_len (1 + real_len)).

(** The number of bytes of a 64-bit number: eight rounds of the loop are
    enough. *)
Fixpoint count_octets (rounds : nat) (x : Z) : Z :=
  match rounds with
  | O => 0
  | S rounds => if x =? 0 then 0 else 1 + count_octets rounds (Z.shiftr x 8)
  end.

(** [der_length_asn1_length]: der_encode_asn1_length without an output. *)
Definition der_length_asn1_length (len : Z) : Z * Z :=
  let y := count_octets 8 len in
  if y =? 0 then (CRYPT_PK_ASN1_ERROR, 0) else
  (CRYPT_OK, if len <? 128 then y else y + 1).

(** One byte of the length: [(len >> s) & 255]. *)
Definition octet (s len : Z) : Z := Z.land (Z.shiftr len s) 255.

Definition length_octets (len : Z) : bytes :=
  if len <? 128 then [uint8 len] else
  if len <=? 0xff then [0x81; uint8 len] else
  if len <=? 0xffff then [0x82; octet 8 len; octet 0 len] else
  if len <=? 0xffffff then [0x83; octet 16 len; octet 8 len; octet 0 len] else
  if len <=? 0xffffffff then [0x84; octet 24 len; octet 16 len; octet 8 len; octet 0 len] else
  if len <=? 0xffffffffff then [0x85; octet 32 len; octet 24 len; octet 16 len; octet 8 len; octet 0 len] else
  if len <=? 0xffffffffffff then
    [0x86; octet 40 len; octet 32 len; octet 24 len; octet 16 len; octet 8 len; octet 0 len] else
  if len <=? 0xffffffffffffff then
    [0x87; octet 48 len; octet 40 len; octet 32 len; octet 24 len; octet 16 len; octet 8 len; octet 0 len] else
  [0x88; octet 56 len; octet 48 len; octet 40 len; octet 32 len; octet 24 len; octet 16 len; octet 8 len; octet 0 len].

Definition der_encode_asn1_length (len outlen : Z) : outcome :=
  let y := count_octets 8 len in
  if y =? 0 then Outcome CRYPT_PK_ASN1_ERROR outlen None else
  if outlen <? y then Outcome CRYPT_BUFFER_OVERFLOW outlen None else
  let out := length_octets len in
  Outcome CRYPT_OK (Z.of_nat (length out)) (Some out).

(** The common tail of the encoders: identifier octet, length field, contents;
    [*outlen] is the length written. *)
Definition put_header (tag len outlen : Z) (contents : bytes) : outcome :=
  let o := der_encode_asn1_length len (uint64 (outlen - 1)) in
  match oc_out o with
  | Some l => let out := tag :: l ++ contents in Outcome CRYPT_OK (Z.of_nat (length out)) (Some out)
  | None => Outcome (oc_err o) outlen None
  end.

(** ** boolean *)
Definition der_decode_boolean (inp : bytes) (inlen out : Z) : T (Z * Z) :=
  if inlen <? 3 then mret (CRYPT_INVALID_ARG, out) else
  b0 ← rd inp 0;
  if negb (b0 =? 1) then mret (CRYPT_INVALID_ARG, out) else
  b1 ← rd inp 1;
  if negb (b1 =? 1) then mret (CRYPT_INVALID_ARG, out) else
  b2 ← rd inp 2;
  if negb (b2 =? 0) && negb (b2 =? 255) then mret (CRYPT_INVALID_ARG, out) else
  mret (CRYPT_OK, if b2 =? 255 then 1 else 0).

Definition der_length_boolean : Z * Z := (CRYPT_OK, 3).

Definition der_encode_boolean (v outlen : Z) : outcome :=
  if outlen <? 3 then Outcome CRYPT_BUFFER_OVERFLOW 3 None else
  Outcome CRYPT_OK 3 (Some [1; 1; if v =? 0 then 0 else 255]).

(** ** integer *)

(** [count_lsb_bits]: mpz_scan1(a, 0), the position of the lowest bit that is
    set. *)
Fixpoint pos_lsb (p : positive) : Z :=
  match p with xO p => 1 + pos_lsb p | _ => 0 end.
Definition mp_cnt_lsb (a : Z) : Z :=
  match a with Z0 => 0 | Zpos p | Zneg p => pos_lsb p end.

(** [twoexpt] *)
Definition mp_2expt (n : Z) : Z := Z.setbit 0 n.

Definition der_decode_integer (inp : bytes) (inlen num : Z) : T (Z * Z) :=
  if inlen <? 3 then mret (CRYPT_INVALID_PACKET, num) else
  b ← rd inp 0;
  if negb (Z.land b 0x1F =? 2) then mret (CRYPT_INVALID_PACKET, num) else
  '(err, off, y) ← der_decode_asn1_length (at_off inp 1) (inlen - 1);
  if negb (is_ok err) then mret (err, num) else
  let x := 1 + off in
  digits ← rd_range inp x y;
  let num := mp_read_unsigned_bin digits in
  b ← rd inp x;
  if has_flag b 0x80 then
    ok ← xmalloc;
    if ok : bool then mret (CRYPT_OK, num - mp_2expt (mp_count_bits num)) else mret (CRYPT_MEM, num)
  else mret (CRYPT_OK, num).

Definition leading_zero (num : Z) : bool := (Z.land (mp_count_bits num) 7 =? 0) || (num =? 0).
(** The test by which a power of two takes one byte less. *)
Definition is_minimum (num : Z) : bool :=
  (mp_cnt_lsb num + 1 =? mp_count_bits num) && (Z.land (mp_count_bits num) 7 =? 0).

Definition der_length_integer (num : Z) : Z * Z :=
  let len :=
    if 0 <=? num then (if leading_zero num then 1 else 0) + mp_unsigned_bin_size num else
    let z := mp_count_bits num in
    let z := z + (8 - Z.land z 7) in
    Z.shiftr (if is_minimum num then z - 1 else z) 3 in
  let '(err, z) := der_length_asn1_length len in
  if is_ok err then (CRYPT_OK, 1 + z + len) else (err, 0).

(** The encoder reports the length it computed before. *)
Definition with_outlen (n : Z) (o : outcome) : outcome :=
  if is_ok (oc_err o) then Outcome (oc_err o) n (oc_out o) else o.

Definition der_encode_integer (num outlen : Z) : T outcome :=
  let '(err, tmplen) := der_length_integer num in
  if negb (is_ok err) then mret (Outcome err outlen None) else
  if outlen <? tmplen then mret (Outcome CRYPT_BUFFER_OVERFLOW tmplen None) else
  let bits := mp_count_bits num + (8 - Z.land (mp_count_bits num) 7) in
  let y :=
    if 0 <=? num then mp_unsigned_bin_size num + (if leading_zero num then 1 else 0)
    else Z.shiftr bits 3 - (if is_minimum num then 1 else 0) in
  if 0 <=? num then
    mret (with_outlen tmplen (put_header 2 y outlen ((if leading_zero num then [0] else []) ++
                                 (if 0 <? num then mp_to_unsigned_bin num else []))))
  else
    ok ← xmalloc;
    if ok : bool then
      let bits := if is_minimum num then bits - 8 else bits in
      mret (with_outlen tmplen (put_header 2 y outlen (mp_to_unsigned_bin (mp_2expt bits + num))))
    else mret (Outcome CRYPT_MEM outlen None).

(** ** short_integer *)
Definition der_decode_short_integer (inp : bytes) (inlen num : Z) : T (Z * Z) :=
  if inlen <? 2 then mret (CRYPT_INVALID_PACKET, num) else
  b ← rd inp 0;
  if negb (Z.land b 0x1F =? 2) then mret (CRYPT_INVALID_PACKET, num) else
  len ← rd inp 1;
  if inlen <? 2 + len then mret (CRYPT_INVALID_PACKET, num) else
  y ← rd_be inp 2 (Z.to_nat len) 0;
  mret (CRYPT_OK, y).

(** The number of bytes of a 32-bit number, one for zero, one more when the
    highest bit of the first byte is set. *)
Definition short_size (num : Z) : Z :=
  let z := count_octets 8 num in
  if z =? 0 then 1 else z + (if has_flag num (Z.shiftl 1 (Z.shiftl z 3 - 1)) then 1 else 0).

Definition der_length_short_integer (num : Z) : Z * Z :=
  let z := short_size (uint32 num) in
  let '(err, y) := der_length_asn1_length z in
  if is_ok err then (CRYPT_OK, 1 + y + z) else (err, 0).

(** The shift that brings the first byte to the top of 32 bits, and the bytes
    taken from there. *)
Fixpoint shift_up (n : nat) (num : Z) : Z :=
  match n with O => num | S n => shift_up n (uint64 (Z.shiftl num 8)) end.
Fixpoint top_bytes (n : nat) (num : Z) : bytes :=
  match n with
  | O => []
  | S n => Z.land (Z.shiftr num 24) 0xFF :: top_bytes n (uint64 (Z.shiftl num 8))
  end.

Definition der_encode_short_integer (num outlen : Z) : outcome :=
  let num := uint32 num in
  let '(err, len) := der_length_short_integer num in
  if negb (is_ok err) then Outcome err outlen None else
  if outlen <? len then Outcome CRYPT_BUFFER_OVERFLOW len None else
  let z := short_size num in
  let num := if z <=? 4 then shift_up (Z.to_nat (4 - z)) num else num in
  let out := [2; uint8 z] ++ (if z =? 5 then 0 :: top_bytes 4 num else top_bytes (Z.to_nat z) num) in
  Outcome CRYPT_OK (Z.of_nat (length out)) (Some out).

(** ** bit *)

(** The mask of the bit [y] of a bit string in its byte. *)
Definition bit_mask (y : Z) : Z := Z.shiftl 1 (7 - Z.land y 7).

(** The header of both decoders: the code, the offset of the contents behind
    the padding count, and the number of bits. *)
Definition bit_string_header (inp : bytes) (inlen : Z) : T (Z * Z * Z) :=
  if inlen <? 4 then mret (CRYPT_INVALID_ARG, 0, 0) else
  b ← rd inp 0;
  if negb (Z.land b 0x1F =? 3) then mret (CRYPT_INVALID_PACKET, 0, 0) else
  '(err, y, dlen) ← der_decode_asn1_length (at_off inp 1) (inlen - 1);
  if negb (is_ok err) then mret (err, 0, 0) else
  let x := 1 + y in
  if (dlen =? 0) || (uint64 (inlen - x) <? dlen) then mret (CRYPT_INVALID_PACKET, 0, 0) else
  pad ← rd inp x;
  mret (CRYPT_OK, x + 1, uint64 (Z.shiftl (dlen - 1) 3 - Z.land pad 7)).

Fixpoint unpack_bits (n : nat) (inp : bytes) (x y : Z) (out : bytes) : T bytes :=
  match n with
  | O => mret out
  | S n =>
      b ← rd inp x;
      out ← wr out y (if has_flag b (bit_mask y) then 1 else 0);
      unpack_bits n inp (if Z.land y 7 =? 7 then x + 1 else x) (y + 1) out
  end.

(** SETBIT and CLRBIT on [out[y/8]]. *)
Fixpoint copy_bits (n : nat) (inp : bytes) (x y : Z) (out : bytes) : T bytes :=
  match n with
  | O => mret out
  | S n =>
      b ← rd inp x;
      o ← rd out (y / 8);
      out ← wr out (y / 8) (if has_flag b (bit_mask y) then Z.lor o (bit_mask y) else Z.land o (255 - bit_mask y));
      copy_bits n inp (if Z.land y 7 =? 7 then x + 1 else x) (y + 1) out
  end.

(** The code, the array and [*outlen]. *)
Definition der_decode_bit_string (inp : bytes) (inlen : Z) (out : bytes) (outlen : Z) : T (Z * bytes * Z) :=
  '(err, x, blen) ← bit_string_header inp inlen;
  if negb (is_ok err) then mret (err, out, outlen) else
  if outlen <? blen then mret (CRYPT_BUFFER_OVERFLOW, out, blen) else
  out ← unpack_bits (Z.to_nat blen) inp x 0 out;
  mret (CRYPT_OK, out, blen).

Definition der_decode_raw_bit_string (inp : bytes) (inlen : Z) (out : bytes) (outlen : Z) : T (Z * bytes * Z) :=
  '(err, x, blen) ← bit_string_header inp inlen;
  if negb (is_ok err) then mret (err, out, outlen) else
  if outlen <? blen then mret (CRYPT_BUFFER_OVERFLOW, out, blen) else
  out ← copy_bits (Z.to_nat blen) inp x 0 out;
  mret (CRYPT_OK, out, blen).

Definition der_length_bit_string (nbits : Z) : Z * Z :=
  let nbytes := Z.shiftr nbits 3 + (if Z.land nbits 7 =? 0 then 0 else 1) + 1 in
  let '(err, x) := der_length_asn1_length nbytes in
  if is_ok err then (CRYPT_OK, 1 + x + nbytes) else (err, 0).

(** The loop that collects bits in [buf]; [bit] reads the bit [y] of the
    source. *)
Fixpoint pack_bits (bit : Z → T bool) (n : nat) (y buf : Z) : T bytes :=
  match n with
  | O => mret (if Z.land y 7 =? 0 then [] else [buf])
  | S n =>
      b ← bit y;
      let buf := Z.lor buf (if b : bool then bit_mask y else 0) in
      if Z.land y 7 =? 7 then rest ← pack_bits bit n (y + 1) 0; mret (buf :: rest)
      else pack_bits bit n (y + 1) buf
  end.

Definition encode_bits (bit : Z → T bool) (inlen outlen : Z) : T outcome :=
  let '(err, len) := der_length_bit_string inlen in
  if negb (is_ok err) then mret (Outcome err outlen None) else
  if outlen <? len then mret (Outcome CRYPT_BUFFER_OVERFLOW len None) else
  packed ← pack_bits bit (Z.to_nat inlen) 0 0;
  mret (put_header 3 (Z.shiftr (uint64 (inlen + 7)) 3 + 1) outlen (Z.land (8 - inlen) 7 :: packed)).

Definition der_encode_bit_string (inp : bytes) (inlen outlen : Z) : T outcome :=
  encode_bits (λ y, b ← rd inp y; mret (negb (b =? 0))) inlen outlen.

Definition der_encode_raw_bit_string (inp : bytes) (inlen outlen : Z) : T outcome :=
  encode_bits (λ y, b ← rd inp (y / 8); mret (has_flag b (Z.shiftl 1 (7 - y mod 8)))) inlen outlen.

(** ** octet *)

(** The common part of the decoders of strings of octets: [value] maps an octet
    of the input, -1 for one that is not allowed. *)
Fixpoint copy_octets (value : Z → Z) (n : nat) (inp : bytes) (x y : Z) (out : bytes) : T (Z * bytes) :=
  match n with
  | O => mret (CRYPT_OK, out)
  | S n =>
      b ← rd inp x;
      if value b =? - 1 then mret (CRYPT_INVALID_ARG, out) else
      out ← wr out y (value b);
      copy_octets value n inp (x + 1) (y + 1) out
  end.

Definition decode_octets (tag : Z) (value : Z → Z) (inp : bytes) (inlen : Z) (out : bytes) (outlen : Z)
    : T (Z * bytes * Z) :=
  if inlen <? 2 then mret (CRYPT_INVALID_PACKET, out, outlen) else
  b ← rd inp 0;
  if negb (Z.land b 0x1F =? tag) then mret (CRYPT_INVALID_PACKET, out, outlen) else
  '(err, y, len) ← der_decode_asn1_length (at_off inp 1) (inlen - 1);
  if negb (is_ok err) then mret (err, out, outlen) else
  let x := 1 + y in
  if outlen <? len then mret (CRYPT_BUFFER_OVERFLOW, out, len) else
  if uint64 (inlen - x) <? len then mret (CRYPT_INVALID_PACKET, out, outlen) else
  '(err, out) ← copy_octets value (Z.to_nat len) inp x 0 out;
  mret (err, out, if is_ok err then len else outlen).

Definition der_decode_octet_string := decode_octets 0x04 id.

Definition der_length_octet_string (noctets : Z) : Z * Z :=
  let '(err, x) := der_length_asn1_length noctets in
  if is_ok err then (CRYPT_OK, 1 + x + noctets) else (err, 0).

Definition der_encode_octet_string (inp : bytes) (inlen outlen : Z) : T outcome :=
  let '(err, len) := der_length_octet_string inlen in
  if negb (is_ok err) then mret (Outcome err outlen None) else
  if outlen <? len then mret (Outcome CRYPT_BUFFER_OVERFLOW len None) else
  octets ← rd_range inp 0 inlen;
  mret (put_header 0x04 inlen outlen octets).

(** ** object_identifier *)

Fixpoint oid_words (n : nat) (inp : bytes) (x y t : Z) (words : list Z) (outlen : Z) : T (Z * list Z) :=
  match n with
  | O => mret (y, words)
  | S n =>
      b ← rd inp x;
      let t := uint64 (Z.lor (Z.shiftl t 7) (Z.land b 0x7F)) in
      if has_flag b 0x80 then oid_words n inp (x + 1) y t words outlen else
      if outlen <=? y then oid_words n inp (x + 1) (y + 1) 0 words outlen else
      if y =? 0 then
        words ← wr words 0 (if t <=? 79 then t / 40 else 2);
        words ← wr words 1 (if t <=? 79 then t mod 40 else t - 80);
        oid_words n inp (x + 1) 2 0 words outlen
      else
        words ← wr words y t;
        oid_words n inp (x + 1) (y + 1) 0 words outlen
  end.

Definition der_decode_object_identifier (inp : bytes) (inlen : Z) (words : list Z) (outlen : Z)
    : T (Z * list Z * Z) :=
  if inlen <? 3 then mret (CRYPT_INVALID_PACKET, words, outlen) else
  if outlen <? 2 then mret (CRYPT_BUFFER_OVERFLOW, words, 2) else
  b ← rd inp 0;
  if negb (Z.land b 0x1F =? 6) then mret (CRYPT_INVALID_PACKET, words, outlen) else
  '(err, y, len) ← der_decode_asn1_length (at_off inp 1) (inlen - 1);
  if negb (is_ok err) then mret (err, words, outlen) else
  let x := 1 + y in
  if (len =? 0) || (uint64 (inlen - x) <? len) then mret (CRYPT_INVALID_PACKET, words, outlen) else
  '(y, words) ← oid_words (Z.to_nat len) inp x 0 0 words outlen;
  mret (if outlen <? y then CRYPT_BUFFER_OVERFLOW else CRYPT_OK, words, y).

(** The number of bits of the low 32 bits: 32 rounds are enough. *)
Fixpoint count_ones_up (rounds : nat) (x : Z) : Z :=
  match rounds with
  | O => 0
  | S rounds => if x =? 0 then 0 else 1 + count_ones_up rounds (Z.shiftr x 1)
  end.
Definition der_object_identifier_bits (x : Z) : Z := count_ones_up 32 (uint32 x).

(** The encoded size of one word. *)
Definition word_size (wordbuf : Z) : Z :=
  let t := der_object_identifier_bits wordbuf in
  t / 7 + (if t mod 7 =? 0 then 0 else 1) + (if wordbuf =? 0 then 1 else 0).

(** The words that are encoded: the first two are joined.  The array must hold
    [nwords] words. *)
Definition joined_words (words : list Z) (nwords : Z) : T (list Z) :=
  if Z.of_nat (length words) <? nwords then crash OutOfBounds else
  match take (Z.to_nat nwords) words with
  | w0 :: w1 :: rest => mret (uint64 (w0 * 40 + w1) :: rest)
  | _ => crash OutOfBounds
  end.

Definition oid_size (ws : list Z) : Z := foldl (λ z w, uint64 (z + word_size w)) 0 ws.

Definition der_length_object_identifier (words : list Z) (nwords : Z) : T (Z * Z) :=
  if nwords <? 2 then mret (CRYPT_INVALID_ARG, 0) else
  w0 ← rd words 0;
  w1 ← rd words 1;
  if (2 <? w0) || ((w0 <? 2) && (39 <? w1)) then mret (CRYPT_INVALID_ARG, 0) else
  ws ← joined_words words nwords;
  let z := oid_size ws in
  if z <? 128 then mret (CRYPT_OK, z + 2) else
  if z <? 256 then mret (CRYPT_OK, z + 3) else
  if z <? 65536 then mret (CRYPT_OK, z + 4) else
  mret (CRYPT_INVALID_ARG, 0).

(** The 7-bit groups of a word, lowest first, and the bytes in the order they
    are left in after the swap: five rounds are enough for 32 bits. *)
Fixpoint low_groups (rounds : nat) (t mask : Z) : bytes :=
  match rounds with
  | O => []
  | S rounds => if t =? 0 then [] else Z.lor (Z.land t 0x7F) mask :: low_groups rounds (Z.shiftr t 7) 0x80
  end.
Definition word_octets (wordbuf : Z) : bytes :=
  let t := uint32 wordbuf in
  if t =? 0 then [0] else reverse (low_groups 5 t 0).

Definition der_encode_object_identifier (words : list Z) (nwords outlen : Z) : T outcome :=
  '(err, x) ← der_length_object_identifier words nwords;
  if negb (is_ok err) then mret (Outcome err outlen None) else
  if outlen <? x then mret (Outcome CRYPT_BUFFER_OVERFLOW x None) else
  ws ← joined_words words nwords;
  mret (put_header 6 (oid_size ws) outlen (concat (word_octets <$> ws))).

(** ** ia5 and printable_string *)

(** The tables of characters: code and value of an entry, which agree in
    ASCII. *)
Definition same_codes (from n : Z) : list (Z * Z) := (λ v, (v, v)) <$> seqZ from n.
Definition ia5_table : list (Z * Z) :=
  same_codes 0 1 ++ same_codes 7 4 ++ same_codes 12 2 ++ same_codes 32 95.
Definition printable_table : list (Z * Z) :=
  same_codes 32 1 ++ same_codes 39 3 ++ same_codes 43 16 ++ same_codes 61 1 ++ same_codes 63 1 ++
  same_codes 65 26 ++ same_codes 97 26.

Fixpoint find_entry (key out : Z * Z → Z) (tab : list (Z * Z)) (v : Z) : Z :=
  match tab with
  | [] => - 1
  | e :: tab => if key e =? v then out e else find_entry key out tab v
  end.
Definition der_ia5_char_encode : Z → Z := find_entry fst snd ia5_table.
Definition der_ia5_value_decode : Z → Z := find_entry snd fst ia5_table.
Definition der_printable_char_encode : Z → Z := find_entry fst snd printable_table.
Definition der_printable_value_decode : Z → Z := find_entry snd fst printable_table.

Definition der_decode_ia5_string := decode_octets 0x16 der_ia5_value_decode.
Definition der_decode_printable_string := decode_octets 0x13 der_printable_value_decode.

Definition length_chars (encode : Z → Z) (octets : bytes) (noctets : Z) : T (Z * Z) :=
  l ← rd_range octets 0 noctets;
  if existsb (λ c, encode c =? - 1) l then mret (CRYPT_INVALID_ARG, 0) else
  mret (der_length_octet_string noctets).
Definition der_length_ia5_string := length_chars der_ia5_char_encode.
Definition der_length_printable_string := length_chars der_printable_char_encode.

Definition encode_chars (tag : Z) (encode : Z → Z) (inp : bytes) (inlen outlen : Z) : T outcome :=
  '(err, len) ← length_chars encode inp inlen;
  if negb (is_ok err) then mret (Outcome err outlen None) else
  if outlen <? len then mret (Outcome CRYPT_BUFFER_OVERFLOW len None) else
  l ← rd_range inp 0 inlen;
  mret (put_header tag inlen outlen (encode <$> l)).
Definition der_encode_ia5_string := encode_chars 0x16 der_ia5_char_encode.
Definition der_encode_printable_string := encode_chars 0x13 der_printable_char_encode.

(** ** utf8

    wchar_t is a signed type of 32 bits. *)
Definition der_utf8_charsize (c : Z) : Z :=
  if c <=? 0x7F then 1 else if c <=? 0x7FF then 2 else if c <=? 0xFFFF then 3 else 4.
Definition der_utf8_valid_char (c : Z) : bool := negb ((0x10FFFF <? c) || (c <? 0)).

Definition utf8_size (l : list Z) : Z := foldl (λ len c, uint64 (len + der_utf8_charsize c)) 0 l.

Definition der_length_utf8_string (inp : list Z) (noctets : Z) : T (Z * Z) :=
  l ← rd_range inp 0 noctets;
  if negb (forallb der_utf8_valid_char l) then mret (CRYPT_INVALID_ARG, 0) else
  let len := utf8_size l in
  let '(err, x) := der_length_asn1_length len in
  mret (if is_ok err then (CRYPT_OK, 1 + x + len) else (err, 0)).

Definition utf8_octets (c : Z) : bytes :=
  let tail s := Z.lor 0x80 (Z.land (Z.shiftr c s) 0x3F) in
  match der_utf8_charsize c with
  | 1 => [uint8 c]
  | 2 => [Z.lor 0xC0 (Z.land (Z.shiftr c 6) 0x1F); tail 0]
  | 3 => [Z.lor 0xE0 (Z.land (Z.shiftr c 12) 0x0F); tail 6; tail 0]
  | _ => [Z.lor 0xF0 (Z.land (Z.shiftr c 18) 0x07); tail 12; tail 6; tail 0]
  end.

Definition der_encode_utf8_string (inp : list Z) (inlen outlen : Z) : T outcome :=
  l ← rd_range inp 0 inlen;
  if negb (forallb der_utf8_valid_char l) then mret (Outcome CRYPT_INVALID_ARG outlen None) else
  let len := utf8_size l in
  let '(err, x) := der_length_asn1_length len in
  if negb (is_ok err) then mret (Outcome err outlen None) else
  let x := uint64 (x + (len + 1)) in
  if outlen <? x then mret (Outcome CRYPT_BUFFER_OVERFLOW x None) else
  mret (put_header 0x0C len outlen (concat (utf8_octets <$> l))).

(** The leading ones of the first byte (at most five), and the byte shifted. *)
Fixpoint leading_ones (rounds : nat) (tmp z : Z) : Z * Z :=
  match rounds with
  | O => (z, tmp)
  | S rounds => if has_flag tmp 0x80 then leading_ones rounds (Z.land (Z.shiftl tmp 1) 0xFF) (z + 1) else (z, tmp)
  end.

(** The remaining bytes of a character; [None] for a byte that does not
    continue it. *)
Fixpoint utf8_tail (n : nat) (inp : bytes) (x tmp : Z) : T (option (Z * Z)) :=
  match n with
  | O => mret (Some (x, tmp))
  | S n =>
      b ← rd inp x;
      if negb (Z.land b 0xC0 =? 0x80) then mret None else
      utf8_tail n inp (x + 1) (Z.lor (Z.shiftl tmp 6) (Z.land b 0x3F))
  end.

(** The loop over characters; it ends at [inlen], which is the end of the input
    and not of the string.  Each round reads a byte, so that the rounds are
    bounded by the memory. *)
Fixpoint utf8_chars (rounds : nat) (inp : bytes) (inlen x y : Z) (out : list Z) (outlen : Z)
    : T (Z * Z * list Z) :=
  if inlen <=? x then mret (CRYPT_OK, y, out) else
  match rounds with
  | O => crash OutOfFuel
  | S rounds =>
      tmp ← rd inp x;
      let x := x + 1 in
      let '(z, tmp) := leading_ones 5 tmp 0 in
      if (z =? 1) || (4 <? z) || (inlen <? uint64 (x + (z - 1))) then mret (CRYPT_INVALID_PACKET, y, out) else
      r ← utf8_tail (Z.to_nat (if 1 <? z then z - 1 else z)) inp x (Z.shiftr tmp z);
      match r with
      | None => mret (CRYPT_INVALID_PACKET, y, out)
      | Some (x, tmp) =>
          out ← (if y <? outlen then wr out y tmp else mret out);
          utf8_chars rounds inp inlen x (y + 1) out outlen
      end
  end.

Definition der_decode_utf8_string (inp : bytes) (inlen : Z) (out : list Z) (outlen : Z) : T (Z * list Z * Z) :=
  if inlen <? 2 then mret (CRYPT_INVALID_PACKET, out, outlen) else
  b ← rd inp 0;
  if negb (Z.land b 0x1F =? 0x0C) then mret (CRYPT_INVALID_PACKET, out, outlen) else
  '(err, y, len) ← der_decode_asn1_length (at_off inp 1) (inlen - 1);
  if negb (is_ok err) then mret (err, out, outlen) else
  let x := 1 + y in
  if uint64 (inlen - x) <? len then mret (CRYPT_INVALID_PACKET, out, outlen) else
  '(err, y, out) ← utf8_chars (S (length inp)) inp inlen x 0 out outlen;
  if negb (is_ok err) then mret (err, out, outlen) else
  mret (if outlen <? y then CRYPT_BUFFER_OVERFLOW else CRYPT_OK, out, y).
End der.
