(* ===== verification/DerSeq.v ===== *)
(** * libtomcrypt: DER sequences

    src/pk/asn1/der/sequence and der_decode_custom_type_ex (custom_type), which
    decodes sequences.  An [item] is an ltc_asn1_list: the type, the object its
    data pointer leads to, the size and the two flags.  Data pointers lead to
    distinct objects, so that the object is part of the item.

    The model has the types below.  Sequences are ordered (the flag
    LTC_DER_SEQ_ORDERED, which all callers of a sequence set).  Times, teletex
    strings, sets, choices and custom types are left out: no template of the RSA
    code has them. *)

From S2P Require Import Prelude Ltc LtcRsa Der.

Inductive ltc_asn1_type :=
  | LTC_ASN1_EOL | LTC_ASN1_BOOLEAN | LTC_ASN1_INTEGER | LTC_ASN1_SHORT_INTEGER | LTC_ASN1_BIT_STRING
  | LTC_ASN1_OCTET_STRING | LTC_ASN1_NULL | LTC_ASN1_OBJECT_IDENTIFIER | LTC_ASN1_IA5_STRING
  | LTC_ASN1_PRINTABLE_STRING | LTC_ASN1_UTF8_STRING | LTC_ASN1_SEQUENCE | LTC_ASN1_RAW_BIT_STRING.

#[export] Instance ltc_asn1_type_eq_dec : EqDecision ltc_asn1_type.
Proof. solve_decision. Defined.

(** What a data pointer leads to. *)
Inductive asn1_data (A : Type) :=
  | NoData                    (** NULL *)
  | IntAt (v : Z)             (** an int *)
  | MpAt (v : Z)              (** a number of the math library *)
  | LongAt (v : Z)            (** an unsigned long *)
  | BufAt (b : bytes)         (** an array of unsigned char *)
  | WordsAt (w : list Z)      (** an array of unsigned long *)
  | WideAt (w : list Z)       (** an array of wchar_t *)
  | ItemsAt (l : list A).     (** an array of ltc_asn1_list *)
Arguments NoData {_}. Arguments IntAt {_} _. Arguments MpAt {_} _. Arguments LongAt {_} _.
Arguments BufAt {_} _. Arguments WordsAt {_} _. Arguments WideAt {_} _. Arguments ItemsAt {_} _.

Inductive item :=
  Item (it_type : ltc_asn1_type) (it_data : asn1_data item) (it_size it_used it_optional : Z).

Definition it_type (i : item) : ltc_asn1_type := let 'Item t _ _ _ _ := i in t.
Definition it_data (i : item) : asn1_data item := let 'Item _ d _ _ _ := i in d.
Definition it_size (i : item) : Z := let 'Item _ _ s _ _ := i in s.
Definition it_used (i : item) : Z := let 'Item _ _ _ u _ := i in u.
Definition it_optional (i : item) : Z := let 'Item _ _ _ _ o := i in o.
Definition set_used (u : Z) (i : item) : item := let 'Item t d s _ o := i in Item t d s u o.

(** LTC_SET_ASN1 *)
Definition SET_ASN1 (t : ltc_asn1_type) (d : asn1_data item) (size : Z) : item := Item t d size 0 0.

Definition is_eol (t : ltc_asn1_type) : bool := bool_decide (t = LTC_ASN1_EOL).

(** LTC_DER_SEQ_STRICT *)
Definition LTC_DER_SEQ_RELAXED : bool := false.
Definition LTC_DER_SEQ_STRICT : bool := true.

Section sequence.
Context `{HLtc : LtcEnv}.
Abbreviation T := (M ltc).

(** ** der_length_sequence *)
Section loops.
Variable length_item : item → T (Z * Z).

(** The loop over the items: the code and the sum of the lengths. *)
Fixpoint length_items (l : list item) (n : nat) (y : Z) : T (Z * Z) :=
  match n with
  | O => mret (CRYPT_OK, y)
  | S n =>
      match l with
      | [] => crash OutOfBounds
      | i :: l =>
          if is_eol (it_type i) then mret (CRYPT_OK, y) else
          if (it_used i =? 0) && negb (it_optional i =? 0) then length_items l n y else
          '(err, x) ← length_item i;
          if negb (is_ok err) then mret (err, y) else length_items l n (uint64 (y + x))
      end
  end.
End loops.

(** From the sum: the code, the length with the header, the sum. *)
Definition sequence_total (r : Z * Z) : Z * Z * Z :=
  let '(err, y) := r in
  if negb (is_ok err) then (err, 0, 0) else
  let '(err, x) := der_length_asn1_length y in
  if negb (is_ok err) then (err, 0, 0) else (CRYPT_OK, uint64 (y + x + 1), y).

Fixpoint length_item (i : item) : T (Z * Z) :=
  let 'Item type data size _ _ := i in
  match type, data with
  | LTC_ASN1_BOOLEAN, _ => mret der_length_boolean
  | LTC_ASN1_INTEGER, MpAt v => mret (der_length_integer v)
  | LTC_ASN1_SHORT_INTEGER, LongAt v => mret (der_length_short_integer v)
  | LTC_ASN1_BIT_STRING, _ => mret (der_length_bit_string size)
  | LTC_ASN1_RAW_BIT_STRING, _ => mret (der_length_bit_string size)
  | LTC_ASN1_OCTET_STRING, _ => mret (der_length_octet_string size)
  | LTC_ASN1_NULL, _ => mret (CRYPT_OK, 2)
  | LTC_ASN1_OBJECT_IDENTIFIER, WordsAt w => der_length_object_identifier w size
  | LTC_ASN1_IA5_STRING, BufAt b => der_length_ia5_string b size
  | LTC_ASN1_PRINTABLE_STRING, BufAt b => der_length_printable_string b size
  | LTC_ASN1_UTF8_STRING, WideAt w => der_length_utf8_string w size
  | LTC_ASN1_SEQUENCE, ItemsAt l =>
      r ← length_items length_item l (Z.to_nat size) 0;
      let '(err, outlen, _) := sequence_total r in mret (err, outlen)
  | LTC_ASN1_EOL, _ => mret (CRYPT_INVALID_ARG, 0)
  | _, _ => crash BadAccess
  end.

(** [der_length_sequence_ex]: the code, [*outlen] and [*payloadlen]. *)
Definition der_length_sequence_ex (l : list item) (inlen : Z) : T (Z * Z * Z) :=
  r ← length_items length_item l (Z.to_nat inlen) 0;
  mret (sequence_total r).

(** ** der_encode_sequence_ex *)
Section loops.
Variable encode_item : item → Z → T outcome.

(** The loop over the items, with the room left: a code other than CRYPT_OK and
    the room where it stopped, or the bytes of the items. *)
Fixpoint encode_items (l : list item) (n : nat) (outlen : Z) : T (Z * Z + bytes) :=
  match n with
  | O => mret (inr [])
  | S n =>
      match l with
      | [] => crash OutOfBounds
      | i :: l =>
          if is_eol (it_type i) then mret (inr []) else
          o ← encode_item i outlen;
          match oc_out o with
          | None => mret (inl (oc_err o, outlen))
          | Some out =>
              r ← encode_items l n (uint64 (outlen - oc_outlen o));
              mret (match r with inl e => inl e | inr rest => inr (out ++ rest) end)
          end
      end
  end.
End loops.

(** The frame around the loop; [lengths] is what der_length_sequence_ex
    returned, [body] the loop, whose room is [*outlen] when an item fails.  NULL
    items are written without a look at the room: the length was checked for the
    whole sequence. *)
Definition sequence_frame (lengths : Z * Z * Z) (outlen : Z) (body : Z → T (Z * Z + bytes)) : T outcome :=
  let '(err, y, z) := lengths in
  if negb (is_ok err) then mret (Outcome CRYPT_INVALID_ARG outlen None) else
  if outlen <? y then mret (Outcome CRYPT_BUFFER_OVERFLOW y None) else
  let o := der_encode_asn1_length z (uint64 (outlen - 1)) in
  match oc_out o with
  | None => mret (Outcome (oc_err o) outlen None)
  | Some hdr =>
      let x := 1 + Z.of_nat (length hdr) in
      r ← body (uint64 (outlen - x));
      match r with
      | inl (err, outlen) => mret (Outcome err outlen None)
      | inr items => let out := 0x30 :: hdr ++ items in mret (Outcome CRYPT_OK (Z.of_nat (length out)) (Some out))
      end
  end.

Fixpoint encode_item (i : item) (outlen : Z) : T outcome :=
  let 'Item type data size _ _ := i in
  match type, data with
  | LTC_ASN1_BOOLEAN, IntAt v => mret (der_encode_boolean v outlen)
  | LTC_ASN1_INTEGER, MpAt v => der_encode_integer v outlen
  | LTC_ASN1_SHORT_INTEGER, LongAt v => mret (der_encode_short_integer v outlen)
  | LTC_ASN1_BIT_STRING, BufAt b => der_encode_bit_string b size outlen
  | LTC_ASN1_RAW_BIT_STRING, BufAt b => der_encode_raw_bit_string b size outlen
  | LTC_ASN1_OCTET_STRING, BufAt b => der_encode_octet_string b size outlen
  | LTC_ASN1_NULL, _ => mret (Outcome CRYPT_OK 2 (Some [5; 0]))
  | LTC_ASN1_OBJECT_IDENTIFIER, WordsAt w => der_encode_object_identifier w size outlen
  | LTC_ASN1_IA5_STRING, BufAt b => der_encode_ia5_string b size outlen
  | LTC_ASN1_PRINTABLE_STRING, BufAt b => der_encode_printable_string b size outlen
  | LTC_ASN1_UTF8_STRING, WideAt w => der_encode_utf8_string w size outlen
  | LTC_ASN1_SEQUENCE, ItemsAt l =>
      lengths ← der_length_sequence_ex l size;
      sequence_frame lengths outlen (encode_items encode_item l (Z.to_nat size))
  | LTC_ASN1_EOL, _ => mret (Outcome CRYPT_INVALID_ARG outlen None)
  | _, _ => crash BadAccess
  end.

(** [der_encode_sequence]: der_encode_sequence_ex for LTC_ASN1_SEQUENCE. *)
Definition der_encode_sequence (l : list item) (inlen outlen : Z) : T outcome :=
  lengths ← der_length_sequence_ex l inlen;
  sequence_frame lengths outlen (encode_items encode_item l (Z.to_nat inlen)).

(** ** der_decode_custom_type_ex *)

(** What becomes of one item: it was read and [z] bytes are behind it, it was
    refused (an optional item is then skipped), or decoding fails. *)
Inductive verdict := Decoded (z : Z) | Refused (err : Z) | Failed (err : Z).

(** The verdict of a decoder followed by the computation of the length. *)
Definition advance (err : Z) (len : T (Z * Z)) : T verdict :=
  if negb (is_ok err) then mret (Refused err) else
  '(err, z) ← len;
  mret (if is_ok err then Decoded z else Failed err).

(** The first [n] items marked as unused. *)
Definition unused (n : nat) (l : list item) : list item := (set_used 0 <$> take n l) ++ drop n l.

Section loops.
Variable decode_item : item → bytes → Z → Z → T (verdict * item).

(** The loop over the items: the code, the items, the offset and the length
    left.  The flags of all items are cleared before the loop, which shows in
    those that are not decoded. *)
Fixpoint decode_items (l : list item) (n : nat) (inp : bytes) (x inlen : Z) : T (Z * list item * Z * Z) :=
  match n with
  | O => mret (CRYPT_OK, l, x, inlen)
  | S n =>
      match l with
      | [] => crash OutOfBounds
      | i :: l =>
          if is_eol (it_type i) then mret (CRYPT_OK, unused (S n) (i :: l), x, inlen) else
          '(v, i) ← decode_item i inp x inlen;
          let next i x inlen :=
            '(err, l, x, inlen) ← decode_items l n inp x inlen;
            mret (err, i :: l, x, inlen) in
          match v with
          | Decoded z => next (set_used 1 i) (uint64 (x + z)) (uint64 (inlen - z))
          | Refused err => if it_optional i =? 0 then mret (err, set_used 0 i :: unused n l, x, inlen)
                           else next (set_used 0 i) x inlen
          | Failed err => mret (err, set_used 0 i :: unused n l, x, inlen)
          end
      end
  end.
End loops.

(** The header of a sequence: the code, the offset of the contents and their
    length. *)
Definition sequence_header (inp : bytes) (inlen : Z) : T (Z * Z * Z) :=
  if inlen <? 2 then mret (CRYPT_INVALID_PACKET, 0, 0) else
  b ← rd inp 0;
  if negb (b =? 0x30) && negb (b =? 0x31) then mret (CRYPT_INVALID_PACKET, 0, 0) else
  '(err, y, blksize) ← der_decode_asn1_length (at_off inp 1) (inlen - 1);
  if negb (is_ok err) then mret (err, 0, 0) else
  let x := 1 + y in
  if uint64 (inlen - x) <? blksize then mret (CRYPT_INVALID_PACKET, 0, 0) else
  mret (CRYPT_OK, x, blksize).

Definition missing (i : item) : bool := (it_used i =? 0) && (it_optional i =? 0).

(** Whether everything was decoded.  A nested sequence that was too long does
    not matter: the code treats both values of seq_err alike. *)
Definition sequence_end (strict : bool) (items : list item) (blksize x inlen : Z) : Z :=
  if existsb missing items then CRYPT_INVALID_PACKET else
  if (blksize =? x) && (inlen =? 0) then CRYPT_OK else
  if negb (blksize =? x) && strict then CRYPT_INVALID_PACKET else CRYPT_INPUT_TOO_LONG.

(** The frame around the loop, for [outlen] items [l]. *)
Definition sequence_body (strict : bool) (inp : bytes) (inlen : Z) (l : list item) (outlen : Z)
    (loop : list item → nat → bytes → Z → Z → T (Z * list item * Z * Z)) : T (Z * list item) :=
  '(err, x, blksize) ← sequence_header inp inlen;
  if negb (is_ok err) then mret (err, l) else
  let n := Z.to_nat (int32 outlen) in
  if (length l <? n)%nat then crash OutOfBounds else
  '(err, l, x', inlen) ← loop l n inp x (inlen - x);
  if negb (is_ok err) then mret (err, l) else
  mret (sequence_end strict (take n l) (uint64 (blksize + x)) x' inlen, l).

Fixpoint decode_item (strict : bool) (i : item) (inp : bytes) (x inlen : Z) {struct i} : T (verdict * item) :=
  let 'Item type data size used optional := i in
  let at_x := at_off inp x in
  let sized (err : Z) (d : asn1_data item) (size : Z) (len : T (Z * Z)) : T (verdict * item) :=
    v ← advance err len; mret (v, Item type d size used optional) in
  match type, data with
  | LTC_ASN1_BOOLEAN, IntAt v =>
      '(err, v) ← der_decode_boolean at_x inlen v;
      sized err (IntAt v) size (mret der_length_boolean)
  | LTC_ASN1_INTEGER, MpAt v =>
      '(err, v) ← der_decode_integer at_x inlen v;
      sized err (MpAt v) size (mret (der_length_integer v))
  | LTC_ASN1_SHORT_INTEGER, LongAt v =>
      '(err, v) ← der_decode_short_integer at_x inlen v;
      sized err (LongAt v) size (mret (der_length_short_integer v))
  | LTC_ASN1_BIT_STRING, BufAt b =>
      '(err, b, n) ← der_decode_bit_string at_x inlen b size;
      sized err (BufAt b) (if is_ok err then n else size) (mret (der_length_bit_string n))
  | LTC_ASN1_RAW_BIT_STRING, BufAt b =>
      '(err, b, n) ← der_decode_raw_bit_string at_x inlen b size;
      sized err (BufAt b) (if is_ok err then n else size) (mret (der_length_bit_string n))
  | LTC_ASN1_OCTET_STRING, BufAt b =>
      '(err, b, n) ← der_decode_octet_string at_x inlen b size;
      sized err (BufAt b) (if is_ok err then n else size) (mret (der_length_octet_string n))
  | LTC_ASN1_NULL, d =>
      if inlen <? 2 then sized CRYPT_INVALID_PACKET d size (mret (CRYPT_OK, 2)) else
      b0 ← rd at_x 0;
      if negb (b0 =? 5) then sized CRYPT_INVALID_PACKET d size (mret (CRYPT_OK, 2)) else
      b1 ← rd at_x 1;
      if negb (b1 =? 0) then sized CRYPT_INVALID_PACKET d size (mret (CRYPT_OK, 2)) else
      sized CRYPT_OK d size (mret (CRYPT_OK, 2))
  | LTC_ASN1_OBJECT_IDENTIFIER, WordsAt w =>
      '(err, w, n) ← der_decode_object_identifier at_x inlen w size;
      sized err (WordsAt w) (if is_ok err then n else size) (der_length_object_identifier w n)
  | LTC_ASN1_IA5_STRING, BufAt b =>
      '(err, b, n) ← der_decode_ia5_string at_x inlen b size;
      sized err (BufAt b) (if is_ok err then n else size) (der_length_ia5_string b n)
  | LTC_ASN1_PRINTABLE_STRING, BufAt b =>
      '(err, b, n) ← der_decode_printable_string at_x inlen b size;
      sized err (BufAt b) (if is_ok err then n else size) (der_length_printable_string b n)
  | LTC_ASN1_UTF8_STRING, WideAt w =>
      '(err, w, n) ← der_decode_utf8_string at_x inlen w size;
      sized err (WideAt w) (if is_ok err then n else size) (der_length_utf8_string w n)
  | LTC_ASN1_SEQUENCE, ItemsAt l =>
      b ← rd at_x 0;
      if negb (Z.land b 0x3F =? 0x30) then mret (Failed CRYPT_INVALID_PACKET, i) else
      '(err, l) ← sequence_body strict at_x inlen l size (decode_items (decode_item strict));
      let err := if err =? CRYPT_INPUT_TOO_LONG then CRYPT_OK else err in
      sized err (ItemsAt l) size ('(err, z, _) ← der_length_sequence_ex l size; mret (err, z))
  | LTC_ASN1_EOL, _ => mret (Failed CRYPT_INVALID_ARG, i)
  | _, _ => crash BadAccess
  end.

(** [der_decode_sequence_ex]: der_decode_custom_type_ex without a root. *)
Definition der_decode_sequence_ex (strict : bool) (inp : bytes) (inlen : Z) (l : list item) (outlen : Z)
    : T (Z * list item) :=
  sequence_body strict inp inlen l outlen (decode_items (decode_item strict)).

Definition der_decode_sequence := der_decode_sequence_ex LTC_DER_SEQ_RELAXED.

(** ** Variable arguments

    The arguments of der_decode_sequence_multi and der_encode_sequence_multi,
    as items that LTC_SET_ASN1 makes; LTC_ASN1_EOL ends the list. *)
Fixpoint before_eol (args : list item) : list item :=
  match args with
  | [] => []
  | a :: args => if is_eol (it_type a) then [] else a :: before_eol args
  end.

(** The code, and the arguments with what was stored through their pointers. *)
Definition der_decode_sequence_multi (inp : bytes) (inlen : Z) (args : list item) : T (Z * list item) :=
  let l := before_eol args in
  let x := Z.of_nat (length l) in
  if x =? 0 then mret (CRYPT_NOP, l) else
  ok ← xmalloc;
  if negb ok then mret (CRYPT_MEM, l) else
  der_decode_sequence_ex LTC_DER_SEQ_RELAXED inp inlen l x.

Definition der_encode_sequence_multi (outlen : Z) (args : list item) : T outcome :=
  let l := before_eol args in
  let x := Z.of_nat (length l) in
  if x =? 0 then mret (Outcome CRYPT_NOP outlen None) else
  ok ← xmalloc;
  if negb (ok : bool) then mret (Outcome CRYPT_MEM outlen None) else
  der_encode_sequence l x outlen.
End sequence.
