(* ===== verification/LtcKeys.v ===== *)
(** * libtomcrypt: encoded RSA keys

    src/pk/rsa/rsa_import.c, rsa_export.c and rsa_key.c, with the encoding of
    public keys in X.509 (src/pk/asn1/x509) and the names of algorithms
    (src/pk/asn1/oid).  Keys are exported with parameters of type NULL, the only
    ones that RSA has. *)

From S2P Require Import Prelude Ltc LtcRsa Der DerSeq.

Definition PK_STD : Z := 0x1000.

(** ** asn1/oid *)
Inductive ltc_oid_id := PKA_RSA | PKA_DSA | PKA_EC | PKA_EC_PRIMEF | PKA_X25519 | PKA_ED25519.

Definition chars (s : string) : bytes := (λ c, Z.of_N (Ascii.N_of_ascii c)) <$> String.list_ascii_of_string s.

Definition pk_get_oid (id : ltc_oid_id) : bytes :=
  chars match id with
  | PKA_RSA => "1.2.840.113549.1.1.1"
  | PKA_DSA => "1.2.840.10040.4.1"
  | PKA_EC => "1.2.840.10045.2.1"
  | PKA_EC_PRIMEF => "1.2.840.10045.1.1"
  | PKA_X25519 => "1.3.101.110"
  | PKA_ED25519 => "1.3.101.112"
  end.

(** The loop over the characters of a name: the code, the last index and the
    words. *)
Fixpoint str_words (str : bytes) (j limit : Z) (oid : list Z) : Z * Z * list Z :=
  match str with
  | [] => (CRYPT_OK, j, oid)
  | c :: str =>
      if c =? 46 then str_words str (j + 1) limit oid else
      if (48 <=? c) && (c <=? 57) then
        if limit <=? j then str_words str j limit oid else
        let old := default 0 (oid !! Z.to_nat j) in
        let new := uint64 (old * 10 + (c - 48)) in
        let oid := <[Z.to_nat j := new]> oid in
        if new <? old then (CRYPT_OVERFLOW, j, oid) else str_words str j limit oid
      else (CRYPT_ERROR, j, oid)
  end.

(** [pk_oid_str_to_num] into an array of [limit] words: the code, the words and
    [*oidlen]. *)
Definition pk_oid_str_to_num (str : bytes) (limit : Z) : Z * list Z * Z :=
  let oid := replicate (Z.to_nat limit) 0 in
  if (length str =? 0)%nat then (CRYPT_OK, oid, 0) else
  let '(err, j, oid) := str_words str 0 limit oid in
  if negb (is_ok err) then (err, oid, 0) else
  if j =? 0 then (CRYPT_ERROR, oid, 0) else
  if limit <=? j then (CRYPT_BUFFER_OVERFLOW, oid, j) else
  (CRYPT_OK, oid, j + 1).

(** The characters of a name, written from the last to the first into an array
    of 256: [None] when it is full. *)
Definition push_char (c : Z) (acc : bytes) : option bytes :=
  if (256 <=? S (length acc))%nat then None else Some (c :: acc).
(** The digits of a number; 20 rounds are enough for 64 bits. *)
Fixpoint push_digits (rounds : nat) (j : Z) (acc : bytes) : option bytes :=
  match rounds with
  | O => Some acc
  | S rounds => if j =? 0 then Some acc else acc ← push_char (48 + j mod 10) acc; push_digits rounds (j / 10) acc
  end.
Fixpoint push_words (rev_oid : list Z) (acc : bytes) : option bytes :=
  match rev_oid with
  | [] => Some acc
  | j :: oid =>
      acc ← (if j =? 0 then push_char 48 acc else push_digits 20 j acc);
      match oid with [] => Some acc | _ => acc ← push_char 46 acc; push_words oid acc end
  end.

Section keys.
Context `{HLtc : LtcEnv}.
Abbreviation T := (M ltc).

(** The code and the string. *)
Definition pk_oid_num_to_str (oid : list Z) (oidlen outlen : Z) : T (Z * bytes) :=
  words ← rd_range oid 0 oidlen;
  match push_words (reverse words) [] with
  | None => mret (CRYPT_ERROR, [])
  | Some str => if outlen <? Z.of_nat (length str) + 1 then mret (CRYPT_BUFFER_OVERFLOW, []) else mret (CRYPT_OK, str)
  end.

Definition pk_oid_cmp_with_ulong (o1 : bytes) (o2 : list Z) (o2size : Z) : T Z :=
  '(err, str) ← pk_oid_num_to_str o2 o2size 256;
  if negb (is_ok err) then mret err else
  mret (if bytes_eqb o1 str then CRYPT_OK else CRYPT_PK_INVALID_TYPE).

Definition pk_oid_cmp_with_asn1 (o1 : bytes) (o2 : item) : T Z :=
  match o2 with
  | Item LTC_ASN1_OBJECT_IDENTIFIER (WordsAt w) size _ _ => pk_oid_cmp_with_ulong o1 w size
  | Item LTC_ASN1_OBJECT_IDENTIFIER _ _ _ _ => crash BadAccess
  | _ => mret CRYPT_INVALID_ARG
  end.

(** ** asn1/x509 *)

(** The template of a SubjectPublicKeyInfo.  The words are not initialised; none
    is read that was not written. *)
Definition public_key_info (inlen : Z) (tmpbuf : bytes) : list item :=
  [SET_ASN1 LTC_ASN1_SEQUENCE
     (ItemsAt [SET_ASN1 LTC_ASN1_OBJECT_IDENTIFIER (WordsAt (replicate 16 0)) 16; SET_ASN1 LTC_ASN1_NULL NoData 0]) 2;
   SET_ASN1 LTC_ASN1_RAW_BIT_STRING (BufAt tmpbuf) (uint64 (inlen * 8))].

(** The code, the buffer and [*public_key_len]. *)
Definition x509_decode_subject_public_key_info (inp : bytes) (inlen : Z) (algorithm : ltc_oid_id)
    (public_key : bytes) (public_key_len : Z) : T (Z * bytes * Z) :=
  LTC_ARGCHK (negb (inlen =? 0));;
  ok ← xmalloc;
  if negb (ok : bool) then mret (CRYPT_MEM, public_key, public_key_len) else
  '(err, l) ← der_decode_sequence inp inlen (public_key_info inlen (replicate (Z.to_nat inlen) 0)) 2;
  if negb (is_ok err) then mret (err, public_key, public_key_len) else
  match l with
  | [Item _ (ItemsAt (alg_id :: _)) _ _ _; Item _ (BufAt data) size _ _] =>
      err ← pk_oid_cmp_with_asn1 (pk_get_oid algorithm) alg_id;
      if negb (is_ok err) then mret (err, public_key, public_key_len) else
      let len := size / 8 in
      if public_key_len <? len then mret (CRYPT_BUFFER_OVERFLOW, public_key, len) else
      key ← rd_range data 0 len;
      if Z.of_nat (length public_key) <? len then crash OutOfBounds else
      mret (CRYPT_OK, overwrite 0 key public_key, len)
  | _ => crash BadAccess
  end.

Definition x509_encode_subject_public_key_info (outlen : Z) (algorithm : ltc_oid_id)
    (public_key : bytes) (public_key_len : Z) : T outcome :=
  let '(err, oid, oidlen) := pk_oid_str_to_num (pk_get_oid algorithm) 16 in
  if negb (is_ok err) then mret (Outcome err outlen None) else
  der_encode_sequence_multi outlen
    [SET_ASN1 LTC_ASN1_SEQUENCE
       (ItemsAt [SET_ASN1 LTC_ASN1_OBJECT_IDENTIFIER (WordsAt oid) oidlen; SET_ASN1 LTC_ASN1_NULL NoData 0]) 2;
     SET_ASN1 LTC_ASN1_RAW_BIT_STRING (BufAt public_key) (uint64 (public_key_len * 8));
     SET_ASN1 LTC_ASN1_EOL NoData 0].

(** ** rsa_key *)

(** The numbers of a key: pointers to memory that was released, NULL, or
    allocated numbers. *)
Inductive rsa_slots := Dangling | Released | Live (key : rsa_key).

Definition blank_key : rsa_key := RsaKey PK_PUBLIC 0 0 0 0 0 0 0 0.

(** When an allocation fails, ltc_init_multi releases the numbers before it and
    leaves the pointers. *)
Definition rsa_init : T (Z * rsa_slots) :=
  err ← ltc_init_multi 8;
  mret (err, if is_ok err then Live blank_key else Dangling).

(** mp_cleanup_multi skips NULL and leaves NULL. *)
Definition rsa_free (k : rsa_slots) : T rsa_slots :=
  match k with Dangling => crash BadAccess | _ => mret Released end.

(** ** rsa_import *)
Definition integer_args (ns : list Z) : list item :=
  ((λ n, SET_ASN1 LTC_ASN1_INTEGER (MpAt n) 1) <$> ns) ++ [SET_ASN1 LTC_ASN1_EOL NoData 0].
(** The numbers the pointers of these arguments lead to. *)
Definition numbers (l : list item) : list Z :=
  (λ i, match it_data i with MpAt n => n | _ => 0 end) <$> l.

(** A sequence of integers into the numbers [ns]. *)
Definition decode_integers (inp : bytes) (inlen : Z) (ns : list Z) : T (Z * list Z) :=
  '(err, l) ← der_decode_sequence_multi inp inlen (integer_args ns);
  mret (err, numbers l).

(** LBL_ERR *)
Definition import_failed (err : Z) (k : rsa_slots) : T (Z * rsa_slots) := k ← rsa_free k; mret (err, k).

Definition import_public (inp : bytes) (inlen : Z) (N : Z) : T (Z * rsa_slots) :=
  '(err, ns) ← decode_integers inp inlen [N; 0];
  match ns with
  | [N; e] =>
      let k := RsaKey PK_PUBLIC e 0 N 0 0 0 0 0 in
      if negb (is_ok err) then import_failed err (Live k) else mret (CRYPT_OK, Live k)
  | _ => crash BadAccess
  end.

Definition import_private (inp : bytes) (inlen : Z) (N : Z) : T (Z * rsa_slots) :=
  ok ← xmalloc;
  if negb (ok : bool) then import_failed CRYPT_MEM (Live blank_key) else
  '(err, ns) ← decode_integers inp inlen [0; N; 0; 0; 0; 0; 0; 0; 0];
  match ns with
  | [zero; N; e; d; p; q; dP; dQ; qP] =>
      let k := RsaKey PK_PRIVATE e d N p q qP dP dQ in
      if negb (is_ok err) then import_failed err (Live k) else mret (CRYPT_OK, Live k)
  | _ => crash BadAccess
  end.

(** PKCS #1: the first number tells a private key (version 0) from a public
    one. *)
Definition import_pkcs1 (inp : bytes) (inlen : Z) : T (Z * rsa_slots) :=
  '(err, ns) ← decode_integers inp inlen [0];
  let N := default 0 (head ns) in
  if negb (is_ok err) && negb (err =? CRYPT_INPUT_TOO_LONG) then import_failed err (Live blank_key) else
  if N =? 0 then import_private inp inlen N else
  if N =? 1 then import_failed CRYPT_PK_INVALID_TYPE (Live blank_key) else
  import_public inp inlen N.

(** The key starts without numbers; the type of a key that is not returned is
    of no use. *)
Definition rsa_import (inp : bytes) (inlen : Z) : T (Z * rsa_slots) :=
  '(err, k) ← rsa_init;
  if negb (is_ok err) then mret (err, k) else
  ok ← xmalloc;
  if negb (ok : bool) then import_failed CRYPT_MEM k else
  '(err, tmpbuf, tmpbuf_len) ←
    x509_decode_subject_public_key_info inp inlen PKA_RSA (replicate (Z.to_nat inlen) 0) inlen;
  if is_ok err then import_public tmpbuf tmpbuf_len 0 else import_pkcs1 inp inlen.

(** ** rsa_export *)
Definition rsa_export (outlen type : Z) (key : rsa_key) : T outcome :=
  let std := has_flag type PK_STD in
  let type := Z.ldiff type PK_STD in
  if (type =? PK_PRIVATE) && negb (key_type key =? PK_PRIVATE) then mret (Outcome CRYPT_PK_TYPE_MISMATCH outlen None) else
  if type =? PK_PRIVATE then
    der_encode_sequence_multi outlen
      (SET_ASN1 LTC_ASN1_SHORT_INTEGER (LongAt 0) 1 ::
       integer_args [key_N key; key_e key; key_d key; key_p key; key_q key; key_dP key; key_dQ key; key_qP key])
  else if type =? PK_PUBLIC then
    let public := integer_args [key_N key; key_e key] in
    if negb std then der_encode_sequence_multi outlen public else
    ok ← xmalloc;
    if negb (ok : bool) then mret (Outcome CRYPT_MEM outlen None) else
    o ← der_encode_sequence_multi (mp_count_bits (key_N key) / 8 * 2 + 8) public;
    match oc_out o with
    | None => mret (Outcome (oc_err o) outlen None)
    | Some tmp => x509_encode_subject_public_key_info outlen PKA_RSA tmp (oc_outlen o)
    end
  else mret (Outcome CRYPT_INVALID_ARG outlen None).
End keys.
