(* ===== verification/DerSpec.v ===== *)
(** * The distinguished encoding rules

    The reference encoding of ASN.1 values ([der]), as X.690 describes it, and
    what the primitives of libtomcrypt do with it: each encoder writes the
    reference encoding, each decoder reads it back. *)

From S2P Require Import Prelude Ltc LtcRsa LtcSpec Der.

(** ** Reference encoding *)

(** The number of octets of a positive number, and the length field. *)
Definition octets (z : Z) : nat := Z.to_nat (Z.log2 z / 8 + 1).
Definition len_field (n : Z) : bytes :=
  if n <? 128 then [n] else 128 + Z.of_nat (octets n) :: be_bytes (octets n) n.
Definition tlv (tag : Z) (c : bytes) : bytes := tag :: len_field (Z.of_nat (length c)) ++ c.

(** Two's complement with as few octets as possible. *)
Definition int_octets (z : Z) : nat :=
  let m := if z <? 0 then - z - 1 else z in
  if m =? 0 then 1%nat else Z.to_nat ((Z.log2 m + 1) / 8 + 1).
Definition int_contents (z : Z) : bytes := be_bytes (int_octets z) z.

(** ** Memory *)

Lemma rd_lookup {S} (b : bytes) i v (s : S) : b !! i = Some v → rd b (Z.of_nat i) s = Ok (v, s).
Proof.
  intros H. unfold rd. pose proof (lookup_lt_Some _ _ _ H).
  destruct (Z.leb_spec 0 (Z.of_nat i)); [|lia]. destruct (Z.ltb_spec (Z.of_nat i) (Z.of_nat (length b))); [|lia].
  cbn. by rewrite Nat2Z.id, H.
Qed.
Lemma rd_app {S} (a : bytes) v c (s : S) : rd (a ++ v :: c) (Z.of_nat (length a)) s = Ok (v, s).
Proof. apply rd_lookup. by apply list_lookup_middle. Qed.
Lemma rd_0 {S} v c (s : S) : rd (v :: c) 0 s = Ok (v, s).
Proof. apply (rd_app []). Qed.
Lemma rd_1 {S} u v c (s : S) : rd (u :: v :: c) 1 s = Ok (v, s).
Proof. apply (rd_app [u]). Qed.
Lemma rd_total {S} (b : bytes) i (s : S) : 0 ≤ i < Z.of_nat (length b) → ∃ v, rd b i s = Ok (v, s) ∧ b !! Z.to_nat i = Some v.
Proof.
  intros Hi. destruct (lookup_lt_is_Some_2 b (Z.to_nat i)) as [v Hv]; [lia|].
  exists v. split; [|done]. rewrite <- (Z2Nat.id i) by lia. by apply rd_lookup.
Qed.

Lemma at_off_app (a b : bytes) : at_off (a ++ b) (Z.of_nat (length a)) = b.
Proof.
  unfold at_off. rewrite length_app. destruct (Z.leb_spec (Z.of_nat (length a)) (Z.of_nat (length a + length b))); [|lia].
  by rewrite Nat2Z.id, drop_app_length.
Qed.
Lemma at_off_1 x (b : bytes) : at_off (x :: b) 1 = b.
Proof. apply (at_off_app [x] b). Qed.

Lemma rd_range_app {S} (a b c : bytes) (s : S) :
  rd_range (a ++ b ++ c) (Z.of_nat (length a)) (Z.of_nat (length b)) s = Ok (b, s).
Proof.
  unfold rd_range. rewrite !length_app.
  destruct (Z.leb_spec (Z.of_nat (length a) + Z.of_nat (length b)) (Z.of_nat (length a + (length b + length c)))); [|lia].
  by rewrite !Nat2Z.id, drop_app_length, take_app_length.
Qed.
Lemma rd_range_0 {S} (b c : bytes) (s : S) : rd_range (b ++ c) 0 (Z.of_nat (length b)) s = Ok (b, s).
Proof. apply (rd_range_app [] b c). Qed.

Lemma wr_app {S} (a : list Z) v w c (s : S) :
  wr (a ++ v :: c) (Z.of_nat (length a)) w s = Ok (a ++ w :: c, s).
Proof.
  unfold wr. rewrite length_app. cbn [length]. destruct (Z.leb_spec 0 (Z.of_nat (length a))); [|lia].
  destruct (Z.ltb_spec (Z.of_nat (length a)) (Z.of_nat (length a + Datatypes.S (length c)))); [|lia]. cbn.
  rewrite Nat2Z.id, <- (Nat.add_0_r (length a)). by rewrite insert_app_r.
Qed.

(** ** Bit operations on octets *)

Lemma uint64_id z : 0 ≤ z < 2 ^ 64 → uint64 z = z.
Proof. intros. by apply Z.mod_small. Qed.
Lemma uint32_id z : 0 ≤ z < 2 ^ 32 → uint32 z = z.
Proof. intros. by apply Z.mod_small. Qed.
Lemma uint8_id z : 0 ≤ z < 2 ^ 8 → uint8 z = z.
Proof. intros. by apply Z.mod_small. Qed.

(** Bits that do not overlap are added. *)
Lemma lor_shiftl v n b : 0 ≤ n → 0 ≤ v → 0 ≤ b < 2 ^ n → Z.lor (Z.shiftl v n) b = 2 ^ n * v + b.
Proof.
  intros Hn Hv Hb. rewrite <- Z.add_nocarry_lor.
  - rewrite Z.shiftl_mul_pow2 by done. lia.
  - apply Z.bits_inj'. intros i Hi. rewrite Z.land_spec, Z.bits_0, Z.shiftl_spec by done.
    destruct (Z.ltb_spec i n).
    + by rewrite (Z.testbit_neg_r v) by lia.
    + destruct (Z.eqb_spec b 0) as [->|Hb0]; [by rewrite Z.bits_0, andb_false_r|].
      rewrite (Z.bits_above_log2 b); [apply andb_false_r|lia|].
      apply Z.log2_lt_pow2; [lia|]. pose proof (Z.pow_le_mono_r 2 n i). lia.
Qed.

Lemma land_ones_mod z n : 0 ≤ n → Z.land z (2 ^ n - 1) = z mod 2 ^ n.
Proof. intros Hn. rewrite <- Z.land_ones, Z.ones_equiv by done. done. Qed.
Lemma octet_eq s len : 0 ≤ s → octet s len = (len / 2 ^ s) mod 256.
Proof. intros Hs. unfold octet. rewrite Z.shiftr_div_pow2 by done. apply (land_ones_mod _ 8). done. Qed.

(** ** The length field *)

Lemma octets_spec z : 0 < z → 256 ^ (Z.of_nat (octets z) - 1) ≤ z < 256 ^ Z.of_nat (octets z).
Proof.
  intros Hz. pose proof (unsigned_bin_size_spec z Hz) as H. rewrite unsigned_bin_size_ceil in H by done.
  unfold octets. rewrite Z2Nat.id; [done|]. pose proof (Z.log2_nonneg z). pose proof (Z.div_pos (Z.log2 z) 8). lia.
Qed.
Lemma octets_unique z k : (0 < k)%nat → 256 ^ (Z.of_nat k - 1) ≤ z < 256 ^ Z.of_nat k → octets z = k.
Proof.
  intros Hk Hz. assert (0 < z) by (pose proof (Z.pow_pos_nonneg 256 (Z.of_nat k - 1)); lia).
  pose proof (octets_spec z ltac:(done)) as Ho.
  assert (0 < octets z)%nat by (unfold octets; pose proof (Z.div_pos (Z.log2 z) 8); pose proof (Z.log2_nonneg z); lia).
  destruct (lt_eq_lt_dec (octets z) k) as [[Hlt|]|Hlt]; [|done|].
  - exfalso. pose proof (Z.pow_le_mono_r 256 (Z.of_nat (octets z)) (Z.of_nat k - 1)). lia.
  - exfalso. pose proof (Z.pow_le_mono_r 256 (Z.of_nat k) (Z.of_nat (octets z) - 1)). lia.
Qed.

Lemma count_octets_eq rounds z :
  0 < z < 256 ^ Z.of_nat rounds → count_octets rounds z = Z.of_nat (octets z).
Proof.
  revert z. induction rounds as [|r IH]; intros z Hz; [cbn in Hz; lia|]. cbn [count_octets].
  destruct (Z.eqb_spec z 0); [lia|]. rewrite Z.shiftr_div_pow2 by done. change (2 ^ 8) with 256.
  rewrite Nat2Z.inj_succ, Z.pow_succ_r in Hz by lia.
  destruct (Z.ltb_spec z 256) as [Hs|Hs].
  - rewrite Z.div_small by lia. rewrite (octets_unique z 1) by (cbn; lia). by destruct r.
  - assert (0 < z / 256) by (apply Z.div_str_pos; lia).
    assert (z / 256 < 256 ^ Z.of_nat r) by (apply Z.div_lt_upper_bound; lia).
    rewrite IH by lia. pose proof (octets_spec (z / 256) ltac:(done)) as Ho.
    assert (0 < octets (z / 256))%nat as Hp.
    { unfold octets. pose proof (Z.log2_nonneg (z / 256)). pose proof (Z.div_pos (Z.log2 (z / 256)) 8). lia. }
    rewrite (octets_unique z (S (octets (z / 256)))); [lia|lia|].
    rewrite Nat2Z.inj_succ, <- Z.add_1_r, Z.add_simpl_r, Z.pow_add_r by lia. change (256 ^ 1) with 256.
    pose proof (Z.div_mod z 256 ltac:(lia)). pose proof (Z.mod_pos_bound z 256 ltac:(lia)).
    replace (Z.of_nat (octets (z / 256))) with (Z.of_nat (octets (z / 256)) - 1 + 1) in * by lia.
    rewrite Z.add_simpl_r in Ho. rewrite Z.pow_add_r in * by lia. change (256 ^ 1) with 256 in *. lia.
Qed.

Lemma octets_pos z : (0 < octets z)%nat.
Proof. unfold octets. pose proof (Z.log2_nonneg z). pose proof (Z.div_pos (Z.log2 z) 8). lia. Qed.
Lemma octets_le z k : 0 < z < 256 ^ Z.of_nat k → (octets z ≤ k)%nat.
Proof.
  intros Hz. pose proof (octets_spec z ltac:(lia)). destruct (le_lt_dec (octets z) k); [done|].
  pose proof (Z.pow_le_mono_r 256 (Z.of_nat k) (Z.of_nat (octets z) - 1)). lia.
Qed.

(** The cascade of der_encode_asn1_length writes the length field. *)
Lemma be_bytes_S n z : be_bytes (S n) z = (z / 256 ^ Z.of_nat n) mod 256 :: be_bytes n z.
Proof.
  unfold be_bytes. revert z. induction n as [|n IH]; intros z.
  - cbn. by rewrite Z.div_1_r.
  - change (le_bytes (S (S n)) z) with (z mod 256 :: le_bytes (S n) (z / 256)).
    change (le_bytes (S n) z) with (z mod 256 :: le_bytes n (z / 256)).
    rewrite !reverse_cons, IH, Z.div_div, Nat2Z.inj_succ, Z.pow_succ_r by lia. done.
Qed.

Lemma length_octets_eq z : 0 < z < 2 ^ 64 → length_octets z = len_field z.
Proof.
  intros Hz. unfold length_octets, len_field.
  repeat match goal with |- context [if ?b then _ else _] => destruct b eqn:?E end; try lia;
    try (by rewrite uint8_id by lia);
    [rewrite (octets_unique z 1) by (cbn; lia)|rewrite (octets_unique z 2) by (cbn; lia)
    |rewrite (octets_unique z 3) by (cbn; lia)|rewrite (octets_unique z 4) by (cbn; lia)
    |rewrite (octets_unique z 5) by (cbn; lia)|rewrite (octets_unique z 6) by (cbn; lia)
    |rewrite (octets_unique z 7) by (cbn; lia)|rewrite (octets_unique z 8) by (cbn; lia)];
    rewrite ?octet_eq by lia; rewrite !be_bytes_S; cbn [Z.of_nat]; f_equal; repeat f_equal; by rewrite Z.div_1_r.
Qed.

Lemma len_field_length z :
  Z.of_nat (length (len_field z)) = if z <? 128 then 1 else 1 + Z.of_nat (octets z).
Proof. unfold len_field. destruct (z <? 128); [done|]. cbn [length]. rewrite be_bytes_length. lia. Qed.
Lemma len_field_bound z : 0 < z < 2 ^ 64 → (length (len_field z) ≤ 9)%nat.
Proof.
  intros Hz. pose proof (len_field_length z). pose proof (octets_le z 8 ltac:(cbn; lia)).
  destruct (z <? 128); lia.
Qed.

Lemma der_length_asn1_length_ok z :
  0 < z < 2 ^ 64 → der_length_asn1_length z = (CRYPT_OK, Z.of_nat (length (len_field z))).
Proof.
  intros Hz. unfold der_length_asn1_length. rewrite count_octets_eq by (cbn; lia). cbv zeta.
  pose proof (octets_pos z). destruct (Z.eqb_spec (Z.of_nat (octets z)) 0); [lia|]. f_equal.
  rewrite len_field_length. destruct (Z.ltb_spec z 128); [|lia].
  rewrite (octets_unique z 1); [done|lia|cbn; lia].
Qed.
Lemma der_encode_asn1_length_ok z outlen :
  0 < z < 2 ^ 64 → Z.of_nat (length (len_field z)) ≤ outlen →
  der_encode_asn1_length z outlen = Outcome CRYPT_OK (Z.of_nat (length (len_field z))) (Some (len_field z)).
Proof.
  intros Hz Ho. unfold der_encode_asn1_length. rewrite count_octets_eq by (cbn; lia). cbv zeta.
  pose proof (octets_pos z). destruct (Z.eqb_spec (Z.of_nat (octets z)) 0); [lia|].
  rewrite len_field_length in Ho. destruct (Z.ltb_spec outlen (Z.of_nat (octets z))).
  - destruct (Z.ltb_spec z 128); [|lia]. rewrite (octets_unique z 1) in * by (cbn; lia). lia.
  - by rewrite length_octets_eq by lia.
Qed.

(** Big-endian values, from the first digit on. *)
Lemma be_foldl l w : foldl (λ v x, 256 * v + x) w l = w * 256 ^ Z.of_nat (length l) + be_value l.
Proof.
  unfold be_value. revert w. induction l as [|y l IH] using rev_ind; intros w; [cbn; lia|].
  rewrite !foldl_snoc, IH, length_app. cbn [length]. rewrite Nat2Z.inj_add, Z.pow_add_r by lia.
  change (256 ^ Z.of_nat 1) with 256. lia.
Qed.
Lemma be_value_cons b c : be_value (b :: c) = b * 256 ^ Z.of_nat (length c) + be_value c.
Proof. rewrite <- be_foldl. reflexivity. Qed.

Section read.
Context `{HLtc : LtcEnv}.

Lemma rd_be_ok a b c v (s : ltc) :
  bytes_ok b → 0 ≤ v → (v + 1) * 256 ^ Z.of_nat (length b) ≤ 2 ^ 64 →
  rd_be (a ++ b ++ c) (Z.of_nat (length a)) (length b) v s = Ok (v * 256 ^ Z.of_nat (length b) + be_value b, s).
Proof.
  revert a v. induction b as [|x b IH]; intros a v Hb Hv Hr.
  - cbn. by rewrite Z.mul_1_r, Z.add_0_r.
  - apply Forall_cons in Hb as [Hx Hb]. unfold byte_ok in Hx. cbn [length rd_be app] in *.
    rewrite (bind_ok _ _ _ _ _ (rd_app a x (b ++ c) s)).
    rewrite Nat2Z.inj_succ, Z.pow_succ_r in * by lia.
    assert (0 < 256 ^ Z.of_nat (length b)) by (apply Z.pow_pos_nonneg; lia).
    assert (256 * v + x < 2 ^ 64) by nia.
    rewrite lor_shiftl by (change (2 ^ 8) with 256; lia). change (2 ^ 8) with 256. rewrite uint64_id by lia.
    specialize (IH (a ++ [x]) (256 * v + x) Hb). rewrite <- app_assoc in IH. cbn [app] in IH.
    rewrite length_app, Nat2Z.inj_add in IH. cbn [length] in IH. change (Z.of_nat 1) with 1 in IH.
    rewrite IH by nia. do 2 f_equal. unfold be_value at 2. cbn [foldl].
    rewrite Z.mul_0_r, Z.add_0_l, be_foldl. nia.
Qed.

(** A length field is read, wherever the trusted length ends behind the
    contents. *)
Lemma der_decode_asn1_length_ok z rest inlen (s : ltc) :
  0 ≤ z < 2 ^ 63 → Z.of_nat (length (len_field z)) + z ≤ inlen < 2 ^ 64 →
  der_decode_asn1_length (len_field z ++ rest) inlen s = Ok ((CRYPT_OK, Z.of_nat (length (len_field z)), z), s).
Proof.
  intros Hz Hi. rewrite len_field_length in *. unfold der_decode_asn1_length, len_field, length_checked.
  destruct (Z.ltb_spec inlen 1); [destruct (z <? 128); lia|].
  destruct (Z.ltb_spec z 128) as [Hs|Hs]; cbn [app].
  - erewrite bind_ok by apply rd_0.
    destruct (Z.ltb_spec z 128); [|lia]. rewrite uint64_id by lia. by destruct (Z.ltb_spec (inlen - 1) z); [lia|].
  - pose proof (octets_spec z ltac:(lia)) as Ho. pose proof (octets_le z 8 ltac:(cbn; lia)) as H8.
    pose proof (octets_pos z) as Hp.
    set (k := octets z) in *. set (h := 128 + Z.of_nat k). erewrite bind_ok by apply rd_0.
    destruct (Z.ltb_spec h 128); [lia|]. cbv zeta.
    assert (Z.land h 127 = Z.of_nat k) as ->.
    { change 127 with (2 ^ 7 - 1). rewrite (land_ones_mod h 7) by done. unfold h. change (2 ^ 7) with 128.
      rewrite Z.add_comm, Z.add_mod, Z.mod_same, Z.add_0_r, Z.mod_mod, Z.mod_small; lia. }
    destruct (Z.eqb_spec (Z.of_nat k) 0); [lia|]. destruct (Z.ltb_spec 8 (Z.of_nat k)); [lia|].
    rewrite uint64_id by lia. destruct (Z.ltb_spec (inlen - 1) (Z.of_nat k)); [lia|].
    pose proof (rd_be_ok [h] (be_bytes k z) rest 0 s) as Hr. rewrite be_bytes_length, be_value_bytes in Hr.
    rewrite Z.mod_small in Hr by lia. rewrite Nat2Z.id.
    rewrite (bind_ok _ _ _ _ _ (Hr ltac:(apply be_bytes_ok) ltac:(lia)
      ltac:(pose proof (Z.pow_le_mono_r 256 (Z.of_nat k) 8); cbn in *; lia))).
    rewrite Z.mul_0_l, Z.add_0_l. rewrite uint64_id by lia.
    by destruct (Z.ltb_spec (inlen - (1 + Z.of_nat k)) z); [lia|].
Qed.
End read.
