(* ===== verification/DerPrims.v ===== *)
(** * DER primitives against the reference

    What the encoders and decoders of single values do, when allocations
    succeed: [yields m a] says that [m] returns [a] and changes nothing but the
    count of allocations. *)

From S2P Require Import Prelude Ltc LtcRsa LtcSpec Der DerSpec.

(** A fact about all bytes, by computation. *)
Lemma byte_cases (P : Z → bool) b : forallb P (seqZ 0 256) = true → byte_ok b → P b = true.
Proof.
  intros H Hb. eapply forallb_forall in H; [done|]. apply list_elem_of_In, elem_of_seqZ. unfold byte_ok in Hb. lia.
Qed.

(** ** Two's complement *)

Lemma le_bytes_mod n z : le_bytes n (z mod 256 ^ Z.of_nat n) = le_bytes n z.
Proof.
  pose proof (le_bytes_value (le_bytes n z) (le_bytes_ok n z)) as H.
  by rewrite le_bytes_length, le_value_bytes in H.
Qed.
Lemma be_bytes_mod n z : be_bytes n (z mod 256 ^ Z.of_nat n) = be_bytes n z.
Proof. unfold be_bytes. by rewrite le_bytes_mod. Qed.

(** Half the range of [k] octets. *)
Definition half (k : nat) : Z := 2 ^ (8 * Z.of_nat k - 1).
Lemma half_pos k : (0 < k)%nat → 0 < half k.
Proof. intros Hk. apply Z.pow_pos_nonneg; lia. Qed.
Lemma half_double k : (0 < k)%nat → 256 ^ Z.of_nat k = 2 * half k.
Proof.
  intros Hk. unfold half. change 256 with (2 ^ 8). rewrite <- Z.pow_mul_r by lia.
  rewrite <- Z.pow_succ_r by lia. f_equal. lia.
Qed.
Lemma half_step k : (0 < k)%nat → half k = 128 * 256 ^ (Z.of_nat k - 1).
Proof.
  intros Hk. unfold half. change 256 with (2 ^ 8). rewrite <- Z.pow_mul_r by lia.
  change 128 with (2 ^ 7). rewrite <- Z.pow_add_r by lia. f_equal. lia.
Qed.

Lemma int_octets_pos z : (0 < int_octets z)%nat.
Proof.
  unfold int_octets. set (m := if z <? 0 then - z - 1 else z). destruct (m =? 0); [lia|].
  pose proof (Z.log2_nonneg m). pose proof (Z.div_pos (Z.log2 m + 1) 8). lia.
Qed.
Lemma int_octets_range z : - half (int_octets z) ≤ z < half (int_octets z).
Proof.
  unfold int_octets. set (m := if z <? 0 then - z - 1 else z).
  assert (0 ≤ m ∧ (z = m ∨ z = - m - 1)) as [Hm Hz] by (unfold m; destruct (Z.ltb_spec z 0); lia).
  assert (m < half (if m =? 0 then 1 else Z.to_nat ((Z.log2 m + 1) / 8 + 1))); [|lia].
  destruct (Z.eqb_spec m 0) as [->|Hne]; [by cbn|].
  pose proof (Z.log2_nonneg m). pose proof (Z.div_pos (Z.log2 m + 1) 8 ltac:(lia) ltac:(lia)).
  unfold half. rewrite Z2Nat.id by lia. apply Z.log2_lt_pow2; [lia|].
  pose proof (Z.div_mod (Z.log2 m + 1) 8 ltac:(lia)). pose proof (Z.mod_pos_bound (Z.log2 m + 1) 8 ltac:(lia)). lia.
Qed.

Lemma int_contents_length z : length (int_contents z) = int_octets z.
Proof. apply be_bytes_length. Qed.
Lemma int_contents_bytes z : bytes_ok (int_contents z).
Proof. apply be_bytes_ok. Qed.

(** The unsigned value of the contents. *)
Definition int_raw (z : Z) : Z := if z <? 0 then z + 256 ^ Z.of_nat (int_octets z) else z.
Lemma int_raw_eq z : be_value (int_contents z) = int_raw z.
Proof.
  unfold int_contents, int_raw. rewrite be_value_bytes.
  pose proof (int_octets_range z). pose proof (half_double _ (int_octets_pos z)). pose proof (half_pos _ (int_octets_pos z)).
  destruct (Z.ltb_spec z 0).
  - rewrite <- (Z_mod_plus_full z 1), Z.mul_1_l. apply Z.mod_small. lia.
  - apply Z.mod_small. lia.
Qed.
Lemma int_raw_range z :
  if z <? 0 then half (int_octets z) ≤ int_raw z < 2 * half (int_octets z) else 0 ≤ int_raw z < half (int_octets z).
Proof.
  unfold int_raw. pose proof (int_octets_range z). rewrite (half_double _ (int_octets_pos z)).
  destruct (Z.ltb_spec z 0); lia.
Qed.
(** The sign is the top bit of the first octet. *)
Lemma int_sign z : ∃ b c, int_contents z = b :: c ∧ has_flag b 0x80 = (z <? 0).
Proof.
  unfold int_contents. pose proof (int_octets_pos z) as Hp. destruct (int_octets z) as [|k] eqn:Ek; [lia|].
  rewrite be_bytes_S. eexists _, _. split; [done|]. set (b := (z / 256 ^ Z.of_nat k) mod 256).
  assert (byte_ok b) as Hb by (apply Z.mod_pos_bound; lia).
  pose proof (byte_cases (λ b, eqb (has_flag b 0x80) (128 <=? b)) b ltac:(by vm_compute) Hb) as Hf.
  apply eqb_prop in Hf as ->. pose proof (int_octets_range z) as Hr. rewrite Ek, half_step in Hr by lia.
  replace (Z.of_nat (S k) - 1) with (Z.of_nat k) in Hr by lia.
  assert (0 < 256 ^ Z.of_nat k) by (apply Z.pow_pos_nonneg; lia).
  pose proof (Z.div_mod z (256 ^ Z.of_nat k) ltac:(lia)). pose proof (Z.mod_pos_bound z (256 ^ Z.of_nat k) ltac:(lia)).
  assert (-128 ≤ z / 256 ^ Z.of_nat k < 128) by nia. unfold b.
  destruct (Z.ltb_spec z 0).
  - assert (z / 256 ^ Z.of_nat k < 0) by nia. apply Z.leb_le.
    rewrite <- (Z_mod_plus_full _ 1), Z.mul_1_l, Z.mod_small by lia. lia.
  - assert (0 ≤ z / 256 ^ Z.of_nat k) by nia. apply Z.leb_gt. rewrite Z.mod_small; lia.
Qed.

(** *** The lengths computed by the encoder *)
Lemma count_bits_eq a : a ≠ 0 → mp_count_bits a = Z.log2 (Z.abs a) + 1.
Proof. intros Ha. unfold mp_count_bits. by destruct (Z.eqb_spec a 0). Qed.
Lemma land_7 a : Z.land a 7 = a mod 8.
Proof. apply (land_ones_mod a 3). done. Qed.

Lemma positive_size z :
  0 ≤ z → (if leading_zero z then 1 else 0) + mp_unsigned_bin_size z = Z.of_nat (int_octets z).
Proof.
  intros Hz. unfold leading_zero, int_octets. destruct (Z.ltb_spec z 0); [lia|].
  destruct (Z.eqb_spec z 0) as [->|Hne]; [done|]. rewrite orb_false_r, unsigned_bin_size_ceil, count_bits_eq, land_7, Z.abs_eq by lia.
  pose proof (Z.log2_nonneg z). pose proof (Z.div_pos (Z.log2 z + 1) 8 ltac:(lia) ltac:(lia)).
  rewrite Z2Nat.id by lia. destruct (Z.eqb_spec ((Z.log2 z + 1) mod 8) 0); Z.div_mod_to_equations; lia.
Qed.

Lemma pos_lsb_log2 p : pos_lsb p ≤ Z.log2 (Zpos p) ∧ (pos_lsb p = Z.log2 (Zpos p) ↔ Zpos p = 2 ^ Z.log2 (Zpos p)).
Proof.
  assert (∀ p, 0 ≤ pos_lsb p) as Hn by (clear; induction p; cbn [pos_lsb]; lia).
  induction p as [p IH|p IH|]; [| |done].
  - cbn [pos_lsb]. replace (Zpos p~1) with (2 * Zpos p + 1) by lia. rewrite Z.log2_succ_double by lia.
    pose proof (Z.log2_nonneg (Zpos p)). split; [lia|]. split; [lia|]. rewrite Z.pow_succ_r by lia. lia.
  - cbn [pos_lsb]. replace (Zpos p~0) with (2 * Zpos p) by lia. rewrite Z.log2_double by lia.
    pose proof (Z.log2_nonneg (Zpos p)). rewrite Z.pow_succ_r by lia. destruct IH as [H1 H2]. split; [lia|].
    split; intros Hp.
    + rewrite <- (proj1 H2) by lia. done.
    + rewrite (proj2 H2) by lia. lia.
Qed.

Lemma is_minimum_eq z :
  z < 0 → is_minimum z = (- z =? 2 ^ Z.log2 (- z)) && ((Z.log2 (- z) + 1) mod 8 =? 0).
Proof.
  intros Hz. destruct z as [|p|p]; [lia|lia|]. unfold is_minimum. rewrite land_7, count_bits_eq by done.
  change (Z.abs (Zneg p)) with (Zpos p). change (- Zneg p) with (Zpos p). cbn [mp_cnt_lsb]. f_equal.
  destruct (pos_lsb_log2 p) as [_ Hp]. apply eq_bool_prop_intro. rewrite !Is_true_true, !Z.eqb_eq, <- Hp. lia.
Qed.

Lemma negative_size z :
  z < 0 → let c := mp_count_bits z in
  Z.of_nat (int_octets z) = (c + (8 - Z.land c 7)) / 8 - (if is_minimum z then 1 else 0) ∧
  (c + (8 - Z.land c 7)) mod 8 = 0.
Proof.
  intros Hz. cbv zeta. rewrite is_minimum_eq, land_7, count_bits_eq, Z.abs_neq by lia.
  unfold int_octets. destruct (Z.ltb_spec z 0); [|lia]. set (a := - z) in *. assert (0 < a) by lia. clearbody a.
  pose proof (Z.log2_nonneg a). pose proof (Z.log2_spec a ltac:(lia)) as [Hl Hu].
  split; [|Z.div_mod_to_equations; lia].
  destruct (Z.eqb_spec a (2 ^ Z.log2 a)) as [Hp|Hp]; cbn [andb].
  - destruct (Z.eqb_spec (a - 1) 0) as [Ha|Ha].
    + assert (a = 1) as -> by lia. done.
    + assert (0 < Z.log2 a) by (apply Z.log2_pos; lia).
      assert (Z.log2 (a - 1) = Z.log2 a - 1) as ->.
      { set (L := Z.log2 a) in *. clearbody L. assert (2 ^ L = 2 * 2 ^ (L - 1)) by (rewrite <- Z.pow_succ_r by lia; f_equal; lia).
        assert (0 < 2 ^ (L - 1)) by (apply Z.pow_pos_nonneg; lia).
        apply Z.log2_unique; [lia|]. replace (Z.succ (L - 1)) with L by lia. lia. }
      rewrite Z2Nat.id by (pose proof (Z.div_pos (Z.log2 a - 1 + 1) 8); lia).
      destruct (Z.eqb_spec ((Z.log2 a + 1) mod 8) 0); Z.div_mod_to_equations; lia.
  - assert (Z.log2 (a - 1) = Z.log2 a) as -> by (apply Z.log2_unique; lia).
    destruct (Z.eqb_spec (a - 1) 0) as [Ha|Ha]; [assert (a = 1) as -> by lia; done|].
    rewrite Z2Nat.id by (pose proof (Z.div_pos (Z.log2 a + 1) 8); lia).
    Z.div_mod_to_equations; lia.
Qed.

Lemma mp_2expt_eq n : mp_2expt n = 2 ^ n.
Proof. unfold mp_2expt. rewrite Z.setbit_spec'. apply Z.lor_0_l. Qed.

Lemma positive_contents z :
  0 ≤ z → (if leading_zero z then [0] else []) ++ (if 0 <? z then mp_to_unsigned_bin z else []) = int_contents z.
Proof.
  intros Hz. pose proof (positive_size z Hz) as Hs. unfold int_contents.
  pose proof (to_unsigned_bin_padded z (int_octets z) Hz ltac:(destruct (leading_zero z); lia)) as <-.
  replace (Z.of_nat (int_octets z) - mp_unsigned_bin_size z) with (if leading_zero z then 1 else 0) by lia.
  destruct (Z.ltb_spec 0 z); [by destruct (leading_zero z)|]. by assert (z = 0) as -> by lia.
Qed.

Lemma negative_contents z k :
  z < 0 → k = int_octets z → mp_to_unsigned_bin (256 ^ Z.of_nat k + z) = int_contents z.
Proof.
  intros Hz ->. pose proof (int_raw_range z) as Hr. pose proof (int_octets_pos z) as Hp. unfold int_raw in Hr.
  destruct (Z.ltb_spec z 0); [|lia]. set (k := int_octets z) in *. pose proof (half_pos k Hp).
  assert (mp_unsigned_bin_size (256 ^ Z.of_nat k + z) = Z.of_nat k) as Hs.
  { rewrite unsigned_bin_size_ceil by lia. pose proof (octets_unique (256 ^ Z.of_nat k + z) k Hp) as Ho.
    rewrite half_step in Hr by done. assert (256 ^ Z.of_nat k = 256 * 256 ^ (Z.of_nat k - 1)).
    { rewrite <- Z.pow_succ_r by lia. f_equal. lia. }
    unfold octets in Ho. pose proof (Z.log2_nonneg (256 ^ Z.of_nat k + z)).
    pose proof (Z.div_pos (Z.log2 (256 ^ Z.of_nat k + z)) 8). lia. }
  unfold mp_to_unsigned_bin. rewrite Hs, Nat2Z.id, Z.abs_eq by lia. unfold int_contents. fold k.
  rewrite <- be_bytes_mod, Z.add_comm. rewrite <- (Z.mul_1_l (256 ^ Z.of_nat k)) at 1. rewrite Z_mod_plus_full. apply be_bytes_mod.
Qed.

(** ** Short integers *)
Lemma has_flag_pow2 a n : 0 ≤ n → has_flag a (2 ^ n) = Z.testbit a n.
Proof.
  intros Hn. unfold has_flag. destruct (Z.testbit a n) eqn:E.
  - apply negb_true_iff, Z.eqb_neq. intros H. apply (f_equal (λ v, Z.testbit v n)) in H.
    rewrite Z.land_spec, Z.bits_0, E, Z.pow2_bits_true in H by done. done.
  - apply negb_false_iff, Z.eqb_eq. apply Z.bits_inj'. intros i Hi. rewrite Z.land_spec, Z.bits_0.
    destruct (Z.eqb_spec i n) as [->|]; [by rewrite E|]. rewrite Z.pow2_bits_false by done. apply andb_false_r.
Qed.
Lemma testbit_top a n : 0 ≤ n → 0 ≤ a < 2 ^ (n + 1) → Z.testbit a n = (2 ^ n <=? a).
Proof.
  intros Hn Ha. rewrite Z.testbit_eqb by done. rewrite Z.pow_add_r in Ha by lia. change (2 ^ 1) with 2 in Ha.
  assert (0 < 2 ^ n) by (apply Z.pow_pos_nonneg; lia).
  destruct (Z.leb_spec (2 ^ n) a).
  - replace (a / 2 ^ n) with 1; [done|]. apply (Z.div_unique _ _ _ (a - 2 ^ n)); lia.
  - by rewrite Z.div_small by lia.
Qed.

Lemma short_size_eq n : 0 ≤ n < 2 ^ 32 → short_size n = Z.of_nat (int_octets n).
Proof.
  intros Hn. destruct (Z.eqb_spec n 0) as [->|Hne]; [done|]. unfold short_size.
  rewrite count_octets_eq by (change (256 ^ Z.of_nat 8) with (2 ^ 64); lia). pose proof (octets_pos n). cbv zeta.
  destruct (Z.eqb_spec (Z.of_nat (octets n)) 0); [lia|].
  rewrite <- positive_size, unsigned_bin_size_ceil by lia. unfold leading_zero.
  destruct (Z.eqb_spec n 0); [lia|]. rewrite orb_false_r, count_bits_eq, land_7, Z.abs_eq by lia.
  pose proof (Z.log2_nonneg n). pose proof (Z.div_pos (Z.log2 n) 8 ltac:(lia) ltac:(lia)).
  unfold octets. rewrite Z2Nat.id by lia. rewrite (Z.shiftl_mul_pow2 _ 3) by done. change (2 ^ 3) with 8.
  rewrite Z.shiftl_mul_pow2, Z.mul_1_l by lia.
  set (e := (Z.log2 n / 8 + 1) * 8 - 1). assert (0 ≤ e ∧ Z.log2 n < e + 1) as [He Hl] by (unfold e; Z.div_mod_to_equations; lia).
  apply Z.log2_lt_pow2 in Hl; [|lia]. rewrite has_flag_pow2, testbit_top by lia. rewrite Z.add_comm. f_equal.
  destruct (Z.leb_spec (2 ^ e) n) as [Hb|Hb].
  - apply Z.log2_le_pow2 in Hb; [|lia]. unfold e in Hb. destruct (Z.eqb_spec ((Z.log2 n + 1) mod 8) 0); [done|].
    Z.div_mod_to_equations; lia.
  - apply Z.log2_lt_pow2 in Hb; [|lia]. unfold e in Hb. destruct (Z.eqb_spec ((Z.log2 n + 1) mod 8) 0); [|done].
    Z.div_mod_to_equations; lia.
Qed.

Lemma int_octets_short n : 0 ≤ n < 2 ^ 32 → (int_octets n ≤ 5)%nat.
Proof.
  intros Hn. unfold int_octets. destruct (Z.ltb_spec n 0); [lia|]. destruct (Z.eqb_spec n 0); [lia|].
  assert (Z.log2 n < 32) by (apply Z.log2_lt_pow2; lia). Z.div_mod_to_equations; lia.
Qed.

Lemma top_bytes_eq j k n :
  (j + k = 4)%nat → 0 ≤ n < 2 ^ 32 → top_bytes j (n * 256 ^ Z.of_nat k) = be_bytes j n.
Proof.
  revert k. induction j as [|j IH]; intros k Hk Hn; [done|]. cbn [top_bytes]. rewrite be_bytes_S.
  change (Z.land (Z.shiftr ?x 24) 255) with (octet 24 x). rewrite octet_eq by done.
  assert (0 < 256 ^ Z.of_nat k) by (apply Z.pow_pos_nonneg; lia).
  rewrite Z.shiftl_mul_pow2 by done. change (2 ^ 8) with (256 ^ 1). rewrite <- Z.mul_assoc, <- Z.pow_add_r by lia.
  rewrite uint64_id; [|pose proof (Z.pow_le_mono_r 256 (Z.of_nat k + 1) 4); change (256 ^ 4) with (2 ^ 32) in *; nia].
  replace (Z.of_nat k + 1) with (Z.of_nat (S k)) by lia. rewrite IH by lia. do 2 f_equal.
  change (2 ^ 24) with (256 ^ 3). replace 3 with (Z.of_nat j + Z.of_nat k) by lia.
  rewrite Z.pow_add_r by lia. apply Z.div_mul_cancel_r; [|lia]. apply Z.pow_nonzero; lia.
Qed.
Lemma shift_up_eq j k n :
  (j + k ≤ 4)%nat → 0 ≤ n < 2 ^ 32 → shift_up j (n * 256 ^ Z.of_nat k) = n * 256 ^ Z.of_nat (j + k).
Proof.
  revert k. induction j as [|j IH]; intros k Hk Hn; [done|]. cbn [shift_up].
  rewrite Z.shiftl_mul_pow2 by done. change (2 ^ 8) with (256 ^ 1). rewrite <- Z.mul_assoc, <- Z.pow_add_r by lia.
  rewrite uint64_id; [|pose proof (Z.pow_le_mono_r 256 (Z.of_nat k + 1) 4); change (256 ^ 4) with (2 ^ 32) in *;
    pose proof (Z.pow_pos_nonneg 256 (Z.of_nat k + 1)); nia].
  replace (Z.of_nat k + 1) with (Z.of_nat (S k)) by lia. rewrite IH by lia. do 3 f_equal. lia.
Qed.

Definition written (out : bytes) : outcome := Outcome CRYPT_OK (Z.of_nat (length out)) (Some out).

Section prims.
Context `{HLtc : LtcEnv}.
Abbreviation T := (M ltc).

Definition yields {A} (m : T A) (a : A) : Prop := ∀ s, ∃ k, m s = Ok (a, spent_allocs k s).

Lemma yields_pure {A} (m : T A) a : (∀ s, m s = Ok (a, s)) → yields m a.
Proof. intros H s. exists 0%nat. rewrite H. by destruct s. Qed.
Lemma yields_ret {A} (a : A) : yields (mret a) a.
Proof. by apply yields_pure. Qed.
Lemma yields_bind {A B} (m : T A) (f : A → T B) a b : yields m a → yields (f a) b → yields (m ≫= f) b.
Proof.
  intros Hm Hf s. destruct (Hm s) as [k E]. destruct (Hf (spent_allocs k s)) as [j E'].
  exists (j + k)%nat. rewrite (bind_ok _ _ _ _ _ E), E'. do 2 f_equal. unfold spent_allocs. cbn. f_equal. lia.
Qed.
Lemma yields_map {A B} (m : T A) (f : A → B) a : yields m a → yields (x ← m; mret (f x)) (f a).
Proof. intros H. eapply yields_bind; [done|apply yields_ret]. Qed.
Lemma yields_rd a v c : yields (rd (a ++ v :: c) (Z.of_nat (length a))) v.
Proof. apply yields_pure. intros. apply rd_app. Qed.
Lemma yields_rd_0 v c : yields (rd (v :: c) 0) v.
Proof. apply yields_pure. intros. apply rd_0. Qed.
Lemma yields_rd_1 u v c : yields (rd (u :: v :: c) 1) v.
Proof. apply yields_pure. intros. apply rd_1. Qed.
Lemma yields_rd_range a b c : yields (rd_range (a ++ b ++ c) (Z.of_nat (length a)) (Z.of_nat (length b))) b.
Proof. apply yields_pure. intros. apply rd_range_app. Qed.
Lemma yields_rd_range_0 b c : yields (rd_range (b ++ c) 0 (Z.of_nat (length b))) b.
Proof. apply yields_pure. intros. apply rd_range_0. Qed.

(** ** Headers *)
Lemma tlv_length tag c : length (tlv tag c) = S (length (len_field (Z.of_nat (length c))) + length c).
Proof. unfold tlv. cbn [length]. by rewrite length_app. Qed.

Lemma put_header_ok tag c outlen :
  (0 < length c)%nat → Z.of_nat (length (tlv tag c)) ≤ outlen < 2 ^ 62 →
  put_header tag (Z.of_nat (length c)) outlen c = written (tlv tag c).
Proof.
  intros Hc Ho. rewrite tlv_length in Ho. unfold put_header.
  rewrite der_encode_asn1_length_ok by (rewrite ?uint64_id by lia; lia). done.
Qed.

(** The length of the reference encoding, as the length functions compute it. *)
Lemma length_of_contents tag c :
  (0 < length c)%nat → Z.of_nat (length c) < 2 ^ 62 →
  der_length_asn1_length (Z.of_nat (length c)) =
    (CRYPT_OK, Z.of_nat (length (tlv tag c)) - 1 - Z.of_nat (length c)).
Proof. intros Hc Hl. rewrite der_length_asn1_length_ok by lia. rewrite tlv_length. f_equal. lia. Qed.

Lemma read_header tag c rest inlen :
  Z.of_nat (length (tlv tag c)) ≤ inlen < 2 ^ 62 →
  yields (der_decode_asn1_length (at_off (tlv tag c ++ rest) 1) (inlen - 1))
    (CRYPT_OK, Z.of_nat (length (len_field (Z.of_nat (length c)))), Z.of_nat (length c)).
Proof.
  intros Hi. rewrite tlv_length in Hi. unfold tlv. cbn [app]. rewrite at_off_1, <- app_assoc.
  apply yields_pure. intros s. apply der_decode_asn1_length_ok; lia.
Qed.

(** The offset of the contents. *)
Lemma contents_at tag c rest :
  tlv tag c ++ rest = (tag :: len_field (Z.of_nat (length c))) ++ c ++ rest ∧
  1 + Z.of_nat (length (len_field (Z.of_nat (length c)))) = Z.of_nat (length (tag :: len_field (Z.of_nat (length c)))).
Proof. unfold tlv. cbn [length app]. rewrite <- app_assoc. split; [done|lia]. Qed.

Lemma tag_at tag c rest : yields (rd (tlv tag c ++ rest) 0) tag.
Proof. apply yields_rd_0. Qed.

(** ** INTEGER *)
Context (Hx : ∀ i, xalloc i = true).

Lemma yields_xmalloc : yields xmalloc true.
Proof. intros s. exists 1%nat. unfold xmalloc. by rewrite Hx. Qed.

Definition int_tlv (z : Z) : bytes := tlv 2 (int_contents z).

Lemma der_length_integer_ok z :
  Z.of_nat (length (int_tlv z)) < 2 ^ 62 → der_length_integer z = (CRYPT_OK, Z.of_nat (length (int_tlv z))).
Proof.
  intros Hl. unfold der_length_integer. pose proof (int_octets_pos z).
  assert ((if 0 <=? z then (if leading_zero z then 1 else 0) + mp_unsigned_bin_size z else
    Z.shiftr (if is_minimum z then mp_count_bits z + (8 - Z.land (mp_count_bits z) 7) - 1
              else mp_count_bits z + (8 - Z.land (mp_count_bits z) 7)) 3) = Z.of_nat (length (int_contents z))) as Hsz.
  { rewrite int_contents_length. destruct (Z.leb_spec 0 z); [by apply positive_size|].
    destruct (negative_size z ltac:(lia)) as [H1 H2]. rewrite H1, Z.shiftr_div_pow2 by done. change (2 ^ 3) with 8.
    destruct (is_minimum z); Z.div_mod_to_equations; lia. }
  cbv zeta. rewrite Hsz. unfold int_tlv in Hl. rewrite tlv_length in Hl.
  rewrite (length_of_contents 2) by (rewrite ?int_contents_length in *; lia). cbn. unfold int_tlv. f_equal. lia.
Qed.

Lemma der_encode_integer_ok z outlen :
  Z.of_nat (length (int_tlv z)) ≤ outlen < 2 ^ 62 → yields (der_encode_integer z outlen) (written (int_tlv z)).
Proof.
  intros Ho. unfold der_encode_integer. rewrite der_length_integer_ok by lia. cbn [is_ok Z.eqb CRYPT_OK negb].
  destruct (Z.ltb_spec outlen (Z.of_nat (length (int_tlv z)))); [lia|]. cbv zeta.
  pose proof (int_octets_pos z) as Hp. pose proof (int_contents_length z) as Hc.
  destruct (Z.leb_spec 0 z) as [Hz|Hz].
  - rewrite positive_contents, Z.add_comm, positive_size, <- Hc, put_header_ok by (done || lia). apply yields_ret.
  - eapply yields_bind; [apply yields_xmalloc|]. cbn beta iota. rewrite mp_2expt_eq.
    destruct (negative_size z Hz) as [H1 H2]. set (c := mp_count_bits z + _) in *.
    assert ((if is_minimum z then c - 8 else c) = 8 * Z.of_nat (int_octets z)) as -> by
      (destruct (is_minimum z); Z.div_mod_to_equations; lia).
    replace (Z.shiftr c 3 - (if is_minimum z then 1 else 0)) with (Z.of_nat (int_octets z))
      by (rewrite Z.shiftr_div_pow2 by done; by rewrite H1).
    rewrite Z.pow_mul_r by lia. change (2 ^ 8) with 256.
    rewrite (negative_contents z (int_octets z)), <- Hc, put_header_ok by (done || lia). apply yields_ret.
Qed.

Lemma der_decode_integer_ok z num rest inlen :
  Z.of_nat (length (int_tlv z)) ≤ inlen < 2 ^ 62 →
  yields (der_decode_integer (int_tlv z ++ rest) inlen num) (CRYPT_OK, z).
Proof.
  intros Hi. unfold der_decode_integer, int_tlv in *. pose proof (int_octets_pos z) as Hp.
  pose proof (int_contents_length z) as Hc. rewrite tlv_length in Hi. pose proof (len_field_length (Z.of_nat (length (int_contents z)))).
  destruct (Z.ltb_spec inlen 3); [destruct (_ <? 128); lia|]. rewrite <- tlv_length with (tag := 2) in Hi.
  eapply yields_bind; [apply tag_at|]. cbn [Z.land Pos.land Z.eqb Pos.eqb negb].
  eapply yields_bind; [by apply read_header|]. cbn [is_ok Z.eqb CRYPT_OK negb].
  destruct (contents_at 2 (int_contents z) rest) as [-> ->]. set (h := 2 :: len_field _). cbv zeta.
  eapply yields_bind; [apply yields_rd_range|].
  destruct (int_sign z) as (b & c & Hbc & Hsign).
  eapply yields_bind; [rewrite Hbc; apply yields_rd|]. rewrite Hsign. unfold mp_read_unsigned_bin. rewrite int_raw_eq.
  pose proof (int_raw_range z) as Hr. pose proof (half_double _ Hp) as Hd. unfold int_raw in *. destruct (Z.ltb_spec z 0); [|apply yields_ret].
  eapply yields_bind; [apply yields_xmalloc|]. cbn beta iota. rewrite mp_2expt_eq, count_bits_eq, Z.abs_eq by (pose proof (half_pos _ Hp); lia).
  assert (Z.log2 (z + 256 ^ Z.of_nat (int_octets z)) = 8 * Z.of_nat (int_octets z) - 1) as ->.
  { apply Z.log2_unique; [lia|]. replace (Z.succ (8 * Z.of_nat (int_octets z) - 1)) with (8 * Z.of_nat (int_octets z)) by lia.
    rewrite (Z.pow_mul_r 2 8) by lia. change (2 ^ 8) with 256. unfold half in *. lia. }
  replace (8 * Z.of_nat (int_octets z) - 1 + 1) with (8 * Z.of_nat (int_octets z)) by lia.
  rewrite (Z.pow_mul_r 2 8) by lia. change (2 ^ 8) with 256.
  replace (z + 256 ^ Z.of_nat (int_octets z) - 256 ^ Z.of_nat (int_octets z)) with z by lia. apply yields_ret.
Qed.

(** ** Short integers *)
Lemma short_tlv n : 0 ≤ n < 2 ^ 32 → int_tlv n = 2 :: Z.of_nat (int_octets n) :: int_contents n.
Proof.
  intros Hn. unfold int_tlv, tlv, len_field. rewrite int_contents_length. pose proof (int_octets_short n Hn).
  by destruct (Z.ltb_spec (Z.of_nat (int_octets n)) 128); [|lia].
Qed.
Lemma der_length_short_integer_ok n :
  0 ≤ n < 2 ^ 32 → der_length_short_integer n = (CRYPT_OK, Z.of_nat (length (int_tlv n))).
Proof.
  intros Hn. unfold der_length_short_integer. rewrite uint32_id, short_size_eq by done. cbv zeta.
  pose proof (int_octets_pos n). pose proof (int_octets_short n Hn). pose proof (int_contents_length n) as Hc.
  rewrite <- Hc, (length_of_contents 2) by lia. cbn. unfold int_tlv. f_equal. lia.
Qed.
Lemma der_encode_short_integer_ok n outlen :
  0 ≤ n < 2 ^ 32 → Z.of_nat (length (int_tlv n)) ≤ outlen →
  der_encode_short_integer n outlen = written (int_tlv n).
Proof.
  intros Hn Ho. unfold der_encode_short_integer. rewrite uint32_id, der_length_short_integer_ok by done. cbn [is_ok Z.eqb CRYPT_OK negb].
  destruct (Z.ltb_spec outlen (Z.of_nat (length (int_tlv n)))); [lia|]. rewrite short_size_eq by done.
  pose proof (int_octets_pos n). pose proof (int_octets_short n Hn). unfold written.
  assert (∀ out, out = int_tlv n → Outcome CRYPT_OK (Z.of_nat (length out)) (Some out) =
    Outcome CRYPT_OK (Z.of_nat (length (int_tlv n))) (Some (int_tlv n))) as Hw by (by intros ? ->).
  apply Hw. rewrite short_tlv, uint8_id by lia. unfold int_contents. cbn [app]. do 2 f_equal.
  destruct (Z.eqb_spec (Z.of_nat (int_octets n)) 5) as [H5|H5].
  - assert (int_octets n = 5)%nat as -> by lia. change (Z.of_nat 5 <=? 4) with false. cbn iota.
    rewrite be_bytes_S, Z.div_small by (change (256 ^ Z.of_nat 4) with (2 ^ 32); lia). f_equal.
    rewrite <- (Z.mul_1_r n) at 1. by apply (top_bytes_eq 4 0).
  - destruct (Z.leb_spec (Z.of_nat (int_octets n)) 4); [|lia]. rewrite Nat2Z.id.
    pose proof (shift_up_eq (Z.to_nat (4 - Z.of_nat (int_octets n))) 0 n ltac:(lia) Hn) as Hs.
    rewrite Z.pow_0_r, Z.mul_1_r, Nat.add_0_r in Hs. rewrite Hs. apply top_bytes_eq; lia.
Qed.
Lemma der_decode_short_integer_ok n num rest inlen :
  0 ≤ n < 2 ^ 32 → Z.of_nat (length (int_tlv n)) ≤ inlen →
  yields (der_decode_short_integer (int_tlv n ++ rest) inlen num) (CRYPT_OK, n).
Proof.
  intros Hn Hi. pose proof (int_contents_length n) as Hc. pose proof (int_octets_pos n). pose proof (int_octets_short n Hn) as H5.
  rewrite short_tlv in * by done. cbn [length] in Hi. unfold der_decode_short_integer.
  destruct (Z.ltb_spec inlen 2); [lia|]. cbn [app]. eapply yields_bind; [apply yields_rd_0|].
  cbn [Z.land Pos.land Z.eqb Pos.eqb negb]. eapply yields_bind; [apply yields_rd_1|].
  destruct (Z.ltb_spec inlen (2 + Z.of_nat (int_octets n))); [lia|]. rewrite Nat2Z.id.
  eapply yields_bind; [|apply yields_ret]. apply yields_pure. intros s.
  pose proof (rd_be_ok [2; Z.of_nat (int_octets n)] (int_contents n) rest 0 s (int_contents_bytes n)) as Hr.
  rewrite Hc, int_raw_eq in Hr. unfold int_raw in Hr. destruct (Z.ltb_spec n 0); [lia|]. apply Hr; [done|].
  pose proof (Z.pow_le_mono_r 256 (Z.of_nat (int_octets n)) 5). cbn in *. lia.
Qed.

(** ** BOOLEAN *)
Definition bool_tlv (b : bool) : bytes := tlv 1 [if b then 255 else 0].
Lemma der_encode_boolean_ok v b outlen :
  b = negb (v =? 0) → 3 ≤ outlen → der_encode_boolean v outlen = written (bool_tlv b).
Proof.
  intros -> Ho. unfold der_encode_boolean. destruct (Z.ltb_spec outlen 3); [lia|]. by destruct (v =? 0).
Qed.
Lemma der_decode_boolean_ok b v rest inlen :
  3 ≤ inlen → yields (der_decode_boolean (bool_tlv b ++ rest) inlen v) (CRYPT_OK, if b then 1 else 0).
Proof.
  intros Hi. unfold der_decode_boolean. destruct (Z.ltb_spec inlen 3); [lia|].
  apply yields_pure. intros s. change (bool_tlv b ++ rest) with ([1; 1] ++ (if b then 255 else 0) :: rest).
  erewrite bind_ok by apply rd_0. cbn [Z.eqb Pos.eqb negb]. erewrite bind_ok by apply rd_1. cbn [Z.eqb Pos.eqb negb].
  erewrite bind_ok by apply (rd_app [1; 1]). by destruct b.
Qed.

(** ** Strings of octets *)
Lemma copy_octets_ok value pre b rest done old tail :
  Forall (λ c, value c ≠ - 1) b → length old = length b →
  yields (copy_octets value (length b) (pre ++ b ++ rest) (Z.of_nat (length pre)) (Z.of_nat (length done)) (done ++ old ++ tail))
    (CRYPT_OK, done ++ (value <$> b) ++ tail).
Proof.
  revert pre done old. induction b as [|c b IH]; intros pre done old Hb Hl.
  - destruct old; [|done]. apply yields_ret.
  - destruct old as [|o old]; [done|]. apply Forall_cons in Hb as [Hc Hb]. cbn [length copy_octets app fmap list_fmap].
    eapply yields_bind; [apply yields_rd|]. destruct (Z.eqb_spec (value c) (- 1)); [done|].
    eapply yields_bind; [apply yields_pure; intros; apply wr_app|].
    specialize (IH (pre ++ [c]) (done ++ [value c]) old Hb ltac:(cbn in Hl; lia)).
    rewrite <- !app_assoc in IH. rewrite !length_app, !Nat2Z.inj_add in IH. exact IH.
Qed.

Lemma decode_octets_ok tag value b rest inlen out outlen :
  Z.land tag 0x1F = tag → Forall (λ c, value c ≠ - 1) b →
  Z.of_nat (length (tlv tag b)) ≤ inlen < 2 ^ 62 → Z.of_nat (length b) ≤ outlen ≤ Z.of_nat (length out) →
  yields (decode_octets tag value (tlv tag b ++ rest) inlen out outlen)
    (CRYPT_OK, (value <$> b) ++ drop (length b) out, Z.of_nat (length b)).
Proof.
  intros Ht Hv Hi Ho. unfold decode_octets. pose proof Hi as Hi'. rewrite tlv_length in Hi'.
  pose proof (len_field_length (Z.of_nat (length b))) as Hlf.
  destruct (Z.ltb_spec inlen 2); [destruct (_ <? 128); lia|].
  eapply yields_bind; [apply tag_at|]. rewrite Ht, Z.eqb_refl. cbn [negb].
  eapply yields_bind; [by apply read_header|]. cbn [is_ok Z.eqb CRYPT_OK negb].
  destruct (Z.ltb_spec outlen (Z.of_nat (length b))); [lia|]. rewrite uint64_id by lia.
  destruct (Z.ltb_spec (inlen - (1 + Z.of_nat (length (len_field (Z.of_nat (length b)))))) (Z.of_nat (length b))); [lia|].
  destruct (contents_at tag b rest) as [-> ->]. set (h := tag :: len_field _). rewrite Nat2Z.id.
  eapply (yields_bind _ _ (CRYPT_OK, (value <$> b) ++ drop (length b) out)); [|apply yields_ret].
  rewrite <- (take_drop (length b) out) at 1. apply (copy_octets_ok value h b rest [] (take (length b) out)); [done|].
  rewrite length_take. lia.
Qed.

Lemma der_length_octet_string_ok tag b :
  (0 < length b)%nat → Z.of_nat (length (tlv tag b)) < 2 ^ 62 →
  der_length_octet_string (Z.of_nat (length b)) = (CRYPT_OK, Z.of_nat (length (tlv tag b))).
Proof.
  intros Hb Hl. rewrite tlv_length in Hl. unfold der_length_octet_string. rewrite (length_of_contents tag) by lia.
  cbn. f_equal. lia.
Qed.
Lemma der_encode_octet_string_ok b tail outlen :
  (0 < length b)%nat → Z.of_nat (length (tlv 4 b)) ≤ outlen < 2 ^ 62 →
  yields (der_encode_octet_string (b ++ tail) (Z.of_nat (length b)) outlen) (written (tlv 4 b)).
Proof.
  intros Hb Ho. unfold der_encode_octet_string. rewrite (der_length_octet_string_ok 4) by lia. cbn [is_ok Z.eqb CRYPT_OK negb].
  destruct (Z.ltb_spec outlen (Z.of_nat (length (tlv 4 b)))); [lia|].
  eapply yields_bind; [apply yields_rd_range_0|]. rewrite put_header_ok by lia. apply yields_ret.
Qed.

(** ** Strings of characters *)
Lemma length_chars_ok encode tag b tail :
  (0 < length b)%nat → Z.of_nat (length (tlv tag b)) < 2 ^ 62 → Forall (λ c, encode c ≠ - 1) b →
  yields (length_chars encode (b ++ tail) (Z.of_nat (length b))) (CRYPT_OK, Z.of_nat (length (tlv tag b))).
Proof.
  intros Hb Hl He. unfold length_chars. eapply yields_bind; [apply yields_rd_range_0|].
  assert (existsb (λ c, encode c =? - 1) b = false) as ->.
  { clear -He. induction He as [|c b Hc He IH]; [done|]. cbn. rewrite IH. by destruct (Z.eqb_spec (encode c) (- 1)). }
  rewrite (der_length_octet_string_ok tag) by done. apply yields_ret.
Qed.
Lemma encode_chars_ok encode tag b tail outlen :
  (0 < length b)%nat → Z.of_nat (length (tlv tag b)) ≤ outlen < 2 ^ 62 → Forall (λ c, encode c ≠ - 1 ∧ encode c = c) b →
  yields (encode_chars tag encode (b ++ tail) (Z.of_nat (length b)) outlen) (written (tlv tag b)).
Proof.
  intros Hb Ho He. unfold encode_chars.
  eapply yields_bind; [apply (length_chars_ok _ tag); [done|lia|]; eapply Forall_impl; [exact He|]; by intros c []|].
  cbn [is_ok Z.eqb CRYPT_OK negb]. destruct (Z.ltb_spec outlen (Z.of_nat (length (tlv tag b)))); [lia|].
  eapply yields_bind; [apply yields_rd_range_0|].
  assert (encode <$> b = b) as ->.
  { clear -He. induction He as [|c b [_ Hc] He IH]; [done|]. cbn. by rewrite Hc, IH. }
  rewrite put_header_ok by lia. apply yields_ret.
Qed.
End prims.
