(* ===== verification/DerBits.v ===== *)
(** * Bit strings and object identifiers against the reference *)

From S2P Require Import Prelude Ltc LtcRsa LtcSpec Der DerSpec DerPrims.

(** ** Reference encoding *)

(** Eight bits to an octet, the first one highest; missing bits are zero. *)
Definition bit_at (l : list bool) (y : nat) : bool := default false (l !! y).
Definition octet_at (l : list bool) (q : nat) : Z :=
  foldl (λ v j, 2 * v + Z.b2z (bit_at l (8 * q + j))) 0 (seq 0 8).
Definition packed (l : list bool) : bytes := octet_at l <$> seq 0 ((length l + 7) / 8).
Definition bits_contents (l : list bool) : bytes :=
  Z.of_nat (8 * ((length l + 7) / 8) - length l) :: packed l.

(** The bits of octets. *)
Definition octet_bits (c : Z) : list bool := (λ j, Z.testbit c (7 - Z.of_nat j)) <$> seq 0 8.
Definition bits_of (b : bytes) : list bool := concat (octet_bits <$> b).

(** Seven bits to an octet, the top bit set in all but the last one. *)
Definition groups7 (w : Z) : nat := if w =? 0 then 1%nat else Z.to_nat (Z.log2 w / 7 + 1).
Fixpoint base128 (n : nat) (w : Z) : bytes :=
  match n with
  | O => []
  | S n => (w / 128 ^ Z.of_nat n) mod 128 + (if (n =? 0)%nat then 0 else 128) :: base128 n w
  end.
Definition oid_contents (words : list Z) : bytes :=
  match words with
  | w0 :: w1 :: ws => concat ((λ w, base128 (groups7 w) w) <$> (40 * w0 + w1 :: ws))
  | _ => []
  end.

(** ** Octets and bits *)
Ltac bits_case := repeat match goal with |- context [bit_at ?l ?y] => destruct (bit_at l y) end; reflexivity.
Ltac each_bit r :=
  let H := fresh in
  assert (r = 0 ∨ r = 1 ∨ r = 2 ∨ r = 3 ∨ r = 4 ∨ r = 5 ∨ r = 6 ∨ r = 7)%nat as H by lia;
  destruct_or! H; subst r.

Lemma bit_mask_eq q r : (r < 8)%nat → bit_mask (Z.of_nat (8 * q + r)) = 2 ^ (7 - Z.of_nat r).
Proof.
  intros Hr. unfold bit_mask. rewrite land_7, Z.shiftl_mul_pow2, Z.mul_1_l by (Z.div_mod_to_equations; lia).
  f_equal. Z.div_mod_to_equations; lia.
Qed.
Lemma octet_flag l q r :
  (r < 8)%nat → has_flag (octet_at l q) (bit_mask (Z.of_nat (8 * q + r))) = bit_at l (8 * q + r).
Proof. intros Hr. rewrite bit_mask_eq by done. unfold octet_at. cbn [seq foldl]. each_bit r; cbn; bits_case. Qed.
Lemma octet_at_byte l q : byte_ok (octet_at l q).
Proof. unfold octet_at, byte_ok. cbn [seq foldl]. repeat match goal with |- context [bit_at ?l ?y] => destruct (bit_at l y) end; cbn; lia. Qed.

(** The octet as far as the loop of the encoder has collected it. *)
Fixpoint partial (l : list bool) (q r : nat) : Z :=
  match r with O => 0 | S r => partial l q r + Z.b2z (bit_at l (8 * q + r)) * 2 ^ (7 - Z.of_nat r) end.
Lemma partial_8 l q : partial l q 8 = octet_at l q.
Proof. unfold octet_at. cbn [partial seq foldl]. cbn. bits_case. Qed.
Lemma partial_step l q r :
  (r < 8)%nat →
  Z.lor (partial l q r) (if bit_at l (8 * q + r) then bit_mask (Z.of_nat (8 * q + r)) else 0) = partial l q (S r).
Proof. intros Hr. rewrite bit_mask_eq by done. each_bit r; cbn [partial]; cbn; bits_case. Qed.
Lemma partial_end l q r : (r ≤ 8)%nat → (∀ j, (8 * q + r ≤ j)%nat → bit_at l j = false) → partial l q r = octet_at l q.
Proof.
  intros Hr Hf. rewrite <- partial_8. remember (8 - r)%nat as k eqn:Hk. revert r Hr Hf Hk.
  induction k as [|k IH]; intros r Hr Hf Hk; [by assert (r = 8)%nat as -> by lia|].
  rewrite <- (IH (S r)); [|lia|intros; apply Hf; lia|lia]. cbn [partial]. rewrite Hf by lia. cbn. lia.
Qed.

Lemma packed_length l : length (packed l) = ((length l + 7) / 8)%nat.
Proof. unfold packed. by rewrite length_fmap, length_seq. Qed.
Lemma bit_at_end l y : (length l ≤ y)%nat → bit_at l y = false.
Proof. intros H. unfold bit_at. by rewrite lookup_ge_None_2. Qed.

(** *** Octets as bits *)
Lemma bits_of_length b : length (bits_of b) = (8 * length b)%nat.
Proof. unfold bits_of. induction b as [|c b IH]; [done|]. cbn [fmap list_fmap concat length]. rewrite length_app, IH. cbn. lia. Qed.
Lemma bits_of_lookup b q j c :
  b !! q = Some c → (j < 8)%nat → bits_of b !! (8 * q + j)%nat = Some (Z.testbit c (7 - Z.of_nat j)).
Proof.
  revert q. induction b as [|d b IH]; intros q Hq Hj; [done|]. unfold bits_of. cbn [fmap list_fmap concat].
  destruct q as [|q]; cbn in Hq.
  - injection Hq as <-. rewrite lookup_app_l by (cbn; lia). unfold octet_bits. rewrite list_lookup_fmap, lookup_seq_lt by lia. done.
  - rewrite lookup_app_r by (cbn; lia). change (length (octet_bits d)) with 8%nat.
    replace (8 * S q + j - 8)%nat with (8 * q + j)%nat by lia. by apply IH.
Qed.
Lemma bit_at_bits_of b q j c :
  b !! q = Some c → (j < 8)%nat → bit_at (bits_of b) (8 * q + j) = Z.testbit c (7 - Z.of_nat j).
Proof. intros Hq Hj. unfold bit_at. by rewrite (bits_of_lookup b q j c). Qed.

Lemma packed_bits_of b : bytes_ok b → packed (bits_of b) = b.
Proof.
  intros Hb. unfold packed. rewrite bits_of_length. replace ((8 * length b + 7) / 8)%nat with (length b)
    by (apply (Nat.div_unique _ _ _ 7); lia).
  apply list_eq. intros q. rewrite list_lookup_fmap. destruct (decide (q < length b)%nat) as [Hq|Hq].
  - rewrite lookup_seq_lt by done. destruct (lookup_lt_is_Some_2 b q Hq) as [c Hc]. rewrite Hc. cbn [fmap option_fmap option_map].
    f_equal. unfold octet_at. cbn [seq foldl Nat.add]. rewrite !(bit_at_bits_of b q _ c) by (done || lia).
    pose proof (Forall_lookup_1 _ _ _ _ Hb Hc) as Hbyte.
    pose proof (byte_cases (λ c, foldl (λ v j, 2 * v + Z.b2z (Z.testbit c (7 - Z.of_nat j))) 0 (seq 0 8) =? c) c
      ltac:(by vm_compute) Hbyte) as H. by apply Z.eqb_eq in H.
  - rewrite !lookup_ge_None_2 by (rewrite ?length_seq; lia). done.
Qed.
Lemma raw_contents b : bytes_ok b → bits_contents (bits_of b) = 0 :: b.
Proof.
  intros Hb. unfold bits_contents. rewrite packed_bits_of, bits_of_length by done. f_equal.
  rewrite <- (Nat.div_unique (8 * length b + 7) 8 (length b) 7) by lia. lia.
Qed.

(** One bit copied from [c] to [o]. *)
Definition copy_bit (c o : Z) (j : nat) : Z :=
  if has_flag c (2 ^ (7 - Z.of_nat j)) then Z.lor o (2 ^ (7 - Z.of_nat j)) else Z.land o (255 - 2 ^ (7 - Z.of_nat j)).
Lemma copy_octet c o : byte_ok c → byte_ok o → foldl (copy_bit c) o (seq 0 8) = c.
Proof.
  intros Hc Ho.
  pose proof (byte_cases (λ c, forallb (λ o, foldl (copy_bit c) o (seq 0 8) =? c) (seqZ 0 256)) c ltac:(by vm_compute) Hc) as H.
  cbn beta in H. apply (byte_cases (λ o, foldl (copy_bit c) o (seq 0 8) =? c) o H) in Ho. by apply Z.eqb_eq in Ho.
Qed.

Section bits.
Context `{HLtc : LtcEnv}.
Abbreviation T := (M ltc).

Lemma land_7_nat q r : (r < 8)%nat → Z.land (Z.of_nat (8 * q + r)) 7 = Z.of_nat r.
Proof. intros Hr. rewrite land_7. Z.div_mod_to_equations; lia. Qed.

Lemma pack_bits_ok (bit : Z → T bool) l n q r :
  (∀ y, (y < length l)%nat → yields (bit (Z.of_nat y)) (bit_at l y)) →
  (r < 8)%nat → (8 * q + r + n = length l)%nat →
  yields (pack_bits bit n (Z.of_nat (8 * q + r)) (partial l q r)) (octet_at l <$> seq q ((length l + 7) / 8 - q)).
Proof.
  intros Hbit. revert q r. induction n as [|n IH]; intros q r Hr Hl; cbn [pack_bits]; rewrite land_7_nat by done.
  - destruct (Z.eqb_spec (Z.of_nat r) 0) as [H0|H0].
    + replace ((length l + 7) / 8 - q)%nat with 0%nat; [apply yields_ret|].
      assert ((length l + 7) / 8 < q + 1)%nat by (apply Nat.Div0.div_lt_upper_bound; lia). lia.
    + replace ((length l + 7) / 8 - q)%nat with 1%nat.
      * cbn [seq fmap list_fmap]. rewrite partial_end; [apply yields_ret|lia|]. intros j Hj. apply bit_at_end. lia.
      * assert ((length l + 7) / 8 = q + 1)%nat; [|lia]. symmetry. apply (Nat.div_unique _ _ _ (r - 1)); lia.
  - assert (q < (length l + 7) / 8)%nat as Hq by (apply Nat.div_le_lower_bound; lia).
    eapply yields_bind; [apply Hbit; lia|]. cbv zeta. rewrite partial_step by done.
    destruct (Z.eqb_spec (Z.of_nat r) 7) as [H7|H7].
    + assert (r = 7)%nat as -> by lia. rewrite partial_8.
      replace (Z.of_nat (8 * q + 7) + 1) with (Z.of_nat (8 * S q + 0)) by lia.
      replace ((length l + 7) / 8 - q)%nat with (S ((length l + 7) / 8 - S q)) by lia. cbn [seq fmap list_fmap].
      eapply yields_bind; [apply (IH (S q) 0%nat); lia|apply yields_ret].
    + replace (Z.of_nat (8 * q + r) + 1) with (Z.of_nat (8 * q + S r)) by lia. apply IH; lia.
Qed.

Definition bits_tlv (l : list bool) : bytes := tlv 3 (bits_contents l).
Lemma bits_contents_length l : length (bits_contents l) = S ((length l + 7) / 8).
Proof. unfold bits_contents. cbn [length]. by rewrite packed_length. Qed.

Lemma bit_octets (n : nat) :
  Z.shiftr (Z.of_nat n) 3 + (if Z.land (Z.of_nat n) 7 =? 0 then 0 else 1) = Z.of_nat ((n + 7) / 8) ∧
  Z.land (8 - Z.of_nat n) 7 = Z.of_nat (8 * ((n + 7) / 8) - n) ∧
  (n ≤ 8 * ((n + 7) / 8) < n + 8)%nat.
Proof.
  rewrite !land_7, Z.shiftr_div_pow2 by done. change (2 ^ 3) with 8.
  pose proof (Nat.div_mod (n + 7) 8 ltac:(lia)). pose proof (Nat.mod_upper_bound (n + 7) 8 ltac:(lia)).
  rewrite Nat2Z.inj_div. split_and!; [|Z.div_mod_to_equations; lia|lia|lia].
  destruct (Z.eqb_spec (Z.of_nat n mod 8) 0); Z.div_mod_to_equations; lia.
Qed.

Lemma der_length_bit_string_ok l :
  Z.of_nat (length (bits_tlv l)) < 2 ^ 62 →
  der_length_bit_string (Z.of_nat (length l)) = (CRYPT_OK, Z.of_nat (length (bits_tlv l))).
Proof.
  intros Hl. unfold der_length_bit_string, bits_tlv in *. rewrite tlv_length in Hl.
  destruct (bit_octets (length l)) as [-> _]. cbv zeta. pose proof (bits_contents_length l) as Hc.
  replace (Z.of_nat ((length l + 7) / 8) + 1) with (Z.of_nat (length (bits_contents l))) by lia.
  rewrite (length_of_contents 3) by lia. cbn. f_equal. lia.
Qed.

Lemma encode_bits_ok (bit : Z → T bool) l outlen :
  (∀ y, (y < length l)%nat → yields (bit (Z.of_nat y)) (bit_at l y)) →
  Z.of_nat (length (bits_tlv l)) ≤ outlen < 2 ^ 62 → Z.of_nat (length l) < 2 ^ 62 →
  yields (encode_bits bit (Z.of_nat (length l)) outlen) (written (bits_tlv l)).
Proof.
  intros Hbit Ho Hl. unfold encode_bits. rewrite der_length_bit_string_ok by lia. cbn [is_ok Z.eqb CRYPT_OK negb].
  destruct (Z.ltb_spec outlen (Z.of_nat (length (bits_tlv l)))); [lia|]. rewrite Nat2Z.id.
  pose proof (pack_bits_ok bit l (length l) 0 0 Hbit ltac:(lia) ltac:(lia)) as Hp.
  eapply yields_bind; [exact Hp|]. rewrite Nat.sub_0_r. destruct (bit_octets (length l)) as (_ & -> & _).
  change (Z.of_nat (8 * ((length l + 7) / 8) - length l) :: _) with (bits_contents l).
  replace (Z.shiftr (uint64 (Z.of_nat (length l) + 7)) 3 + 1) with (Z.of_nat (length (bits_contents l))).
  - pose proof (bits_contents_length l). rewrite put_header_ok by (unfold bits_tlv in *; lia). apply yields_ret.
  - rewrite bits_contents_length, uint64_id, Z.shiftr_div_pow2 by lia. rewrite Nat2Z.inj_succ, Nat2Z.inj_div, Nat2Z.inj_add. done.
Qed.

(** *** BIT STRING, a bit in each char *)
Lemma unpack_bits_ok h l rest n y done old tail :
  (y + n = length l)%nat → length old = n → length done = y →
  yields (unpack_bits n (h ++ packed l ++ rest) (Z.of_nat (length h + y / 8)) (Z.of_nat y) (done ++ old ++ tail))
    (done ++ (Z.b2z <$> drop y l) ++ tail).
Proof.
  revert y done old. induction n as [|n IH]; intros y done old Hy Hold Hdone; cbn [unpack_bits].
  - destruct old; [|done]. rewrite drop_ge by lia. apply yields_ret.
  - destruct old as [|o old]; [done|]. pose proof (Nat.div_mod y 8 ltac:(lia)) as Hd. pose proof (Nat.mod_upper_bound y 8 ltac:(lia)) as Hm.
    set (q := (y / 8)%nat) in *. set (r := (y mod 8)%nat) in *.
    assert (q < (length l + 7) / 8)%nat as Hq by (apply Nat.div_le_lower_bound; lia).
    eapply yields_bind.
    { apply yields_pure. intros s. apply rd_lookup. rewrite lookup_app_r, Nat.add_comm, Nat.add_sub by lia.
      rewrite lookup_app_l by (rewrite packed_length; lia). unfold packed. rewrite list_lookup_fmap, lookup_seq_lt by lia. done. }
    assert (has_flag (octet_at l (0 + q)) (bit_mask (Z.of_nat y)) = bit_at l y) as -> by (rewrite Hd; by apply octet_flag).
    replace (wr (done ++ (o :: old) ++ tail) (Z.of_nat y)) with (wr (S := ltc) (done ++ o :: old ++ tail) (Z.of_nat (length done)))
      by (by rewrite Hdone).
    eapply yields_bind; [apply yields_pure; intros; apply wr_app|].
    destruct (lookup_lt_is_Some_2 l y) as [b Hb]; [lia|]. rewrite (drop_S _ _ _ Hb).
    assert (bit_at l y = b) as -> by (unfold bit_at; by rewrite Hb). cbn [fmap list_fmap app].
    replace (if Z.land (Z.of_nat y) 7 =? 7 then Z.of_nat (length h + q) + 1 else Z.of_nat (length h + q))
      with (Z.of_nat (length h + S y / 8)).
    + replace (Z.of_nat y + 1) with (Z.of_nat (S y)) by lia.
      specialize (IH (S y) (done ++ [Z.b2z b]) old ltac:(lia) ltac:(cbn in Hold; lia) ltac:(rewrite length_app; cbn; lia)).
      rewrite <- !app_assoc in IH. cbn [app] in IH. by destruct b.
    + replace (Z.land (Z.of_nat y) 7) with (Z.of_nat r) by (rewrite Hd; by rewrite land_7_nat). destruct (Z.eqb_spec (Z.of_nat r) 7).
      * rewrite <- (Nat.div_unique (S y) 8 (S q) 0) by lia. lia.
      * rewrite <- (Nat.div_unique (S y) 8 q (S r)) by lia. lia.
Qed.

Lemma bit_header_ok l rest inlen :
  (0 < length l)%nat → Z.of_nat (length (bits_tlv l)) ≤ inlen < 2 ^ 62 → Z.of_nat (length l) < 2 ^ 62 →
  yields (bit_string_header (bits_tlv l ++ rest) inlen)
    (CRYPT_OK, Z.of_nat (length (3 :: len_field (Z.of_nat (length (bits_contents l))))) + 1, Z.of_nat (length l)).
Proof.
  intros H0 Hi Hl. unfold bit_string_header, bits_tlv in *. pose proof (bits_contents_length l) as Hc.
  destruct (bit_octets (length l)) as (_ & _ & Hb1 & Hb2). pose proof Hi as Hi'. rewrite tlv_length in Hi'.
  pose proof (len_field_length (Z.of_nat (length (bits_contents l)))).
  destruct (Z.ltb_spec inlen 4); [destruct (_ <? 128); lia|].
  eapply yields_bind; [apply tag_at|]. cbn [Z.land Pos.land Z.eqb Pos.eqb negb].
  eapply yields_bind; [by apply read_header|]. cbn [is_ok Z.eqb CRYPT_OK negb]. rewrite uint64_id by lia.
  destruct (Z.eqb_spec (Z.of_nat (length (bits_contents l))) 0); [lia|].
  destruct (Z.ltb_spec (inlen - (1 + Z.of_nat (length (len_field (Z.of_nat (length (bits_contents l)))))))
    (Z.of_nat (length (bits_contents l)))); [lia|]. cbn [orb].
  destruct (contents_at 3 (bits_contents l) rest) as [-> ->]. set (hd := 3 :: len_field _). cbv zeta.
  eapply yields_bind; [unfold bits_contents at 1; apply yields_rd|].
  assert (uint64 (Z.shiftl (Z.of_nat (length (bits_contents l)) - 1) 3 -
    Z.land (Z.of_nat (8 * ((length l + 7) / 8) - length l)) 7) = Z.of_nat (length l)) as ->; [|apply yields_ret].
  rewrite land_7, Z.mod_small, Z.shiftl_mul_pow2, Hc by lia. change (2 ^ 3) with 8. rewrite uint64_id; lia.
Qed.

Lemma der_decode_bit_string_ok l rest inlen out outlen :
  (0 < length l)%nat → Z.of_nat (length (bits_tlv l)) ≤ inlen < 2 ^ 62 → Z.of_nat (length l) < 2 ^ 62 →
  Z.of_nat (length l) ≤ outlen ≤ Z.of_nat (length out) →
  yields (der_decode_bit_string (bits_tlv l ++ rest) inlen out outlen)
    (CRYPT_OK, (Z.b2z <$> l) ++ drop (length l) out, Z.of_nat (length l)).
Proof.
  intros H0 Hi Hl Ho. unfold der_decode_bit_string. eapply yields_bind; [by apply bit_header_ok|].
  cbn [is_ok Z.eqb CRYPT_OK negb]. destruct (Z.ltb_spec outlen (Z.of_nat (length l))); [lia|]. rewrite Nat2Z.id.
  eapply yields_bind; [|apply yields_ret]. unfold bits_tlv. destruct (contents_at 3 (bits_contents l) rest) as [-> _].
  set (hd := 3 :: len_field _). unfold bits_contents. cbn [app].
  pose proof (unpack_bits_ok (hd ++ [Z.of_nat (8 * ((length l + 7) / 8) - length l)]) l rest (length l) 0 []
    (take (length l) out) (drop (length l) out) ltac:(lia) ltac:(rewrite length_take; lia) ltac:(done)) as Hu.
  rewrite <- app_assoc in Hu. cbn [app] in Hu. rewrite take_drop, length_app in Hu. cbn [length] in Hu.
  rewrite drop_0 in Hu. replace (Z.of_nat (length hd) + 1) with (Z.of_nat (length hd + 1 + 0 / 8)) by (cbn; lia). exact Hu.
Qed.
Lemma der_encode_bit_string_ok l b tail outlen :
  l = (λ c, negb (c =? 0)) <$> b → Z.of_nat (length (bits_tlv l)) ≤ outlen < 2 ^ 62 → Z.of_nat (length l) < 2 ^ 62 →
  yields (der_encode_bit_string (b ++ tail) (Z.of_nat (length l)) outlen) (written (bits_tlv l)).
Proof.
  intros Hb Ho Hl. apply encode_bits_ok; [|done|done]. intros y Hy. rewrite Hb, length_fmap in Hy.
  destruct (lookup_lt_is_Some_2 b y Hy) as [c Hc]. unfold bit_at. rewrite Hb, list_lookup_fmap, Hc. cbn [fmap option_fmap option_map default].
  eapply yields_bind; [|apply yields_ret]. apply yields_pure. intros s. apply rd_lookup. by rewrite lookup_app_l.
Qed.

(** *** BIT STRING, eight bits in each char *)
Lemma copy_bits_step inp x q j c n done o tail s :
  inp !! x = Some c → (j < 8)%nat → length done = q →
  copy_bits (S n) inp (Z.of_nat x) (Z.of_nat (8 * q + j)) (done ++ o :: tail) s =
  copy_bits n inp (Z.of_nat (if (j =? 7)%nat then S x else x)) (Z.of_nat (8 * q + S j)) (done ++ copy_bit c o j :: tail) s.
Proof.
  intros Hc Hj Hd. cbn [copy_bits]. erewrite bind_ok by by apply rd_lookup.
  assert (Z.of_nat (8 * q + j) / 8 = Z.of_nat (length done)) as -> by (Z.div_mod_to_equations; lia).
  erewrite bind_ok by apply rd_app. rewrite bit_mask_eq, land_7_nat by done. erewrite bind_ok by apply wr_app.
  unfold copy_bit. replace (Z.of_nat (8 * q + j) + 1) with (Z.of_nat (8 * q + S j)) by lia.
  destruct (Nat.eqb_spec j 7) as [->|]; [change (Z.of_nat 7 =? 7) with true; cbn iota|destruct (Z.eqb_spec (Z.of_nat j) 7); [lia|]].
  - by replace (Z.of_nat x + 1) with (Z.of_nat (S x)) by lia.
  - done.
Qed.
Lemma copy_bits_octet inp x q c n done o tail s :
  inp !! x = Some c → length done = q → byte_ok c → byte_ok o →
  copy_bits (8 + n) inp (Z.of_nat x) (Z.of_nat (8 * q)) (done ++ o :: tail) s =
  copy_bits n inp (Z.of_nat (S x)) (Z.of_nat (8 * S q)) ((done ++ [c]) ++ tail) s.
Proof.
  intros Hc Hd Hb Ho. rewrite <- app_assoc. cbn [app]. replace (done ++ c :: tail) with (done ++ foldl (copy_bit c) o (seq 0 8) :: tail) by (by rewrite copy_octet).
  replace (8 * q)%nat with (8 * q + 0)%nat by lia. replace (8 * S q)%nat with (8 * q + 8)%nat by lia.
  cbn [seq foldl Nat.add]. do 8 rewrite (copy_bits_step _ _ _ _ c) by (done || lia). done.
Qed.
Lemma copy_bits_ok h b rest done old tail :
  bytes_ok b → bytes_ok old → length old = length b →
  yields (copy_bits (8 * length b) (h ++ b ++ rest) (Z.of_nat (length h)) (Z.of_nat (8 * length done)) (done ++ old ++ tail))
    (done ++ b ++ tail).
Proof.
  intros Hb. revert h done old. induction Hb as [|c b Hc Hb IH]; intros h done old Ho Hl.
  - destruct old; [|done]. apply yields_ret.
  - destruct old as [|o old]; [done|]. apply Forall_cons in Ho as [Ho Hold]. cbn [length app].
    replace (8 * S (length b))%nat with (8 + 8 * length b)%nat by lia.
    specialize (IH (h ++ [c]) (done ++ [c]) old Hold ltac:(cbn in Hl; lia)). rewrite !length_app in IH. cbn [length] in IH.
    intros s. destruct (IH s) as [k E]. exists k. rewrite (copy_bits_octet _ _ _ c) by (done || by apply list_lookup_middle).
    rewrite <- !app_assoc in *. cbn [app] in *. rewrite !Nat.add_1_r in E. exact E.
Qed.

Definition raw_tlv (b : bytes) : bytes := tlv 3 (0 :: b).
Lemma raw_tlv_eq b : bytes_ok b → raw_tlv b = bits_tlv (bits_of b).
Proof. intros Hb. unfold raw_tlv, bits_tlv. by rewrite raw_contents. Qed.
Lemma raw_tlv_length b : (length b < length (raw_tlv b))%nat.
Proof. unfold raw_tlv. rewrite tlv_length. cbn [length]. lia. Qed.

Lemma der_decode_raw_bit_string_ok b rest inlen out outlen :
  (0 < length b)%nat → bytes_ok b → bytes_ok out → Z.of_nat (length (raw_tlv b)) ≤ inlen < 2 ^ 58 →
  Z.of_nat (8 * length b) ≤ outlen → (length b ≤ length out)%nat →
  yields (der_decode_raw_bit_string (raw_tlv b ++ rest) inlen out outlen)
    (CRYPT_OK, b ++ drop (length b) out, Z.of_nat (8 * length b)).
Proof.
  intros H0 Hb Hout Hi Ho Hlo. unfold der_decode_raw_bit_string. pose proof (raw_tlv_length b).
  eapply yields_bind; [rewrite raw_tlv_eq by done; apply bit_header_ok; rewrite ?bits_of_length, <- ?raw_tlv_eq; (done || lia)|].
  rewrite bits_of_length. cbn [is_ok Z.eqb CRYPT_OK negb]. destruct (Z.ltb_spec outlen (Z.of_nat (8 * length b))); [lia|].
  rewrite Nat2Z.id, raw_contents by done. eapply yields_bind; [|apply yields_ret].
  unfold raw_tlv. destruct (contents_at 3 (0 :: b) rest) as [-> _]. set (hd := 3 :: len_field _).
  pose proof (copy_bits_ok (hd ++ [0]) b rest [] (take (length b) out) (drop (length b) out) Hb
    ltac:(by apply Forall_take) ltac:(rewrite length_take; lia)) as Hu.
  rewrite <- app_assoc in Hu. cbn [app] in Hu. rewrite take_drop, length_app, Nat2Z.inj_add in Hu. exact Hu.
Qed.
Lemma der_encode_raw_bit_string_ok b tail outlen :
  bytes_ok b → Z.of_nat (length (raw_tlv b)) ≤ outlen < 2 ^ 58 →
  yields (der_encode_raw_bit_string (b ++ tail) (Z.of_nat (8 * length b)) outlen) (written (raw_tlv b)).
Proof.
  intros Hb Ho. pose proof (raw_tlv_length b). rewrite raw_tlv_eq in * by done. rewrite <- bits_of_length.
  apply encode_bits_ok; [|lia|rewrite bits_of_length; lia]. intros y Hy. rewrite bits_of_length in Hy.
  pose proof (Nat.div_mod y 8 ltac:(lia)) as Hd. pose proof (Nat.mod_upper_bound y 8 ltac:(lia)) as Hm.
  set (q := (y / 8)%nat) in *. set (r := (y mod 8)%nat) in *.
  destruct (lookup_lt_is_Some_2 b q ltac:(lia)) as [c Hc]. rewrite Hd. rewrite (bit_at_bits_of b q r c) by done.
  replace (Z.of_nat (8 * q + r) / 8) with (Z.of_nat q) by (Z.div_mod_to_equations; lia).
  replace (Z.of_nat (8 * q + r) mod 8) with (Z.of_nat r) by (Z.div_mod_to_equations; lia).
  eapply yields_bind; [apply yields_pure; intros s; apply rd_lookup; rewrite lookup_app_l by (by eapply lookup_lt_Some); exact Hc|].
  rewrite Z.shiftl_mul_pow2, Z.mul_1_l, has_flag_pow2 by lia. apply yields_ret.
Qed.
End bits.
