(* ===== verification/DerOid.v ===== *)
(** * Object identifiers against the reference *)

From S2P Require Import Prelude Ltc LtcRsa LtcSpec Der DerSpec DerPrims DerBits.

Record oid_ok (words : list Z) : Prop := OidOk {
  oo_words : Forall (λ w, 0 ≤ w < 2 ^ 32) words;
  oo_size : Z.of_nat (length (oid_contents words)) < 65536;
  oo_first : match words with
             | w0 :: w1 :: _ => w0 ≤ 2 ∧ (w0 < 2 → w1 ≤ 39) ∧ 40 * w0 + w1 < 2 ^ 32
             | _ => False
             end }.

(** ** Groups of seven bits *)

Lemma groups7_small w : 0 ≤ w < 128 → groups7 w = 1%nat.
Proof.
  intros Hw. unfold groups7. destruct (Z.eqb_spec w 0); [done|].
  assert (Z.log2 w < 7) by (apply Z.log2_lt_pow2; lia). pose proof (Z.log2_nonneg w). by rewrite Z.div_small by lia.
Qed.
Lemma groups7_step w : 128 ≤ w → groups7 w = S (groups7 (w / 128)).
Proof.
  intros Hw. unfold groups7. assert (0 < w / 128) by (apply Z.div_str_pos; lia).
  destruct (Z.eqb_spec w 0); [lia|]. destruct (Z.eqb_spec (w / 128) 0); [lia|].
  assert (Z.log2 w = Z.log2 (w / 128) + 7) as ->.
  { apply Z.log2_unique; [pose proof (Z.log2_nonneg (w / 128)); lia|]. pose proof (Z.log2_spec (w / 128) ltac:(done)) as [Hl Hu].
    pose proof (Z.log2_nonneg (w / 128)). rewrite Z.pow_succ_r in * by lia. rewrite Z.pow_add_r by lia. change (2 ^ 7) with 128.
    pose proof (Z.div_mod w 128 ltac:(lia)). pose proof (Z.mod_pos_bound w 128 ltac:(lia)). lia. }
  pose proof (Z.log2_nonneg (w / 128)). rewrite <- Z2Nat.inj_succ by (pose proof (Z.div_pos (Z.log2 (w / 128)) 7); lia).
  f_equal. Z.div_mod_to_equations; lia.
Qed.
Lemma groups7_bound w : 0 ≤ w → w < 128 ^ Z.of_nat (groups7 w).
Proof.
  intros Hw. unfold groups7. destruct (Z.eqb_spec w 0) as [->|]; [done|]. pose proof (Z.log2_nonneg w).
  pose proof (Z.div_pos (Z.log2 w) 7 ltac:(lia) ltac:(lia)). rewrite Z2Nat.id by lia.
  change 128 with (2 ^ 7). rewrite <- Z.pow_mul_r by lia. apply Z.log2_lt_pow2; [lia|]. Z.div_mod_to_equations; lia.
Qed.
Lemma groups7_pos w : 0 ≤ w → (0 < groups7 w)%nat.
Proof. intros Hw. unfold groups7. destruct (w =? 0); [lia|]. pose proof (Z.log2_nonneg w). pose proof (Z.div_pos (Z.log2 w) 7). lia. Qed.
Lemma groups7_five w : 0 ≤ w < 2 ^ 32 → (groups7 w ≤ 5)%nat.
Proof.
  intros Hw. unfold groups7. destruct (Z.eqb_spec w 0); [lia|]. assert (Z.log2 w < 32) by (apply Z.log2_lt_pow2; lia).
  pose proof (Z.log2_nonneg w). Z.div_mod_to_equations; lia.
Qed.

(** All octets but the last. *)
Fixpoint cont (n : nat) (w : Z) : bytes :=
  match n with O => [] | S n => (w / 128 ^ Z.of_nat n) mod 128 + 128 :: cont n w end.
Lemma pow128 n : 0 < 128 ^ Z.of_nat n.
Proof. apply Z.pow_pos_nonneg; lia. Qed.
Lemma div_pow128 n w : w / 128 ^ Z.of_nat (S n) = w / 128 / 128 ^ Z.of_nat n.
Proof. pose proof (pow128 n). rewrite Nat2Z.inj_succ, Z.pow_succ_r, Z.div_div by lia. done. Qed.
Lemma cont_snoc n w : cont (S n) w = cont n (w / 128) ++ [w mod 128 + 128].
Proof.
  induction n as [|n IH]; [cbn; by rewrite Z.div_1_r|].
  change (cont (S (S n)) w) with ((w / 128 ^ Z.of_nat (S n)) mod 128 + 128 :: cont (S n) w).
  rewrite IH, div_pow128. done.
Qed.
Lemma base128_snoc n w : base128 (S n) w = cont n (w / 128) ++ [w mod 128].
Proof.
  induction n as [|n IH]; [cbn; by rewrite Z.div_1_r, Z.add_0_r|].
  change (base128 (S (S n)) w) with ((w / 128 ^ Z.of_nat (S n)) mod 128 + 128 :: base128 (S n) w).
  rewrite IH, div_pow128. done.
Qed.
Lemma cont_length n w : length (cont n w) = n.
Proof. induction n; cbn; lia. Qed.
Lemma base128_length n w : length (base128 n w) = n.
Proof. induction n; cbn; lia. Qed.

Lemma group_lor t mask : 0 ≤ t → mask = 0 ∨ mask = 128 → Z.lor (Z.land t 0x7F) mask = t mod 128 + mask.
Proof.
  intros Ht Hm. change 0x7F with (2 ^ 7 - 1). rewrite (land_ones_mod t 7) by done. change (2 ^ 7) with 128.
  pose proof (Z.mod_pos_bound t 128 ltac:(lia)) as Hb. set (v := t mod 128) in *.
  pose proof (byte_cases (λ v, (128 <=? v) || (Z.lor v 0 =? v + 0) && (Z.lor v 128 =? v + 128)) v
    ltac:(by vm_compute) ltac:(unfold byte_ok; lia)) as H.
  apply orb_true_iff in H as [H|H]; [lia|]. apply andb_true_iff in H as [H1 H2].
  apply Z.eqb_eq in H1, H2. by destruct Hm as [->| ->].
Qed.
Lemma low_groups_cont r t : 0 < t < 128 ^ Z.of_nat r → reverse (low_groups r t 128) = cont (groups7 t) t.
Proof.
  revert t. induction r as [|r IH]; intros t Ht; [cbn in Ht; lia|]. cbn [low_groups]. destruct (Z.eqb_spec t 0); [lia|].
  rewrite group_lor, reverse_cons, Z.shiftr_div_pow2 by (lia || by right). change (2 ^ 7) with 128.
  rewrite Nat2Z.inj_succ, Z.pow_succ_r in Ht by lia. destruct (Z.ltb_spec t 128).
  - rewrite Z.div_small, groups7_small by lia. rewrite cont_snoc. by destruct r.
  - rewrite (groups7_step t) by done. rewrite IH by (split; [apply Z.div_str_pos|apply Z.div_lt_upper_bound]; lia). by rewrite cont_snoc.
Qed.
Lemma word_octets_eq w : 0 ≤ w < 2 ^ 32 → word_octets w = base128 (groups7 w) w.
Proof.
  intros Hw. unfold word_octets. rewrite uint32_id by done. destruct (Z.eqb_spec w 0) as [->|]; [done|].
  cbn [low_groups]. destruct (Z.eqb_spec w 0); [lia|].
  rewrite group_lor, Z.add_0_r, reverse_cons, Z.shiftr_div_pow2 by (lia || by left). change (2 ^ 7) with 128.
  destruct (Z.ltb_spec w 128).
  - rewrite (Z.div_small w), groups7_small by lia. cbn. by rewrite Z.div_1_r, Z.add_0_r.
  - rewrite groups7_step, base128_snoc, <- (low_groups_cont 4); [done| |done].
    split; [apply Z.div_str_pos; lia|apply Z.div_lt_upper_bound; [lia|]]. cbn. lia.
Qed.

Lemma count_ones_up_eq r x : 0 < x < 2 ^ Z.of_nat r → count_ones_up r x = Z.log2 x + 1.
Proof.
  revert x. induction r as [|r IH]; intros x Hx; [cbn in Hx; lia|]. cbn [count_ones_up]. destruct (Z.eqb_spec x 0); [lia|].
  rewrite Z.shiftr_div_pow2 by done. change (2 ^ 1) with 2. rewrite Nat2Z.inj_succ, Z.pow_succ_r in Hx by lia.
  destruct (Z.eqb_spec x 1) as [->|]; [by destruct r|].
  rewrite IH by (split; [apply Z.div_str_pos|apply Z.div_lt_upper_bound]; lia).
  assert (Z.log2 x = Z.log2 (x / 2) + 1); [|lia]. rewrite <- Z.div2_div. rewrite (Z.div2_odd x) at 1.
  assert (0 < Z.div2 x) by (rewrite Z.div2_div; apply Z.div_str_pos; lia).
  destruct (Z.odd x); cbn [Z.b2z]; [apply Z.log2_succ_double; lia|]. rewrite Z.add_0_r. apply Z.log2_double. lia.
Qed.
Lemma word_size_eq w : 0 ≤ w < 2 ^ 32 → word_size w = Z.of_nat (groups7 w).
Proof.
  intros Hw. unfold word_size, der_object_identifier_bits, groups7. rewrite uint32_id by done.
  destruct (Z.eqb_spec w 0) as [->|]; [done|]. rewrite count_ones_up_eq by (change (Z.of_nat 32) with 32; lia).
  pose proof (Z.log2_nonneg w). rewrite Z2Nat.id by (pose proof (Z.div_pos (Z.log2 w) 7); lia). rewrite Z.add_0_r.
  destruct (Z.eqb_spec ((Z.log2 w + 1) mod 7) 0); Z.div_mod_to_equations; lia.
Qed.

Lemma oid_size_eq ws z :
  Forall (λ w, 0 ≤ w < 2 ^ 32) ws → 0 ≤ z → z + 5 * Z.of_nat (length ws) < 2 ^ 62 →
  foldl (λ z w, uint64 (z + word_size w)) z ws =
    z + Z.of_nat (length (concat ((λ w, base128 (groups7 w) w) <$> ws))).
Proof.
  intros Hw. revert z. induction Hw as [|w ws Hw Hws IH]; intros z Hz Hl; [cbn; lia|].
  cbn [foldl fmap list_fmap concat length] in *. pose proof (groups7_five w Hw).
  rewrite word_size_eq, uint64_id, IH, length_app, base128_length by (done || lia). lia.
Qed.

(** ** The codec *)
Definition oid_tlv (words : list Z) : bytes := tlv 6 (oid_contents words).

Lemma concat_groups_length ws :
  Forall (λ w, 0 ≤ w < 2 ^ 32) ws → (length ws ≤ length (concat ((λ w, base128 (groups7 w) w) <$> ws)))%nat.
Proof.
  induction 1 as [|w ws Hw _ IH]; [done|]. cbn [fmap list_fmap concat length]. rewrite length_app, base128_length.
  pose proof (groups7_pos w). lia.
Qed.

Section oid.
Context `{HLtc : LtcEnv}.
Implicit Type s : ltc.

Section word_list.
Context (w0 w1 : Z) (ws : list Z) (Hok : oid_ok (w0 :: w1 :: ws)).
Abbreviation words := (w0 :: w1 :: ws).
Abbreviation joined := (40 * w0 + w1 :: ws).

Lemma words_range : 0 ≤ w0 ≤ 2 ∧ 0 ≤ w1 < 2 ^ 32 ∧ Forall (λ w, 0 ≤ w < 2 ^ 32) joined.
Proof.
  destruct Hok as [Hw _ (H1 & H2 & H3)]. rewrite !Forall_cons in Hw. destruct Hw as (? & ? & ?).
  split_and!; try lia. constructor; [lia|done].
Qed.
Lemma oid_contents_eq : oid_contents words = concat ((λ w, base128 (groups7 w) w) <$> joined).
Proof. done. Qed.
Lemma oid_size_joined : oid_size joined = Z.of_nat (length (oid_contents words)).
Proof.
  destruct words_range as (_ & _ & Hj). pose proof (concat_groups_length joined Hj) as Hl. pose proof (oo_size _ Hok) as Hs.
  rewrite oid_contents_eq in *. unfold oid_size. rewrite oid_size_eq by (done || lia). done.
Qed.
Lemma oid_contents_pos : (0 < length (oid_contents words))%nat.
Proof. destruct words_range as (_ & _ & Hj). pose proof (concat_groups_length joined Hj). cbn [length] in *. rewrite oid_contents_eq. lia. Qed.

Lemma joined_words_ok tail : yields (joined_words (words ++ tail) (Z.of_nat (length words))) joined.
Proof.
  unfold joined_words. rewrite length_app. destruct (Z.ltb_spec (Z.of_nat (length words + length tail)) (Z.of_nat (length words))); [lia|].
  rewrite Nat2Z.id, take_app_length. destruct words_range as (? & ? & Hj).
  apply Forall_cons in Hj as [Hj _]. cbn beta in Hj. rewrite uint64_id, Z.mul_comm by lia. apply yields_ret.
Qed.

Lemma oid_tlv_length :
  let z := Z.of_nat (length (oid_contents words)) in
  Z.of_nat (length (oid_tlv words)) = z + (if z <? 128 then 2 else if z <? 256 then 3 else 4).
Proof.
  cbv zeta. unfold oid_tlv. rewrite tlv_length, Nat2Z.inj_succ, Nat2Z.inj_add, len_field_length.
  pose proof oid_contents_pos. pose proof (oo_size _ Hok). set (n := length (oid_contents words)) in *.
  destruct (Z.ltb_spec (Z.of_nat n) 128); [lia|]. destruct (Z.ltb_spec (Z.of_nat n) 256).
  - rewrite (octets_unique _ 1); [lia|lia|]. change (256 ^ (Z.of_nat 1 - 1)) with 1. change (256 ^ Z.of_nat 1) with 256. lia.
  - rewrite (octets_unique _ 2); [lia|lia|]. change (256 ^ (Z.of_nat 2 - 1)) with 256. change (256 ^ Z.of_nat 2) with 65536. lia.
Qed.

Lemma der_length_object_identifier_ok tail :
  yields (der_length_object_identifier (words ++ tail) (Z.of_nat (length words))) (CRYPT_OK, Z.of_nat (length (oid_tlv words))).
Proof.
  unfold der_length_object_identifier. destruct (Z.ltb_spec (Z.of_nat (length words)) 2); [cbn [length] in *; lia|].
  destruct words_range as (? & ? & Hj). destruct (oo_first _ Hok) as (Ho1 & Ho2 & Ho3).
  eapply yields_bind; [apply yields_rd_0|]. eapply yields_bind; [apply yields_rd_1|].
  destruct (Z.ltb_spec 2 w0); [lia|]. replace ((w0 <? 2) && (39 <? w1)) with false
    by (symmetry; apply andb_false_iff; destruct (Z.ltb_spec w0 2); [right; apply Z.ltb_ge; auto|by left]).
  cbn [orb]. eapply yields_bind; [apply (joined_words_ok tail)|]. rewrite oid_size_joined, oid_tlv_length.
  pose proof (oo_size _ Hok). set (n := length (oid_contents words)) in *.
  destruct (Z.ltb_spec (Z.of_nat n) 128); [apply yields_ret|]. destruct (Z.ltb_spec (Z.of_nat n) 256); [apply yields_ret|].
  destruct (Z.ltb_spec (Z.of_nat n) 65536); [apply yields_ret|lia].
Qed.

Lemma der_encode_object_identifier_ok tail outlen :
  Z.of_nat (length (oid_tlv words)) ≤ outlen < 2 ^ 62 →
  yields (der_encode_object_identifier (words ++ tail) (Z.of_nat (length words)) outlen) (written (oid_tlv words)).
Proof.
  intros Ho. unfold der_encode_object_identifier. eapply yields_bind; [apply (der_length_object_identifier_ok tail)|].
  cbn [is_ok Z.eqb CRYPT_OK negb]. destruct (Z.ltb_spec outlen (Z.of_nat (length (oid_tlv words)))); [lia|].
  eapply yields_bind; [apply (joined_words_ok tail)|]. rewrite oid_size_joined.
  replace (concat (word_octets <$> joined)) with (oid_contents words).
  - rewrite put_header_ok; [apply yields_ret|apply oid_contents_pos|done].
  - rewrite oid_contents_eq. f_equal. destruct words_range as (_ & _ & Hj). apply Forall_fmap_ext_1.
    eapply Forall_impl; [exact Hj|]. intros w Hw. cbn beta. by rewrite word_octets_eq.
Qed.
End word_list.

(** *** Reading words *)
Lemma oid_words_cont n v a c m y t ws outlen s :
  0 ≤ t → (t + 1) * 128 ^ Z.of_nat n ≤ 2 ^ 57 →
  oid_words (n + m) (a ++ cont n v ++ c) (Z.of_nat (length a)) y t ws outlen s =
  oid_words m (a ++ cont n v ++ c) (Z.of_nat (length a + n)) y (t * 128 ^ Z.of_nat n + v mod 128 ^ Z.of_nat n) ws outlen s.
Proof.
  revert a t. induction n as [|n IH]; intros a t Ht Hb.
  - cbn [Nat.add]. by rewrite Nat.add_0_r, Z.pow_0_r, Z.mod_1_r, Z.mul_1_r, Z.add_0_r.
  - cbn [Nat.add oid_words cont app]. set (d := (v / 128 ^ Z.of_nat n) mod 128).
    assert (0 ≤ d < 128) as Hd by (apply Z.mod_pos_bound; lia). pose proof (pow128 n).
    rewrite Nat2Z.inj_succ, Z.pow_succ_r in * by lia.
    erewrite bind_ok by apply rd_app.
    assert (Z.land (d + 128) 0x7F = d ∧ has_flag (d + 128) 0x80 = true) as [-> ->].
    { pose proof (byte_cases (λ d, (128 <=? d) || (Z.land (d + 128) 0x7F =? d) && has_flag (d + 128) 0x80) d
        ltac:(by vm_compute) ltac:(unfold byte_ok; lia)) as H'.
      apply orb_true_iff in H' as [H'|H']; [lia|]. apply andb_true_iff in H' as [Hz Hn]. by apply Z.eqb_eq in Hz. }
    rewrite lor_shiftl by (change (2 ^ 7) with 128; lia). change (2 ^ 7) with 128. rewrite uint64_id by nia.
    specialize (IH (a ++ [d + 128]) (128 * t + d) ltac:(lia) ltac:(nia)).
    rewrite <- app_assoc in IH. cbn [app] in IH. rewrite length_app, Nat2Z.inj_add in IH. cbn [length] in IH. change (Z.of_nat 1) with 1 in IH.
    rewrite IH. f_equal.
    + lia.
    + rewrite (Z.mul_comm 128 (128 ^ _)), (Z.rem_mul_r v) by lia. fold d. lia.
Qed.

(** One word, up to its last octet. *)
Lemma oid_words_step w a c m y ws outlen s :
  0 ≤ w < 2 ^ 32 →
  oid_words (groups7 w + m) (a ++ base128 (groups7 w) w ++ c) (Z.of_nat (length a)) y 0 ws outlen s =
  (let x := Z.of_nat (length a + groups7 w) in
   let inp := a ++ base128 (groups7 w) w ++ c in
   if outlen <=? y then oid_words m inp x (y + 1) 0 ws outlen else
   if y =? 0 then
     ws ← wr ws 0 (if w <=? 79 then w / 40 else 2);
     ws ← wr ws 1 (if w <=? 79 then w mod 40 else w - 80);
     oid_words m inp x 2 0 ws outlen
   else ws ← wr ws y w; oid_words m inp x (y + 1) 0 ws outlen) s.
Proof.
  intros Hw. pose proof (groups7_pos w ltac:(lia)) as Hp. pose proof (groups7_bound w ltac:(lia)) as Hb. pose proof (groups7_five w Hw).
  destruct (groups7 w) as [|g]; [lia|]. rewrite base128_snoc, <- app_assoc. cbn [app]. cbv zeta.
  replace (S g + m)%nat with (g + S m)%nat by lia. rewrite Nat2Z.inj_succ, Z.pow_succ_r in Hb by lia. pose proof (pow128 g).
  assert (0 ≤ w / 128 < 128 ^ Z.of_nat g) by (split; [apply Z.div_pos|apply Z.div_lt_upper_bound]; lia).
  rewrite oid_words_cont; [|lia|pose proof (Z.pow_le_mono_r 128 (Z.of_nat g) 4); change (128 ^ 4) with (2 ^ 28) in *; lia].
  rewrite Z.mul_0_l, Z.add_0_l, (Z.mod_small (w / 128)) by lia. cbn [oid_words].
  pose proof (Z.mod_pos_bound w 128 ltac:(lia)) as Hm. pose proof (Z.div_mod w 128 ltac:(lia)).
  rewrite app_assoc. replace (length a + g)%nat with (length (a ++ cont g (w / 128))) by (rewrite length_app, cont_length; lia).
  erewrite bind_ok by apply rd_app.
  assert (Z.land (w mod 128) 0x7F = w mod 128 ∧ has_flag (w mod 128) 0x80 = false) as [-> ->].
  { pose proof (byte_cases (λ d, (128 <=? d) || (Z.land d 0x7F =? d) && negb (has_flag d 0x80)) (w mod 128)
      ltac:(by vm_compute) ltac:(unfold byte_ok; lia)) as H'.
    apply orb_true_iff in H' as [H'|H']; [lia|]. apply andb_true_iff in H' as [Hz Hn]. apply Z.eqb_eq in Hz. by apply negb_true_iff in Hn. }
  rewrite lor_shiftl by (change (2 ^ 7) with 128; lia). change (2 ^ 7) with 128. rewrite uint64_id by lia.
  replace (128 * (w / 128) + w mod 128) with w by lia.
  replace (Z.of_nat (length a + S g)) with (Z.of_nat (length (a ++ cont g (w / 128))) + 1)
    by (rewrite length_app, cont_length; lia). done.
Qed.

Lemma oid_words_rest vs a c done old tail outlen :
  Forall (λ w, 0 ≤ w < 2 ^ 32) vs → (2 ≤ length done)%nat → length old = length vs →
  Z.of_nat (length done + length vs) ≤ outlen →
  yields (oid_words (length (concat ((λ w, base128 (groups7 w) w) <$> vs)))
            (a ++ concat ((λ w, base128 (groups7 w) w) <$> vs) ++ c) (Z.of_nat (length a)) (Z.of_nat (length done)) 0
            (done ++ old ++ tail) outlen)
    (Z.of_nat (length done + length vs), done ++ vs ++ tail).
Proof.
  intros Hv. revert a done old. induction Hv as [|w vs Hw Hv IH]; intros a done old H2 Ho Hl.
  - destruct old; [|done]. cbn. rewrite Nat.add_0_r. apply yields_ret.
  - destruct old as [|o old]; [done|]. cbn [fmap list_fmap concat length] in *.
    rewrite length_app, base128_length, <- app_assoc.
    specialize (IH (a ++ base128 (groups7 w) w) (done ++ [w]) old ltac:(rewrite length_app; lia) ltac:(lia)
      ltac:(rewrite length_app; cbn [length]; lia)).
    intros s. rewrite oid_words_step by done. cbv zeta.
    destruct (Z.leb_spec outlen (Z.of_nat (length done))); [lia|]. destruct (Z.eqb_spec (Z.of_nat (length done)) 0); [lia|].
    cbn [app]. erewrite bind_ok by apply wr_app. destruct (IH s) as [k E]. exists k.
    rewrite <- !app_assoc, !length_app, base128_length in E. cbn [length app] in E.
    replace (Z.of_nat (length done) + 1) with (Z.of_nat (length done + 1)) by lia.
    replace (length done + S (length vs))%nat with (length done + 1 + length vs)%nat by lia. exact E.
Qed.

Lemma der_decode_object_identifier_ok w0 w1 ws rest inlen out outlen :
  oid_ok (w0 :: w1 :: ws) → Z.of_nat (length (oid_tlv (w0 :: w1 :: ws))) ≤ inlen < 2 ^ 62 →
  Z.of_nat (length (w0 :: w1 :: ws)) ≤ outlen ≤ Z.of_nat (length out) →
  yields (der_decode_object_identifier (oid_tlv (w0 :: w1 :: ws) ++ rest) inlen out outlen)
    (CRYPT_OK, (w0 :: w1 :: ws) ++ drop (length (w0 :: w1 :: ws)) out, Z.of_nat (length (w0 :: w1 :: ws))).
Proof.
  intros Hok Hi Ho. unfold der_decode_object_identifier. pose proof (oid_contents_pos w0 w1 ws Hok) as Hp.
  pose proof Hi as Hi'. unfold oid_tlv in *. rewrite tlv_length in Hi'.
  pose proof (len_field_length (Z.of_nat (length (oid_contents (w0 :: w1 :: ws))))).
  destruct (Z.ltb_spec inlen 3); [destruct (_ <? 128); lia|]. cbn [length] in Ho. destruct (Z.ltb_spec outlen 2); [lia|].
  eapply yields_bind; [apply tag_at|]. cbn [Z.land Pos.land Z.eqb Pos.eqb negb].
  eapply yields_bind; [by apply read_header|]. cbn [is_ok Z.eqb CRYPT_OK negb]. rewrite uint64_id by lia.
  set (n := length (oid_contents (w0 :: w1 :: ws))) in *. destruct (Z.eqb_spec (Z.of_nat n) 0); [lia|].
  destruct (Z.ltb_spec (inlen - (1 + Z.of_nat (length (len_field (Z.of_nat n))))) (Z.of_nat n)); [lia|]. cbn [orb].
  destruct (contents_at 6 (oid_contents (w0 :: w1 :: ws)) rest) as [E1 E2]. fold n in E1, E2. rewrite E1, E2.
  set (hd := 6 :: len_field _). rewrite Nat2Z.id.
  destruct (words_range w0 w1 ws Hok) as (Hw0 & Hw1 & Hj). apply Forall_cons in Hj as [Hj Hws]. cbn beta in Hj.
  destruct (oo_first _ Hok) as (_ & H39 & _).
  eapply (yields_bind _ _ (Z.of_nat (2 + length ws), (w0 :: w1 :: ws) ++ drop (length (w0 :: w1 :: ws)) out)).
  - destruct out as [|o0 [|o1 out]]; [cbn in Ho; lia..|]. unfold n. rewrite oid_contents_eq.
    cbn [fmap list_fmap concat]. rewrite length_app, base128_length, <- app_assoc. set (j := 40 * w0 + w1) in *.
    cbn [length] in Ho.
    pose proof (oid_words_rest ws (hd ++ base128 (groups7 j) j) rest [w0; w1] (take (length ws) out) (drop (length ws) out) outlen
      Hws ltac:(done) ltac:(rewrite length_take; lia) ltac:(cbn [length]; lia)) as Hr.
    intros s. rewrite oid_words_step by lia. cbv zeta. destruct (Z.leb_spec outlen 0); [lia|]. cbn [Z.eqb].
    erewrite bind_ok by apply (wr_app []). erewrite bind_ok by apply (wr_app [_]). destruct (Hr s) as [k E]. exists k.
    rewrite <- !app_assoc, length_app, base128_length, take_drop in E. cbn [app length] in E |- *.
    replace (if j <=? 79 then j / 40 else 2) with w0
      by (unfold j; destruct (Z.leb_spec (40 * w0 + w1) 79); Z.div_mod_to_equations; lia).
    replace (if j <=? 79 then j mod 40 else j - 80) with w1
      by (unfold j; destruct (Z.leb_spec (40 * w0 + w1) 79); Z.div_mod_to_equations; lia).
    cbn [drop]. exact E.
  - cbn [length]. destruct (Z.ltb_spec outlen (Z.of_nat (2 + length ws))); [lia|]. apply yields_ret.
Qed.
End oid.
