(* ===== verification/DerSafety.v ===== *)
(** * Decoding hostile input

    What the decoders do on arbitrary bytes: with one byte of memory behind the
    input they stay inside it, and the length of the value they report is never
    more than what was left.  [safe m Q] says that [m] returns from every state,
    whether or not memory can be allocated, with a result in [Q]. *)

From S2P Require Import Prelude Ltc LtcRsa LtcSpec Der DerSeq DerSpec DerPrims DerBits DerOid.

Section safe.
Context `{HLtc : LtcEnv}.
Abbreviation T := (M ltc).

Definition safe {A} (m : T A) (Q : A → Prop) : Prop := ∀ s, ∃ a s', m s = Ok (a, s') ∧ Q a.

Lemma safe_ret {A} (a : A) (Q : A → Prop) : Q a → safe (mret a) Q.
Proof. intros H s. by exists a, s. Qed.
Lemma safe_bind {A B} (m : T A) (f : A → T B) (P : A → Prop) (Q : B → Prop) :
  safe m P → (∀ a, P a → safe (f a) Q) → safe (m ≫= f) Q.
Proof.
  intros Hm Hf s. destruct (Hm s) as (a & s' & E & Ha). destruct (Hf a Ha s') as (b & s'' & E' & Hb).
  exists b, s''. by rewrite (bind_ok _ _ _ _ _ E).
Qed.
Lemma safe_mono {A} (m : T A) (P Q : A → Prop) : safe m P → (∀ a, P a → Q a) → safe m Q.
Proof. intros Hm H s. destruct (Hm s) as (a & s' & E & Ha). exists a, s'. auto. Qed.
Lemma safe_if {A} (b : bool) (m m' : T A) Q : (b = true → safe m Q) → (b = false → safe m' Q) → safe (if b then m else m') Q.
Proof. destruct b; auto. Qed.
(** The result does not depend on the state, which is left alone. *)
Definition gives {A} (m : T A) (a : A) : Prop := ∀ s, m s = Ok (a, s).
Lemma safe_gives {A} (m : T A) a (Q : A → Prop) : gives m a → Q a → safe m Q.
Proof. intros H HQ s. exists a, s. split; [apply H|done]. Qed.
Lemma gives_bind {A B} (m : T A) (f : A → T B) a b : gives m a → gives (f a) b → gives (m ≫= f) b.
Proof. intros Hm Hf s. rewrite (bind_ok _ _ _ _ _ (Hm s)). apply Hf. Qed.
Lemma gives_step {A B} (m : T A) (f : A → T B) a (Q : B → Prop) :
  gives m a → (∃ r, gives (f a) r ∧ Q r) → ∃ r, gives (m ≫= f) r ∧ Q r.
Proof. intros Hm (r & Hf & HQ). exists r. split; [by eapply gives_bind|done]. Qed.

Lemma safe_xmalloc : safe xmalloc (λ _, True).
Proof. intros s. by eexists _, _. Qed.

Lemma safe_wr a i v : 0 ≤ i < Z.of_nat (length a) → safe (wr a i v) (λ a', a' = <[Z.to_nat i := v]> a).
Proof.
  intros Hi. unfold wr. destruct (Z.leb_spec 0 i), (Z.ltb_spec i (Z.of_nat (length a))); try lia. by apply safe_ret.
Qed.

(** Input of [inlen] bytes, with one more in memory behind it. *)
Record readable (inp : bytes) (inlen : Z) : Prop := Readable {
  rb_len : 0 ≤ inlen < 2 ^ 58;
  rb_mem : inlen < Z.of_nat (length inp);
  rb_bytes : bytes_ok inp }.

Lemma readable_at inp inlen x : readable inp inlen → 0 ≤ x ≤ inlen → readable (at_off inp x) (inlen - x).
Proof.
  intros [Hl Hm Hb] Hx. unfold at_off. destruct (Z.leb_spec x (Z.of_nat (length inp))); [|lia].
  split; [lia|rewrite length_drop; lia|by apply Forall_drop].
Qed.
Lemma at_off_at_off inp x y : 0 ≤ x → 0 ≤ y → at_off (at_off inp x) y = at_off inp (x + y).
Proof.
  intros Hx Hy. unfold at_off. destruct (Z.leb_spec x (Z.of_nat (length inp))).
  - rewrite length_drop, drop_drop. destruct (Z.leb_spec y (Z.of_nat (length inp - Z.to_nat x))),
      (Z.leb_spec (x + y) (Z.of_nat (length inp))); try lia; [f_equal; lia|done].
  - cbn [length]. destruct (Z.leb_spec (x + y) (Z.of_nat (length inp))); [lia|]. by destruct (y <=? _); [rewrite drop_nil|].
Qed.

Lemma safe_rd inp inlen i : readable inp inlen → 0 ≤ i ≤ inlen → safe (rd inp i) byte_ok.
Proof.
  intros [_ Hm Hb] Hi s. destruct (rd_total inp i s ltac:(lia)) as (v & E & Hv). exists v, s. split; [done|].
  by apply (Forall_lookup_1 _ _ _ _ Hb Hv).
Qed.
Lemma safe_rd_range inp inlen x n :
  readable inp inlen → 0 ≤ x → 0 ≤ n → x + n ≤ inlen →
  safe (rd_range inp x n) (λ b, Z.of_nat (length b) = n ∧ bytes_ok b ∧ b = take (Z.to_nat n) (drop (Z.to_nat x) inp)).
Proof.
  intros [_ Hm Hb] Hx Hn Hxn. unfold rd_range. destruct (Z.leb_spec (x + n) (Z.of_nat (length inp))); [|lia].
  apply safe_ret. split_and!; [rewrite length_take, length_drop; lia|by apply Forall_take, Forall_drop|done].
Qed.

(** ** The length field *)
Lemma len_field_le a b : 0 ≤ a ≤ b → (length (len_field a) ≤ length (len_field b))%nat.
Proof.
  intros Hab. pose proof (len_field_length a) as Ha. pose proof (len_field_length b) as Hb.
  destruct (Z.ltb_spec a 128), (Z.ltb_spec b 128); try lia.
  pose proof (octets_spec b ltac:(lia)). pose proof (octets_le a (octets b) ltac:(lia)). lia.
Qed.

Lemma safe_rd_be n inp inlen i v k :
  readable inp inlen → 0 ≤ i → i + Z.of_nat n ≤ inlen → 0 ≤ v < 256 ^ Z.of_nat k → (k + n ≤ 8)%nat →
  safe (rd_be inp i n v) (λ v', 0 ≤ v' < 256 ^ Z.of_nat (k + n)).
Proof.
  intros Hr. revert i v k. induction n as [|n IH]; intros i v k Hi Hin Hv Hk; cbn [rd_be].
  - apply safe_ret. by rewrite Nat.add_0_r.
  - eapply safe_bind; [apply (safe_rd _ _ _ Hr); lia|]. intros b Hb.
    assert (0 ≤ Z.lor (Z.shiftl v 8) b < 256 ^ Z.of_nat (S k)) as Hv'.
    { rewrite lor_shiftl by (unfold byte_ok in Hb; lia). change (2 ^ 8) with 256.
      rewrite Nat2Z.inj_succ, Z.pow_succ_r by lia. unfold byte_ok in Hb. lia. }
    assert (256 ^ Z.of_nat (S k) ≤ 2 ^ 64) by (change (2 ^ 64) with (256 ^ 8); apply Z.pow_le_mono_r; lia).
    rewrite uint64_id by lia. replace (k + S n)%nat with (S k + n)%nat by lia. apply IH; lia.
Qed.

(** A length that was read fits, and its field is no shorter than needed. *)
Definition length_read (inlen : Z) (r : Z * Z * Z) : Prop :=
  let '(err, off, len) := r in
  err ≠ CRYPT_INPUT_TOO_LONG ∧ (err = CRYPT_OK → 0 ≤ len ∧ off + len ≤ inlen ∧ Z.of_nat (length (len_field len)) ≤ off).

Lemma length_checked_ok inlen len off :
  0 ≤ off ≤ inlen → inlen < 2 ^ 58 → 0 ≤ len → Z.of_nat (length (len_field len)) ≤ off → length_read inlen (length_checked inlen len off).
Proof.
  intros Ho Hi Hl Hf. unfold length_checked. rewrite uint64_id by lia.
  destruct (Z.ltb_spec (inlen - off) len); cbn; (split; [done|]); [done|lia].
Qed.

Lemma safe_asn1_length inp inlen : readable inp inlen → safe (der_decode_asn1_length inp inlen) (length_read inlen).
Proof.
  intros Hr. pose proof (rb_len _ _ Hr) as Hl. unfold der_decode_asn1_length. apply safe_if; [intros _; by apply safe_ret|].
  intros H1. breflect. eapply safe_bind; [apply (safe_rd _ _ _ Hr); lia|]. intros b Hb. unfold byte_ok in Hb.
  apply safe_if; intros Hs; breflect.
  { apply safe_ret, length_checked_ok; try lia. rewrite len_field_length. destruct (Z.ltb_spec b 128); lia. }
  set (n := Z.land b 127). assert (0 ≤ n < 128) as Hn by (unfold n; change 127 with (2 ^ 7 - 1); rewrite land_ones_mod by lia; apply Z.mod_pos_bound; lia).
  apply safe_if; intros Hn0; [by apply safe_ret|]. apply safe_if; intros Hn8; [by apply safe_ret|]. breflect.
  rewrite uint64_id by lia. apply safe_if; intros Hni; [by apply safe_ret|]. breflect.
  eapply safe_bind; [apply (safe_rd_be (Z.to_nat n) inp inlen 1 0 0 Hr); cbn; lia|]. intros len [Hlen0 Hlen].
  apply safe_ret, length_checked_ok; try lia. rewrite len_field_length. destruct (Z.ltb_spec len 128); [lia|].
  pose proof (octets_le len (Z.to_nat n) ltac:(cbn in Hlen; lia)). lia.
Qed.

(** The header of a value: identifier and length, as all decoders read it. *)
Lemma safe_header inp inlen :
  readable inp inlen → 1 ≤ inlen → safe (der_decode_asn1_length (at_off inp 1) (inlen - 1)) (length_read (inlen - 1)).
Proof. intros Hr Hi. apply safe_asn1_length, readable_at; [done|lia]. Qed.

(** ** INTEGER *)
Lemma int_octets_le z k : (0 < k)%nat → - half k ≤ z < half k → (int_octets z ≤ k)%nat.
Proof.
  intros Hk Hz. unfold int_octets. set (m := if z <? 0 then - z - 1 else z).
  assert (0 ≤ m < half k) as Hm by (unfold m; destruct (Z.ltb_spec z 0); lia). clearbody m.
  destruct (Z.eqb_spec m 0); [lia|]. assert (Z.log2 m < 8 * Z.of_nat k - 1) by (apply Z.log2_lt_pow2; [lia|apply Hm]).
  pose proof (Z.log2_nonneg m). Z.div_mod_to_equations; lia.
Qed.

(** Two's complement of [k] octets is what the decoder computes. *)
Lemma signed_range b c num :
  bytes_ok (b :: c) → num = be_value (b :: c) → let k := S (length c) in
  let v := if has_flag b 0x80 then num - mp_2expt (mp_count_bits num) else num in - half k ≤ v < half k.
Proof.
  intros Hb -> k v. subst v. apply Forall_cons in Hb as [Hb Hc].
  rewrite be_value_cons.
  assert (has_flag b 128 = (128 <=? b)) as ->.
  { apply Bool.eqb_prop, (byte_cases (λ b, Bool.eqb (has_flag b 128) (128 <=? b))); [by vm_compute|done]. }
  pose proof (be_value_range c Hc). pose proof (half_step k ltac:(lia)) as Hh. pose proof (half_double k ltac:(lia)) as Hd.
  replace (Z.of_nat k - 1) with (Z.of_nat (length c)) in Hh by lia. set (p := 256 ^ Z.of_nat (length c)) in *.
  assert (0 < p) by (apply Z.pow_pos_nonneg; lia). unfold byte_ok in Hb.
  assert (256 ^ Z.of_nat k = 256 * p) by (unfold k, p; rewrite Nat2Z.inj_succ, Z.pow_succ_r; lia).
  destruct (Z.leb_spec 128 b); [|nia].
  assert (half k ≤ b * p + be_value c < 2 * half k) as Hn by nia.
  rewrite mp_2expt_eq, count_bits_eq, Z.abs_eq by lia.
  assert (Z.log2 (b * p + be_value c) = 8 * Z.of_nat k - 1) as ->.
  { apply Z.log2_unique; [lia|]. replace (Z.succ (8 * Z.of_nat k - 1)) with (8 * Z.of_nat k) by lia.
    rewrite (Z.pow_mul_r 2 8) by lia. change (2 ^ 8) with 256. fold (half k). lia. }
  replace (8 * Z.of_nat k - 1 + 1) with (8 * Z.of_nat k) by lia. rewrite (Z.pow_mul_r 2 8) by lia. change (2 ^ 8) with 256. lia.
Qed.

(** The value that was read takes no more than the input. *)
Definition sized_in (inlen : Z) (l : Z * Z) : Prop := ∃ z, l = (CRYPT_OK, z) ∧ 0 ≤ z ≤ inlen.

Lemma int_sized v k off inlen :
  - half (S k) ≤ v < half (S k) → 1 + off + Z.of_nat (S k) ≤ inlen < 2 ^ 58 → Z.of_nat (length (len_field (Z.of_nat (S k)))) ≤ off →
  sized_in inlen (der_length_integer v).
Proof.
  intros Hv Hi Ho. pose proof (int_octets_le v (S k) ltac:(lia) Hv) as Hk.
  pose proof (len_field_le (Z.of_nat (int_octets v)) (Z.of_nat (S k)) ltac:(lia)) as Hf.
  assert (Z.of_nat (length (int_tlv v)) ≤ inlen).
  { unfold int_tlv. rewrite tlv_length, int_contents_length. lia. }
  exists (Z.of_nat (length (int_tlv v))). split; [apply der_length_integer_ok; lia|lia].
Qed.

Lemma safe_integer inp inlen num :
  readable inp inlen → safe (der_decode_integer inp inlen num) (λ '(err, v), err ≠ CRYPT_INPUT_TOO_LONG ∧ (err = CRYPT_OK → sized_in inlen (der_length_integer v))).
Proof.
  intros Hr. pose proof (rb_len _ _ Hr) as Hl. unfold der_decode_integer. apply safe_if; intros H3; [by apply safe_ret|]. breflect.
  eapply safe_bind; [apply (safe_rd _ _ _ Hr); lia|]. intros tag _. apply safe_if; intros _; [by apply safe_ret|].
  eapply safe_bind; [apply safe_header; [done|lia]|]. intros [[err off] y] [Hne Hy]. apply safe_if; intros Herr; [apply safe_ret; split; [done|]; by intros ->|].
  unfold is_ok in Herr. breflect. destruct (Hy ltac:(lia)) as (Hy0 & Hyi & Hyf). clear Hy.
  eapply safe_bind; [apply (safe_rd_range _ _ (1 + off) y Hr); lia|]. intros digits (Hd & Hdb & Hdt). unfold mp_read_unsigned_bin.
  eapply safe_bind.
  { intros s. destruct (rd_total inp (1 + off) s) as (b & E & Hb); [pose proof (rb_mem _ _ Hr); lia|].
    exists b, s. split; [exact E|]. exact (conj Hb (Forall_lookup_1 _ _ _ _ (rb_bytes _ _ Hr) Hb)). }
  intros b [Hb Hbok]. set (v := if has_flag b 128 then be_value digits - mp_2expt (mp_count_bits (be_value digits)) else be_value digits).
  assert (sized_in inlen (der_length_integer v)) as Hs.
  { destruct digits as [|b' c].
    - apply (int_sized v 0 1); [unfold v; destruct (has_flag b 128); by vm_compute|lia|by vm_compute].
    - assert (b' = b) as ->.
      { pose proof (f_equal (λ l, l !! 0%nat) Hdt) as H0. cbn in H0. rewrite lookup_take_lt, lookup_drop, Nat.add_0_r, Hb in H0
          by (cbn in Hd; lia). by injection H0. }
      cbn in Hd. apply (int_sized v (length c) off); [by apply signed_range|lia|by rewrite Hd]. }
  unfold v in Hs. destruct (has_flag b 128); [|by apply safe_ret]. eapply safe_bind; [apply safe_xmalloc|].
  intros [] _; by apply safe_ret.
Qed.

(** ** OBJECT IDENTIFIER *)
Lemma word_size_le t k : 0 ≤ t < 128 ^ Z.of_nat k → (0 < k)%nat → 0 ≤ word_size t ≤ 5 ∧ word_size t ≤ Z.of_nat k.
Proof.
  intros Ht Hk. unfold word_size, der_object_identifier_bits. set (u := uint32 t).
  assert (0 ≤ u < 2 ^ 32 ∧ u ≤ t) as [Hu Hut] by (unfold u, uint32; split; [apply Z.mod_pos_bound; lia|apply Z.mod_le; lia]).
  clearbody u. destruct (Z.eqb_spec u 0) as [->|Hne]; [change (count_ones_up 32 0) with 0; change (0 / 7) with 0; change (0 mod 7 =? 0) with true; destruct (t =? 0); lia|].
  rewrite count_ones_up_eq by (change (Z.of_nat 32) with 32; lia). destruct (Z.eqb_spec t 0); [lia|].
  pose proof (Z.log2_nonneg u). assert (Z.log2 u < 32) by (apply Z.log2_lt_pow2; lia).
  assert (Z.log2 u < 7 * Z.of_nat k) by (apply Z.log2_lt_pow2; [lia|]; rewrite (Z.pow_mul_r 2 7) by lia; change (2 ^ 7) with 128; lia).
  destruct (Z.eqb_spec ((Z.log2 u + 1) mod 7) 0); Z.div_mod_to_equations; lia.
Qed.

(** The words that were decoded, the first two joined, and their size. *)
Definition joined (words : list Z) (y : Z) : list Z :=
  match take (Z.to_nat y) words with w0 :: w1 :: rest => uint64 (w0 * 40 + w1) :: rest | _ => [] end.
Definition total_size (ws : list Z) : Z := foldr (λ w z, word_size w + z) 0 ws.
Definition word_ok (w : Z) : Prop := 0 ≤ word_size w ≤ 5.

Lemma total_size_app a b : total_size (a ++ b) = total_size a + total_size b.
Proof. unfold total_size. induction a as [|w a IH]; [done|]. cbn [foldr app]. rewrite IH. lia. Qed.
Lemma total_size_bound ws : Forall word_ok ws → 0 ≤ total_size ws ≤ 5 * Z.of_nat (length ws).
Proof. induction 1 as [|w ws Hw _ IH]; [done|]. unfold word_ok in Hw. cbn [total_size foldr length]. fold (total_size ws). lia. Qed.
Lemma oid_size_total ws z :
  Forall word_ok ws → 0 ≤ z → z + 5 * Z.of_nat (length ws) < 2 ^ 62 →
  foldl (λ z w, uint64 (z + word_size w)) z ws = z + total_size ws.
Proof.
  intros Hw. revert z. induction Hw as [|w ws Hw Hws IH]; intros z Hz Hl; [cbn; lia|]. unfold word_ok in Hw.
  cbn [foldl length total_size foldr] in *. fold (total_size ws). rewrite uint64_id, IH by lia. lia.
Qed.

Lemma joined_next words y t :
  2 ≤ y < Z.of_nat (length words) → joined (<[Z.to_nat y := t]> words) (y + 1) = joined words y ++ [t].
Proof.
  intros Hy. unfold joined. replace (Z.to_nat (y + 1)) with (S (Z.to_nat y)) by lia.
  rewrite (take_S_r _ _ t) by (apply list_lookup_insert_eq; lia). rewrite take_insert_ge by lia.
  destruct words as [|w0 [|w1 words]]; [cbn in Hy; lia..|]. destruct (Z.to_nat y) as [|[|n]] eqn:E; [lia..|]. done.
Qed.
Lemma joined_first words t :
  0 ≤ t < 2 ^ 64 → 2 ≤ Z.of_nat (length words) →
  joined (<[1%nat := if t <=? 79 then t mod 40 else t - 80]> (<[0%nat := if t <=? 79 then t / 40 else 2]> words)) 2 = [t].
Proof.
  intros Ht Hl. destruct words as [|w0 [|w1 words]]; [cbn in Hl; lia..|]. unfold joined. cbn. f_equal.
  destruct (Z.leb_spec t 79); [|rewrite uint64_id by lia; lia].
  pose proof (Z.div_mod t 40 ltac:(lia)). rewrite uint64_id; lia.
Qed.

Definition words_read (size outlen C : Z) (r : Z * list Z) : Prop :=
  let '(y, words) := r in
  Z.of_nat (length words) = size ∧ (y = 0 ∨ 2 ≤ y) ∧
  (y ≤ outlen → Forall word_ok (joined words y) ∧ total_size (joined words y) ≤ C).

Lemma safe_oid_words n inp inlen x y t words outlen p C :
  readable inp inlen → 0 ≤ x → x + Z.of_nat n ≤ inlen → 2 ≤ outlen ≤ Z.of_nat (length words) →
  0 ≤ t < 128 ^ Z.of_nat p → words_read (Z.of_nat (length words)) outlen C (y, words) →
  safe (oid_words n inp x y t words outlen) (words_read (Z.of_nat (length words)) outlen (C + Z.of_nat p + Z.of_nat n)).
Proof.
  intros Hr. remember (Z.of_nat (length words)) as size eqn:Hsz. symmetry in Hsz.
  revert x y t words p C Hsz. induction n as [|n IH]; intros x y t words p C Hsz Hx Hxn Ho Ht (_ & Hy & Hw); cbn [oid_words].
  { apply safe_ret. split_and!; [done|done|]. intros H. destruct (Hw H). split; [done|lia]. }
  eapply safe_bind; [apply (safe_rd _ _ _ Hr); lia|]. intros b Hb. unfold byte_ok in Hb.
  set (t' := uint64 (Z.lor (Z.shiftl t 7) (Z.land b 127))).
  assert (0 ≤ t' < 128 ^ Z.of_nat (S p) ∧ t' < 2 ^ 64) as [Ht' Ht64].
  { unfold t'. change 127 with (2 ^ 7 - 1). rewrite land_ones_mod, lor_shiftl by (try apply Z.mod_pos_bound; lia).
    change (2 ^ 7) with 128. rewrite Nat2Z.inj_succ, Z.pow_succ_r by lia. pose proof (Z.mod_pos_bound b 128 ltac:(lia)).
    unfold uint64. pose proof (Z.mod_pos_bound (128 * t + b mod 128) (2 ^ 64) ltac:(lia)).
    pose proof (Z.mod_le (128 * t + b mod 128) (2 ^ 64) ltac:(lia) ltac:(lia)). lia. }
  clearbody t'. pose proof (word_size_le t' (S p) Ht' ltac:(lia)) as [Hs5 Hsp].
  replace (C + Z.of_nat p + Z.of_nat (S n)) with (C + Z.of_nat (S p) + Z.of_nat n) by lia.
  apply safe_if; intros _; [apply IH; (done || lia)|].
  assert (∀ y' words', Z.of_nat (length words') = size → 2 ≤ y' →
      (y' ≤ outlen → y ≤ outlen ∧ joined words' y' = (if y =? 0 then [] else joined words y) ++ [t']) →
      safe (oid_words n inp (x + 1) y' 0 words' outlen) (words_read size outlen (C + Z.of_nat (S p) + Z.of_nat n))) as Hnext.
  { intros y' words' Hl Hy' Hj.
    eapply safe_mono; [apply (IH (x + 1) y' 0 words' 0%nat (C + Z.of_nat (S p))); try (done || lia)|].
    - split_and!; [done|by right|]. intros Hle. destruct (Hj Hle) as [Hyo ->]. destruct (Hw Hyo) as [Hf Hc].
      assert (Forall word_ok (if y =? 0 then [] else joined words y) ∧ total_size (if y =? 0 then [] else joined words y) ≤ C) as [Hf' Hc'].
      { destruct (Z.eqb_spec y 0) as [->|]; [|done]. split; [constructor|]. pose proof (total_size_bound _ Hf). cbn. lia. }
      split; [apply Forall_app; split; [done|by apply Forall_singleton]|]. rewrite total_size_app. cbn [total_size foldr]. lia.
    - intros [y'' w'']. cbn. intros (? & ? & H). split_and!; [done|done|]. intros H'. destruct (H H'). split; [done|lia]. }
  apply safe_if; intros Hyo; breflect.
  { destruct Hy as [->|Hy]; [lia|]. apply Hnext; [done|lia|lia]. }
  apply safe_if; intros Hy0; breflect.
  - assert (y = 0) as -> by lia. eapply safe_bind; [apply safe_wr; lia|]. intros ? ->.
    eapply safe_bind; [apply safe_wr; rewrite length_insert; lia|]. intros ? ->.
    apply Hnext; [by rewrite !length_insert|lia|]. intros _. split; [lia|]. apply joined_first; lia.
  - destruct Hy as [->|Hy]; [done|]. eapply safe_bind; [apply safe_wr; lia|]. intros ? ->.
    apply Hnext; [by rewrite length_insert|lia|]. intros _. split; [lia|].
    rewrite Hy0. apply joined_next. lia.
Qed.

(** The length of an identifier that was read: no more than the input, and
    bounded by the number of words. *)
Definition oid_read (inlen n : Z) (r : Z * Z) : Prop :=
  let '(err, z) := r in
  err ≠ CRYPT_INPUT_TOO_LONG ∧ (err = CRYPT_OK → 2 ≤ z ≤ inlen ∧ z ≤ 5 * n + 4 ∧ (n ≤ 16 → z ≤ 77)).

Lemma safe_oid_length words n off len inlen :
  2 ≤ n ≤ Z.of_nat (length words) → n < 2 ^ 31 → Forall word_ok (joined words n) → total_size (joined words n) ≤ len →
  Z.of_nat (length (len_field len)) ≤ off → 1 + off + len ≤ inlen →
  ∃ r, gives (der_length_object_identifier words n) r ∧ oid_read inlen n r.
Proof.
  intros Hn H31 Hw Hs Ho Hi. unfold der_length_object_identifier. destruct (n <? 2); [by eexists (_, _)|].
  destruct words as [|w0 [|w1 words]]; [cbn in Hn; lia..|].
  apply (gives_step (rd _ 0) _ w0); [intros s; apply rd_0|]. apply (gives_step (rd _ 1) _ w1); [intros s; apply rd_1|].
  destruct (_ || _); [by eexists (_, _)|]. unfold joined_words.
  destruct (Z.ltb_spec (Z.of_nat (length (w0 :: w1 :: words))) n); [lia|]. unfold joined in *.
  assert (∃ m, Z.to_nat n = S (S m)) as [m Hm] by (exists (Z.to_nat n - 2)%nat; lia). rewrite Hm in *. cbn [take] in *.
  set (ws := uint64 (w0 * 40 + w1) :: take m words) in *.
  assert (Z.of_nat (length ws) ≤ n - 1) as Hlw by (unfold ws; cbn [length]; rewrite length_take; lia).
  pose proof (total_size_bound ws Hw) as Ht.
  apply (gives_step (mret ws) _ ws); [done|]. unfold oid_size.
  rewrite oid_size_total by (done || lia). rewrite Z.add_0_l. set (z := total_size ws) in *. clearbody z.
  pose proof (len_field_le z len ltac:(lia)) as Hf. pose proof (len_field_length z) as Hz.
  assert (z < 128 ∧ Z.of_nat (length (len_field z)) = 1 ∨ 128 ≤ z ∧ Z.of_nat (length (len_field z)) = 1 + Z.of_nat (octets z)) as Hz'
    by (destruct (Z.ltb_spec z 128); lia). clear Hz.
  assert (128 ≤ z < 256 → octets z = 1%nat) by (intros; apply octets_unique; [lia|cbn; lia]).
  assert (256 ≤ z < 65536 → octets z = 2%nat) by (intros; apply octets_unique; [lia|cbn; lia]).
  destruct (Z.ltb_spec z 128); [eexists (_, _); split; [done|split; [done|lia]]|].
  destruct (Z.ltb_spec z 256); [eexists (_, _); split; [done|split; [done|lia]]|].
  destruct (Z.ltb_spec z 65536); eexists (_, _); (split; [done|]); [split; [done|lia]|done].
Qed.

Lemma safe_oid inp inlen words outlen :
  readable inp inlen → outlen ≤ Z.of_nat (length words) → outlen < 2 ^ 31 →
  safe (der_decode_object_identifier inp inlen words outlen)
    (λ '(err, w, n), err ≠ CRYPT_INPUT_TOO_LONG ∧ length w = length words ∧
      (err = CRYPT_OK → n ≤ outlen ∧ ∃ r, gives (der_length_object_identifier w n) r ∧ oid_read inlen n r)).
Proof.
  intros Hr Hol H31. pose proof (rb_len _ _ Hr) as Hl. unfold der_decode_object_identifier.
  apply safe_if; intros H3; [by apply safe_ret|]. apply safe_if; intros H2; [by apply safe_ret|].
  eapply safe_bind; [apply (safe_rd _ _ _ Hr); lia|]. intros tag _. apply safe_if; intros _; [by apply safe_ret|].
  eapply safe_bind; [apply safe_header; [done|lia]|]. intros [[err off] len] [Hne Hy]. apply safe_if; intros Herr; [apply safe_ret; hnf; split_and!; first [done|by intros ->]|].
  unfold is_ok in Herr. destruct (Hy ltac:(lia)) as (Hy0 & Hyi & Hyf). clear Hy.
  apply safe_if; intros _; [by apply safe_ret|].
  eapply safe_bind.
  { apply (safe_oid_words (Z.to_nat len) inp inlen (1 + off) 0 0 words outlen 0 0 Hr); try lia.
    split_and!; [done|by left|]. intros _. unfold joined. cbn. by split. }
  intros [n w]. intros (Hlw & Hn & Hw). apply safe_ret.
  destruct (Z.ltb_spec outlen n); [split_and!; [done|lia|done]|]. split_and!; [done|lia|]. intros _. split; [lia|].
  destruct Hn as [->|Hn2]; [by eexists (_, _)|]. destruct (Hw ltac:(lia)) as [Hf Ht].
  apply (safe_oid_length w n off len); (done || lia).
Qed.

(** ** BIT STRING *)
Lemma land7 a : Z.land a 7 = a mod 8.
Proof. apply (land_ones_mod a 3). lia. Qed.

Definition bits_read (inlen : Z) (r : Z * Z * Z) : Prop :=
  let '(err, x, n) := r in
  err ≠ CRYPT_INPUT_TOO_LONG ∧ (err = CRYPT_OK → 2 ≤ x ∧ 0 ≤ n ∧ (n < 2 ^ 62 → x + (n + 7) / 8 ≤ inlen ∧
    ∃ z, der_length_bit_string n = (CRYPT_OK, z) ∧ z ≤ inlen ∧ n / 8 + 3 ≤ z)).

Lemma bit_string_sized n len off inlen :
  0 ≤ n < 2 ^ 62 → (n + 7) / 8 + 1 ≤ len → Z.of_nat (length (len_field len)) ≤ off → 1 + off + len ≤ inlen →
  ∃ z, der_length_bit_string n = (CRYPT_OK, z) ∧ z ≤ inlen ∧ n / 8 + 3 ≤ z.
Proof.
  intros Hn Hl Ho Hi. unfold der_length_bit_string. rewrite Z.shiftr_div_pow2, land7 by lia. change (2 ^ 3) with 8.
  set (k := n / 8 + (if n mod 8 =? 0 then 0 else 1) + 1).
  assert (k = (n + 7) / 8 + 1 ∧ n / 8 + 1 ≤ k) as [Hk Hk'].
  { unfold k. destruct (Z.eqb_spec (n mod 8) 0); Z.div_mod_to_equations; lia. }
  assert (0 < k < 2 ^ 64) as Hk64 by (rewrite Hk; Z.div_mod_to_equations; lia). clearbody k.
  rewrite der_length_asn1_length_ok by done. cbn [is_ok Z.eqb CRYPT_OK].
  pose proof (len_field_le k len ltac:(lia)). pose proof (len_field_length k) as Hlf.
  pose proof (octets_pos k). eexists. split; [done|]. destruct (k <? 128); lia.
Qed.

Lemma safe_bit_header inp inlen : readable inp inlen → safe (bit_string_header inp inlen) (bits_read inlen).
Proof.
  intros Hr. pose proof (rb_len _ _ Hr) as Hl. unfold bit_string_header. apply safe_if; intros H4; [by apply safe_ret|].
  eapply safe_bind; [apply (safe_rd _ _ _ Hr); lia|]. intros tag _. apply safe_if; intros _; [by apply safe_ret|].
  eapply safe_bind; [apply safe_header; [done|lia]|]. intros [[err off] len] [Hne Hy]. apply safe_if; intros Herr; [apply safe_ret; hnf; split_and!; first [done|by intros ->]|].
  unfold is_ok in Herr. destruct (Hy ltac:(lia)) as (Hy0 & Hyi & Hyf). clear Hy.
  apply safe_if; intros H0; [by apply safe_ret|]. apply orb_false_iff in H0 as [H0 _].
  eapply safe_bind; [apply (safe_rd _ _ _ Hr); lia|]. intros pad _. apply safe_ret. split; [done|]. intros _.
  rewrite land7, Z.shiftl_mul_pow2 by lia. change (2 ^ 3) with 8. pose proof (Z.mod_pos_bound pad 8 ltac:(lia)).
  unfold uint64. pose proof (Z.mod_pos_bound ((len - 1) * 8 - pad mod 8) (2 ^ 64) ltac:(lia)).
  split; [pose proof (len_field_length len); pose proof (octets_pos len); destruct (len <? 128); lia|]. split; [lia|]. intros H62.
  assert (0 ≤ (len - 1) * 8 - pad mod 8) as Hp.
  { destruct (Z.le_gt_cases 0 ((len - 1) * 8 - pad mod 8)); [done|]. exfalso.
    rewrite <- (Z.mod_unique ((len - 1) * 8 - pad mod 8) (2 ^ 64) (- 1) ((len - 1) * 8 - pad mod 8 + 2 ^ 64)) in H62; lia. }
  rewrite Z.mod_small in * by lia. set (n := (len - 1) * 8 - pad mod 8) in *.
  assert ((n + 7) / 8 + 1 ≤ len) by (unfold n; Z.div_mod_to_equations; lia).
  split; [lia|]. apply (bit_string_sized n len off); (done || lia).
Qed.

Lemma masked_byte o r :
  byte_ok o → 0 ≤ r < 8 → byte_ok (Z.lor o (Z.shiftl 1 (7 - r))) ∧ byte_ok (Z.land o (255 - Z.shiftl 1 (7 - r))).
Proof.
  intros Ho Hr. set (P := λ o, forallb (λ r, let m := Z.shiftl 1 (7 - r) in
    (0 <=? Z.lor o m) && (Z.lor o m <? 256) && (0 <=? Z.land o (255 - m)) && (Z.land o (255 - m) <? 256)) (seqZ 0 8)).
  pose proof (byte_cases P o ltac:(by vm_compute) Ho) as H. unfold P in H. rewrite forallb_forall in H.
  specialize (H r). cbv zeta in H. rewrite !andb_true_iff in H. unfold byte_ok.
  destruct H as [[[H1 H2] H3] H4]; [|lia]. apply list_elem_of_In, elem_of_seqZ. lia.
Qed.

Lemma safe_copy_bits n inp inlen x y out total x0 :
  readable inp inlen → 0 ≤ y → y + Z.of_nat n = total → x = x0 + y / 8 → 0 ≤ x0 → x0 + (total + 7) / 8 ≤ inlen →
  total ≤ 8 * Z.of_nat (length out) → bytes_ok out →
  safe (copy_bits n inp x y out) (λ out', length out' = length out ∧ bytes_ok out').
Proof.
  intros Hr. revert x y out. induction n as [|n IH]; intros x y out Hy Hyn -> Hx0 Hi Ho Hb; cbn [copy_bits]; [by apply safe_ret|].
  assert (0 ≤ y / 8 < Z.of_nat (length out) ∧ x0 + y / 8 ≤ inlen) as [Hy8 Hyi] by (Z.div_mod_to_equations; lia).
  eapply safe_bind; [apply (safe_rd _ _ _ Hr); lia|]. intros b _.
  eapply safe_bind.
  { intros s. destruct (rd_total out (y / 8) s Hy8) as (o & E & Hv). exists o, s. split; [exact E|exact (Forall_lookup_1 _ _ _ _ Hb Hv)]. }
  intros o Hob. eapply safe_bind; [by apply safe_wr|]. intros ? ->. rewrite land7.
  eapply safe_mono; [apply IH; try lia|cbn; by rewrite length_insert].
  - destruct (Z.eqb_spec (y mod 8) 7); Z.div_mod_to_equations; lia.
  - rewrite length_insert. lia.
  - apply Forall_insert; [done|]. unfold bit_mask. rewrite land7.
    destruct (masked_byte o (y mod 8) Hob ltac:(apply Z.mod_pos_bound; lia)) as [H1 H2].
    by destruct (has_flag _ _).
Qed.

Lemma safe_raw_bits inp inlen out outlen :
  readable inp inlen → outlen ≤ 8 * Z.of_nat (length out) → outlen < 2 ^ 62 → bytes_ok out →
  safe (der_decode_raw_bit_string inp inlen out outlen) (λ '(err, out', n), err ≠ CRYPT_INPUT_TOO_LONG ∧ length out' = length out ∧ bytes_ok out' ∧
    (err = CRYPT_OK → 0 ≤ n ≤ outlen ∧ ∃ z, der_length_bit_string n = (CRYPT_OK, z) ∧ z ≤ inlen ∧ n / 8 + 3 ≤ z)).
Proof.
  intros Hr Ho H62 Hb. unfold der_decode_raw_bit_string. eapply safe_bind; [by apply safe_bit_header|].
  intros [[err x] n] [Hne Hh]. apply safe_if; intros Herr; [apply safe_ret; split_and!; [done|done|done|]; by intros ->|].
  unfold is_ok in Herr. destruct (Hh ltac:(lia)) as (Hx & Hn & Hrest).
  apply safe_if; intros Hno; [by apply safe_ret|]. destruct (Hrest ltac:(lia)) as (Hxi & Hz).
  eapply safe_bind; [apply (safe_copy_bits _ inp inlen x 0 out n x Hr); (done || lia || (rewrite Z.div_0_l by done; lia))|].
  intros out' [Hl Hb']. apply safe_ret. split_and!; [done|done|done|]. intros _. split; [lia|done].
Qed.

(** ** BOOLEAN, OCTET STRING and characters *)
Lemma safe_boolean inp inlen v :
  readable inp inlen → safe (der_decode_boolean inp inlen v) (λ '(err, _), err ≠ CRYPT_INPUT_TOO_LONG ∧ (err = CRYPT_OK → 3 ≤ inlen)).
Proof.
  intros Hr. unfold der_decode_boolean. apply safe_if; intros H3; [by apply safe_ret|].
  eapply safe_bind; [apply (safe_rd _ _ _ Hr); lia|]. intros b0 _. apply safe_if; intros _; [by apply safe_ret|].
  eapply safe_bind; [apply (safe_rd _ _ _ Hr); lia|]. intros b1 _. apply safe_if; intros _; [by apply safe_ret|].
  eapply safe_bind; [apply (safe_rd _ _ _ Hr); lia|]. intros b2 _. apply safe_if; intros _; [by apply safe_ret|].
  apply safe_ret. split; [done|lia].
Qed.

Lemma safe_copy_octets value n inp inlen x y out :
  readable inp inlen → 0 ≤ x → x + Z.of_nat n ≤ inlen → 0 ≤ y → y + Z.of_nat n ≤ Z.of_nat (length out) →
  safe (copy_octets value n inp x y out) (λ '(err, out'), err ≠ CRYPT_INPUT_TOO_LONG ∧ length out' = length out).
Proof.
  intros Hr. revert x y out. induction n as [|n IH]; intros x y out Hx Hxn Hy Hyn; cbn [copy_octets]; [by apply safe_ret|].
  eapply safe_bind; [apply (safe_rd _ _ _ Hr); lia|]. intros b _. apply safe_if; intros _; [by apply safe_ret|].
  eapply safe_bind; [apply safe_wr; lia|]. intros ? ->.
  eapply safe_mono; [apply IH; rewrite ?length_insert; lia|]. intros [err out']. by rewrite length_insert.
Qed.

Lemma octets_sized len off inlen :
  0 < len < 2 ^ 58 → Z.of_nat (length (len_field len)) ≤ off → 1 + off + len ≤ inlen → sized_in inlen (der_length_octet_string len).
Proof.
  intros Hl Ho Hi. unfold der_length_octet_string. rewrite der_length_asn1_length_ok by lia. cbn [is_ok Z.eqb CRYPT_OK].
  eexists. split; [done|]. lia.
Qed.

Lemma safe_octets tag value inp inlen out outlen :
  readable inp inlen → outlen ≤ Z.of_nat (length out) →
  safe (decode_octets tag value inp inlen out outlen) (λ '(err, out', n), err ≠ CRYPT_INPUT_TOO_LONG ∧ length out' = length out ∧
    (err = CRYPT_OK → 0 ≤ n ≤ outlen ∧ (n = 0 ∨ sized_in inlen (der_length_octet_string n)))).
Proof.
  intros Hr Hol. pose proof (rb_len _ _ Hr) as Hl. unfold decode_octets.
  apply safe_if; intros H2; [by apply safe_ret|].
  eapply safe_bind; [apply (safe_rd _ _ _ Hr); lia|]. intros tg _. apply safe_if; intros _; [by apply safe_ret|].
  eapply safe_bind; [apply safe_header; [done|lia]|]. intros [[err off] len] [Hne Hy].
  apply safe_if; intros Herr; [apply safe_ret; split_and!; [done|done|by intros ->]|].
  unfold is_ok in Herr. destruct (Hy ltac:(lia)) as (Hy0 & Hyi & Hyf). clear Hy.
  apply safe_if; intros Hlo; [by apply safe_ret|]. apply safe_if; intros _; [by apply safe_ret|].
  eapply safe_bind; [apply (safe_copy_octets value _ inp inlen (1 + off) 0 out Hr); lia|].
  intros [err' out'] [Hne' Hl']. apply safe_ret. split_and!; [done|done|]. intros ->. cbn [is_ok Z.eqb CRYPT_OK]. split; [lia|].
  destruct (Z.eq_dec len 0); [by left|right]. apply (octets_sized len off); (done || lia).
Qed.
End safe.
