(* ===== verification/DerSafeSeq.v ===== *)
(** * Decoding hostile sequences

    Which templates can be decoded from arbitrary input without leaving it.  A
    nested sequence is measured after it was read, by the length of its canonical
    encoding; that is no more than what was read as long as the contents stay
    below 128 bytes, which [item_ok] asks for. *)

From S2P Require Import Prelude Ltc LtcRsa LtcSpec Der DerSeq DerSpec DerPrims DerBits DerOid DerSafety.

Definition octet_type (t : ltc_asn1_type) : bool :=
  match t with LTC_ASN1_OCTET_STRING | LTC_ASN1_IA5_STRING | LTC_ASN1_PRINTABLE_STRING => true | _ => false end.

Definition sum (zs : list Z) : Z := foldr Z.add 0 zs.

(** The items with room for what they announce, each with a bound of its
    encoded length, where there is one. *)
Inductive item_ok : item → option Z → Prop :=
  | ok_bool v n u : item_ok (Item LTC_ASN1_BOOLEAN (IntAt v) n u 0) (Some 3)
  | ok_int v n u : item_ok (Item LTC_ASN1_INTEGER (MpAt v) n u 0) None
  | ok_raw b n u : 0 ≤ n ≤ 8 * Z.of_nat (length b) → n < 2 ^ 62 → bytes_ok b →
      item_ok (Item LTC_ASN1_RAW_BIT_STRING (BufAt b) n u 0) None
  | ok_octets t b n u : octet_type t = true → n ≤ Z.of_nat (length b) → item_ok (Item t (BufAt b) n u 0) None
  | ok_null n u : item_ok (Item LTC_ASN1_NULL NoData n u 0) (Some 2)
  | ok_oid w n u : n ≤ Z.of_nat (length w) → n ≤ 16 → item_ok (Item LTC_ASN1_OBJECT_IDENTIFIER (WordsAt w) n u 0) (Some 77)
  | ok_seq l bs n u : n = Z.of_nat (length l) → n < 2 ^ 31 → Forall2 item_ok l (Some <$> bs) → sum bs < 128 →
      item_ok (Item LTC_ASN1_SEQUENCE (ItemsAt l) n u 0) (Some (2 + sum bs)).

Lemma item_ok_used i b u : item_ok i b → item_ok (set_used u i) b.
Proof. destruct 1; cbn; by econstructor. Qed.
Lemma item_ok_plain i b : item_ok i b → is_eol (it_type i) = false ∧ it_optional i = 0.
Proof. destruct 1; try done. split; [by destruct t|done]. Qed.

(** Induction that reaches the items inside a sequence. *)
Section item_ind.
Variable P : item → Prop.
Hypothesis Pleaf : ∀ t d n u o, (∀ l, d ≠ ItemsAt l) → P (Item t d n u o).
Hypothesis Pseq : ∀ t l n u o, Forall P l → P (Item t (ItemsAt l) n u o).
Lemma item_nested_ind : ∀ i, P i.
Proof.
  fix IH 1. intros [t d n u o]. destruct d as [| | | | | | |l]; [by apply Pleaf..|].
  apply Pseq. induction l as [|i l IHl]; constructor; [apply IH|apply IHl].
Qed.
End item_ind.

Section safe_items.
Context `{HLtc : LtcEnv}.
Abbreviation T := (M ltc).

Definition within (z : Z) (b : option Z) : Prop := ∀ B, b = Some B → z ≤ B.

(** What is left after one item. *)
Definition item_kept (i : item) (b : option Z) (inlen z : Z) (i' : item) : Prop :=
  0 ≤ z ≤ inlen ∧ within z b ∧ gives (length_item i') (CRYPT_OK, z) ∧ item_ok i' b ∧ it_type i' = it_type i ∧
  (it_type i = LTC_ASN1_SEQUENCE → it_size i' = it_size i).

(** Codes that the caller of a sequence does not take for success. *)
Definition refusal (err : Z) : Prop := err ≠ CRYPT_OK ∧ err ≠ CRYPT_INPUT_TOO_LONG.

Definition item_read (i : item) (b : option Z) (inlen : Z) (r : verdict * item) : Prop :=
  let '(v, i') := r in
  it_optional i' = 0 ∧ match v with Decoded z => item_kept i b inlen z i' | Refused e | Failed e => refusal e end.

Definition item_safe (i : item) (b : option Z) : Prop :=
  ∀ strict inp x inlen, 0 ≤ x → readable (at_off inp x) inlen →
    safe (decode_item strict i inp x inlen) (item_read i b inlen).

(** The common end of the cases. *)
Lemma safe_advance err (len : T (Z * Z)) i i' b inlen :
  err ≠ CRYPT_INPUT_TOO_LONG → it_optional i' = 0 →
  (err = CRYPT_OK → ∃ r, gives len r ∧ r.1 ≠ CRYPT_INPUT_TOO_LONG ∧ ∀ z, r = (CRYPT_OK, z) → item_kept i b inlen z i') →
  safe (v ← advance err len; mret (v, i')) (item_read i b inlen).
Proof.
  intros Hne Ho Hok. unfold advance. destruct (is_ok err) eqn:E; cbn [negb].
  - assert (err = CRYPT_OK) as Herr by (unfold is_ok in E; lia). destruct (Hok Herr) as ([e z] & Hg & He & Hz). cbn in He.
    eapply safe_bind; [eapply safe_bind; [by apply (safe_gives _ (e, z) (λ r, r = (e, z)))|]|].
    + intros ? ->. by apply (safe_ret _ (λ v, v = if is_ok e then Decoded z else Failed e)).
    + intros ? ->. apply safe_ret. unfold is_ok. destruct (Z.eqb_spec e CRYPT_OK) as [->|]; split; try done. by apply Hz.
  - eapply safe_bind; [by apply (safe_ret _ (λ v, v = Refused err))|]. intros ? ->. apply safe_ret.
    split; [done|]. split; [unfold is_ok in E; lia|done].
Qed.

(** The length is known and fits. *)
Lemma safe_advance_known err (len : T (Z * Z)) z i i' b inlen :
  err ≠ CRYPT_INPUT_TOO_LONG → it_optional i' = 0 →
  (err = CRYPT_OK → gives len (CRYPT_OK, z) ∧ item_kept i b inlen z i') →
  safe (v ← advance err len; mret (v, i')) (item_read i b inlen).
Proof.
  intros Hne Ho Hok. apply safe_advance; [done|done|]. intros He. destruct (Hok He) as [Hg Hk].
  exists (CRYPT_OK, z). split_and!; [done|done|]. by intros z' [= <-].
Qed.

Lemma octet_length_code n : (der_length_octet_string n).1 ≠ CRYPT_INPUT_TOO_LONG.
Proof.
  unfold der_length_octet_string, der_length_asn1_length. by destruct (_ =? 0).
Qed.

(** The length of a string is the length of its octets, or an error. *)
Definition string_length (b : bytes) (n : Z) (len : T (Z * Z)) : Prop :=
  0 ≤ n ≤ Z.of_nat (length b) →
  ∃ r, gives len r ∧ r.1 ≠ CRYPT_INPUT_TOO_LONG ∧ ∀ z, r = (CRYPT_OK, z) → der_length_octet_string n = (CRYPT_OK, z).
Lemma length_chars_gives encode b n : string_length b n (length_chars encode b n).
Proof.
  intros Hn. unfold length_chars. apply (gives_step (rd_range b 0 n) _ (take (Z.to_nat n) (drop 0 b))).
  - intros s. unfold rd_range. destruct (Z.leb_spec (0 + n) (Z.of_nat (length b))); [done|lia].
  - destruct (existsb _ _); eexists; (split; [done|]); [done|]. split; [apply octet_length_code|auto].
Qed.

(** A string of octets: the item after the decoder, with its length. *)
Lemma safe_octets_item i t tag value (len : bytes → Z → T (Z * Z)) inp inlen b n u :
  octet_type t = true → it_type i = t → readable inp inlen → n ≤ Z.of_nat (length b) →
  (∀ b' n' u', length_item (Item t (BufAt b') n' u' 0) = len b' n') → (∀ b' n', string_length b' n' (len b' n')) →
  safe ('(err, b', n') ← decode_octets tag value inp inlen b n;
        (v ← advance err (len b' n'); mret (v, Item t (BufAt b') (if is_ok err then n' else n) u 0))) (item_read i None inlen).
Proof.
  intros Ht Hit Hr Hn Hlen Hg. eapply safe_bind; [by apply safe_octets|]. intros [[err b'] n'] (Hne & Hl & Hok).
  apply safe_advance; [done|done|]. intros ->. destruct (Hok eq_refl) as [Hn' Hz].
  destruct (Hg b' n' ltac:(lia)) as (r & Hgr & Hr1 & Hrz). exists r. split_and!; [done|done|]. intros z ->.
  specialize (Hrz z eq_refl). cbn [is_ok Z.eqb CRYPT_OK].
  destruct Hz as [->|(z' & Hz' & Hzi)]; [by vm_compute in Hrz|]. rewrite Hrz in Hz'. injection Hz' as <-.
  unfold item_kept; split_and!; [lia|lia|by intros|by rewrite Hlen|constructor; [done|lia]|done|]. rewrite Hit. by intros ->.
Qed.

Lemma leaf_safe t d n u o b : (∀ l, d ≠ ItemsAt l) → item_ok (Item t d n u o) b → item_safe (Item t d n u o) b.
Proof.
  intros Hleaf Hok strict inp x inlen Hx Hr. inversion Hok; subst; cbn [decode_item].
  - eapply safe_bind; [by apply safe_boolean|]. intros [err v'] [Hne H3]. apply (safe_advance_known _ _ 3); [done|done|]. intros He.
    specialize (H3 He). unfold item_kept; split_and!; try done; try lia; [|constructor]. intros B [= <-]. lia.
  - eapply safe_bind; [by apply safe_integer|]. intros [err v'] [Hne H3].
    apply (safe_advance_known _ _ (der_length_integer v').2); [done|done|]. intros He.
    destruct (H3 He) as (z & Hz & Hi). rewrite Hz. cbn [snd]. unfold item_kept; split_and!; try done; try lia; [|constructor]. cbn. by rewrite Hz.
  - eapply safe_bind; [apply safe_raw_bits; (done || lia)|]. intros [[err b'] n'] (Hne & Hl & Hb & H3).
    apply (safe_advance_known _ _ (der_length_bit_string n').2); [done|done|]. intros ->. cbn [is_ok Z.eqb CRYPT_OK].
    destruct (H3 eq_refl) as (Hn' & z & Hz & Hi & Hn3). rewrite Hz. cbn [snd].
    unfold item_kept; split_and!; try done; [Z.div_mod_to_equations; lia|cbn; by rewrite Hz|constructor; (done || lia)].
  - destruct t; try done.
    + apply (safe_octets_item _ _ 4 id (λ _ n, mret (der_length_octet_string n))); try done.
      intros b' n' _. exists (der_length_octet_string n'). split_and!; [done|apply octet_length_code|auto].
    + apply (safe_octets_item _ _ 0x16 _ der_length_ia5_string); try done. intros. apply length_chars_gives.
    + apply (safe_octets_item _ _ 0x13 _ der_length_printable_string); try done. intros. apply length_chars_gives.
  - set (i := Item _ NoData n u 0). assert (∀ err, err ≠ CRYPT_INPUT_TOO_LONG → (err = CRYPT_OK → 2 ≤ inlen) →
      safe (v ← advance err (mret (CRYPT_OK, 2)); mret (v, i)) (item_read i (Some 2) inlen)) as Hend.
    { intros err Hne H2. apply (safe_advance_known _ _ 2); [done|done|]. intros He. specialize (H2 He).
      unfold item_kept; split_and!; try done; try lia. intros B [= <-]. lia. }
    destruct (Z.ltb_spec inlen 2); [by apply Hend|].
    eapply safe_bind; [apply (safe_rd _ _ _ Hr); lia|]. intros b0 _. destruct (negb _); [by apply Hend|].
    eapply safe_bind; [apply (safe_rd _ _ _ Hr); lia|]. intros b1 _. destruct (negb _); by apply Hend.
  - eapply safe_bind; [apply (safe_oid _ _ w n); (done || lia)|]. intros [[err w'] n'] (Hne & Hl & H3).
    apply safe_advance; [done|done|]. intros ->. destruct (H3 eq_refl) as (Hn' & [e z] & Hgr & Hre & Hrr).
    exists (e, z). split_and!; [done|done|]. intros ? [= -> <-]. destruct (Hrr eq_refl) as (Hzi & _ & H77).
    cbn [is_ok Z.eqb CRYPT_OK]. unfold item_kept; split_and!; try done; try lia; [intros B [= <-]; lia|constructor; lia].
  - by destruct (Hleaf l).
Qed.

(** ** Lists of items *)
Definition same_kind (i i' : item) : Prop :=
  it_type i' = it_type i ∧ (it_type i = LTC_ASN1_SEQUENCE → it_size i' = it_size i).

(** What is left after a list of items was read: the lengths [zs]. *)
Record items_kept (l : list item) (bs : list (option Z)) (inlen : Z) (l' : list item) (zs : list Z) : Prop := {
  ik_length : Forall2 (λ i z, gives (length_item i) (CRYPT_OK, z)) l' zs;
  ik_within : Forall2 within zs bs;
  ik_pos : Forall (λ z, 0 ≤ z) zs;
  ik_sum : sum zs ≤ inlen;
  ik_ok : Forall2 item_ok l' bs;
  ik_used : Forall (λ i, it_used i = 1) l';
  ik_kind : Forall2 same_kind l l' }.

Definition items_read (l : list item) (bs : list (option Z)) (x inlen : Z) (r : Z * list item * Z * Z) : Prop :=
  let '(err, l', x', inlen') := r in
  length l' = length l ∧
  (refusal err ∨ err = CRYPT_OK ∧ ∃ zs, items_kept l bs inlen l' zs ∧ x' = x + sum zs ∧ inlen' = inlen - sum zs).

Lemma sum_pos zs : Forall (λ z, 0 ≤ z) zs → 0 ≤ sum zs.
Proof. induction 1 as [|z zs Hz _ IH]; [done|]. cbn [sum foldr]. fold (sum zs). lia. Qed.
Lemma length_unused n l : length (unused n l) = length l.
Proof. unfold unused. rewrite length_app, length_fmap, <- length_app. by rewrite take_drop. Qed.
Lemma length_item_used u i : length_item (set_used u i) = length_item i.
Proof. by destruct i. Qed.

Lemma items_kept_cons i b l bs inlen i' z l' zs :
  item_kept i b inlen z i' → items_kept l bs (inlen - z) l' zs →
  items_kept (i :: l) (b :: bs) inlen (set_used 1 i' :: l') (z :: zs).
Proof.
  intros (Hz & Hw & Hg & Ho & Ht & Hs) []. split; try (constructor; done).
  - constructor; [by rewrite length_item_used|done].
  - constructor; [lia|done].
  - cbn [sum foldr]. fold (sum zs). lia.
  - constructor; [by apply item_ok_used|done].
  - constructor; [by destruct i'|done].
  - constructor; [|done]. split; destruct i'; cbn in *; auto.
Qed.

Lemma safe_decode_items strict l bs inp x inlen :
  Forall2 item_safe l bs → Forall2 item_ok l bs → 0 ≤ x → x + inlen < 2 ^ 60 → readable (at_off inp x) inlen →
  safe (decode_items (decode_item strict) l (length l) inp x inlen) (items_read l bs x inlen).
Proof.
  intros Hs Hok. revert x inlen. induction Hs as [|i b l bs Hi _ IH]; intros x inlen Hx Hxi Hr; cbn [decode_items length].
  - apply safe_ret. split; [done|]. right. split; [done|]. exists []. cbn. split_and!; [|lia..].
    pose proof (rb_len _ _ Hr). split; try (by constructor). cbn. lia.
  - inversion Hok as [|? ? ? ? Hoki Hokl]; subst. destruct (item_ok_plain _ _ Hoki) as [-> _].
    pose proof (rb_len _ _ Hr) as Hl.
    eapply safe_bind; [by apply Hi|]. intros [v i'] [Ho Hv]. cbn beta iota zeta. destruct v as [z|e|e].
    + pose proof Hv as (Hz & _). rewrite !uint64_id by lia.
      eapply safe_bind; [apply (IH Hokl (x + z) (inlen - z)); [lia|lia|]|].
      { rewrite <- at_off_at_off by lia. apply readable_at; [done|lia]. }
      intros [[[err l'] x'] inlen'] (Hlen & Hres). apply safe_ret. split; [cbn; lia|].
      destruct Hres as [Hres|(-> & zs & Hk & -> & ->)]; [by left|right]. split; [done|].
      exists (z :: zs). split; [by eapply items_kept_cons|]. cbn [sum foldr]. fold (sum zs). lia.
    + rewrite Ho. cbn [Z.eqb]. apply safe_ret. split; [cbn; by rewrite length_unused|by left].
    + apply safe_ret. split; [cbn; by rewrite length_unused|by left].
Qed.

Lemma length_items_gives l zs y :
  Forall2 (λ i z, gives (length_item i) (CRYPT_OK, z)) l zs → Forall (λ i, is_eol (it_type i) = false ∧ it_optional i = 0) l →
  Forall (λ z, 0 ≤ z) zs → 0 ≤ y → y + sum zs < 2 ^ 62 →
  gives (length_items length_item l (length l) y) (CRYPT_OK, y + sum zs).
Proof.
  intros Hg. revert y. induction Hg as [|i z l zs Hi _ IH]; intros y Hp Hz Hy Hs; cbn [length_items length sum foldr].
  - by rewrite Z.add_0_r.
  - apply Forall_cons in Hp as [[-> ->] Hp]. apply Forall_cons in Hz as [Hz Hzs]. rewrite andb_false_r.
    cbn [sum foldr] in Hs. fold (sum zs) in *. pose proof (sum_pos zs Hzs).
    eapply gives_bind; [exact Hi|]. cbn [is_ok Z.eqb CRYPT_OK negb]. rewrite uint64_id by lia.
    replace (y + (z + sum zs)) with (y + z + sum zs) by lia. apply IH; (done || lia).
Qed.

(** ** Sequences *)
Definition body_read (l : list item) (bs : list (option Z)) (inlen : Z) (r : Z * list item) : Prop :=
  let '(err, l') := r in
  length l' = length l ∧ (refusal err ∨ ∃ zs, items_kept l bs (inlen - 2) l' zs).

Lemma safe_sequence_header inp inlen :
  readable inp inlen → safe (sequence_header inp inlen) (λ '(err, x, blk), refusal err ∨ err = CRYPT_OK ∧ 2 ≤ x ≤ inlen).
Proof.
  intros Hr. pose proof (rb_len _ _ Hr) as Hl. unfold sequence_header. apply safe_if; intros H2; [by apply safe_ret; left|].
  eapply safe_bind; [apply (safe_rd _ _ _ Hr); lia|]. intros b _. apply safe_if; intros _; [by apply safe_ret; left|].
  eapply safe_bind; [apply safe_header; [done|lia]|]. intros [[err y] blk] [Hne Hy].
  apply safe_if; intros Herr; [apply safe_ret; left; split; [unfold is_ok in Herr; lia|done]|].
  unfold is_ok in Herr. destruct (Hy ltac:(lia)) as (Hy0 & Hyi & Hyf). pose proof (len_field_length blk). pose proof (octets_pos blk).
  apply safe_if; intros _; [by apply safe_ret; left|]. apply safe_ret. right. split; [done|]. destruct (blk <? 128); lia.
Qed.

Lemma items_kept_le l bs n m l' zs : items_kept l bs n l' zs → n ≤ m → items_kept l bs m l' zs.
Proof. intros [] ?. split; try done. lia. Qed.

Lemma safe_body strict inp inlen l bs :
  Forall2 item_safe l bs → Forall2 item_ok l bs → Z.of_nat (length l) < 2 ^ 31 → readable inp inlen →
  safe (sequence_body strict inp inlen l (Z.of_nat (length l)) (decode_items (decode_item strict))) (body_read l bs inlen).
Proof.
  intros Hs Hok H31 Hr. pose proof (rb_len _ _ Hr) as Hl. unfold sequence_body.
  eapply safe_bind; [by apply safe_sequence_header|]. intros [[err x] blk] [He|[-> Hx]].
  { destruct He as [He He']. unfold is_ok. rewrite (proj2 (Z.eqb_neq _ _) He). apply safe_ret. split; [done|by left]. }
  cbn [is_ok Z.eqb CRYPT_OK negb]. rewrite int32_id, Nat2Z.id, Nat.ltb_irrefl by lia.
  eapply safe_bind; [apply (safe_decode_items strict l bs inp x (inlen - x) Hs Hok); [lia|lia|by apply readable_at; [done|lia]]|].
  intros [[[err l'] x'] inlen'] (Hlen & [Hres|(-> & zs & Hk & _)]).
  - destruct Hres as [He He']. unfold is_ok. rewrite (proj2 (Z.eqb_neq _ _) He). apply safe_ret. split; [done|by left].
  - cbn [is_ok Z.eqb CRYPT_OK negb]. apply safe_ret. split; [done|]. right. exists zs. eapply items_kept_le; [done|lia].
Qed.

Lemma sum_within zs bs : Forall2 within zs (Some <$> bs) → sum zs ≤ sum bs.
Proof.
  revert bs. induction zs as [|z zs IH]; intros [|b bs] H; inversion H as [|? ? ? ? Hb Hbs]; subst; [done|].
  cbn [sum foldr]. fold (sum zs) (sum bs). specialize (Hb b eq_refl). specialize (IH bs Hbs). lia.
Qed.
Lemma items_plain l bs : Forall2 item_ok l bs → Forall (λ i, is_eol (it_type i) = false ∧ it_optional i = 0) l.
Proof. induction 1 as [|i b l bs Hi _ IH]; constructor; [by eapply item_ok_plain|done]. Qed.

(** The canonical length of a short sequence that was read. *)
Lemma short_sequence_length l bs inlen l' zs :
  items_kept l (Some <$> bs) inlen l' zs → sum bs < 128 →
  ∃ r, gives ('(err, z, _) ← der_length_sequence_ex l' (Z.of_nat (length l)); mret (err, z)) r ∧
    r.1 ≠ CRYPT_INPUT_TOO_LONG ∧ ∀ z, r = (CRYPT_OK, z) → z = 2 + sum zs.
Proof.
  intros Hk Hb. pose proof (sum_pos _ (ik_pos _ _ _ _ _ Hk)) as Hp. pose proof (sum_within _ _ (ik_within _ _ _ _ _ Hk)) as Hw.
  pose proof (Forall2_length _ _ _ (ik_kind _ _ _ _ _ Hk)) as ->. unfold der_length_sequence_ex.
  apply (gives_step _ _ (sequence_total (CRYPT_OK, sum zs))).
  - rewrite Nat2Z.id. eapply gives_bind; [|done]. apply (length_items_gives l' zs 0); [by apply Hk|by eapply items_plain, Hk|by apply Hk|lia|lia].
  - unfold sequence_total. cbn [is_ok Z.eqb CRYPT_OK negb]. destruct (Z.eq_dec (sum zs) 0) as [->|Hne].
    + eexists. split; [done|]. by split.
    + rewrite der_length_asn1_length_ok by lia. cbn [is_ok Z.eqb CRYPT_OK negb].
      pose proof (len_field_length (sum zs)). destruct (Z.ltb_spec (sum zs) 128); [|lia].
      rewrite uint64_id by lia. eexists. split; [done|]. split; [done|]. intros z [= <-]. lia.
Qed.

Lemma Forall2_item_safe l bs :
  Forall2 item_ok l bs → Forall (λ i, ∀ b, item_ok i b → item_safe i b) l → Forall2 item_safe l bs.
Proof. induction 1 as [|i b l bs Hi _ IH]; intros Hl; constructor; apply Forall_cons in Hl as [? ?]; auto. Qed.

Lemma every_item_safe i : ∀ b, item_ok i b → item_safe i b.
Proof.
  induction i as [t d n u o Hleaf|t l n u o IH] using item_nested_ind; intros b Hok; [by apply leaf_safe|].
  inversion Hok as [| | | | | |? bs ? ? Hn H31 Hl Hb]; subst.
  intros strict inp x inlen Hx Hr. cbn [decode_item].
  eapply safe_bind; [apply (safe_rd _ _ _ Hr); pose proof (rb_len _ _ Hr); lia|]. intros b _.
  apply safe_if; intros _; [by apply safe_ret|].
  eapply safe_bind; [by apply safe_body; [apply Forall2_item_safe| | |]|]. intros [err l'] [Hlen Hres]. cbn beta iota zeta.
  set (err' := if err =? CRYPT_INPUT_TOO_LONG then CRYPT_OK else err).
  apply safe_advance; [unfold err'; destruct (Z.eqb_spec err CRYPT_INPUT_TOO_LONG); done|done|]. intros He.
  destruct Hres as [[H1 H2]|[zs Hk]].
  { unfold err' in He. destruct (Z.eqb_spec err CRYPT_INPUT_TOO_LONG); done. }
  destruct (short_sequence_length _ _ _ _ _ Hk Hb) as (r & Hg & Hr1 & Hrz). exists r. split_and!; [done|done|]. intros z ->.
  rewrite (Hrz z eq_refl) in *. pose proof (sum_pos _ (ik_pos _ _ _ _ _ Hk)). pose proof (ik_sum _ _ _ _ _ Hk).
  pose proof (sum_within _ _ (ik_within _ _ _ _ _ Hk)). unfold item_kept. split_and!; try done; [lia|lia|intros B [= <-]; lia| |].
  - cbn [length_item]. intros s. specialize (Hg s). unfold der_length_sequence_ex in Hg. rewrite bind_assoc in Hg. exact Hg.
  - rewrite <- Hlen. constructor; [done|lia|apply Hk|done].
Qed.

(** Any input, with a byte behind it. *)
Lemma sequence_safe strict inp inlen l bs :
  Forall2 item_ok l bs → Z.of_nat (length l) < 2 ^ 31 → readable inp inlen →
  safe (der_decode_sequence_ex strict inp inlen l (Z.of_nat (length l))) (body_read l bs inlen).
Proof.
  intros Hok H31 Hr. apply safe_body; try done. apply Forall2_item_safe; [done|]. apply Forall_forall. intros i _. apply every_item_safe.
Qed.
End safe_items.
