(* ===== verification/DerSeqSpec.v ===== *)
(** * Sequences against the reference

    The reference encoding [der] of nested values, what it means for an item to
    hold a value ([holds]) and to have room for one ([fits]), and the effect of
    the sequence code of libtomcrypt on both. *)

From S2P Require Import Prelude Ltc LtcRsa LtcSpec Der DerSeq DerSpec DerPrims DerBits DerOid.

(** ** Values and their encoding *)
Inductive asn1 :=
  | VBool (b : bool)
  | VInt (z : Z)
  | VShort (n : Z)             (** an INTEGER of 32 bits *)
  | VBits (l : list bool)
  | VRaw (b : bytes)           (** a BIT STRING of whole octets *)
  | VOctets (b : bytes)
  | VNull
  | VOid (words : list Z)
  | VIa5 (b : bytes)
  | VPrintable (b : bytes)
  | VSeq (l : list asn1).

Fixpoint der (v : asn1) : bytes :=
  match v with
  | VBool b => tlv 1 [if b then 255 else 0]
  | VInt z => tlv 2 (int_contents z)
  | VShort n => tlv 2 (int_contents n)
  | VBits l => tlv 3 (bits_contents l)
  | VRaw b => tlv 3 (0 :: b)
  | VOctets b => tlv 4 b
  | VNull => [5; 0]
  | VOid words => tlv 6 (oid_contents words)
  | VIa5 b => tlv 0x16 b
  | VPrintable b => tlv 0x13 b
  | VSeq l => tlv 0x30 (flat_map der l)
  end.

(** A character that the table has. *)
Definition in_table (tab : list (Z * Z)) (c : Z) : Prop := (c, c) ∈ tab.

(** The values the library can encode: it has no empty strings and no empty
    sequences. *)
Inductive encodable : asn1 → Prop :=
  | e_bool b : encodable (VBool b)
  | e_int z : encodable (VInt z)
  | e_short n : 0 ≤ n < 2 ^ 32 → encodable (VShort n)
  | e_bits l : l ≠ [] → encodable (VBits l)
  | e_raw b : b ≠ [] → bytes_ok b → encodable (VRaw b)
  | e_octets b : b ≠ [] → bytes_ok b → encodable (VOctets b)
  | e_null : encodable VNull
  | e_oid words : oid_ok words → encodable (VOid words)
  | e_ia5 b : b ≠ [] → Forall (in_table ia5_table) b → encodable (VIa5 b)
  | e_printable b : b ≠ [] → Forall (in_table printable_table) b → encodable (VPrintable b)
  | e_seq l : l ≠ [] → Z.of_nat (length l) < 2 ^ 31 → Forall encodable l → encodable (VSeq l).

(** Induction that reaches the values inside a sequence. *)
Section asn1_ind.
Variable P : asn1 → Prop.
Hypothesis Pleaf : ∀ v, (∀ l, v ≠ VSeq l) → P v.
Hypothesis Pseq : ∀ l, Forall P l → P (VSeq l).
Lemma asn1_nested_ind : ∀ v, P v.
Proof.
  fix IH 1. intros v. destruct v as [ | | | | | | | | | |l]; [by apply Pleaf..|].
  apply Pseq. induction l as [|v l IHl]; constructor; [apply IH|apply IHl].
Qed.
End asn1_ind.

(** ** Items *)

(** The item holds the value: what the encoder reads and the decoder leaves. *)
Inductive holds : item → asn1 → Prop :=
  | h_bool v n u : holds (Item LTC_ASN1_BOOLEAN (IntAt v) n u 0) (VBool (negb (v =? 0)))
  | h_int z n u : holds (Item LTC_ASN1_INTEGER (MpAt z) n u 0) (VInt z)
  | h_short v n u : holds (Item LTC_ASN1_SHORT_INTEGER (LongAt v) n u 0) (VShort v)
  | h_bits b tail n u : n = Z.of_nat (length b) →
      holds (Item LTC_ASN1_BIT_STRING (BufAt (b ++ tail)) n u 0) (VBits ((λ c, negb (c =? 0)) <$> b))
  | h_raw b tail n u : n = Z.of_nat (8 * length b) → holds (Item LTC_ASN1_RAW_BIT_STRING (BufAt (b ++ tail)) n u 0) (VRaw b)
  | h_octets b tail n u : n = Z.of_nat (length b) → holds (Item LTC_ASN1_OCTET_STRING (BufAt (b ++ tail)) n u 0) (VOctets b)
  | h_null d n u : holds (Item LTC_ASN1_NULL d n u 0) VNull
  | h_oid w tail n u : n = Z.of_nat (length w) → holds (Item LTC_ASN1_OBJECT_IDENTIFIER (WordsAt (w ++ tail)) n u 0) (VOid w)
  | h_ia5 b tail n u : n = Z.of_nat (length b) → holds (Item LTC_ASN1_IA5_STRING (BufAt (b ++ tail)) n u 0) (VIa5 b)
  | h_printable b tail n u : n = Z.of_nat (length b) →
      holds (Item LTC_ASN1_PRINTABLE_STRING (BufAt (b ++ tail)) n u 0) (VPrintable b)
  | h_seq l tail vs n u : n = Z.of_nat (length l) → Forall2 holds l vs →
      holds (Item LTC_ASN1_SEQUENCE (ItemsAt (l ++ tail)) n u 0) (VSeq vs).

(** The item of a template has the type of the value, and room for it. *)
Inductive fits : item → asn1 → Prop :=
  | f_bool v b n u : fits (Item LTC_ASN1_BOOLEAN (IntAt v) n u 0) (VBool b)
  | f_int v z n u : fits (Item LTC_ASN1_INTEGER (MpAt v) n u 0) (VInt z)
  | f_short v z n u : fits (Item LTC_ASN1_SHORT_INTEGER (LongAt v) n u 0) (VShort z)
  | f_bits out l n u : Z.of_nat (length l) ≤ n ≤ Z.of_nat (length out) →
      fits (Item LTC_ASN1_BIT_STRING (BufAt out) n u 0) (VBits l)
  | f_raw out b n u : Z.of_nat (8 * length b) ≤ n → (length b ≤ length out)%nat → bytes_ok out →
      fits (Item LTC_ASN1_RAW_BIT_STRING (BufAt out) n u 0) (VRaw b)
  | f_octets out b n u : Z.of_nat (length b) ≤ n ≤ Z.of_nat (length out) →
      fits (Item LTC_ASN1_OCTET_STRING (BufAt out) n u 0) (VOctets b)
  | f_null d n u : fits (Item LTC_ASN1_NULL d n u 0) VNull
  | f_oid out w n u : Z.of_nat (length w) ≤ n ≤ Z.of_nat (length out) →
      fits (Item LTC_ASN1_OBJECT_IDENTIFIER (WordsAt out) n u 0) (VOid w)
  | f_ia5 out b n u : Z.of_nat (length b) ≤ n ≤ Z.of_nat (length out) →
      fits (Item LTC_ASN1_IA5_STRING (BufAt out) n u 0) (VIa5 b)
  | f_printable out b n u : Z.of_nat (length b) ≤ n ≤ Z.of_nat (length out) →
      fits (Item LTC_ASN1_PRINTABLE_STRING (BufAt out) n u 0) (VPrintable b)
  | f_seq l vs n u : n = Z.of_nat (length l) → Forall2 fits l vs →
      fits (Item LTC_ASN1_SEQUENCE (ItemsAt l) n u 0) (VSeq vs).

Lemma holds_used i v u : holds i v → holds (set_used u i) v.
Proof. destruct 1; cbn; by constructor. Qed.
Lemma holds_plain i v : holds i v → is_eol (it_type i) = false ∧ it_optional i = 0.
Proof. by destruct 1. Qed.
Lemma fits_plain i v : fits i v → is_eol (it_type i) = false ∧ it_optional i = 0.
Proof. by destruct 1. Qed.

(** Characters of the tables stand for themselves. *)
Lemma entry_same tab c :
  Forall (λ e, fst e = snd e) tab → in_table tab c → find_entry fst snd tab c = c ∧ find_entry snd fst tab c = c.
Proof.
  unfold in_table. induction 1 as [|[a b] tab He Ht IH]; [by intros ?%elem_of_nil|]. cbn in He. subst b. cbn.
  intros [Heq|Hin]%elem_of_cons; [injection Heq as <-; by rewrite Z.eqb_refl|].
  destruct (Z.eqb_spec a c) as [->|]; [done|by apply IH].
Qed.
Lemma table_same tab :
  forallb (λ e, fst e =? snd e) tab = true → Forall (λ e, fst e = snd e) tab.
Proof. rewrite forallb_forall, Forall_forall. intros H e He. apply Z.eqb_eq, H. by apply list_elem_of_In. Qed.
Lemma table_positive tab c : forallb (λ e, 0 <=? fst e) tab = true → in_table tab c → c ≠ - 1.
Proof. rewrite forallb_forall. intros H Hc. apply list_elem_of_In, H in Hc. cbn in Hc. lia. Qed.

Lemma chars_same tab b :
  forallb (λ e, fst e =? snd e) tab = true → forallb (λ e, 0 <=? fst e) tab = true → Forall (in_table tab) b →
  Forall (λ c, find_entry fst snd tab c ≠ - 1 ∧ find_entry fst snd tab c = c) b ∧
  Forall (λ c, find_entry snd fst tab c ≠ - 1) b ∧ find_entry snd fst tab <$> b = b.
Proof.
  intros Hs Hp Hb. assert (∀ c, in_table tab c → find_entry fst snd tab c = c ∧ find_entry snd fst tab c = c ∧ c ≠ - 1) as H.
  { intros c Hc. pose proof (entry_same tab c (table_same _ Hs) Hc). pose proof (table_positive tab c Hp Hc). tauto. }
  split_and!.
  - eapply Forall_impl; [exact Hb|]. intros c Hc. destruct (H c Hc) as (-> & _ & ?). done.
  - eapply Forall_impl; [exact Hb|]. intros c Hc. by destruct (H c Hc) as (_ & -> & ?).
  - induction Hb as [|c b Hc Hb IH]; [done|]. cbn. destruct (H c Hc) as (_ & -> & _). by rewrite IH.
Qed.

(** ** Encoding *)
Section encode.
Context `{HLtc : LtcEnv} (Hx : ∀ i, xalloc i = true).

Definition encodes (i : item) (v : asn1) : Prop :=
  yields (length_item i) (CRYPT_OK, Z.of_nat (length (der v))) ∧
  ∀ outlen, Z.of_nat (length (der v)) ≤ outlen < 2 ^ 58 → yields (encode_item i outlen) (written (der v)).

Lemma bits_tlv_room l : Z.of_nat (length (bits_tlv l)) < 2 ^ 58 → Z.of_nat (length l) < 2 ^ 62.
Proof.
  unfold bits_tlv. rewrite tlv_length, bits_contents_length. destruct (bit_octets (length l)) as (_ & _ & ?). lia.
Qed.

Lemma nonempty_length {A} (l : list A) : l ≠ [] → (0 < length l)%nat.
Proof. destruct l; [done|cbn; lia]. Qed.

Lemma chars_encode encode tag tab b tail :
  encode = find_entry fst snd tab → forallb (λ e, fst e =? snd e) tab = true → forallb (λ e, 0 <=? fst e) tab = true →
  Forall (in_table tab) b → b ≠ [] → Z.of_nat (length (tlv tag b)) < 2 ^ 58 →
  yields (length_chars encode (b ++ tail) (Z.of_nat (length b))) (CRYPT_OK, Z.of_nat (length (tlv tag b))) ∧
  ∀ outlen, Z.of_nat (length (tlv tag b)) ≤ outlen < 2 ^ 58 →
    yields (encode_chars tag encode (b ++ tail) (Z.of_nat (length b)) outlen) (written (tlv tag b)).
Proof.
  intros -> Hs Hp Hb Hne Hl. destruct (chars_same tab b Hs Hp Hb) as (He & _). apply nonempty_length in Hne. split.
  - apply length_chars_ok; [done|lia|]. eapply Forall_impl; [exact He|]. by intros c [].
  - intros outlen Ho. apply encode_chars_ok; [done|lia|done].
Qed.

Lemma leaf_encodes i v :
  holds i v → (∀ l, v ≠ VSeq l) → encodable v → Z.of_nat (length (der v)) < 2 ^ 58 → encodes i v.
Proof.
  intros Hh Hleaf He Hl. unfold encodes. destruct Hh; inversion He; subst; cbn [der length_item encode_item] in *.
  - split; [destruct (v =? 0); apply yields_ret|]. intros outlen Ho.
    rewrite (der_encode_boolean_ok v (negb (v =? 0))); [apply yields_ret|done|].
    change (length (tlv 1 [if negb (v =? 0) then 255 else 0])) with 3%nat in Ho. lia.
  - split; [rewrite der_length_integer_ok by (unfold int_tlv; lia); apply yields_ret|].
    intros outlen Ho. apply der_encode_integer_ok; [done|unfold int_tlv; lia].
  - split; [rewrite der_length_short_integer_ok by done; apply yields_ret|].
    intros outlen Ho. rewrite der_encode_short_integer_ok; [apply yields_ret|done|unfold int_tlv; lia].
  - set (l := (λ c, negb (c =? 0)) <$> b) in *. assert (length l = length b) as <- by apply length_fmap.
    pose proof (bits_tlv_room l ltac:(unfold bits_tlv; lia)).
    split; [rewrite der_length_bit_string_ok by (unfold bits_tlv; lia); apply yields_ret|].
    intros outlen Ho. apply der_encode_bit_string_ok; [done|unfold bits_tlv; lia|done].
  - split; [|intros outlen Ho; by apply der_encode_raw_bit_string_ok].
    rewrite <- bits_of_length, der_length_bit_string_ok by (rewrite <- raw_tlv_eq by done; unfold raw_tlv; lia).
    rewrite <- raw_tlv_eq by done. apply yields_ret.
  - apply nonempty_length in H1. split; [rewrite (der_length_octet_string_ok 4) by (done || lia); apply yields_ret|].
    intros outlen Ho. apply der_encode_octet_string_ok; [done|lia].
  - split; [apply yields_ret|]. intros outlen Ho. apply yields_ret.
  - destruct w as [|w0 [|w1 w]]; [by destruct (oo_first _ H1)..|].
    split; [by apply der_length_object_identifier_ok|]. intros outlen Ho. apply der_encode_object_identifier_ok; [done|unfold oid_tlv; lia].
  - apply (chars_encode _ _ ia5_table); done.
  - apply (chars_encode _ _ printable_table); done.
  - by destruct (Hleaf vs).
Qed.

(** The loops over items. *)
Lemma length_items_ok l tail vs y :
  Forall2 encodes l vs → Forall2 holds l vs → 0 ≤ y → y + Z.of_nat (length (flat_map der vs)) < 2 ^ 62 →
  yields (length_items length_item (l ++ tail) (length l) y) (CRYPT_OK, y + Z.of_nat (length (flat_map der vs))).
Proof.
  intros He Hh. revert y. induction He as [|i v l vs [Hi _] _ IH]; intros y Hy Hl; cbn [length_items app length flat_map] in *.
  - rewrite Z.add_0_r. destruct tail; apply yields_ret.
  - inversion Hh as [|? ? ? ? Hiv Hh']; subst. destruct (holds_plain _ _ Hiv) as [-> ->]. rewrite andb_false_r.
    rewrite length_app in *. eapply yields_bind; [exact Hi|]. cbn [is_ok Z.eqb CRYPT_OK negb]. rewrite uint64_id by lia.
    replace (y + Z.of_nat (length (der v) + length (flat_map der vs)))
      with (y + Z.of_nat (length (der v)) + Z.of_nat (length (flat_map der vs))) by lia.
    apply IH; [done|lia|lia].
Qed.
Lemma encode_items_ok l tail vs outlen :
  Forall2 encodes l vs → Forall2 holds l vs → Z.of_nat (length (flat_map der vs)) ≤ outlen < 2 ^ 58 →
  yields (encode_items encode_item (l ++ tail) (length l) outlen) (inr (flat_map der vs)).
Proof.
  intros He Hh. revert outlen. induction He as [|i v l vs [_ Hi] _ IH]; intros outlen Ho; cbn [encode_items app length flat_map] in *.
  - destruct tail; apply yields_ret.
  - inversion Hh as [|? ? ? ? Hiv Hh']; subst. destruct (holds_plain _ _ Hiv) as [-> _]. rewrite length_app in *.
    eapply yields_bind; [apply Hi; lia|]. unfold written at 1. cbn [oc_out oc_outlen written]. rewrite uint64_id by lia.
    eapply yields_bind; [apply IH; [done|lia]|apply yields_ret].
Qed.

Lemma der_pos v : (2 ≤ length (der v))%nat.
Proof.
  destruct v; cbn [der]; try (rewrite tlv_length; unfold len_field; destruct (_ <? 128); cbn [length]; lia). cbn. lia.
Qed.
Lemma flat_map_pos vs : vs ≠ [] → (0 < length (flat_map der vs))%nat.
Proof. destruct vs as [|v vs]; [done|]. intros _. cbn [flat_map]. rewrite length_app. pose proof (der_pos v). lia. Qed.

Lemma sequence_encodes l tail vs :
  Forall2 encodes l vs → Forall2 holds l vs → vs ≠ [] → Z.of_nat (length (der (VSeq vs))) < 2 ^ 58 →
  yields (der_length_sequence_ex (l ++ tail) (Z.of_nat (length l)))
    (CRYPT_OK, Z.of_nat (length (der (VSeq vs))), Z.of_nat (length (flat_map der vs))) ∧
  ∀ outlen, Z.of_nat (length (der (VSeq vs))) ≤ outlen < 2 ^ 58 →
    yields (der_encode_sequence (l ++ tail) (Z.of_nat (length l)) outlen) (written (der (VSeq vs))).
Proof.
  intros He Hh Hne Hl. pose proof (flat_map_pos vs Hne) as Hp. cbn [der] in *. pose proof Hl as Hl'. rewrite tlv_length in Hl'.
  assert (yields (der_length_sequence_ex (l ++ tail) (Z.of_nat (length l)))
    (CRYPT_OK, Z.of_nat (length (tlv 48 (flat_map der vs))), Z.of_nat (length (flat_map der vs)))) as Hlen.
  { unfold der_length_sequence_ex. rewrite Nat2Z.id. eapply yields_bind; [apply (length_items_ok l tail vs); (done || lia)|].
    unfold sequence_total. cbn [is_ok Z.eqb CRYPT_OK negb]. rewrite Z.add_0_l, (length_of_contents 48) by lia.
    cbn [is_ok Z.eqb CRYPT_OK negb]. rewrite uint64_id by lia.
    replace (Z.of_nat (length (flat_map der vs)) + _ + 1) with (Z.of_nat (length (tlv 48 (flat_map der vs)))) by lia. apply yields_ret. }
  split; [done|]. intros outlen Ho. unfold der_encode_sequence. eapply yields_bind; [exact Hlen|].
  unfold sequence_frame. cbn [is_ok Z.eqb CRYPT_OK negb].
  destruct (Z.ltb_spec outlen (Z.of_nat (length (tlv 48 (flat_map der vs))))); [lia|]. rewrite tlv_length in Ho.
  rewrite der_encode_asn1_length_ok by (rewrite ?uint64_id by lia; lia). cbn [oc_out]. rewrite Nat2Z.id.
  eapply yields_bind; [apply (encode_items_ok l tail vs); [done|done|rewrite uint64_id by lia; lia]|]. apply yields_ret.
Qed.

Lemma seq_parts v vs : v ∈ vs → (length (der v) ≤ length (flat_map der vs))%nat.
Proof.
  induction vs as [|w vs IH]; [by intros ?%elem_of_nil|]. cbn [flat_map]. rewrite length_app.
  intros [->|Hin]%elem_of_cons; [lia|]. specialize (IH Hin). lia.
Qed.

Lemma Forall2_encodes l vs :
  Forall2 holds l vs → Forall (λ v, ∀ i, holds i v → encodes i v) vs → Forall2 encodes l vs.
Proof. induction 1 as [|i v l vs Hi _ IH]; intros Hv; constructor; apply Forall_cons in Hv as [? ?]; auto. Qed.

(** Every value that can be encoded is, wherever it is nested. *)
Lemma value_encodes v : encodable v → Z.of_nat (length (der v)) < 2 ^ 58 → ∀ i, holds i v → encodes i v.
Proof.
  induction v as [v Hleaf|vs IH] using asn1_nested_ind; intros He Hl i Hi; [by apply leaf_encodes|].
  inversion He as [| | | | | | | | | |? Hne H31 Hall]; subst. inversion Hi as [| | | | | | | | | |l tail ? n u Hn Hh]; subst.
  assert (Forall (λ v, ∀ i, holds i v → encodes i v) vs) as Hparts.
  { apply Forall_forall. intros v Hv. apply (proj1 (Forall_forall _ _) IH v Hv); [by apply (proj1 (Forall_forall _ _) Hall)|].
    pose proof (seq_parts v vs Hv). cbn [der] in Hl. rewrite tlv_length in Hl. lia. }
  pose proof (Forall2_encodes l vs Hh Hparts) as Hle.
  destruct (sequence_encodes l tail vs Hle Hh Hne Hl) as [H1 H2]. split; [|exact H2].
  cbn [length_item]. intros s. destruct (H1 s) as [k E]. exists k. unfold der_length_sequence_ex in E.
  apply bind_ok_inv in E as (r & s' & E1 & E2). rewrite (bind_ok _ _ _ _ _ E1).
  cbv [mret M_ret] in E2. injection E2 as -> ->. done.
Qed.
End encode.

(** ** Decoding *)
Section decode.
Context `{HLtc : LtcEnv} (Hx : ∀ i, xalloc i = true).

(** The encoding of the value is read, whatever follows it. *)
Definition decodes (i : item) (v : asn1) : Prop :=
  ∀ strict inp x rest inlen, at_off inp x = der v ++ rest → Z.of_nat (length (der v)) ≤ inlen < 2 ^ 58 →
  ∃ i', yields (decode_item strict i inp x inlen) (Decoded (Z.of_nat (length (der v))), i') ∧ holds i' v.

Lemma advance_ok len z (i : item) :
  yields len (CRYPT_OK, z) → yields (v ← advance CRYPT_OK len; mret (v, i)) (Decoded z, i).
Proof.
  intros Hl. eapply yields_bind; [|apply yields_ret]. unfold advance. cbn [is_ok Z.eqb CRYPT_OK negb].
  eapply yields_bind; [exact Hl|apply yields_ret].
Qed.

Lemma bits_back (l : list bool) : (λ c, negb (c =? 0)) <$> (Z.b2z <$> l) = l.
Proof. induction l as [|b l IH]; [done|]. cbn. rewrite IH. by destruct b. Qed.

Lemma chars_decode value tag tab b rest inlen out n :
  value = find_entry snd fst tab → forallb (λ e, fst e =? snd e) tab = true → forallb (λ e, 0 <=? fst e) tab = true →
  Z.land tag 0x1F = tag → Forall (in_table tab) b → Z.of_nat (length (tlv tag b)) ≤ inlen < 2 ^ 58 →
  Z.of_nat (length b) ≤ n ≤ Z.of_nat (length out) →
  yields (decode_octets tag value (tlv tag b ++ rest) inlen out n) (CRYPT_OK, b ++ drop (length b) out, Z.of_nat (length b)).
Proof.
  intros -> Hs Hp Ht Hb Hi Hn. destruct (chars_same tab b Hs Hp Hb) as (_ & Hv & Hid).
  pose proof (decode_octets_ok tag (find_entry snd fst tab) b rest inlen out n Ht Hv ltac:(lia) Hn) as H.
  by rewrite Hid in H.
Qed.

Lemma leaf_decodes i v :
  fits i v → (∀ l, v ≠ VSeq l) → encodable v → Z.of_nat (length (der v)) < 2 ^ 58 → decodes i v.
Proof.
  intros Hf Hleaf He Hl strict inp x rest inlen Hat Hi.
  destruct Hf; inversion He; subst; cbn [decode_item]; rewrite Hat; clear Hat He.
  - exists (Item LTC_ASN1_BOOLEAN (IntAt (if b then 1 else 0)) n u 0).
    split; [|destruct b; [exact (h_bool 1 n u)|exact (h_bool 0 n u)]].
    change (length (der (VBool b))) with 3%nat in *. change (Z.of_nat 3) with 3 in *.
    eapply yields_bind; [apply der_decode_boolean_ok; lia|apply advance_ok, yields_ret].
  - exists (Item LTC_ASN1_INTEGER (MpAt z) n u 0). split; [|constructor].
    eapply yields_bind; [apply (der_decode_integer_ok Hx z); unfold int_tlv; cbn [der] in *; lia|].
    apply advance_ok. rewrite der_length_integer_ok by (unfold int_tlv; cbn [der] in *; lia). apply yields_ret.
  - exists (Item LTC_ASN1_SHORT_INTEGER (LongAt z) n u 0). split; [|constructor].
    eapply yields_bind; [apply (der_decode_short_integer_ok z); [done|unfold int_tlv; cbn [der] in *; lia]|].
    apply advance_ok. rewrite der_length_short_integer_ok by done. apply yields_ret.
  - exists (Item LTC_ASN1_BIT_STRING (BufAt ((Z.b2z <$> l) ++ drop (length l) out)) (Z.of_nat (length l)) u 0).
    cbn [der] in *. pose proof (bits_tlv_room l ltac:(unfold bits_tlv; lia)). apply nonempty_length in H1.
    split; [|replace (VBits l) with (VBits ((λ c, negb (c =? 0)) <$> (Z.b2z <$> l))) by (by rewrite bits_back);
      constructor; by rewrite length_fmap].
    eapply yields_bind; [apply (der_decode_bit_string_ok l); [done|unfold bits_tlv; lia|done|done]|].
    cbn [is_ok Z.eqb CRYPT_OK]. apply advance_ok. rewrite der_length_bit_string_ok by (unfold bits_tlv; lia). apply yields_ret.
  - exists (Item LTC_ASN1_RAW_BIT_STRING (BufAt (b ++ drop (length b) out)) (Z.of_nat (8 * length b)) u 0).
    cbn [der] in *. apply nonempty_length in H3. split; [|by constructor].
    eapply yields_bind; [apply (der_decode_raw_bit_string_ok b); (done || unfold raw_tlv; lia)|].
    cbn [is_ok Z.eqb CRYPT_OK]. apply advance_ok.
    rewrite <- bits_of_length, der_length_bit_string_ok by (rewrite <- raw_tlv_eq by done; unfold raw_tlv; lia).
    rewrite <- raw_tlv_eq by done. apply yields_ret.
  - exists (Item LTC_ASN1_OCTET_STRING (BufAt (b ++ drop (length b) out)) (Z.of_nat (length b)) u 0).
    cbn [der] in *. apply nonempty_length in H1. split; [|by constructor].
    pose proof (decode_octets_ok 4 id b rest inlen out n ltac:(done)) as Hd. rewrite list_fmap_id in Hd.
    eapply yields_bind; [apply Hd; [|lia|done]|].
    + eapply Forall_impl; [exact H2|]. unfold byte_ok, id. cbn. lia.
    + cbn [is_ok Z.eqb CRYPT_OK]. apply advance_ok. rewrite (der_length_octet_string_ok 4) by (done || lia). apply yields_ret.
  - exists (Item LTC_ASN1_NULL d n u 0). split; [|constructor]. cbn [der length app] in *.
    destruct (Z.ltb_spec inlen 2); [lia|]. eapply yields_bind; [apply yields_rd_0|]. cbn [Z.eqb Pos.eqb negb].
    eapply yields_bind; [apply yields_rd_1|]. cbn [Z.eqb negb]. apply advance_ok, yields_ret.
  - exists (Item LTC_ASN1_OBJECT_IDENTIFIER (WordsAt (w ++ drop (length w) out)) (Z.of_nat (length w)) u 0). split; [|by constructor].
    destruct w as [|w0 [|w1 w]]; [by destruct (oo_first _ H1)..|].
    eapply yields_bind; [apply (der_decode_object_identifier_ok w0 w1 w); [done|unfold oid_tlv; cbn [der] in *; lia|done]|].
    cbn [is_ok Z.eqb CRYPT_OK]. apply advance_ok. by apply der_length_object_identifier_ok.
  - exists (Item LTC_ASN1_IA5_STRING (BufAt (b ++ drop (length b) out)) (Z.of_nat (length b)) u 0). split; [|by constructor].
    cbn [der] in *. eapply yields_bind; [by apply (chars_decode _ _ ia5_table)|]. cbn [is_ok Z.eqb CRYPT_OK].
    apply advance_ok. by apply (chars_encode _ _ ia5_table).
  - exists (Item LTC_ASN1_PRINTABLE_STRING (BufAt (b ++ drop (length b) out)) (Z.of_nat (length b)) u 0). split; [|by constructor].
    cbn [der] in *. eapply yields_bind; [by apply (chars_decode _ _ printable_table)|]. cbn [is_ok Z.eqb CRYPT_OK].
    apply advance_ok. by apply (chars_encode _ _ printable_table).
  - by destruct (Hleaf vs).
Qed.

Lemma at_off_step inp x a b : 0 ≤ x → at_off inp x = a ++ b → at_off inp (x + Z.of_nat (length a)) = b.
Proof.
  intros Hx0. unfold at_off. destruct (Z.leb_spec x (Z.of_nat (length inp))) as [Hle|Hgt].
  - intros H. assert (length (drop (Z.to_nat x) inp) = length (a ++ b)) as Hl by (by rewrite H).
    rewrite length_drop, length_app in Hl.
    destruct (Z.leb_spec (x + Z.of_nat (length a)) (Z.of_nat (length inp))); [|lia].
    replace (Z.to_nat (x + Z.of_nat (length a))) with (Z.to_nat x + length a)%nat by lia.
    by rewrite <- drop_drop, H, drop_app_length.
  - intros H. symmetry in H. apply app_nil in H as [-> ->]. cbn [length].
    change (Z.of_nat 0) with 0. rewrite Z.add_0_r. by destruct (Z.leb_spec x (Z.of_nat (length inp))); [lia|].
Qed.

Lemma decode_items_ok strict l tail vs inp x rest inlen :
  Forall2 decodes l vs → Forall2 fits l vs → 0 ≤ x → x + inlen < 2 ^ 60 → at_off inp x = flat_map der vs ++ rest →
  Z.of_nat (length (flat_map der vs)) ≤ inlen < 2 ^ 58 →
  ∃ l', let n := Z.of_nat (length (flat_map der vs)) in
    yields (decode_items (decode_item strict) (l ++ tail) (length l) inp x inlen) (CRYPT_OK, l' ++ tail, x + n, inlen - n) ∧
    Forall2 holds l' vs ∧ Forall (λ i, it_used i = 1) l'.
Proof.
  intros Hd. revert x inlen. induction Hd as [|i v l vs Hi _ IH]; intros x inlen Hf Hx0 Hxi Hat Hl;
    cbn [decode_items app length flat_map] in *.
  - exists []. cbn. rewrite Z.add_0_r, Z.sub_0_r. split; [destruct tail; apply yields_ret|by split; constructor].
  - inversion Hf as [|? ? ? ? Hfi Hf']; subst. rewrite length_app in *. rewrite <- app_assoc in Hat.
    destruct (Hi strict inp x _ inlen Hat ltac:(lia)) as (i' & Hy & Hh).
    pose proof (at_off_step inp x (der v) _ Hx0 Hat) as Hat'.
    destruct (IH (x + Z.of_nat (length (der v))) (inlen - Z.of_nat (length (der v))) Hf') as (l' & Hl' & Hhl & Hu).
    { lia. } { lia. } { done. } { lia. }
    exists (set_used 1 i' :: l'). cbv zeta in *. split_and!.
    + destruct (fits_plain _ _ Hfi) as [-> _]. eapply yields_bind; [exact Hy|]. cbn beta iota zeta. rewrite !uint64_id by lia.
      eapply yields_bind; [exact Hl'|]. cbn [app].
      replace (x + Z.of_nat (length (der v)) + Z.of_nat (length (flat_map der vs)))
        with (x + Z.of_nat (length (der v) + length (flat_map der vs))) by lia.
      replace (inlen - Z.of_nat (length (der v)) - Z.of_nat (length (flat_map der vs)))
        with (inlen - Z.of_nat (length (der v) + length (flat_map der vs))) by lia. apply yields_ret.
    + constructor; [by apply holds_used|done].
    + constructor; [by destruct i'|done].
Qed.

Lemma used_not_missing l : Forall (λ i, it_used i = 1) l → existsb missing l = false.
Proof. induction 1 as [|i l Hi _ IH]; [done|]. cbn. unfold missing at 1. by rewrite Hi, IH. Qed.

(** The code of a sequence whose first values were read, [ws] after them: what
    follows them is reported. *)
Definition end_code (ws : list asn1) (size inlen : Z) : Z :=
  match ws with
  | [] => if inlen =? size then CRYPT_OK else CRYPT_INPUT_TOO_LONG
  | _ => CRYPT_INPUT_TOO_LONG
  end.

Lemma end_code_cases ws size inlen : end_code ws size inlen = CRYPT_OK ∨ end_code ws size inlen = CRYPT_INPUT_TOO_LONG.
Proof. unfold end_code. destruct ws; [destruct (_ =? _)|]; auto. Qed.

Lemma end_code_ok strict l' ws (n a : nat) size x inlen :
  strict = false ∨ ws = [] → Forall (λ i, it_used i = 1) l' → size = x + Z.of_nat n + Z.of_nat a →
  Z.of_nat a = Z.of_nat (length (flat_map der ws)) →
  sequence_end strict l' (x + Z.of_nat n + Z.of_nat a) (x + Z.of_nat n) (inlen - x - Z.of_nat n) = end_code ws size inlen.
Proof.
  intros Hs Hu -> Ha. unfold sequence_end, end_code. rewrite used_not_missing by done. destruct ws as [|w ws].
  - cbn in Ha. replace a with 0%nat in * by lia. rewrite Z.add_0_r, Z.eqb_refl. cbn [andb negb].
    destruct (Z.eqb_spec (inlen - x - Z.of_nat n) 0), (Z.eqb_spec inlen (x + Z.of_nat n)); (done || lia).
  - destruct Hs as [->|]; [|done]. pose proof (flat_map_pos (w :: ws) ltac:(done)).
    destruct (Z.eqb_spec (x + Z.of_nat n + Z.of_nat a) (x + Z.of_nat n)); [lia|done].
Qed.

Lemma sequence_decodes strict l vs ws rest inlen :
  strict = false ∨ ws = [] → Forall2 decodes l vs → Forall2 fits l vs → Z.of_nat (length l) < 2 ^ 31 →
  let size := Z.of_nat (length (der (VSeq (vs ++ ws)))) in size ≤ inlen < 2 ^ 58 →
  ∃ l', yields (der_decode_sequence_ex strict (der (VSeq (vs ++ ws)) ++ rest) inlen l (Z.of_nat (length l)))
          (end_code ws size inlen, l') ∧
    Forall2 holds l' vs.
Proof.
  intros Hs Hd Hf Hn size Hi. subst size. cbn [der] in *. rewrite flat_map_app in *.
  set (c := flat_map der vs) in *. set (c' := flat_map der ws) in *. pose proof Hi as Hi'. rewrite tlv_length in Hi'.
  set (lf := len_field (Z.of_nat (length (c ++ c')))) in *. rewrite length_app in Hi'.
  assert (at_off (tlv 48 (c ++ c') ++ rest) (1 + Z.of_nat (length lf)) = c ++ c' ++ rest) as Hat.
  { unfold lf. destruct (contents_at 48 (c ++ c') rest) as [-> ->]. rewrite at_off_app. by rewrite app_assoc. }
  destruct (decode_items_ok strict l [] vs (tlv 48 (c ++ c') ++ rest) (1 + Z.of_nat (length lf)) (c' ++ rest)
    (inlen - (1 + Z.of_nat (length lf))) Hd Hf ltac:(lia) ltac:(lia) Hat ltac:(fold c; lia))
    as (l' & Hl' & Hh & Hu). cbv zeta in Hl'. rewrite !app_nil_r in Hl'. fold c in Hl'.
  exists l'. split; [|done]. unfold der_decode_sequence_ex, sequence_body.
  eapply (yields_bind _ _ (CRYPT_OK, 1 + Z.of_nat (length lf), Z.of_nat (length (c ++ c')))).
  { unfold sequence_header. destruct (Z.ltb_spec inlen 2); [unfold lf in *; pose proof (len_field_length (Z.of_nat (length (c ++ c'))));
      destruct (_ <? 128); lia|].
    eapply yields_bind; [apply tag_at|]. cbn [Z.eqb Pos.eqb negb andb].
    eapply yields_bind; [apply (read_header 48 (c ++ c') rest); lia|]. cbn [is_ok Z.eqb CRYPT_OK negb]. fold lf. rewrite uint64_id by lia.
    rewrite length_app. destruct (Z.ltb_spec (inlen - (1 + Z.of_nat (length lf))) (Z.of_nat (length c + length c'))); [lia|]. apply yields_ret. }
  cbn [is_ok Z.eqb CRYPT_OK negb]. rewrite int32_id, Nat2Z.id, Nat.ltb_irrefl by lia.
  eapply yields_bind; [exact Hl'|]. cbn [is_ok Z.eqb CRYPT_OK negb].
  assert (length l' = length l) as Hll by (by rewrite (Forall2_length _ _ _ Hh), (Forall2_length _ _ _ Hf)).
  rewrite <- Hll, take_ge, length_app, uint64_id by lia.
  rewrite <- (end_code_ok strict l' ws (length c) (length c') _ (1 + Z.of_nat (length lf)) inlen);
    [|done|done|rewrite tlv_length; fold lf; rewrite length_app; lia|done].
  replace (1 + Z.of_nat (length lf) + Z.of_nat (length c) + Z.of_nat (length c'))
    with (Z.of_nat (length c + length c') + (1 + Z.of_nat (length lf))) by lia. apply yields_ret.
Qed.

Lemma Forall2_decodes l vs :
  Forall2 fits l vs → Forall (λ v, ∀ i, fits i v → decodes i v) vs → Forall2 decodes l vs.
Proof. induction 1 as [|i v l vs Hi _ IH]; intros Hv; constructor; apply Forall_cons in Hv as [? ?]; auto. Qed.

(** Every value that can be encoded is read back, wherever it is nested. *)
Lemma value_decodes v : encodable v → Z.of_nat (length (der v)) < 2 ^ 58 → ∀ i, fits i v → decodes i v.
Proof.
  induction v as [v Hleaf|vs IH] using asn1_nested_ind; intros He Hl i Hi; [by apply leaf_decodes|].
  inversion He as [| | | | | | | | | |? Hne H31 Hall]; subst. inversion Hi as [| | | | | | | | | |l ? n u Hn Hf]; subst.
  assert (∀ v, v ∈ vs → encodable v ∧ Z.of_nat (length (der v)) < 2 ^ 58) as Hparts.
  { intros v Hv. split; [by apply (proj1 (Forall_forall _ _) Hall)|].
    pose proof (seq_parts v vs Hv). cbn [der] in Hl. rewrite tlv_length in Hl. lia. }
  assert (Forall2 decodes l vs) as Hd.
  { apply Forall2_decodes; [done|]. apply Forall_forall. intros v Hv.
    destruct (Hparts v Hv). by apply (proj1 (Forall_forall _ _) IH v Hv). }
  intros strict inp x rest inlen Hat Hi'. cbn [decode_item]. rewrite Hat.
  pose proof (Forall2_length _ _ _ Hf) as Hlen.
  destruct (sequence_decodes strict l vs [] rest inlen ltac:(by right) Hd Hf ltac:(lia) ltac:(by rewrite app_nil_r)) as (l' & Hy & Hh).
  rewrite app_nil_r in Hy.
  exists (Item LTC_ASN1_SEQUENCE (ItemsAt l') (Z.of_nat (length l)) u 0).
  assert (Forall2 encodes l' vs) as Hle.
  { apply Forall2_encodes; [done|]. apply Forall_forall. intros v Hv. destruct (Hparts v Hv). by apply value_encodes. }
  pose proof (Forall2_length _ _ _ Hh) as Hlen'. split.
  - eapply yields_bind; [apply tag_at|]. cbn [Z.land Pos.land Z.eqb Pos.eqb negb].
    eapply yields_bind; [exact Hy|].
    cbn beta iota zeta. set (ec := end_code [] _ inlen).
    assert ((if ec =? CRYPT_INPUT_TOO_LONG then CRYPT_OK else ec) = CRYPT_OK) as ->
      by (unfold ec; by destruct (end_code_cases [] (Z.of_nat (length (der (VSeq vs)))) inlen) as [-> | ->]).
    apply advance_ok. destruct (sequence_encodes l' [] vs Hle Hh Hne Hl) as [H1 _]. rewrite app_nil_r in H1.
    replace (length l) with (length l') by lia. eapply yields_bind; [exact H1|apply yields_ret].
  - rewrite <- (app_nil_r l'). constructor; [lia|done].
Qed.
End decode.
