(* ===== verification/LtcKeysSpec.v ===== *)
(** * Encoded keys against the reference

    The encodings of RSA keys as values of [asn1], and the effect of rsa_export
    and rsa_import on them, when memory can be allocated. *)

From S2P Require Import Prelude Ltc LtcRsa LtcSpec Der DerSeq LtcKeys DerSpec DerPrims DerBits DerOid DerSafety DerSeqSpec.

(** RSAPrivateKey and RSAPublicKey of PKCS #1, and SubjectPublicKeyInfo. *)
Definition private_info (k : rsa_key) : list Z :=
  [0; key_N k; key_e k; key_d k; key_p k; key_q k; key_dP k; key_dQ k; key_qP k].
Definition private_value (k : rsa_key) : asn1 := VSeq (VInt <$> private_info k).
Definition public_value (k : rsa_key) : asn1 := VSeq [VInt (key_N k); VInt (key_e k)].
Definition rsa_oid : list Z := [1; 2; 840; 113549; 1; 1; 1].
Definition spki_value (k : rsa_key) : asn1 := VSeq [VSeq [VOid rsa_oid; VNull]; VRaw (der (public_value k))].

(** The key a public encoding stands for. *)
Definition public_part (k : rsa_key) : rsa_key := RsaKey PK_PUBLIC (key_e k) 0 (key_N k) 0 0 0 0 0.
(** The length of an encoding. *)
Definition der_size (v : asn1) : Z := Z.of_nat (length (der v)).

(** ** Values *)
Lemma rsa_oid_ok : oid_ok rsa_oid.
Proof. split; [repeat constructor; lia|vm_compute; done|split_and!; lia]. Qed.
Lemma rsa_oid_read : pk_oid_str_to_num (pk_get_oid PKA_RSA) 16 = (CRYPT_OK, rsa_oid ++ replicate 9 0, 7).
Proof. by vm_compute. Qed.
Lemma rsa_oid_written : push_words (reverse rsa_oid) [] = Some (pk_get_oid PKA_RSA).
Proof. by vm_compute. Qed.

Lemma len_field_bytes n : 0 ≤ n < 2 ^ 64 → bytes_ok (len_field n).
Proof.
  intros Hn. unfold len_field. destruct (Z.ltb_spec n 128); [repeat constructor; lia|].
  pose proof (octets_le n 8 ltac:(cbn; lia)). constructor; [unfold byte_ok; lia|apply be_bytes_ok].
Qed.
Lemma tlv_bytes tag c : byte_ok tag → bytes_ok c → Z.of_nat (length c) < 2 ^ 64 → bytes_ok (tlv tag c).
Proof. intros Ht Hc Hl. constructor; [done|]. apply Forall_app. split; [apply len_field_bytes; lia|done]. Qed.

Lemma ints_bytes zs : Z.of_nat (length (der (VSeq (VInt <$> zs)))) < 2 ^ 64 → bytes_ok (der (VSeq (VInt <$> zs))).
Proof.
  cbn [der]. intros Hl. rewrite tlv_length in Hl. apply tlv_bytes; [unfold byte_ok; lia| |lia].
  assert (Z.of_nat (length (flat_map der (VInt <$> zs))) < 2 ^ 64) as Hc by lia. clear Hl.
  induction zs as [|z zs IH]; [constructor|]. cbn [fmap list_fmap flat_map der] in *. rewrite length_app, tlv_length in Hc.
  apply Forall_app. split; [|apply IH; lia]. apply tlv_bytes; [unfold byte_ok; lia|apply int_contents_bytes|lia].
Qed.
Lemma public_bytes k : der_size (public_value k) < 2 ^ 58 → bytes_ok (der (public_value k)).
Proof. unfold der_size. intros H. apply (ints_bytes [key_N k; key_e k]). cbn [fmap list_fmap]. fold (public_value k). lia. Qed.

Lemma ints_encodable zs : zs ≠ [] → Z.of_nat (length zs) < 2 ^ 31 → encodable (VSeq (VInt <$> zs)).
Proof.
  intros Hz Hl. constructor; [by destruct zs|by rewrite length_fmap|]. induction zs; repeat constructor.
  destruct zs as [|z zs]; [constructor|]. apply IHzs; [done|cbn in *; lia].
Qed.
Lemma spki_encodable k : der_size (public_value k) < 2 ^ 58 → encodable (spki_value k).
Proof.
  intros Hk. apply e_seq; [done|cbn; lia|]. constructor; [|constructor; [|constructor]].
  - apply e_seq; [done|cbn; lia|]. constructor; [apply e_oid, rsa_oid_ok|constructor; [apply e_null|constructor]].
  - apply e_raw; [done|]. by apply public_bytes.
Qed.

(** ** Keys of 2048 bits *)
Lemma int_octets_eq z k : (1 < k)%nat → half (k - 1) ≤ z < half k → int_octets z = k.
Proof.
  intros Hk Hz. pose proof (half_pos k ltac:(lia)). pose proof (half_pos (k - 1) ltac:(lia)). pose proof (int_octets_le z k ltac:(lia) ltac:(lia)) as Hle.
  pose proof (int_octets_range z) as [_ Hr]. destruct (le_lt_dec k (int_octets z)); [lia|].
  assert (half (int_octets z) ≤ half (k - 1)) by (unfold half; apply Z.pow_le_mono_r; lia). lia.
Qed.

Record rsa2048 (k : rsa_key) : Prop := {
  r2_N : 2 ^ 2047 ≤ key_N k < 2 ^ 2048;
  r2_e : 2 ^ 15 ≤ key_e k < 2 ^ 23 }.

(** The first 24 bytes of a SubjectPublicKeyInfo. *)
Definition spki_prefix : bytes :=
  [0x30; 0x82; 0x01; 0x22; 0x30; 0x0d; 0x06; 0x09; 0x2a; 0x86; 0x48; 0x86; 0xf7; 0x0d; 0x01; 0x01; 0x01; 0x05; 0x00;
   0x03; 0x82; 0x01; 0x0f; 0x00].

Lemma tlv_at tag c n f : length c = n → len_field (Z.of_nat n) = f → tlv tag c = tag :: f ++ c.
Proof. intros <- <-. done. Qed.

Lemma public_2048 k : rsa2048 k → length (der (public_value k)) = 270%nat.
Proof.
  intros [HN He]. unfold public_value. cbn [der flat_map]. rewrite app_nil_r.
  assert (length (int_contents (key_N k)) = 257%nat) as Hn by (rewrite int_contents_length; apply int_octets_eq; [lia|]; split; [apply HN|];
    etrans; [apply HN|]; by vm_compute).
  assert (length (int_contents (key_e k)) = 3%nat) as He3 by (rewrite int_contents_length; apply int_octets_eq; [lia|exact He]).
  rewrite (tlv_at 2 _ 257 [130; 1; 1] Hn) by (by vm_compute). rewrite (tlv_at 2 _ 3 [3] He3) by (by vm_compute).
  rewrite (tlv_at 48 _ 266 [130; 1; 10]); [| |by vm_compute]; cbn [app length]; rewrite ?length_app; cbn [length]; lia.
Qed.

(** The X.509 form is the PKCS #1 form behind a fixed prefix. *)
Lemma spki_2048 k : rsa2048 k → der (spki_value k) = spki_prefix ++ der (public_value k).
Proof.
  intros Hk. pose proof (public_2048 k Hk) as Hl. unfold spki_value. cbn [der]. set (p := der (public_value k)) in *. clearbody p.
  cbn [flat_map]. rewrite app_nil_r. cbn [der]. rewrite (tlv_at 3 (0 :: p) 271 [130; 1; 15]); [|cbn; lia|by vm_compute].
  set (alg := tlv 48 (flat_map der [VOid rsa_oid; VNull])). assert (alg = take 15 (drop 4 spki_prefix)) as -> by (by vm_compute).
  rewrite (tlv_at 48 _ 290 [130; 1; 34]); [reflexivity| |by vm_compute]. cbn. lia.
Qed.

(** ** Arguments *)
Definition int_item (n : Z) : item := SET_ASN1 LTC_ASN1_INTEGER (MpAt n) 1.
Lemma integer_args_eol ns : before_eol (integer_args ns) = int_item <$> ns.
Proof. unfold integer_args. induction ns as [|n ns IH]; [done|]. cbn. by rewrite IH. Qed.
Lemma ints_hold zs : Forall2 holds (int_item <$> zs) (VInt <$> zs).
Proof. induction zs; constructor; [constructor|done]. Qed.
Lemma ints_fit ns zs : length ns = length zs → Forall2 fits (int_item <$> ns) (VInt <$> zs).
Proof. revert zs. induction ns as [|n ns IH]; intros [|z zs] Hl; try done; constructor; [constructor|apply IH; cbn in Hl; lia]. Qed.
Lemma numbers_held l zs : Forall2 holds l (VInt <$> zs) → numbers l = zs.
Proof.
  revert zs. induction l as [|i l IH]; intros [|z zs] H; inversion H as [|? ? ? ? Hi Hl]; subst; [done|].
  change (numbers (i :: l)) with ((match it_data i with MpAt n => n | _ => 0 end) :: numbers l).
  rewrite (IH zs) by done. by inversion Hi; subst.
Qed.

Section keys.
Context `{HLtc : LtcEnv} (Hx : ∀ i, xalloc i = true).

(** ** Sequences, at the interface *)

(** The encoder writes the reference encoding, or reports the length it needs. *)
Definition sequence_outcome (v : asn1) (outlen : Z) : outcome :=
  if outlen <? der_size v then Outcome CRYPT_BUFFER_OVERFLOW (der_size v) None else written (der v).

Lemma encode_sequence_ok l tail vs outlen :
  Forall2 holds l vs → encodable (VSeq vs) → der_size (VSeq vs) < 2 ^ 58 → outlen < 2 ^ 58 →
  yields (der_encode_sequence (l ++ tail) (Z.of_nat (length l)) outlen) (sequence_outcome (VSeq vs) outlen).
Proof.
  unfold sequence_outcome, der_size. intros Hh He Hl Ho. inversion He as [| | | | | | | | | |? Hne H31 Hall]; subst.
  assert (Forall2 encodes l vs) as Hle.
  { apply Forall2_encodes; [done|]. apply Forall_forall. intros v Hv. apply value_encodes; [done| |].
    - by apply (proj1 (Forall_forall _ _) Hall).
    - pose proof (seq_parts v vs Hv). cbn [der] in Hl. rewrite tlv_length in Hl. lia. }
  destruct (sequence_encodes l tail vs Hle Hh Hne Hl) as [H1 H2].
  destruct (Z.ltb_spec outlen (Z.of_nat (length (der (VSeq vs))))) as [Hs|Hs]; [|apply H2; lia].
  unfold der_encode_sequence. eapply yields_bind; [exact H1|]. unfold sequence_frame. cbn [is_ok Z.eqb CRYPT_OK negb].
  rewrite (proj2 (Z.ltb_lt _ _) Hs). apply yields_ret.
Qed.

Lemma decode_sequence_ok tmpl vs ws rest inlen :
  Forall2 fits tmpl vs → Forall encodable vs → Z.of_nat (length vs) < 2 ^ 31 →
  der_size (VSeq (vs ++ ws)) ≤ inlen < 2 ^ 58 →
  ∃ l', yields (der_decode_sequence (der (VSeq (vs ++ ws)) ++ rest) inlen tmpl (Z.of_nat (length tmpl)))
          (end_code ws (der_size (VSeq (vs ++ ws))) inlen, l') ∧ Forall2 holds l' vs.
Proof.
  unfold der_size. intros Hf He Hn Hi. apply sequence_decodes; [by left| |done|by rewrite (Forall2_length _ _ _ Hf)|done].
  apply Forall2_decodes; [done|]. apply Forall_forall. intros v Hv. apply value_decodes; [done| |].
  - by apply (proj1 (Forall_forall _ _) He).
  - pose proof (seq_parts v (vs ++ ws) ltac:(apply elem_of_app; by left)). cbn [der] in Hi. rewrite tlv_length in Hi. lia.
Qed.

Lemma encode_multi_ok l vs outlen args :
  before_eol args = l → Forall2 holds l vs → encodable (VSeq vs) → der_size (VSeq vs) < 2 ^ 58 → outlen < 2 ^ 58 →
  yields (der_encode_sequence_multi outlen args) (sequence_outcome (VSeq vs) outlen).
Proof.
  intros Ha Hh He Hl Ho. unfold der_encode_sequence_multi. rewrite Ha. inversion He as [| | | | | | | | | |? Hne _ _]; subst.
  pose proof (Forall2_length _ _ _ Hh). destruct (Z.eqb_spec (Z.of_nat (length (before_eol args))) 0).
  { destruct vs; [done|cbn in *; lia]. }
  eapply yields_bind; [by apply yields_xmalloc|]. cbn [negb]. rewrite <- (app_nil_r (before_eol args)) at 1.
  by apply encode_sequence_ok.
Qed.

Lemma decode_integers_ok ns zs ws rest inlen :
  length ns = length zs → zs ≠ [] → Z.of_nat (length zs) < 2 ^ 31 → let v := VSeq ((VInt <$> zs) ++ ws) in
  der_size v ≤ inlen < 2 ^ 58 →
  yields (decode_integers (der v ++ rest) inlen ns) (end_code ws (der_size v) inlen, zs).
Proof.
  intros Hl Hz H31 v Hi. unfold decode_integers, der_decode_sequence_multi. rewrite integer_args_eol, length_fmap.
  destruct (Z.eqb_spec (Z.of_nat (length ns)) 0); [destruct zs; [done|cbn in *; lia]|].
  destruct (decode_sequence_ok (int_item <$> ns) (VInt <$> zs) ws rest inlen) as (l' & Hy & Hh);
    [by apply ints_fit| |by rewrite length_fmap|done|].
  { clear. induction zs; repeat constructor. done. }
  apply numbers_held in Hh. rewrite length_fmap in Hy. eapply yields_bind.
  - eapply yields_bind; [by apply yields_xmalloc|]. cbn [negb]. exact Hy.
  - cbn beta iota. rewrite Hh. apply yields_ret.
Qed.

(** ** rsa_export *)
Lemma der_short n vs : der (VSeq (VShort n :: vs)) = der (VSeq (VInt n :: vs)).
Proof. cbn [der flat_map]. reflexivity. Qed.
Lemma outcome_short n vs outlen : sequence_outcome (VSeq (VInt n :: vs)) outlen = sequence_outcome (VSeq (VShort n :: vs)) outlen.
Proof. unfold sequence_outcome, der_size. by rewrite der_short. Qed.
Lemma public_encodable k : encodable (public_value k).
Proof. apply (ints_encodable [key_N k; key_e k]); [done|cbn; lia]. Qed.

Lemma export_private_ok k outlen :
  key_type k = PK_PRIVATE → der_size (private_value k) < 2 ^ 58 → outlen < 2 ^ 58 →
  yields (rsa_export outlen PK_PRIVATE k) (sequence_outcome (private_value k) outlen).
Proof.
  intros Hk Hl Ho. unfold rsa_export. change (Z.ldiff PK_PRIVATE PK_STD) with PK_PRIVATE. rewrite Hk. cbn [Z.eqb PK_PRIVATE Pos.eqb negb andb].
  unfold private_value, private_info in *. cbn [fmap list_fmap] in *. set (vs := [VInt (key_N k); _; _; _; _; _; _; _]) in *.
  rewrite (outcome_short 0 vs outlen). unfold der_size in Hl. rewrite <- der_short in Hl.
  eapply encode_multi_ok; [reflexivity| | |exact Hl|done].
  - cbn [before_eol is_eol it_type SET_ASN1]. constructor; [constructor|]. rewrite integer_args_eol. apply (ints_hold [_; _; _; _; _; _; _; _]).
  - apply e_seq; [done|cbn; lia|]. constructor; [apply e_short; lia|]. repeat constructor.
Qed.

Lemma export_public_ok k outlen :
  der_size (public_value k) < 2 ^ 58 → outlen < 2 ^ 58 →
  yields (rsa_export outlen PK_PUBLIC k) (sequence_outcome (public_value k) outlen).
Proof.
  intros Hl Ho. unfold rsa_export. change (Z.ldiff PK_PUBLIC PK_STD) with PK_PUBLIC. cbn [Z.eqb PK_PUBLIC PK_PRIVATE negb andb].
  change (has_flag PK_PUBLIC PK_STD) with false. cbn [negb].
  eapply encode_multi_ok; [apply integer_args_eol|apply (ints_hold [_; _])|apply public_encodable|done|done].
Qed.

(** The room rsa_export leaves for the inner encoding. *)
Definition spki_room (k : rsa_key) : Z := mp_count_bits (key_N k) / 8 * 2 + 8.

Lemma export_spki_ok k outlen :
  der_size (public_value k) ≤ spki_room k < 2 ^ 58 → der_size (spki_value k) < 2 ^ 58 → outlen < 2 ^ 58 →
  yields (rsa_export outlen (Z.lor PK_PUBLIC PK_STD) k) (sequence_outcome (spki_value k) outlen).
Proof.
  intros Hr Hl Ho. unfold rsa_export. change (Z.ldiff (Z.lor PK_PUBLIC PK_STD) PK_STD) with PK_PUBLIC.
  change (has_flag (Z.lor PK_PUBLIC PK_STD) PK_STD) with true. cbn [Z.eqb PK_PUBLIC PK_PRIVATE negb andb].
  eapply yields_bind; [by apply yields_xmalloc|]. cbn [negb].
  eapply yields_bind; [eapply encode_multi_ok; [apply integer_args_eol|apply (ints_hold [_; _])|apply public_encodable|cbn [fmap list_fmap]; fold (public_value k); lia|apply Hr]|].
  cbn [fmap list_fmap]. fold (public_value k). fold (spki_room k). unfold sequence_outcome at 1 2 3.
  destruct (Z.ltb_spec (spki_room k) (der_size (public_value k))); [lia|]. cbn [oc_out oc_outlen written].
  unfold x509_encode_subject_public_key_info. rewrite rsa_oid_read. cbn [is_ok Z.eqb CRYPT_OK negb].
  fold (der_size (public_value k)). rewrite uint64_id by (unfold der_size in *; lia).
  eapply encode_multi_ok; [reflexivity| |apply spki_encodable; lia|done|done].
  constructor; [|constructor; [|constructor]].
  - change [?a; ?b] with ([a; b] ++ []). apply h_seq; [done|]. constructor; [by apply h_oid|]. constructor; [apply h_null|constructor].
  - rewrite <- (app_nil_r (der (public_value k))) at 1. apply h_raw. unfold der_size. lia.
Qed.

(** ** rsa_import *)
Lemma rsa_init_ok : yields rsa_init (CRYPT_OK, Live blank_key).
Proof. intros s. exists 8%nat. unfold rsa_init. by erewrite bind_ok by (by apply ltc_init_multi_ok). Qed.

(** What does not start with a sequence is no SubjectPublicKeyInfo. *)
Lemma not_spki z ws rest inlen pk pklen :
  let v := VSeq (VInt z :: ws) in der_size v ≤ inlen < 2 ^ 58 →
  yields (x509_decode_subject_public_key_info (der v ++ rest) inlen PKA_RSA pk pklen) (CRYPT_INVALID_PACKET, pk, pklen).
Proof.
  intros v Hi. unfold x509_decode_subject_public_key_info, LTC_ARGCHK.
  assert (0 < der_size v) by (unfold der_size; cbn; lia). destruct (Z.eqb_spec inlen 0); [lia|]. eapply yields_bind; [apply yields_ret|]. eapply yields_bind; [by apply yields_xmalloc|]. cbn [negb].
  set (tmpl := public_key_info _ _). unfold v, der_size in *. cbn [der flat_map] in *. set (c := tlv 2 _ ++ _) in *.
  pose proof Hi as Hi'. rewrite tlv_length in Hi'. set (lf := len_field (Z.of_nat (length c))) in *.
  eapply (yields_bind _ _ (CRYPT_INVALID_PACKET, unused 2 tmpl)); [|apply yields_ret].
  unfold der_decode_sequence, der_decode_sequence_ex, sequence_body.
  eapply (yields_bind _ _ (CRYPT_OK, 1 + Z.of_nat (length lf), Z.of_nat (length c))).
  { unfold sequence_header. pose proof (len_field_length (Z.of_nat (length c))).
    destruct (Z.ltb_spec inlen 2); [unfold lf in *; destruct (_ <? 128); lia|].
    eapply yields_bind; [apply tag_at|]. cbn [Z.eqb Pos.eqb negb andb].
    eapply yields_bind; [apply (read_header 48 c rest); lia|]. cbn [is_ok Z.eqb CRYPT_OK negb]. fold lf.
    rewrite uint64_id by lia. destruct (Z.ltb_spec (inlen - (1 + Z.of_nat (length lf))) (Z.of_nat (length c))); [lia|]. apply yields_ret. }
  cbn [is_ok Z.eqb CRYPT_OK negb]. change (Z.to_nat (int32 2)) with 2%nat. cbn [length tmpl public_key_info Nat.ltb Nat.leb].
  assert (at_off (tlv 48 c ++ rest) (1 + Z.of_nat (length lf)) = c ++ rest) as Hat.
  { unfold lf. destruct (contents_at 48 c rest) as [-> ->]. apply at_off_app. }
  eapply (yields_bind _ _ (CRYPT_INVALID_PACKET, unused 2 tmpl, _, _)); [|apply yields_ret].
  unfold tmpl, public_key_info, SET_ASN1. cbn [decode_items is_eol it_type]. cbn [decode_item]. rewrite Hat. unfold c at 1, tlv at 1. cbn [app].
  eapply (yields_bind _ _ (Failed CRYPT_INVALID_PACKET, _)); [eapply yields_bind; [apply yields_rd_0|apply yields_ret]|apply yields_ret].
Qed.

Lemma import_spki_fails z ws v rest inlen r :
  v = VSeq (VInt z :: ws) → der_size v ≤ inlen < 2 ^ 58 →
  yields (import_pkcs1 (der v ++ rest) inlen) r → yields (rsa_import (der v ++ rest) inlen) r.
Proof.
  intros -> Hi Hr. unfold rsa_import. eapply yields_bind; [apply rsa_init_ok|]. cbn [is_ok Z.eqb CRYPT_OK negb].
  eapply yields_bind; [by apply yields_xmalloc|]. cbn [negb]. eapply yields_bind; [by apply not_spki|exact Hr].
Qed.

(** The number that comes first, and the code of the sequence cut short. *)
Lemma first_integer z ws v rest inlen :
  v = VSeq (VInt z :: ws) → ws ≠ [] → der_size v ≤ inlen < 2 ^ 58 →
  yields (decode_integers (der v ++ rest) inlen [0]) (CRYPT_INPUT_TOO_LONG, [z]).
Proof. intros -> Hw Hi. destruct ws as [|w ws]; [done|]. apply (decode_integers_ok [0] [z] (w :: ws)); (done || cbn; lia). Qed.

Lemma import_public_ok k n rest :
  der_size (public_value k) < 2 ^ 58 →
  yields (import_public (der (public_value k) ++ rest) (der_size (public_value k)) n) (CRYPT_OK, Live (public_part k)).
Proof.
  intros Hl. unfold import_public.
  pose proof (decode_integers_ok [n; 0] [key_N k; key_e k] [] rest (der_size (public_value k))
    ltac:(done) ltac:(done) ltac:(cbn; lia)) as Hd. cbv zeta in Hd. rewrite app_nil_r in Hd. cbn [fmap list_fmap] in Hd.
  fold (public_value k) in Hd. eapply yields_bind; [apply Hd; lia|]. unfold end_code. rewrite Z.eqb_refl. apply yields_ret.
Qed.

(** Encoded keys are imported, whatever lies behind them. *)
Lemma import_private_key_ok k rest :
  key_type k = PK_PRIVATE → der_size (private_value k) < 2 ^ 58 →
  yields (rsa_import (der (private_value k) ++ rest) (der_size (private_value k))) (CRYPT_OK, Live k).
Proof.
  intros Hk Hl. set (n := der_size (private_value k)) in *.
  assert (yields (import_pkcs1 (der (private_value k) ++ rest) n) (CRYPT_OK, Live k)); [|apply (import_spki_fails 0 (VInt <$> tail (private_info k))); [done|fold n; lia|done]].
  unfold import_pkcs1. eapply yields_bind; [apply (first_integer 0 (VInt <$> tail (private_info k))); [done|done|fold n; lia]|].
  cbn [is_ok Z.eqb Pos.eqb CRYPT_OK CRYPT_INPUT_TOO_LONG negb andb head default]. unfold import_private.
  eapply yields_bind; [by apply yields_xmalloc|]. cbn [negb].
  pose proof (decode_integers_ok (replicate 9 0) (private_info k) [] rest n ltac:(done) ltac:(done) ltac:(cbn; lia)) as Hd.
  cbv zeta in Hd. rewrite app_nil_r in Hd. fold (private_value k) in Hd. fold n in Hd.
  eapply yields_bind; [apply Hd; lia|]. unfold end_code. rewrite Z.eqb_refl. cbn [private_info is_ok Z.eqb CRYPT_OK negb].
  rewrite <- Hk. destruct k. apply yields_ret.
Qed.

Lemma import_public_key_ok k rest :
  key_N k ≠ 0 → key_N k ≠ 1 → der_size (public_value k) < 2 ^ 58 →
  yields (rsa_import (der (public_value k) ++ rest) (der_size (public_value k))) (CRYPT_OK, Live (public_part k)).
Proof.
  intros H0 H1 Hl. set (n := der_size (public_value k)) in *.
  assert (yields (import_pkcs1 (der (public_value k) ++ rest) n) (CRYPT_OK, Live (public_part k))); [|apply (import_spki_fails (key_N k) [VInt (key_e k)]); [done|fold n; lia|done]].
  unfold import_pkcs1. eapply yields_bind; [apply (first_integer (key_N k) [VInt (key_e k)]); [done|done|fold n; lia]|].
  cbn [is_ok Z.eqb Pos.eqb CRYPT_OK CRYPT_INPUT_TOO_LONG negb andb head default id].
  destruct (Z.eqb_spec (key_N k) 0); [done|]. destruct (Z.eqb_spec (key_N k) 1); [done|]. by apply import_public_ok.
Qed.

Lemma rsa_oid_recognised tail u o :
  yields (pk_oid_cmp_with_asn1 (pk_get_oid PKA_RSA) (Item LTC_ASN1_OBJECT_IDENTIFIER (WordsAt (rsa_oid ++ tail)) 7 u o)) CRYPT_OK.
Proof.
  cbn [pk_oid_cmp_with_asn1]. unfold pk_oid_cmp_with_ulong. eapply (yields_bind _ _ (CRYPT_OK, pk_get_oid PKA_RSA)).
  - unfold pk_oid_num_to_str. eapply yields_bind; [apply (yields_rd_range_0 rsa_oid)|]. rewrite rsa_oid_written. apply yields_ret.
  - cbn [is_ok Z.eqb CRYPT_OK negb]. change (bytes_eqb (pk_get_oid PKA_RSA) (pk_get_oid PKA_RSA)) with true. apply yields_ret.
Qed.

Lemma public_in_spki k : der_size (public_value k) < der_size (spki_value k).
Proof.
  unfold der_size, spki_value. pose proof (seq_parts (VRaw (der (public_value k))) [VSeq [VOid rsa_oid; VNull]; VRaw (der (public_value k))]
    ltac:(by right; left)) as Hs. cbn [der] in *. rewrite tlv_length in *. cbn [length] in *. lia.
Qed.

Lemma spki_fits k inlen : der_size (spki_value k) ≤ inlen < 2 ^ 58 →
  Forall2 fits (public_key_info inlen (replicate (Z.to_nat inlen) 0)) [VSeq [VOid rsa_oid; VNull]; VRaw (der (public_value k))].
Proof.
  intros Hi. pose proof (public_in_spki k) as Hp. unfold der_size in Hp, Hi.
  constructor; [|constructor; [|constructor]].
  - apply f_seq; [done|]. constructor; [apply f_oid; by cbn|]. constructor; [apply f_null|constructor].
  - rewrite uint64_id by lia. apply f_raw; [lia|rewrite length_replicate; lia|].
    apply Forall_replicate. unfold byte_ok. lia.
Qed.

Lemma spki_decodes k rest pk pklen :
  let n := der_size (spki_value k) in let m := der_size (public_value k) in
  n < 2 ^ 58 → m ≤ pklen → pklen = Z.of_nat (length pk) →
  yields (x509_decode_subject_public_key_info (der (spki_value k) ++ rest) n PKA_RSA pk pklen)
    (CRYPT_OK, der (public_value k) ++ drop (length (der (public_value k))) pk, m).
Proof.
  intros n m Hn Hm Hpk. set (d := der (public_value k)) in *. assert (m = Z.of_nat (length d)) as Hmd by done. clearbody m.
  set (vs := [VSeq [VOid rsa_oid; VNull]; VRaw d]).
  assert (m < n) as Hmn by (rewrite Hmd; apply public_in_spki).
  destruct (decode_sequence_ok _ vs [] rest n (spki_fits k n ltac:(unfold n in *; lia))) as (l' & Hy & Hh).
  { assert (encodable (VSeq vs)) as He by (apply spki_encodable; unfold der_size; fold d; lia). by inversion He. }
  { done. } { rewrite app_nil_r. unfold n, spki_value. fold d. fold vs. unfold n, spki_value in Hn. fold d in Hn. fold vs in Hn. lia. }
  rewrite app_nil_r in Hy. change (VSeq vs) with (spki_value k) in Hy. fold n in Hy.
  unfold x509_decode_subject_public_key_info, LTC_ARGCHK. destruct (Z.eqb_spec n 0); [lia|].
  eapply yields_bind; [apply yields_ret|]. eapply yields_bind; [by apply yields_xmalloc|]. cbn [negb].
  eapply yields_bind; [exact Hy|]. unfold end_code. rewrite Z.eqb_refl. cbn [is_ok Z.eqb CRYPT_OK negb].
  inversion Hh as [|i1 v1 ? ? H1 Hh2]; subst. inversion Hh2 as [|i2 v2 ? ? H2 Hh3]; subst. inversion Hh3; subst.
  inversion H1 as [| | | | | | | | | |l tail ws ? u ? Hl]; subst. inversion Hl as [|a b ? ? Ha Hl2]; subst.
  inversion Ha as [| | | | | | |w tw ? ? ?| | |]; subst. inversion H2 as [| | | |b' tb ? ? ?| | | | | |]; subst. cbn [app].
  eapply yields_bind; [apply rsa_oid_recognised|]. cbn [is_ok Z.eqb CRYPT_OK negb].
  replace (Z.of_nat (8 * length d) / 8) with (Z.of_nat (length d)) by (rewrite Nat2Z.inj_mul, Z.mul_comm, Z.div_mul by lia; done).
  destruct (Z.ltb_spec (Z.of_nat (length pk)) (Z.of_nat (length d))); [lia|].
  eapply yields_bind; [apply yields_rd_range_0|]. destruct (Z.ltb_spec (Z.of_nat (length pk)) (Z.of_nat (length d))); [lia|].
  unfold overwrite. cbn [take app Nat.add]. apply yields_ret.
Qed.

Lemma import_spki_key_ok k rest :
  der_size (spki_value k) < 2 ^ 58 →
  yields (rsa_import (der (spki_value k) ++ rest) (der_size (spki_value k))) (CRYPT_OK, Live (public_part k)).
Proof.
  intros Hn. unfold rsa_import. eapply yields_bind; [by apply rsa_init_ok|]. cbn [is_ok Z.eqb CRYPT_OK negb].
  eapply yields_bind; [by apply yields_xmalloc|]. cbn [negb].
  pose proof (public_in_spki k) as Hm.
  eapply yields_bind; [apply spki_decodes; [done|lia|rewrite length_replicate; unfold der_size; lia]|].
  cbn [is_ok Z.eqb CRYPT_OK]. apply import_public_ok; lia.
Qed.
End keys.
