(* ===== verification/LtcKeysTheorems.v ===== *)
(** * What the DER code and the key code guarantee

    The theorems about src/pk/asn1 and src/pk/rsa/rsa_import.c, rsa_export.c:
    the encoder against the reference encoding, round trips of nested values
    and of keys, and what happens on input that nobody checked. *)

From S2P Require Import Prelude Ltc LtcRsa LtcSpec Der DerSeq LtcKeys DerSpec DerPrims DerBits DerOid DerSafety DerSafeSeq DerSeqSpec LtcKeysSpec.

Section hostile.
Context `{HLtc : LtcEnv}.
Abbreviation T := (M ltc).

(** ** Keys from anywhere *)
Lemma safe_decode_integers inp inlen ns :
  readable inp inlen → Z.of_nat (length ns) < 2 ^ 31 →
  safe (decode_integers inp inlen ns) (λ '(_, ns'), length ns' = length ns).
Proof.
  intros Hr H31. unfold decode_integers, der_decode_sequence_multi. rewrite integer_args_eol.
  assert (Forall2 item_ok (int_item <$> ns) (replicate (length ns) None)) as Hok by (clear; induction ns; repeat constructor; done).
  eapply (safe_bind _ _ (λ '(_, l), length l = length ns)).
  - apply safe_if; intros _; [apply safe_ret; apply length_fmap|]. eapply safe_bind; [apply safe_xmalloc|]. intros ok _.
    apply safe_if; intros _; [apply safe_ret; apply length_fmap|].
    eapply safe_mono; [apply (sequence_safe _ _ _ _ _ Hok); [by rewrite length_fmap|done]|].
    intros [err l] [Hl _]. by rewrite Hl, length_fmap.
  - intros [err l] Hl. apply safe_ret. unfold numbers. by rewrite length_fmap.
Qed.

(** A key or none: what rsa_import leaves in the structure. *)
Definition imported (r : Z * rsa_slots) : Prop :=
  if r.1 =? CRYPT_OK then ∃ key, r.2 = Live key else r.2 = Released ∨ r.2 = Dangling.

Lemma safe_failed err k : err ≠ CRYPT_OK → safe (import_failed err (Live k)) imported.
Proof.
  intros He. unfold import_failed. eapply safe_bind; [by apply (safe_ret Released (λ k, k = Released))|]. intros ? ->.
  apply safe_ret. unfold imported. cbn. rewrite (proj2 (Z.eqb_neq _ _) He). by left.
Qed.
Lemma safe_imported err k : safe (if negb (is_ok err) then import_failed err (Live k) else mret (CRYPT_OK, Live k)) imported.
Proof.
  apply safe_if; intros He; [apply safe_failed; unfold is_ok in He; lia|]. apply safe_ret. by exists k.
Qed.

Lemma safe_import_public inp inlen n : readable inp inlen → safe (import_public inp inlen n) imported.
Proof.
  intros Hr. unfold import_public. eapply safe_bind; [by apply safe_decode_integers|]. intros [err ns] Hl.
  destruct ns as [|a [|b [|c ns]]]; try done. apply safe_imported.
Qed.
Lemma safe_import_private inp inlen n : readable inp inlen → safe (import_private inp inlen n) imported.
Proof.
  intros Hr. unfold import_private. eapply safe_bind; [apply safe_xmalloc|]. intros ok _. apply safe_if; intros _; [by apply safe_failed|].
  eapply safe_bind; [by apply safe_decode_integers|]. intros [err ns] Hl.
  do 10 (destruct ns as [|? ns]; [try done|]); [|done]. apply safe_imported.
Qed.
Lemma safe_import_pkcs1 inp inlen : readable inp inlen → safe (import_pkcs1 inp inlen) imported.
Proof.
  intros Hr. unfold import_pkcs1. eapply safe_bind; [by apply safe_decode_integers|]. intros [err ns] Hl.
  apply safe_if; intros He; [apply safe_failed; unfold is_ok in He; lia|].
  apply safe_if; intros _; [by apply safe_import_private|]. apply safe_if; intros _; [by apply safe_failed|by apply safe_import_public].
Qed.

Lemma spki_template_ok inlen :
  0 ≤ inlen < 2 ^ 58 → Forall2 item_ok (public_key_info inlen (replicate (Z.to_nat inlen) 0)) [Some 81; None].
Proof.
  intros Hi. constructor; [|constructor; [|constructor]].
  - apply (ok_seq _ [77; 2]); [done|done| |done]. constructor; [by constructor|]. constructor; [constructor|constructor].
  - rewrite uint64_id by lia. constructor; [rewrite length_replicate; lia|lia|]. apply Forall_replicate. unfold byte_ok. lia.
Qed.

Lemma bit_string_content n z : 0 ≤ n < 2 ^ 62 → der_length_bit_string n = (CRYPT_OK, z) → n / 8 + 3 ≤ z.
Proof.
  intros Hn H. destruct (bit_string_sized n ((n + 7) / 8 + 1) _ _ Hn ltac:(lia) (Z.le_refl _) (Z.le_refl _)) as (z' & Hz & _ & Hle).
  rewrite Hz in H. by injection H as <-.
Qed.

Lemma safe_oid_cmp o1 a b : item_ok a b → safe (pk_oid_cmp_with_asn1 o1 a) (λ _, True).
Proof.
  destruct 1 as [| | |t| |w n u Hn| ]; [by apply safe_ret..|destruct t; (done || by apply safe_ret)|by apply safe_ret| |by apply safe_ret].
  cbn [pk_oid_cmp_with_asn1]. unfold pk_oid_cmp_with_ulong, pk_oid_num_to_str.
  eapply (safe_bind _ _ (λ _, True)).
  - unfold rd_range. destruct (Z.leb_spec (0 + n) (Z.of_nat (length w))); [|lia].
    eapply safe_bind; [by apply (safe_ret _ (λ _, True))|]. intros ws _. destruct (push_words _ _); [|by apply safe_ret].
    apply safe_if; intros _; by apply safe_ret.
  - intros [err str] _. apply safe_if; intros _; by apply safe_ret.
Qed.

Lemma safe_x509 inp inlen alg pk :
  readable inp inlen → 0 < inlen → bytes_ok pk → Z.of_nat (length pk) = inlen →
  safe (x509_decode_subject_public_key_info inp inlen alg pk inlen) (λ '(err, pk', n), err = CRYPT_OK → readable pk' n).
Proof.
  intros Hr Hpos Hpk Hlp. pose proof (rb_len _ _ Hr) as Hl. unfold x509_decode_subject_public_key_info, LTC_ARGCHK.
  destruct (Z.eqb_spec inlen 0) as [|_]; [lia|]. eapply safe_bind; [by apply (safe_ret _ (λ _, True))|]. intros _ _.
  eapply safe_bind; [apply safe_xmalloc|]. intros ok _. apply safe_if; intros _; [by apply safe_ret|].
  pose proof (spki_template_ok inlen Hl) as Hok. set (tmpl := public_key_info _ _) in *.
  eapply safe_bind; [apply (sequence_safe _ _ _ tmpl _ Hok); [done|done]|]. intros [err l] [_ Hres].
  apply safe_if; intros He; [apply safe_ret; by intros ->|]. destruct Hres as [[Hne _]|[zs Hk]]; [unfold is_ok in He; lia|].
  destruct Hk as [Hg _ Hz Hs Hko _ Hkind]. unfold tmpl, public_key_info in Hkind.
  inversion Hkind as [|? i1 ? ? [Ht1 Hs1] Hkind1]; subst. inversion Hkind1 as [|? i2 ? ? [Ht2 _] Hkind2]; subst. inversion Hkind2; subst.
  inversion Hko as [|? ? ? ? Ho1 Hko1]; subst. inversion Hko1 as [|? ? ? ? Ho2 _]; subst. clear Hko Hko1 Hkind Hkind1 Hkind2.
  inversion Ho1; subst; cbn in Ht1, Hs1; try done. specialize (Hs1 eq_refl).
  destruct l as [|a l]; [done|]. inversion Ho2; subst; cbn in Ht2; try done; [|by destruct t].
  inversion Hg as [|? z1 ? ? _ Hg1]; subst. inversion Hg1 as [|? z2 ? ? Hg2 Hg3]; subst. inversion Hg3; subst.
  repeat match goal with H : Forall _ (_ :: _) |- _ => apply Forall_cons in H as [? ?] end. cbn in Hs.
  match goal with H : Forall2 item_ok (a :: l) _ |- _ => inversion H as [|? ? ? ? Ha _]; subst end.
  eapply safe_bind; [by eapply safe_oid_cmp|]. intros err' _. apply safe_if; intros He'; [apply safe_ret; intros ->; by cbn in He'|].
  apply safe_if; intros _; [by apply safe_ret|]. specialize (Hg2 (Ltc empty_table empty_table 0 0 0)).
  cbn [length_item] in Hg2. injection Hg2 as Hg2. apply bit_string_content in Hg2; [|lia].
  unfold rd_range. destruct (Z.leb_spec (0 + n / 8) (Z.of_nat (length b))); [|Z.div_mod_to_equations; lia].
  eapply safe_bind; [apply (safe_ret _ (λ k, bytes_ok k)); by apply Forall_take, Forall_drop|]. intros k Hk.
  apply safe_if; intros Hlen; [exfalso; lia|]. apply safe_ret. intros _.
  unfold overwrite. rewrite take_0. cbn [app Nat.add]. split; [Z.div_mod_to_equations; lia| |].
  - rewrite length_app, length_drop. lia.
  - apply Forall_app. split; [done|by apply Forall_drop].
Qed.

Lemma safe_rsa_init : safe rsa_init (λ '(err, k), if err =? CRYPT_OK then k = Live blank_key else k = Dangling).
Proof.
  unfold rsa_init. assert (∀ n, safe (ltc_init_multi n) (λ _, True)) as Hi.
  { induction n as [|n IH]; [by apply safe_ret|]. cbn [ltc_init_multi]. eapply safe_bind; [apply safe_xmalloc|].
    intros ok _. destruct ok; [done|by apply safe_ret]. }
  eapply safe_bind; [apply Hi|]. intros err _. apply safe_ret. unfold is_ok. by destruct (err =? CRYPT_OK).
Qed.

Lemma safe_rsa_import inp inlen : readable inp inlen → 0 < inlen → safe (rsa_import inp inlen) imported.
Proof.
  intros Hr Hne. pose proof (rb_len _ _ Hr) as Hl. unfold rsa_import. eapply safe_bind; [apply safe_rsa_init|]. intros [err k] Hk.
  apply safe_if; intros He; unfold is_ok in He.
  { apply safe_ret. unfold imported. cbn. destruct (Z.eqb_spec err CRYPT_OK); [done|by right]. }
  destruct (Z.eqb_spec err CRYPT_OK); [subst k|done]. eapply safe_bind; [apply safe_xmalloc|]. intros ok _.
  apply safe_if; intros _; [by apply safe_failed|].
  eapply safe_bind; [apply safe_x509; [done|done|apply Forall_replicate; unfold byte_ok; lia|rewrite length_replicate; lia]|].
  intros [[err' tmp] n] Ht. apply safe_if; intros He'; [|by apply safe_import_pkcs1].
  apply safe_import_public, Ht. unfold is_ok in He'. lia.
Qed.

Lemma init_multi_cases n s : ∃ err s', ltc_init_multi n s = Ok (err, s') ∧ (err = CRYPT_OK ∨ err = CRYPT_MEM).
Proof.
  revert s. induction n as [|n IH]; intros s; [by exists CRYPT_OK, s; auto|]. cbn [ltc_init_multi].
  erewrite bind_ok by done. destruct (xalloc _); [apply IH|]. eexists _, _. split; [done|by right].
Qed.

Lemma rsa_import_empty inp s :
  rsa_import inp 0 s = Fault NoReturn ∨ ∃ k s', rsa_import inp 0 s = Ok ((CRYPT_MEM, k), s').
Proof.
  unfold rsa_import, rsa_init. rewrite bind_assoc. destruct (init_multi_cases 8 s) as (err & s1 & E & Herr). mstep E. mred.
  destruct Herr as [->| ->]; [|right; by eexists _, _]. cbn [is_ok Z.eqb CRYPT_OK negb].
  erewrite bind_ok by done. destruct (xalloc _); cbn [negb]; [by left|]. right. by eexists _, _.
Qed.
End hostile.

(** A key that is exported and read back. *)
Definition reimport `{LtcEnv} (outlen type : Z) (key : rsa_key) (behind : bytes) : M ltc (option (Z * rsa_slots)) :=
  o ← rsa_export outlen type key;
  match oc_out o with
  | None => mret None
  | Some out => r ← rsa_import (out ++ behind) (oc_outlen o); mret (Some r)
  end.

Lemma outcome_written v outlen : der_size v ≤ outlen → sequence_outcome v outlen = written (der v).
Proof. intros H. unfold sequence_outcome. destruct (Z.ltb_spec outlen (der_size v)); [lia|done]. Qed.

Section theorems.
Context `{HLtc : LtcEnv}.
Abbreviation T := (M ltc).

Lemma reimport_ok outlen type key behind v r :
  yields (rsa_export outlen type key) (sequence_outcome v outlen) → der_size v ≤ outlen →
  yields (rsa_import (der v ++ behind) (der_size v)) r → yields (reimport outlen type key behind) (Some r).
Proof.
  intros He Ho Hr. unfold reimport. eapply yields_bind; [exact He|]. rewrite outcome_written by done. cbn [oc_out oc_outlen written].
  eapply yields_bind; [exact Hr|apply yields_ret].
Qed.

(** C15: der_encode_sequence writes exactly the reference encoding of the values
    its items hold, nested to any depth, when the output has room for it;
    otherwise it writes nothing and reports the length it needs.  Nothing but the
    count of allocations changes.  The items are not optional and hold values
    that have an encoding here ([encodable]): integers, short integers, booleans,
    NULL, object identifiers, and bit strings, octet strings, IA5 and printable
    strings and sequences that are not empty; UTF8 strings are left out. *)
Theorem der_encode_sequence_exact l tail vs outlen s :
  (∀ i, xalloc i = true) → Forall2 holds l vs → encodable (VSeq vs) → der_size (VSeq vs) < 2 ^ 58 → outlen < 2 ^ 58 →
  ∃ k, der_encode_sequence (l ++ tail) (Z.of_nat (length l)) outlen s =
    Ok (if outlen <? der_size (VSeq vs) then Outcome CRYPT_BUFFER_OVERFLOW (der_size (VSeq vs)) None
        else Outcome CRYPT_OK (der_size (VSeq vs)) (Some (der (VSeq vs))), spent_allocs k s).
Proof. intros Hx Hh He Hl Ho. exact (encode_sequence_ok Hx l tail vs outlen Hh He Hl Ho s). Qed.

(** C16: What der_encode_sequence wrote, der_decode_sequence reads back: for every
    nested value of the kinds of [encodable] (not empty, and without UTF8 strings,
    for which it fails) and every template of its shape with enough room, whatever
    bytes follow in memory, decoding succeeds and the items hold the values. *)
Theorem der_sequence_roundtrip l vs tmpl outlen behind s :
  (∀ i, xalloc i = true) → Forall2 holds l vs → encodable (VSeq vs) → Forall2 fits tmpl vs →
  der_size (VSeq vs) ≤ outlen < 2 ^ 58 →
  ∃ l' k, (o ← der_encode_sequence l (Z.of_nat (length l)) outlen;
           der_decode_sequence (default [] (oc_out o) ++ behind) (oc_outlen o) tmpl (Z.of_nat (length tmpl))) s =
    Ok ((CRYPT_OK, l'), spent_allocs k s) ∧ Forall2 holds l' vs.
Proof.
  intros Hx Hh He Hf Ho. pose proof (encode_sequence_ok Hx l [] vs outlen Hh He ltac:(lia) ltac:(lia)) as H1. rewrite app_nil_r in H1.
  rewrite outcome_written in H1 by lia. inversion He as [| | | | | | | | | |? Hne H31 Hall]; subst.
  destruct (decode_sequence_ok Hx tmpl vs [] behind (der_size (VSeq vs)) Hf Hall H31) as (l' & H2 & Hl'); [rewrite app_nil_r; lia|].
  rewrite app_nil_r in H2. unfold end_code in H2. rewrite Z.eqb_refl in H2. exists l'.
  destruct (yields_bind _ (λ o, der_decode_sequence (default [] (oc_out o) ++ behind) (oc_outlen o) tmpl (Z.of_nat (length tmpl))) _ _ H1 H2 s)
    as [k E]. by exists k.
Qed.

(** C14: A key that rsa_export wrote is the key that rsa_import reads: a private
    key with all its numbers, a public key in the form of PKCS #1, and a public
    key in the X.509 form of PK_STD, whatever lies behind it in memory. *)
Theorem rsa_key_roundtrip key outlen behind s :
  (∀ i, xalloc i = true) → 1 < key_N key → outlen < 2 ^ 58 → der_size (private_value key) ≤ outlen →
  der_size (public_value key) ≤ spki_room key < 2 ^ 58 → der_size (spki_value key) ≤ outlen →
  (key_type key = PK_PRIVATE → ∃ k, reimport outlen PK_PRIVATE key behind s = Ok (Some (CRYPT_OK, Live key), spent_allocs k s)) ∧
  (∃ k, reimport outlen PK_PUBLIC key behind s = Ok (Some (CRYPT_OK, Live (public_part key)), spent_allocs k s)) ∧
  (∃ k, reimport outlen (Z.lor PK_PUBLIC PK_STD) key behind s = Ok (Some (CRYPT_OK, Live (public_part key)), spent_allocs k s)).
Proof.
  intros Hx HN Ho Hp Hr Hs. pose proof (public_in_spki key) as Hps. split_and!.
  - intros Hk. eapply reimport_ok; [apply export_private_ok; (done || lia)|done|apply import_private_key_ok; (done || lia)].
  - eapply reimport_ok; [apply export_public_ok; (done || lia)|lia|apply import_public_key_ok; (done || lia)].
  - eapply reimport_ok; [apply export_spki_ok; (done || lia)|lia|apply import_spki_key_ok; (done || lia)].
Qed.

(** On arbitrary input, with one byte of memory behind it and whether or not
    memory can be allocated, der_decode_sequence returns: it reads nothing past
    that byte and writes nothing past the buffers of the template, and when it
    succeeds the items are again within their buffers.  The templates are those
    whose nested sequences stay below 128 bytes. *)
Theorem der_decode_sequence_safe inp inlen l bs s :
  Forall2 item_ok l bs → Z.of_nat (length l) < 2 ^ 31 → readable inp inlen →
  ∃ err l' s', der_decode_sequence inp inlen l (Z.of_nat (length l)) s = Ok ((err, l'), s') ∧ length l' = length l ∧
    (err = CRYPT_OK → Forall2 item_ok l' bs ∧ it_type <$> l' = it_type <$> l).
Proof.
  intros Hok H31 Hr. destruct (sequence_safe LTC_DER_SEQ_RELAXED inp inlen l bs Hok H31 Hr s) as ([err l'] & s' & E & Hl & Hres).
  exists err, l', s'. split_and!; [exact E|done|]. intros ->. destruct Hres as [[Hne _]|[zs Hk]]; [done|]. split; [apply Hk|].
  pose proof (ik_kind _ _ _ _ _ Hk) as Hkind. clear -Hkind. induction Hkind as [|i i' l l' [Ht _] _ IH]; [done|]. cbn. by rewrite Ht, IH.
Qed.

(** C17: rsa_import survives any input that is not empty and has one more byte of
    memory behind it: it returns, and it leaves a key when it reports success and
    no live numbers otherwise.  On an empty input it either runs out of memory or
    returns from crypt_argchk, which is declared not to return. *)
Theorem rsa_import_total inp inlen s :
  (readable inp inlen → 0 < inlen → ∃ r s', rsa_import inp inlen s = Ok (r, s') ∧ imported r) ∧
  (rsa_import inp 0 s = Fault NoReturn ∨ ∃ k s', rsa_import inp 0 s = Ok ((CRYPT_MEM, k), s')).
Proof. split; [intros Hr Hn; exact (safe_rsa_import inp inlen Hr Hn s)|apply rsa_import_empty]. Qed.
End theorems.
