(* ===== verification/LtcKeysConcrete.v ===== *)
(** * Keys and sequences, evaluated

    Witnesses for the theorems about the DER code, with the environment and the
    key of LtcConcrete, and the inputs on which the code leaves its buffers. *)

From S2P Require Import Prelude Ltc LtcRsa LtcSpec LtcConcrete Der DerSeq LtcKeys DerSpec DerPrims DerBits DerOid DerSafety DerSafeSeq.
From S2P Require Import DerSeqSpec LtcKeysSpec LtcKeysTheorems.

#[local] Existing Instance demo_ltc.

(** A nested value: an identifier with NULL, an octet string, a boolean. *)
Definition sample : list asn1 := [VSeq [VOid rsa_oid; VNull]; VOctets [7; 8; 9]; VBool true; VInt (- 300)].
Definition sample_items : list item :=
  [SET_ASN1 LTC_ASN1_SEQUENCE
     (ItemsAt ([SET_ASN1 LTC_ASN1_OBJECT_IDENTIFIER (WordsAt (rsa_oid ++ [])) 7; SET_ASN1 LTC_ASN1_NULL NoData 0] ++ [])) 2;
   SET_ASN1 LTC_ASN1_OCTET_STRING (BufAt ([7; 8; 9] ++ [])) 3; SET_ASN1 LTC_ASN1_BOOLEAN (IntAt 1) 1;
   SET_ASN1 LTC_ASN1_INTEGER (MpAt (- 300)) 1].
Definition sample_template : list item :=
  [SET_ASN1 LTC_ASN1_SEQUENCE
     (ItemsAt [SET_ASN1 LTC_ASN1_OBJECT_IDENTIFIER (WordsAt (replicate 16 0)) 16; SET_ASN1 LTC_ASN1_NULL NoData 0]) 2;
   SET_ASN1 LTC_ASN1_OCTET_STRING (BufAt (replicate 8 0)) 8; SET_ASN1 LTC_ASN1_BOOLEAN (IntAt 0) 1;
   SET_ASN1 LTC_ASN1_INTEGER (MpAt 0) 1].

Lemma sample_holds : Forall2 holds sample_items sample.
Proof.
  repeat constructor.
Qed.
Lemma sample_encodable : encodable (VSeq sample).
Proof.
  apply e_seq; [done|cbn; lia|]. constructor; [|constructor; [|constructor; [|constructor; [|constructor]]]].
  - apply e_seq; [done|cbn; lia|]. constructor; [apply e_oid, rsa_oid_ok|constructor; [constructor|constructor]].
  - apply e_octets; [done|]. repeat constructor; lia.
  - constructor.
  - constructor.
Qed.
Lemma sample_fits : Forall2 fits sample_template sample.
Proof.
  constructor; [|constructor; [|constructor; [|constructor; [|constructor]]]]; [|by constructor|constructor|constructor].
  apply f_seq; [done|]. constructor; [by constructor|]. constructor; [constructor|constructor].
Qed.
Lemma demo_memory : ∀ i, xalloc i = true.
Proof. done. Qed.

Lemma der_encode_sequence_exact_witness :
  ∃ k, der_encode_sequence sample_items 4 64 ltc_ready =
    Ok (Outcome CRYPT_OK 29 (Some (der (VSeq sample))), spent_allocs k ltc_ready).
Proof.
  destruct (der_encode_sequence_exact sample_items [] sample 64 ltc_ready demo_memory sample_holds sample_encodable
    ltac:(by vm_compute) ltac:(lia)) as [k E].
  exists k. rewrite app_nil_r in E. exact E.
Defined.

Lemma der_sequence_roundtrip_witness :
  ∃ l' k, (o ← der_encode_sequence sample_items 4 64;
           der_decode_sequence (default [] (oc_out o) ++ [1; 2]) (oc_outlen o) sample_template 4) ltc_ready =
    Ok ((CRYPT_OK, l'), spent_allocs k ltc_ready) ∧ Forall2 holds l' sample.
Proof.
  exact (der_sequence_roundtrip sample_items sample sample_template 64 [1; 2] ltc_ready demo_memory sample_holds sample_encodable
    sample_fits ltac:(by vm_compute)).
Defined.

Lemma rsa_key_roundtrip_witness :
  ∃ k, reimport 512 PK_PRIVATE demo_rsa [] ltc_ready = Ok (Some (CRYPT_OK, Live demo_rsa), spent_allocs k ltc_ready).
Proof.
  destruct (rsa_key_roundtrip demo_rsa 512 [] ltc_ready demo_memory) as [H _];
    [by vm_compute|lia|by vm_compute|by vm_compute|by vm_compute|]. by apply H.
Defined.

Lemma der_decode_sequence_safe_witness :
  ∃ err l' s', der_decode_sequence [48; 3; 2; 129; 0; 255; 0] 6 sample_template 4 ltc_ready = Ok ((err, l'), s') ∧
    length l' = 4%nat ∧ (err = CRYPT_OK → Forall2 item_ok l' [Some 81; None; Some 3; None] ∧ it_type <$> l' = it_type <$> sample_template).
Proof.
  apply (der_decode_sequence_safe [48; 3; 2; 129; 0; 255; 0] 6 sample_template [Some 81; None; Some 3; None] ltc_ready).
  - constructor; [|constructor; [|constructor; [|constructor; [|constructor]]]]; [|by constructor|constructor|constructor].
    apply (ok_seq _ [77; 2]); [done|done| |done]. constructor; [by constructor|]. constructor; [constructor|constructor].
  - done.
  - split; [lia|cbn; lia|repeat constructor; lia].
Defined.

Lemma rsa_import_total_witness :
  ∃ r s', rsa_import [48; 0; 0] 2 ltc_ready = Ok (r, s') ∧ imported r.
Proof.
  apply (rsa_import_total [48; 0; 0] 2 ltc_ready); [split; [lia|cbn; lia|repeat constructor; lia]|lia].
Defined.

(** ** Reads past the input *)

(** An empty sequence: the identifier of the next item is read behind it. *)
Example import_empty_sequence : rsa_import [0x30; 0x00] 2 ltc_ready = Fault OutOfBounds.
Proof. by vm_compute. Qed.
(** An INTEGER without octets: its sign is read behind it. *)
Example import_empty_integer : rsa_import [0x30; 0x03; 0x02; 0x81; 0x00] 5 ltc_ready = Fault OutOfBounds.
Proof. by vm_compute. Qed.

(** A nested sequence that is longer than its header says, and more than 127
    bytes: the length left wraps around, and the next item is read far behind
    the input, with [behind] there stored as its value. *)
Definition long_inner : bytes := [0x30; 0x81; 130; 0x30; 2; 4; 126] ++ replicate 126 7.
Definition inner_template : list item :=
  [SET_ASN1 LTC_ASN1_SEQUENCE (ItemsAt [SET_ASN1 LTC_ASN1_OCTET_STRING (BufAt (replicate 200 0)) 200]) 1;
   SET_ASN1 LTC_ASN1_INTEGER (MpAt 0) 1].
Example nested_sequence_overrun :
  der_decode_sequence long_inner (Z.of_nat (length long_inner)) inner_template 2 ltc_ready = Fault OutOfBounds ∧
  match der_decode_sequence (long_inner ++ [99; 2; 1; 42]) (Z.of_nat (length long_inner)) inner_template 2 ltc_ready with
  | Ok ((_, l), _) => (it_used <$> l) = [1; 1] ∧ (it_data <$> drop 1 l) = [MpAt 42]
  | Fault _ => False
  end.
Proof. split; vm_compute; [done|split; reflexivity]. Qed.

(** A short INTEGER without octets counts as three bytes. *)
Definition short_template : list item := [SET_ASN1 LTC_ASN1_SHORT_INTEGER (LongAt 0) 1; SET_ASN1 LTC_ASN1_INTEGER (MpAt 0) 1].
Example short_integer_overrun :
  match der_decode_sequence ([0x30; 2; 2; 0] ++ [99; 2; 1; 42]) 4 short_template 2 ltc_ready with
  | Ok ((_, l), _) => (it_used <$> l) = [1; 1] ∧ (it_data <$> drop 1 l) = [MpAt 42]
  | Fault _ => False
  end.
Proof. vm_compute. split; reflexivity. Qed.

(** A UTF8 string takes what follows it for its own characters. *)
Example utf8_swallows_the_rest :
  match der_encode_sequence [SET_ASN1 LTC_ASN1_UTF8_STRING (WideAt [65; 66]) 2; SET_ASN1 LTC_ASN1_INTEGER (MpAt 5) 1] 2 32 ltc_ready with
  | Ok (o, s) =>
      match der_decode_sequence (default [] (oc_out o)) (oc_outlen o)
              [SET_ASN1 LTC_ASN1_UTF8_STRING (WideAt (replicate 8 0)) 8; SET_ASN1 LTC_ASN1_INTEGER (MpAt 0) 1] 2 s with
      | Ok ((err, l), _) => err = CRYPT_INVALID_PACKET ∧ (it_data <$> take 1 l) = [WideAt ([65; 66; 2; 1; 5] ++ replicate 3 0)]
      | Fault _ => False
      end
  | Fault _ => False
  end.
Proof. vm_compute. split; reflexivity. Qed.

(** The empty OCTET STRING has an encoding, which is not written. *)
Example empty_octets_not_encoded :
  match der_encode_sequence [SET_ASN1 LTC_ASN1_OCTET_STRING (BufAt []) 0] 1 32 ltc_ready with
  | Ok (o, _) => oc_err o = CRYPT_INVALID_ARG ∧ oc_out o = None
  | Fault _ => False
  end.
Proof. vm_compute. split; reflexivity. Qed.
