(* ===== verification/Enclave.v ===== *)
(** * The enclave

    daemon/enclave_core: crypto/aes.cpp, crypto/rsa_encrypt.cpp and
    crypto/rsa_decrypt.cpp, lsm_communication.cpp, userspace_io.cpp, and the
    policy of policy_impls/basic.  The SGX runtime is a parameter ([Sgx]); keys
    are read by LtcKeys and the RSA operations are those of LtcRsa.  A call out
    of the enclave acts on the world of the daemon ([Untrusted]).  Calls across
    the boundary are taken to arrive.

    generate_ticket and _generate_xattr_ticket encrypt into an array that is
    twelve bytes too small.  Whether this destroys anything depends on the frame
    the compiler lays out: [frame_slack] is the number of bytes behind the array
    that hold no other object, and an overflow past them is a fault. *)

From S2P Require Import Prelude Shared Ltc LtcRsa Der DerSeq LtcKeys.

Definition SGX_AESGCM_MAC_SIZE : nat := 16.
Definition SGX_AESGCM_IV_SIZE : nat := 12.
Definition BUFLEN : nat := 2048.
Definition _CITADEL_SEAL_MAXSIZE : nat := 4096.
Definition _CITADEL_KEY_PRIV_LEN : nat := 1200.
Definition _CITADEL_KEY_PUB_PAD_LEN : nat := 294.
Definition _CITADEL_KEY_PUB_LEN : nat := 270.

Class Sgx := {
  sgx_rand : nat → nat → bytes;                         (** successive answers of sgx_read_rand *)
  sgx_gcm_encrypt : bytes → bytes → bytes → option (bytes * bytes);      (** key, IV, data: ciphertext, tag *)
  sgx_gcm_decrypt : bytes → bytes → bytes → bytes → option bytes;        (** key, IV, ciphertext, tag *)
  sgx_gcm_rejected : bytes → bytes → bytes → bytes → bytes;              (** what the output holds when the tag is wrong *)
  sgx_unseal_data : bytes → nat → nat → Z * bytes;      (** data, sizes of the buffers for the text of the tag and the plaintext: status, plaintext *)
  frame_slack : nat;
  frame_junk : nat → bytes;                             (** the two bytes of padding in a record *)
}.

(** The calls out of the enclave, on the world of the daemon. *)
Class Untrusted (W : Type) := {
  install_ticket : bytes → M W Z;
  install_xattr : bytes → bytes → M W Z;
}.

(** The static variables of lsm_communication.cpp and userspace_io.cpp (less the
    three public keys that are loaded and never read), the tables of
    libtomcrypt, and the world outside. *)
Record estate (W : Type) := EState {
  keys_loaded : bool;
  aes_key : bytes;
  ptoken_aes_key : bytes;
  enclave_key_priv : bytes;            (** an array of _CITADEL_KEY_PRIV_LEN bytes *)
  enclave_key_priv_len : Z;
  lsm_key_padded_pub : bytes;
  e_ltc : ltc;
  e_nrnd : nat;
  e_world : W }.
Arguments EState {_} _ _ _ _ _ _ _ _ _.
Arguments keys_loaded {_} _. Arguments aes_key {_} _. Arguments ptoken_aes_key {_} _.
Arguments enclave_key_priv {_} _. Arguments enclave_key_priv_len {_} _. Arguments lsm_key_padded_pub {_} _. Arguments e_ltc {_} _.
Arguments e_nrnd {_} _. Arguments e_world {_} _.

Section enclave.
Context {W : Type} `{HSgx : Sgx} `{HLtc : LtcEnv} `{HUn : Untrusted W}.
Abbreviation E := (M (estate W)).
Implicit Type s : estate W.

(** ** Field updates *)
Definition put_aes_key (v : bytes) s : estate W :=
  EState (keys_loaded s) v (ptoken_aes_key s) (enclave_key_priv s) (enclave_key_priv_len s) (lsm_key_padded_pub s) (e_ltc s) (e_nrnd s) (e_world s).
Definition put_ptoken_key (v : bytes) s : estate W :=
  EState (keys_loaded s) (aes_key s) v (enclave_key_priv s) (enclave_key_priv_len s) (lsm_key_padded_pub s) (e_ltc s) (e_nrnd s) (e_world s).
Definition put_keys (priv : bytes) (priv_len : Z) (lsm_pub : bytes) s : estate W :=
  EState true (aes_key s) (ptoken_aes_key s) priv priv_len lsm_pub (e_ltc s) (e_nrnd s) (e_world s).
Definition put_ltc (v : ltc) s : estate W :=
  EState (keys_loaded s) (aes_key s) (ptoken_aes_key s) (enclave_key_priv s) (enclave_key_priv_len s) (lsm_key_padded_pub s) v (e_nrnd s) (e_world s).
Definition put_nrnd (v : nat) s : estate W :=
  EState (keys_loaded s) (aes_key s) (ptoken_aes_key s) (enclave_key_priv s) (enclave_key_priv_len s) (lsm_key_padded_pub s) (e_ltc s) v (e_world s).
Definition put_world (v : W) s : estate W :=
  EState (keys_loaded s) (aes_key s) (ptoken_aes_key s) (enclave_key_priv s) (enclave_key_priv_len s) (lsm_key_padded_pub s) (e_ltc s) (e_nrnd s) v.

(** Code of the library, and calls out of the enclave. *)
Definition in_ltc {A} (m : M ltc A) : E A := λ s,
  match m (e_ltc s) with Ok (a, l) => Ok (a, put_ltc l s) | Fault f => Fault f end.
Definition ocall {A} (m : M W A) : E A := λ s,
  match m (e_world s) with Ok (a, w) => Ok (a, put_world w s) | Fault f => Fault f end.
Definition sgx_read_rand (len : nat) : E bytes := λ s,
  Ok (sgx_rand (e_nrnd s) len, put_nrnd (S (e_nrnd s)) s).

(** ** crypto/aes.cpp *)

(** A copy of [b] to an array of [cap] bytes. *)
Definition copy_to (cap : nat) (b : bytes) : E unit :=
  if (cap <? length b)%nat then crash OutOfBounds else mret tt.

(** Ciphertext, tag and IV follow one another in a zeroed buffer; the status of
    the cipher is not looked at. *)
Definition encryptMessage (msg key : bytes) (lenOut cap : nat) : E bytes :=
  let len := length msg in
  if (BUFLEN <? len + SGX_AESGCM_MAC_SIZE + SGX_AESGCM_IV_SIZE)%nat then crash OutOfBounds else
  iv ← sgx_read_rand SGX_AESGCM_IV_SIZE;
  let '(ct, tag) := default ([], []) (sgx_gcm_encrypt key iv msg) in
  let p_dst := fill BUFLEN (fill len ct ++ fill SGX_AESGCM_MAC_SIZE tag ++ iv) in
  copy_to cap (take lenOut p_dst);;
  mret (take lenOut p_dst).

(** [cap]: the bytes behind [out] that may be written. *)
Definition aes_encrypt (msg key : bytes) (cap : nat) : E (Z * bytes) :=
  let encMessageLen := (SGX_AESGCM_MAC_SIZE + SGX_AESGCM_IV_SIZE + length msg)%nat in
  out ← encryptMessage msg key encMessageLen cap;
  mret (0, out).

Definition decryptMessage (msg key : bytes) (lenOut : Z) (cap : nat) : E bytes :=
  if (Z.of_nat BUFLEN <? lenOut) || (Z.of_nat (length msg) <? lenOut + 28) then crash OutOfBounds else
  let n := length msg in
  let iv := drop (n - SGX_AESGCM_IV_SIZE) msg in
  let tag := field (n - SGX_AESGCM_IV_SIZE - SGX_AESGCM_MAC_SIZE) SGX_AESGCM_MAC_SIZE msg in
  let ct := take (Z.to_nat lenOut) msg in
  let p_dst := fill BUFLEN (default (sgx_gcm_rejected key iv ct tag) (sgx_gcm_decrypt key iv ct tag)) in
  copy_to cap (take (Z.to_nat lenOut) p_dst);;
  mret (take (Z.to_nat lenOut) p_dst).

(** The length is unsigned: a message shorter than the framing wraps around. *)
Definition aes_decrypt (msg key : bytes) (cap : nat) : E (Z * bytes) :=
  let decMessageLen := uint64 (Z.of_nat (length msg) - Z.of_nat (SGX_AESGCM_MAC_SIZE + SGX_AESGCM_IV_SIZE)) in
  out ← decryptMessage msg key decMessageLen cap;
  mret (0, out).

(** ** crypto/rsa_decrypt.cpp and crypto/rsa_encrypt.cpp

    The error code and what was written through [out] and [outlen]; [key] is the
    memory behind the pointer and [keylen] the length given with it.  rsa_free
    runs on every exit, also when rsa_import left no numbers. *)
Definition with_key (k : rsa_slots) {A} (op : rsa_key → M ltc A) : E A :=
  match k with Live key => in_ltc (op key) | _ => crash BadAccess end.

Definition rsa_decrypt (msg key : bytes) (keylen cap : Z) : E (Z * option bytes) :=
  '(err, pkey) ← in_ltc (rsa_import key keylen);
  if negb (err =? CRYPT_OK) then in_ltc (rsa_free pkey);; mret (err, None) else
  hash_idx ← in_ltc (register_hash "sha1");
  if hash_idx <? 0 then in_ltc (rsa_free pkey);; mret (- 7, None) else
  prng_idx ← in_ltc (register_prng "sprng");
  if prng_idx <? 0 then in_ltc (rsa_free pkey);; mret (- 6, None) else
  '(o, _) ← with_key pkey (rsa_decrypt_key_ex msg cap);
  in_ltc (rsa_free pkey);;
  mret (oc_err o, oc_out o).

Definition rsa_encrypt (msg key : bytes) (keylen cap : Z) : E (Z * option bytes) :=
  '(err, pkey) ← in_ltc (rsa_import key keylen);
  if negb (err =? CRYPT_OK) then in_ltc (rsa_free pkey);; mret (err, None) else
  hash_idx ← in_ltc (register_hash "sha1");
  if hash_idx <? 0 then in_ltc (rsa_free pkey);; mret (- 9, None) else
  prng_idx ← in_ltc (register_prng "sprng");
  if prng_idx <? 0 then in_ltc (rsa_free pkey);; mret (- 8, None) else
  o ← with_key pkey (rsa_encrypt_key_ex msg cap prng_idx);
  in_ltc (rsa_free pkey);;
  mret (oc_err o, oc_out o).

(** ** lsm_communication.cpp *)

(** A string literal as an array with its terminator. *)
Definition c_literal (str : string) : bytes :=
  ((λ c, Z.of_N (Ascii.N_of_ascii c)) <$> String.list_ascii_of_string str) ++ [0].
Definition asm_name : bytes := c_literal "citadel.basic.so".

Definition set_ptoken_aes_key (key : bytes) : E unit :=
  modify (put_ptoken_key (take 16 key)).

(** The decrypted challenge with the answers written into it: name, key and
    process number. *)
Definition answer_challenge (challenge key : bytes) (pid : Z) : bytes :=
  overwrite 96 (le_bytes 4 pid) (overwrite 80 key (overwrite 40 asm_name challenge)).

(** The status and what was written to [response_data]. *)
Definition handle_kernel_challenge (challenge_data : bytes) (response_length : nat) (pid : Z) : E (Z * option bytes) :=
  priv ← gets enclave_key_priv;
  priv_len ← gets enclave_key_priv_len;
  '(err, decrypted) ← rsa_decrypt challenge_data priv priv_len (Z.of_nat _CITADEL_RSA_KEY_LENGTH);
  if negb (err =? 0) then mret (err, None) else
  match decrypted with
  | None => crash Indeterminate
  | Some decrypted =>
      if negb (length decrypted =? sizeof citadel_challenge_fields)%nat
      then mret (Z.of_nat (length decrypted), None) else
      if negb (bytes_eqb (ch_signature (dec_challenge decrypted)) challenge_signature) then mret (- 5, None) else
      key ← sgx_read_rand _CITADEL_AES_KEY_LENGTH;
      modify (put_aes_key key);;
      set_ptoken_aes_key key;;
      lsm_pub ← gets lsm_key_padded_pub;
      '(err, cipher) ← rsa_encrypt (answer_challenge decrypted key pid) lsm_pub (Z.of_nat _CITADEL_KEY_PUB_PAD_LEN)
        (Z.of_nat _CITADEL_RSA_KEY_LENGTH);
      if negb (err =? 0) then mret (err, None) else
      if (_CITADEL_RSA_KEY_LENGTH <? response_length)%nat then crash OutOfBounds else
      if (length (default [] cipher) <? response_length)%nat then crash Indeterminate else
      mret (0, Some (take response_length (default [] cipher)))
  end.

Definition update_aes_key (key : bytes) : E unit :=
  when (_CITADEL_AES_KEY_LENGTH <=? length key)%nat
    (modify (λ s, put_aes_key (xor_bytes (aes_key s) (take _CITADEL_AES_KEY_LENGTH key)) s)).

(** The payload of a message with one record; the padding of the record is what
    the stack held. *)
Definition ticket_payload (junk key_update : bytes) (r : citadel_update_record) : bytes :=
  enc_update_header (UpdateHeader challenge_signature key_update 1) ++ enc_update_record junk r.
Definition payload_size : nat :=
  (sizeof citadel_update_header_fields + sizeof citadel_update_record_fields)%nat.
Definition cipher_room : nat := (payload_size + 16 + frame_slack)%nat.

(** [memcpy(dst, metadata, 16)] *)
Definition read_identifier (metadata : bytes) : E bytes :=
  if (length metadata <? _CITADEL_IDENTIFIER_LENGTH)%nat then crash OutOfBounds
  else mret (take _CITADEL_IDENTIFIER_LENGTH metadata).

Definition generate_ticket (pid : Z) (metadata : bytes) (operation : Z) : E bool :=
  junk ← gets (λ s, frame_junk (e_nrnd s));
  key_update ← sgx_read_rand _CITADEL_AES_KEY_LENGTH;
  identifier ← read_identifier metadata;
  let data := ticket_payload junk key_update (UpdateRecord pid identifier operation) in
  key ← gets aes_key;
  '(ret, cipher) ← aes_encrypt data key cipher_room;
  if negb (ret =? 0) then mret false else
  install_ret ← ocall (install_ticket cipher);
  if install_ret =? 0 then mret false else
  update_aes_key key_update;;
  mret true.

(** The records of an update are not looked at. *)
Definition process_updates (update_data : bytes) : E Z :=
  key ← gets aes_key;
  '(_, plain) ← aes_decrypt update_data key (length update_data);
  if (length plain <? _CITADEL_SIGNATURE_LENGTH)%nat then crash Indeterminate else
  mret (if bytes_eqb (uh_signature (dec_update_header plain)) challenge_signature then 0 else - 1).

(** A C string in a buffer: the bytes up to and with the terminator. *)
Definition strlen_in (path : bytes) : E nat :=
  let n := length (cstring path) in
  if (n <? length path)%nat then mret n else crash OutOfBounds.

Definition xattr_operation (taint declassify : bool) : Z :=
  if declassify then CITADEL_OP_DECLASSIFY else if taint then CITADEL_OP_REGISTER else CITADEL_OP_NOP.

(** The result and, when it is true and not a declassification, the identifier
    of the record. *)
Definition _generate_xattr_ticket (path : option bytes) (internal taint declassify : bool) : E (bool * option bytes) :=
  junk ← gets (λ s, frame_junk (e_nrnd s));
  key_update ← sgx_read_rand _CITADEL_AES_KEY_LENGTH;
  identifier ← (if internal && negb declassify then mret (replicate _CITADEL_IDENTIFIER_LENGTH 0xFF)
                else sgx_read_rand _CITADEL_IDENTIFIER_LENGTH);
  let data := ticket_payload junk key_update (UpdateRecord 0 identifier (xattr_operation taint declassify)) in
  key ← gets aes_key;
  '(_, cipher) ← aes_encrypt data key cipher_room;
  match path with
  | None => crash NullDeref
  | Some path =>
      n ← strlen_in path;
      install_ret ← ocall (install_xattr (take (n + 1) path) cipher);
      if install_ret =? _CITADEL_XATTR_ACCEPTED_SIGNAL then
        update_aes_key key_update;;
        mret (true, if negb declassify then Some identifier else None)
      else mret (false, None)
  end.

Definition generate_xattr_ticket (path : option bytes) (taint declassify : bool) : E (bool * option bytes) :=
  _generate_xattr_ticket path false taint declassify.
Definition generate_xattr_ticket_internal (path : bytes) : E bool :=
  '(ok, _) ← _generate_xattr_ticket (Some path) true true false;
  mret ok.

(** [memcpy] out of the plaintext, which is initialised up to its length. *)
Definition copy_from (plain : bytes) (offset len cap : nat) : E bytes :=
  if (cap <? len)%nat then crash OutOfBounds else
  if (length plain <? offset + len)%nat then crash Indeterminate else
  mret (field offset len plain).

Definition _CITADEL_SEAL_MAC : bytes := c_literal "Citadel Enclave Initialisation Keys.".
Definition process_sealed_keys (data : bytes) : E Z :=
  let '(status, plaintext) := sgx_unseal_data data (length (cstring _CITADEL_SEAL_MAC)) _CITADEL_SEAL_MAXSIZE in
  if negb (status =? 0) then mret status else
  len ← copy_from plaintext 0 2 2;
  let priv_len := Z.to_nat (le_value len) in
  priv ← copy_from plaintext 2 priv_len _CITADEL_KEY_PRIV_LEN;
  let offset := (2 + priv_len)%nat in
  copy_from plaintext offset _CITADEL_KEY_PUB_PAD_LEN _CITADEL_KEY_PUB_PAD_LEN;;
  copy_from plaintext (offset + _CITADEL_KEY_PUB_PAD_LEN) _CITADEL_KEY_PUB_LEN _CITADEL_KEY_PUB_LEN;;
  let offset := (offset + _CITADEL_KEY_PUB_PAD_LEN + _CITADEL_KEY_PUB_LEN)%nat in
  lsm_pub ← copy_from plaintext offset _CITADEL_KEY_PUB_PAD_LEN _CITADEL_KEY_PUB_PAD_LEN;
  copy_from plaintext (offset + _CITADEL_KEY_PUB_PAD_LEN) _CITADEL_KEY_PUB_LEN _CITADEL_KEY_PUB_LEN;;
  modify (λ s, put_keys (overwrite 0 priv (enclave_key_priv s)) (Z.of_nat priv_len) lsm_pub s);;
  mret status.

(** ** userspace_io.cpp *)
Definition _CITADEL_IPC_FILE : bytes := c_literal "/run/citadel.socket".
Definition protect_socket : E unit := generate_xattr_ticket_internal _CITADEL_IPC_FILE;; mret tt.

(** The claim branch: a new label, and access to the file if it is asked for. *)
Definition handle_claim (pid : Z) (op : Z) (metadata : option bytes) : E Z :=
  '(ok, id) ← generate_xattr_ticket metadata true false;
  let result := if ok : bool then CITADEL_OP_APPROVED else CITADEL_OP_ERROR in
  if ok && has_flag op CITADEL_OP_OPEN then
    id ← (match id with Some id => mret id | None => crash Indeterminate end);
    granted ← generate_ticket pid id CITADEL_OP_OPEN;
    mret (if granted : bool then result else CITADEL_OP_ERROR)
  else mret result.

(** The open branch: a file without a label is labelled first. *)
Definition handle_open (pid : Z) (request : citadel_op_request) (metadata : option bytes)
    (translated translate_success : bool) (result : Z) : E Z :=
  '(result, identifier) ←
    (if translated && negb translate_success then
       '(ok, id) ← generate_xattr_ticket metadata true false;
       mret (if ok : bool then result else CITADEL_OP_ERROR, id)
     else mret (result, if translated then metadata else Some (rq_subject request)));
  if negb (result =? CITADEL_OP_ERROR) then
    identifier ← (match identifier with Some id => mret id | None => crash NullDeref end);
    granted ← generate_ticket pid identifier (rq_operation request);
    mret (if granted : bool then result else CITADEL_OP_ERROR)
  else mret result.

(** A ticket for the subject of the request. *)
Definition grant_subject (pid : Z) (request : citadel_op_request) (wanted : bool) (result : Z) : E Z :=
  if wanted then
    granted ← generate_ticket pid (rq_subject request) (rq_operation request);
    mret (if granted : bool then result else CITADEL_OP_ERROR)
  else mret result.

Definition core_handle_request (pid : Z) (request : citadel_op_request) (metadata : option bytes)
    (translated translate_success : bool) (asm_result : Z) : E Z :=
  if negb (asm_result =? CITADEL_OP_APPROVED) then mret asm_result else
  let op := rq_operation request in
  let claim := has_flag op CITADEL_OP_CLAIM in
  result ← (if claim then handle_claim pid op metadata else mret asm_result);
  let op := if claim then Z.land op (Z.lnot CITADEL_OP_OPEN) else op in
  result ← (if has_flag op CITADEL_OP_OPEN
            then handle_open pid request metadata translated translate_success result else mret result);
  result ← grant_subject pid request (has_flag op (Z.lor CITADEL_OP_PTY_ACCESS CITADEL_OP_SOCKET)) result;
  result ← grant_subject pid request (has_flag op CITADEL_OP_SHM) result;
  if has_flag op CITADEL_OP_DECLASSIFY then
    '(ok, _) ← generate_xattr_ticket metadata false true;
    mret (if ok : bool then result else CITADEL_OP_ERROR)
  else mret result.

Section requests.
(** The decision of the policy engine. *)
Context (policy : Z → citadel_op_request → option bytes → Z).

(** The token the request carries, opened; [inr]: the answer to a bad token. *)
Definition open_ptoken (pid : Z) (request : citadel_op_request) : E (citadel_ptoken_protected + Z) :=
  let signed_payload_len := (sizeof citadel_ptoken_protected_fields + _CITADEL_IV_LENGTH + _CITADEL_TAG_LENGTH)%nat in
  key ← gets ptoken_aes_key;
  '(aes_ret, decrypted) ← aes_decrypt (take signed_payload_len (rq_signed_ptoken request)) key signed_payload_len;
  if negb (aes_ret =? 0) then mret (inr CITADEL_OP_INVALID) else
  if negb (length decrypted =? sizeof citadel_ptoken_protected_fields)%nat then mret (inr CITADEL_OP_INVALID) else
  let payload := dec_ptoken_protected decrypted in
  if negb (bytes_eqb (pp_signature payload) challenge_signature) then mret (inr CITADEL_OP_INVALID) else
  if negb (pid =? pp_pid payload) then mret (inr CITADEL_OP_FORGED) else
  mret (inl payload).

(** The answer, and what was written to the token buffer.  [ptoken_length]:
    the size of that buffer, if there is one. *)
Definition handle_request (data : bytes) (pid : Z) (ptoken_length : option nat) : E (Z * option bytes) :=
  if negb (bool_decide (ptoken_length = Some _CITADEL_PROCESS_PTOKEN_LENGTH)) then mret (CITADEL_OP_ERROR, None) else
  let plain := (length data =? sizeof citadel_op_request_fields)%nat in
  let extended := (length data =? sizeof citadel_op_extended_request_fields)%nat in
  if negb plain && negb extended then mret (CITADEL_OP_INVALID, None) else
  let x := dec_ext_request data in
  let request := dec_op_request data in
  if negb (bytes_eqb (rq_signature request) challenge_signature) then mret (CITADEL_OP_INVALID, None) else
  token ← open_ptoken pid request;
  match token with
  | inr answer => mret (answer, None)
  | inl payload =>
      let metadata := if plain then None else Some (xr_metadata x) in
      let result := uint8 (policy pid request metadata) in
      internal_update ← core_handle_request pid request metadata
        (if plain then false else xr_translate x) (if plain then false else xr_translate_success x) result;
      mret (internal_update, Some (pp_ptoken payload))
  end.
End requests.
End enclave.

(** The policy of policy_impls/basic: every request is approved. *)
Definition asm_handle_request (pid : Z) (request : citadel_op_request) (metadata : option bytes) : Z :=
  CITADEL_OP_APPROVED.
