(* ===== verification/Preparatory.v ===== *)
(** * The preparatory enclave

    scripts/preparatory_enclave: the tool (App/App.cpp) and its enclave
    (Enclave/Enclave.cpp) that seal the keys of a build, and the assembly of the
    key file in scripts/generate_keys.sh.  The SGX runtime and the file system's
    permissions are parameters ([Sealer]); files are a map from paths to contents.
    Calls into the enclave are taken to arrive; messages on the terminal are left
    out. *)

From S2P Require Import Prelude Shared Ltc LtcRsa Der DerSeq LtcKeys DerSpec DerPrims DerBits DerOid DerSafety DerSeqSpec LtcKeysSpec Enclave.

Definition SGX_SUCCESS : Z := 0.
Definition SGX_ERROR_UNEXPECTED : Z := 1.
Definition SGX_ERROR_OUT_OF_MEMORY : Z := 3.
Definition UINT32_MAX : Z := 2 ^ 32 - 1.

Class Sealer := {
  sgx_create_enclave : bytes → Z;                       (** the status, by path *)
  sgx_calc_sealed_data_size : Z → Z → Z;                (** lengths of the text and of the data *)
  sgx_seal_data : bytes → bytes → Z * bytes;            (** text, data: status and blob *)
  tool_malloc : nat → bool;                             (** successive answers of malloc, outside *)
  prep_malloc : nat → bool;                             (** and inside the enclave *)
  may_read : bytes → bool;                              (** a file that exists can be opened *)
  may_write : bytes → bool;                             (** a file can be created or truncated *)
  write_fails : bytes → bool;                           (** and then not be written *)
}.

Record tool := Tool { t_files : gmap bytes bytes; t_nmalloc : nat; t_nprep : nat }.

Section tool.
Context `{HSeal : Sealer}.
Abbreviation P := (M tool).

Definition malloc : P bool := λ s, Ok (tool_malloc (t_nmalloc s), Tool (t_files s) (S (t_nmalloc s)) (t_nprep s)).
Definition malloc_inside : P bool := λ s, Ok (prep_malloc (t_nprep s), Tool (t_files s) (t_nmalloc s) (S (t_nprep s))).
Definition put_file (path b : bytes) (s : tool) : tool := Tool (<[path := b]> (t_files s)) (t_nmalloc s) (t_nprep s).

(** ** Enclave.cpp *)
Definition aad_mac_text : bytes :=
  (λ c, Z.of_N (Ascii.N_of_ascii c)) <$> String.list_ascii_of_string "Citadel Enclave Initialisation Keys.".

Definition get_sealed_data_size (plain_len : Z) : Z :=
  sgx_calc_sealed_data_size (Z.of_nat (length aad_mac_text)) plain_len.

(** The status, and what is copied out of the enclave: [data_size] bytes, zero
    where nothing was written. *)
Definition seal_data (plain_blob : bytes) (data_size : Z) : P (Z * bytes) :=
  let untouched := replicate (Z.to_nat data_size) 0 in
  let sealed_data_size := get_sealed_data_size (Z.of_nat (length plain_blob)) in
  if sealed_data_size =? UINT32_MAX then mret (SGX_ERROR_UNEXPECTED, untouched) else
  if data_size <? sealed_data_size then mret (99, untouched) else
  ok ← malloc_inside;
  if negb (ok : bool) then mret (SGX_ERROR_OUT_OF_MEMORY, untouched) else
  let '(err, blob) := sgx_seal_data aad_mac_text plain_blob in
  if err =? SGX_SUCCESS then mret (err, overwrite 0 (fill (Z.to_nat sealed_data_size) blob) untouched) else mret (err, untouched).

(** ** App.cpp *)

(** The size; a file that cannot be opened has the size -1 as a size_t. *)
Definition get_file_size (filename : bytes) : P Z :=
  gets (λ s, match t_files s !! filename with
             | Some b => if may_read filename then Z.of_nat (length b) else 2 ^ 64 - 1
             | None => 2 ^ 64 - 1
             end).

(** The bytes read, [None] where the function returns false. *)
Definition read_file_to_buf (filename : bytes) (bsize : Z) : P (option bytes) :=
  if bsize =? 0 then mret None else
  gets (λ s, match t_files s !! filename with
             | Some b => if may_read filename && (bsize <=? Z.of_nat (length b)) then Some (take (Z.to_nat bsize) b) else None
             | None => None
             end).

(** The file is truncated when it is opened. *)
Definition write_buf_to_file (filename buf : bytes) (offset : nat) : P bool :=
  if (length buf =? 0)%nat then mret false else
  if negb (may_write filename) then mret false else
  modify (put_file filename []);;
  if write_fails filename then mret false else
  modify (put_file filename (replicate offset 0 ++ buf));;
  mret true.

Definition initialize_enclave (enclave_path : bytes) : Z := sgx_create_enclave enclave_path.

Definition plain_copy_path : bytes :=
  (λ c, Z.of_N (Ascii.N_of_ascii c)) <$> String.list_ascii_of_string "/opt/abcd".
Definition sealed_suffix : bytes :=
  (λ c, Z.of_N (Ascii.N_of_ascii c)) <$> String.list_ascii_of_string ".sealed".

Definition seal_and_save_data (enclave_path datafile : bytes) (preamble : Z) : P bool :=
  if negb (initialize_enclave enclave_path =? SGX_SUCCESS) then mret false else
  plain_len ← get_file_size datafile;
  if plain_len =? 0 then mret false else
  ok ← malloc;
  if negb (ok : bool) then mret false else
  data ← read_file_to_buf datafile plain_len;
  match data with
  | None => mret false
  | Some data =>
      let plain_text := le_bytes 2 preamble ++ data in
      let plain_len := uint64 (plain_len + 2) in
      write_buf_to_file plain_copy_path plain_text 0;;
      let sealed_data_size := get_sealed_data_size (uint32 plain_len) in
      if sealed_data_size =? UINT32_MAX then mret false else
      ok ← malloc;
      if negb (ok : bool) then mret false else
      '(retval, temp_sealed_buf) ← seal_data (take (Z.to_nat (uint32 plain_len)) plain_text) sealed_data_size;
      if negb (retval =? SGX_SUCCESS) then mret false else
      write_buf_to_file (datafile ++ sealed_suffix) temp_sealed_buf 0
  end.

(** [atoi] on a string of digits: the rest of the string is ignored. *)
Fixpoint atoi_digits (s : bytes) (n : Z) : Z :=
  match s with
  | c :: s => if (48 <=? c) && (c <=? 57) then atoi_digits s (10 * n + (c - 48)) else n
  | [] => n
  end.
Definition is_space (c : Z) : bool := (c =? 32) || ((9 <=? c) && (c <=? 13)).
Fixpoint skip_space (s : bytes) : bytes :=
  match s with c :: s' => if is_space c then skip_space s' else s | [] => [] end.
(** What an int does not hold is undefined. *)
Definition atoi (s : bytes) : P Z :=
  let n := match skip_space s with
           | 45 :: s => - atoi_digits s 0
           | 43 :: s => atoi_digits s 0
           | s => atoi_digits s 0
           end in
  if int32 n =? n then mret n else crash Indeterminate.

(** The arguments without the name of the program. *)
Definition main (args : list bytes) : P Z :=
  match args with
  | [enclave_path; datafile; keylen] =>
      preamble ← atoi keylen;
      ok ← seal_and_save_data enclave_path datafile (uint16 preamble);
      mret (if ok : bool then 0 else - 1)
  | _ => mret (- 2)
  end.
End tool.

(** ** generate_keys.sh

    The files made by openssl from two keys, the short public keys cut out of
    them by dd, and their concatenation. *)
Definition cut_prefix (padded : bytes) : bytes := drop 24 padded.
Definition enclave_keys (ekey lkey : rsa_key) : bytes :=
  let enclave_key_priv := der (private_value ekey) in
  let enclave_key_padded_pub := der (spki_value ekey) in
  let lsm_key_padded_pub := der (spki_value lkey) in
  enclave_key_priv ++ enclave_key_padded_pub ++ cut_prefix enclave_key_padded_pub ++
  lsm_key_padded_pub ++ cut_prefix lsm_key_padded_pub.

(** The number as [stat] prints it: 5 digits are enough for a length below 2^16. *)
Fixpoint decimal (digits : nat) (n : Z) : bytes :=
  match digits with
  | O => []
  | S d => if n <? 10 then [48 + n] else decimal d (n / 10) ++ [48 + n mod 10]
  end.
