(* ===== verification/Daemon.v ===== *)
(** * The daemon

    daemon/citadeld: identifier_cache.cpp, lsm_io.cpp, socket.cpp and the
    start-up of app.cpp.  The operating system is a parameter ([DaemonOS]): a
    system call acts on its world, and a fault of that call is a crash of the
    system.  The state of the daemon holds the enclave ([estate]), whose world
    is the operating system and errno; a call into the enclave ([ecall]) runs on
    it, and the two calls out of it are the functions of lsm_io.cpp below.  The
    hash table of identifiers is Google's sparse_hash_map: a finite map, whose
    operations may copy entries ([copies]), which restarts their clock.  Requests
    are served one after the other, as the thread of the socket does. *)

From S2P Require Import Prelude Shared Hex Ltc LtcRsa Enclave.

Definition EAGAIN : Z := 11.
Definition EWOULDBLOCK : Z := 11.
Definition EINTR : Z := 4.
Definition EIO : Z := 5.
Definition EPERM : Z := 1.

(** ** System calls *)
Inductive daemon_call :=
  | d_fopen (path mode : string)
  | d_write_file (path : string) (data : bytes)
  | d_read_file (path : string) (size : nat)
  | d_setxattr (path : bytes) (name : string) (value : bytes)
  | d_getxattr (path : bytes) (name : string) (size : nat)
  | d_read (fd : Z) (size : nat)
  | d_write (fd : Z) (data : bytes) (len : Z)
  | d_peercred (fd : Z)
  | d_close (fd : Z)
  | d_accept
  | d_socket
  | d_unlink (path : bytes)
  | d_umask (mask : Z)
  | d_bind (fd : Z) (path : bytes)
  | d_listen (fd backlog : Z)
  | d_pthread_create
  | d_gettimeofday
  | d_getpid
  | d_sigaction (signum : Z)
  | d_signal_ignore (signum : Z)
  | d_pthread_kill (signum : Z)
  | d_pthread_join
  | d_sleep (seconds : Z)
  | d_create_enclave (name token : bytes)   (** the SGX SDK: the status; [updated] and the token *)
  | d_destroy_enclave.

(** The return value, the error code (stored in errno when the value is -1) and
    the bytes written to the caller's memory. *)
Record daemon_ret := DRet { dr_ret : Z; dr_errno : Z; dr_out : bytes }.

Class DaemonOS := {
  os : Type;
  dsys : daemon_call → M os daemon_ret;
  dmem : nat → bool;               (** whether successive mallocs succeed *)
  dstack : nat → nat → bytes;      (** contents of uninitialised variables *)
  copies : nat → bytes → bool;     (** whether the n-th insertion copies the entry of a key *)
}.

(** What the enclave's calls act on. *)
Record host `{DaemonOS} := Host { h_os : os; h_errno : Z }.

Section host.
Context `{HOs : DaemonOS}.

Definition call (c : daemon_call) : M host daemon_ret := λ h,
  match dsys c (h_os h) with
  | Ok (r, o) => Ok (r, Host _ o (if dr_ret r =? - 1 then dr_errno r else h_errno h))
  | Fault f => Fault f
  end.
Definition call_ret (c : daemon_call) : M host Z := r ← call c; mret (dr_ret r).
Definition put_errno (e : Z) : M host unit := modify (λ h, Host _ (h_os h) e).

(** ** lsm_io.cpp *)
Definition _CITADEL_LSM_CHALLENGE_PATH : string := "/sys/kernel/security/citadel/challenge".
Definition _CITADEL_LSM_UPDATE_PATH : string := "/sys/kernel/security/citadel/update".
Definition _CITADEL_SEALED_KEYS_PATH : string := "/sys/kernel/security/citadel/sealed_keys".

(** The size of a stream's buffer in the C library. *)
Definition stream_buffer : nat := 4096.

(** [fopen], [fwrite] of one item and [fclose].  What fits the buffer counts as
    written and reaches the file when it is closed, whose result nobody reads;
    whole buffers are written at once. *)
Definition write_item (path : string) (data : bytes) : M host Z :=
  f ← call_ret (d_fopen path "wb");
  if f =? 0 then crash NullDeref else
  if (length data =? 0)%nat then mret 0 else
  if (length data <? stream_buffer)%nat then call (d_write_file path data);; mret 1 else
  let whole := (length data - length data mod stream_buffer)%nat in
  written ← call_ret (d_write_file path (take whole data));
  if negb (written =? Z.of_nat whole) then mret 0 else
  (if (whole <? length data)%nat then call (d_write_file path (drop whole data));; mret tt else mret tt);;
  mret 1.

Definition send_registration (data : bytes) : M host Z := write_item _CITADEL_LSM_CHALLENGE_PATH data.
Definition send_update (data : bytes) : M host Z := write_item _CITADEL_LSM_UPDATE_PATH data.
Definition install_ticket_io (ticket_data : bytes) : M host Z := write_item _CITADEL_LSM_UPDATE_PATH ticket_data.

(** errno after the call, whatever the call returned. *)
Definition install_xattr_io (path ticket_data : bytes) : M host Z :=
  call (d_setxattr (cstring path) _CITADEL_XATTR_INSTALL ticket_data);;
  res ← gets h_errno;
  put_errno 0;;
  mret res.

#[global] Instance host_untrusted : Untrusted host := {|
  install_ticket := install_ticket_io;
  install_xattr := install_xattr_io |}.
End host.

(** ** The identifier cache *)
Record cache_entry := Entry { ce_value : bytes; ce_time : Z }.

Record dstate `{DaemonOS} := DState {
  d_enclave : estate host;
  d_cache : gmap bytes cache_entry;
  d_deleted_key : bool;            (** set_deleted_key has been called *)
  d_nmem : nat;
  d_nstk : nat;
  d_ncopy : nat }.

Section daemon.
Context `{HOs : DaemonOS} `{HSgx : Sgx} `{HLtc : LtcEnv}.
Context (policy : Z → citadel_op_request → option bytes → Z).
Abbreviation D := (M dstate).
Implicit Type d : dstate.

Definition put_enclave (v : estate host) d : dstate :=
  DState _ v (d_cache d) (d_deleted_key d) (d_nmem d) (d_nstk d) (d_ncopy d).
Definition put_cache (v : gmap bytes cache_entry) d : dstate :=
  DState _ (d_enclave d) v (d_deleted_key d) (d_nmem d) (d_nstk d) (d_ncopy d).
Definition put_ncopy (v : nat) d : dstate :=
  DState _ (d_enclave d) (d_cache d) (d_deleted_key d) (d_nmem d) (d_nstk d) v.

(** Calls into the enclave and system calls of the daemon. *)
Definition ecall {A} (m : M (estate host) A) : D A := λ d,
  match m (d_enclave d) with Ok (a, e) => Ok (a, put_enclave e d) | Fault f => Fault f end.
Definition on_host {A} (m : M host A) : D A := ecall (ocall m).
Definition sys (c : daemon_call) : D daemon_ret := on_host (call c).
Definition get_errno : D Z := gets (λ d, h_errno (e_world (d_enclave d))).

Definition dmalloc_unchecked : D unit := λ d,
  if dmem (d_nmem d)
  then Ok (tt, DState _ (d_enclave d) (d_cache d) (d_deleted_key d) (S (d_nmem d)) (d_nstk d) (d_ncopy d))
  else Fault NullDeref.
Definition uninitialised (len : nat) : D bytes := λ d,
  Ok (dstack (d_nstk d) len,
      DState _ (d_enclave d) (d_cache d) (d_deleted_key d) (d_nmem d) (S (d_nstk d)) (d_ncopy d)).

(** Microseconds. *)
Definition gettimeofday : D Z := r ← sys d_gettimeofday; mret (dr_ret r).

Definition expired (e : cache_entry) : D bool :=
  now ← gettimeofday;
  mret (uint64 (now - ce_time e) >? _CITADEL_CACHE_EXPIRY * 1000000).

(** [None] for an odd number of digits; otherwise a fresh buffer. *)
Definition _hex_identifier_to_bytes (hexstring : bytes) : D (option bytes) :=
  match hexstring_to_bytes hexstring with
  | None => mret None
  | Some b => dmalloc_unchecked;; mret (Some b)
  end.

(** Only a value of exactly 32 bytes is an identifier. *)
Definition get_identifier_for_path (path : bytes) : D (option bytes) :=
  r ← sys (d_getxattr path _CITADEL_XATTR_IDENTIFIER (2 * _CITADEL_IDENTIFIER_LENGTH + 1));
  if dr_ret r =? Z.of_nat (2 * _CITADEL_IDENTIFIER_LENGTH)
  then _hex_identifier_to_bytes (fill (2 * _CITADEL_IDENTIFIER_LENGTH + 1) (dr_out r))
  else mret None.

(** The table: the empty string is reserved once [set_deleted_key] has been
    called, and nothing may be erased before. *)
Definition check_key (key : bytes) : D unit :=
  del ← gets d_deleted_key;
  if del && bytes_eqb key [] then crash BadAccess else mret tt.
Definition cache_find (key : bytes) : D (option cache_entry) :=
  check_key key;; gets (λ d, d_cache d !! key).
Definition cache_erase (key : bytes) : D unit :=
  del ← gets d_deleted_key;
  if del : bool then modify (λ d, put_cache (delete key (d_cache d)) d) else crash BadAccess.

(** A copy of an entry takes the time of the copy.  The calls of gettimeofday that
    the copies of one insertion make are one call here, and those of copies into
    local variables, whose time is never read, are left out. *)
Definition refresh_copied (n : nat) (now : Z) (m : gmap bytes cache_entry) : gmap bytes cache_entry :=
  map_imap (λ k e, Some (if copies n k then Entry (ce_value e) now else e)) m.
Definition cache_insert (key value : bytes) : D unit :=
  check_key key;;
  now ← gettimeofday;
  modify (λ d,
    let m := refresh_copied (d_ncopy d) now (d_cache d) in
    put_ncopy (S (d_ncopy d))
      (put_cache (match m !! key with Some _ => m | None => <[key := Entry value now]> m end) d)).

(** [memcpy(metadata_value, identifier, 16)] *)
Definition write_identifier (identifier metadata : bytes) : D bytes :=
  if (length identifier <? _CITADEL_IDENTIFIER_LENGTH)%nat then crash OutOfBounds
  else mret (overwrite 0 (take _CITADEL_IDENTIFIER_LENGTH identifier) metadata).

(** The string in a metadata buffer. *)
Definition metadata_string (metadata : bytes) : D bytes :=
  let str := cstring metadata in
  if (length str <? length metadata)%nat then mret str else crash OutOfBounds.

(** The new metadata and [translate_success]. *)
Definition metadata_path_to_identifier (metadata : bytes) : D (bytes * bool) :=
  path ← metadata_string metadata;
  entry ← cache_find path;
  old ← (match entry with None => mret true | Some e => expired e end);
  if old : bool then
    again ← (match entry with None => mret false | Some e => expired e end);
    (if again : bool then cache_erase path else mret tt);;
    identifier ← get_identifier_for_path path;
    match identifier with
    | Some identifier =>
        cache_insert path identifier;;
        metadata ← write_identifier identifier metadata;
        mret (metadata, true)
    | None => mret (metadata, false)
    end
  else
    match entry with
    | Some e => metadata ← write_identifier (ce_value e) metadata; mret (metadata, true)
    | None => crash NullDeref
    end.

Definition clear_entry_from_cache (metadata : bytes) : D unit :=
  path ← metadata_string metadata;
  entry ← cache_find path;
  match entry with Some _ => cache_erase path | None => mret tt end.

Definition sizeof_request : nat := sizeof citadel_op_request_fields.
Definition sizeof_extended : nat := sizeof citadel_op_extended_request_fields.

(** The message is changed in place: [translate_success] is at offset 91 and the
    metadata at offset 92. *)
Definition cache_passthrough (message : bytes) : D (bool * bytes) :=
  if (length message =? sizeof_request)%nat then mret (true, message) else
  if negb (length message =? sizeof_extended)%nat then mret (false, message) else
  let x := dec_ext_request message in
  if has_flag (rq_operation (xr_request x)) CITADEL_OP_CLAIM then
    clear_entry_from_cache (xr_metadata x);; mret (true, message)
  else if xr_translate x then
    '(metadata, success) ← metadata_path_to_identifier (xr_metadata x);
    mret (true, overwrite 91 (bool_byte success :: metadata) message)
  else mret (true, message).

Definition identifier_cache_setup : D unit :=
  modify (λ d, DState _ (d_enclave d) (d_cache d) true (d_nmem d) (d_nstk d) (d_ncopy d)).

(** ** socket.cpp *)
Definition ipc_timeout : Z := 100 * 1000.

(** The loop that sends the reply: [message_len] bytes from the start of the
    buffer at every attempt. *)
Fixpoint send_loop (fuel : nat) (fd : Z) (reply : bytes) (message_len attempts sent : Z) : D unit :=
  match fuel with
  | O => crash OutOfFuel
  | S fuel =>
      r ← sys (d_write fd reply message_len);
      errno ← get_errno;
      let rv := dr_ret r in
      let sent := uint64 (sent + (if rv >? 0 then rv else 0)) in
      if (rv =? - 1) && ((sent <? message_len) || (errno =? EWOULDBLOCK) || (errno =? EAGAIN)) then
        let attempts := attempts + 1 in
        if attempts >=? ipc_timeout then mret tt else send_loop fuel fd reply message_len attempts sent
      else if sent =? message_len then mret tt
      else if rv <? 0 then mret tt
      else send_loop fuel fd reply message_len attempts sent
  end.

(** The answer of the enclave, if it was asked.  The buffer for the token is
    zeroed on the enclave's side and copied back in any case. *)
Definition ask_enclave (message : bytes) (pid : Z) : D (Z * bytes) :=
  '(answer, token) ← ecall (handle_request policy message (int32 pid) (Some _CITADEL_PROCESS_PTOKEN_LENGTH));
  mret (answer, default (replicate _CITADEL_PROCESS_PTOKEN_LENGTH 0) token).

(** The reply is written over the request: the token at offset 26, the result
    at offset 34.  [buffer] is the buffer of the caller, of which the first
    [message_len] bytes are the message. *)
Definition send_response (fuel : nat) (client_fd : Z) (buffer : bytes) (message_len : Z) : D unit :=
  junk ← uninitialised _CITADEL_PROCESS_PTOKEN_LENGTH;
  cred ← sys (d_peercred client_fd);
  let pid := dr_ret cred in
  let valid_size := (message_len =? Z.of_nat sizeof_request) || (message_len =? Z.of_nat sizeof_extended) in
  '(cache_stage, message) ←
    (if valid_size then cache_passthrough (take (Z.to_nat message_len) buffer) else mret (false, buffer));
  '(ecall_ret, ptoken) ←
    (if cache_stage : bool then ask_enclave message pid
     else mret (if valid_size then CITADEL_OP_ERROR else CITADEL_OP_INVALID, junk));
  let buffer := overwrite 0 message buffer in
  let reply := overwrite 34 [ecall_ret] (overwrite 26 ptoken buffer) in
  send_loop fuel client_fd reply message_len 0 0.

(** [rv] is unsigned, so that a failed read is a large number. *)
Fixpoint receive_loop (fuel : nat) (client_fd : Z) (buffer : bytes) (attempts received : Z) : D unit :=
  match fuel with
  | O => crash OutOfFuel
  | S fuel =>
      r ← sys (d_read client_fd sizeof_extended);
      errno ← get_errno;
      let rv := uint64 (dr_ret r) in
      let buffer := overwrite 0 (dr_out r) buffer in
      let received := uint64 (received + (if rv >? 0 then rv else 0)) in
      if (rv =? uint64 (- 1)) && ((errno =? EWOULDBLOCK) || (errno =? EAGAIN)) then
        let attempts := attempts + 1 in
        if attempts >=? ipc_timeout then mret tt else receive_loop fuel client_fd buffer attempts received
      else if rv >? 0 then send_response fuel client_fd buffer received
      else receive_loop fuel client_fd buffer attempts received
  end.

Definition handle_client_socket (fuel : nat) (client_fd : Z) : D unit :=
  buffer ← uninitialised sizeof_extended;
  receive_loop fuel client_fd buffer 0 0;;
  sys (d_close client_fd);;
  mret tt.

(** The server loop, for [n] rounds: the result says whether it goes on. *)
Fixpoint run_server (n fuel : nat) : D bool :=
  match n with
  | O => mret true
  | S n =>
      r ← sys d_accept;
      errno ← get_errno;
      let client_fd := dr_ret r in
      if client_fd >? 0 then handle_client_socket fuel client_fd;; run_server n fuel
      else if (client_fd =? - 1) && negb ((errno =? EWOULDBLOCK) || (errno =? EAGAIN)) && (errno =? EINTR)
      then mret false
      else run_server n fuel
  end.

(** The result, and the static variable [socket_fd].  The result is 0 for success,
    and [false], which is 0 as well, for the failures of socket and bind. *)
Definition initialise_socket : D (Z * Z) :=
  r ← sys d_socket;
  let socket_fd := dr_ret r in
  if socket_fd =? - 1 then mret (bool_byte false, socket_fd) else
  sys (d_unlink (cstring _CITADEL_IPC_FILE));;
  sys (d_umask 0);;
  r ← sys (d_bind socket_fd (cstring _CITADEL_IPC_FILE));
  if dr_ret r =? - 1 then mret (bool_byte false, socket_fd) else
  sys (d_umask 22);;
  sys (d_listen socket_fd 5);;
  r ← sys d_pthread_create;
  if negb (dr_ret r =? 0) then
    sys (d_close socket_fd);;
    sys (d_unlink (cstring _CITADEL_IPC_FILE));;
    mret (- EIO, socket_fd)
  else mret (0, socket_fd).

(** ** Start-up (lsm_io.cpp and app.cpp) *)
Definition read_item (path : string) (size : nat) : D (bool * bytes) :=
  f ← on_host (call_ret (d_fopen path "rb"));
  if f =? 0 then mret (false, []) else
  r ← sys (d_read_file path size);
  mret (true, dr_out r).

(** The rest of a buffer that a read does not fill is what the stack held. *)
Definition read_buffer (out : bytes) (size : nat) : D bytes :=
  junk ← uninitialised size;
  mret (take size (out ++ drop (length out) junk)).

Definition perform_registration : D bool :=
  pid ← sys d_getpid;
  '(opened, challenge) ← read_item _CITADEL_LSM_CHALLENGE_PATH _CITADEL_RSA_KEY_LENGTH;
  if negb opened then mret false else
  challenge ← read_buffer challenge _CITADEL_RSA_KEY_LENGTH;
  '(status, response) ← ecall (handle_kernel_challenge challenge _CITADEL_RSA_KEY_LENGTH (int32 (dr_ret pid)));
  on_host (send_registration (default (replicate _CITADEL_RSA_KEY_LENGTH 0) response));;
  mret (status =? 0).

Definition fetch_sealed_keys : D bool :=
  '(opened, keys) ← read_item _CITADEL_SEALED_KEYS_PATH _CITADEL_SEAL_MAXSIZE;
  if negb opened then mret false else
  keys ← read_buffer keys _CITADEL_SEAL_MAXSIZE;
  status ← ecall (process_sealed_keys keys);
  mret (status =? 0).

Definition trigger_process_updates : D Z :=
  '(opened, update) ← read_item _CITADEL_LSM_UPDATE_PATH 4096;
  if negb opened then crash NullDeref else ecall (process_updates update).

Definition check_registration : Z := 1.
Definition lsm_register : D bool := res ← perform_registration; mret res.

(** [main] from the socket to its loop: the exit code, if it aborts, whether the
    loop is entered, and [socket_fd]. *)
Definition start_daemon : D (Z * bool * Z) :=
  '(r, socket_fd) ← initialise_socket;
  if negb (r =? 0) then mret (- EIO, false, socket_fd) else
  ok ← fetch_sealed_keys;
  if negb ok then mret (- EPERM, false, socket_fd) else
  ok ← lsm_register;
  if ok : bool then
    ecall protect_socket;;
    identifier_cache_setup;;
    mret (0, true, socket_fd)
  else mret (0, false, socket_fd).

(** ** The enclave's image (sgx_utils.cpp) *)
Definition sgx_launch_token_size : nat := 1024.
Definition token_path : string := "enclave.token".

(** What is read of the launch token: a file that was just made for writing gives
    nothing, and a token of another length counts as none. *)
Definition read_launch_token (fp : Z) (readable : bool) : D bytes :=
  let none := replicate sgx_launch_token_size 0 in
  if fp =? 0 then mret none else
  if negb readable then mret none else
  r ← sys (d_read_file token_path sgx_launch_token_size);
  let read := take sgx_launch_token_size (dr_out r) in
  mret (if (length read =? sgx_launch_token_size)%nat then read else none).

Definition initialize_enclave (enclave_name : bytes) : D Z :=
  fp ← on_host (call_ret (d_fopen token_path "rb"));
  '(fp, readable) ← (if fp =? 0 then
                       fp ← on_host (call_ret (d_fopen token_path "wb")); mret (fp, false)
                     else mret (fp, true));
  token ← read_launch_token fp readable;
  r ← sys (d_create_enclave enclave_name token);
  if negb (dr_ret r =? 0) then mret (- 1) else
  let updated := negb (default 0 (head (dr_out r)) =? 0) in
  if negb updated || (fp =? 0) then mret 0 else
  fp ← on_host (call_ret (d_fopen token_path "wb"));
  if fp =? 0 then mret 0 else
  sys (d_write_file token_path (tail (dr_out r)));;
  mret 0.

(** An ecall succeeds when the call and the function called both do. *)
Definition is_ecall_successful (sgx_status ecall_return_value : Z) : bool :=
  negb (negb (sgx_status =? 0) || negb (ecall_return_value =? 0)).

(** ** The rest of [main] *)
Definition SIGINT : Z := 2.
Definition SIGTERM : Z := 15.
Definition SIGPIPE : Z := 13.

(** The new value of [running]. *)
Definition signal_handler (running : bool) : bool := false.

(** The main loop, for at most [n] rounds: the pulse does nothing, and a signal
    shows as an interrupted sleep. *)
Fixpoint main_loop (n : nat) (running : bool) : D unit :=
  if negb running then mret tt else
  match n with
  | O => crash OutOfFuel
  | S n =>
      r ← sys (d_sleep 10);
      main_loop n (if dr_ret r >? 0 then signal_handler running else running)
  end.

(** The server's thread is interrupted and awaited. *)
Definition close_socket (socket_fd : Z) : D Z :=
  sys (d_pthread_kill SIGINT);;
  r ← sys d_pthread_join;
  sys (d_close socket_fd);;
  sys (d_unlink (cstring _CITADEL_IPC_FILE));;
  mret (if negb (dr_ret r =? 0) then - EIO else 0).

(** The process of the daemon, whose loop goes through at most [rounds] rounds. *)
Definition main (rounds : nat) (argv : list bytes) : D Z :=
  match argv with
  | _ :: enclave_name :: _ =>
      created ← initialize_enclave enclave_name;
      if created <? 0 then mret created else
      sys (d_sigaction SIGINT);;
      sys (d_sigaction SIGTERM);;
      sys (d_signal_ignore SIGPIPE);;
      '(code, enter, socket_fd) ← start_daemon;
      if negb (code =? 0) then mret code else
      (if enter : bool then main_loop rounds true else mret tt);;
      close_socket socket_fd;;
      sys d_destroy_enclave;;
      mret 0
  | _ => mret (- 1)
  end.
End daemon.
