(* ===== verification/EnclaveSpec.v ===== *)
(** * What the enclave's operations do

    The enclave and the module both use AES-128-GCM, one through the SGX library
    and one through the kernel's; [GcmInterop] states that the two agree.  The
    lemmas give the effect of each operation in terms of the messages [seal]
    makes for the module. *)

From S2P Require Import Prelude Shared Hex RBTree Kernel Ring Tickets TicketsSpec CacheModel Access.
From S2P Require Import Crypto PayloadIO ProtocolSpec.
From S2P Require Import Ltc LtcRsa Enclave.

(** Random numbers fill their buffers; the padding of a record is two bytes. *)
Class SgxLaws `{Sgx} := {
  sgx_rand_length n len : length (sgx_rand n len) = len;
  sgx_rand_ok n len : bytes_ok (sgx_rand n len);
  frame_junk_length n : length (frame_junk n) = 2%nat;
  sgx_gcm_clears key iv ct tag :
    sgx_gcm_decrypt key iv ct tag = None → sgx_gcm_rejected key iv ct tag = replicate (length ct) 0;
}.

(** Both libraries compute AES-128-GCM: the same ciphertext and tag; and the SGX
    library opens exactly what the key sealed. *)
Class GcmInterop `{Sgx} `{KernelCrypto} := {
  gcm_encrypts key iv data :
    length key = 16%nat → length iv = 12%nat →
    ∃ ct tag, sgx_gcm_encrypt key iv data = Some (ct, tag) ∧ length ct = length data ∧ length tag = 16%nat ∧
      ct ++ tag = cr_out (crypto_aead_encrypt key iv data);
  gcm_decrypts key iv ct tag :
    length key = 16%nat → length iv = 12%nat → length tag = 16%nat →
    match sgx_gcm_decrypt key iv ct tag with
    | Some data => ct ++ tag = cr_out (crypto_aead_encrypt key iv data)
    | None => ∀ data, ct ++ tag ≠ cr_out (crypto_aead_encrypt key iv data)
    end;
}.

Section spec.
Context `{HCry : KernelCrypto} `{HCLaw : !CryptoLaws}.
Context {W : Type} `{HSgx : Sgx} `{HSLaw : !SgxLaws} `{HGcm : !GcmInterop} `{HLtc : LtcEnv} `{HUn : Untrusted W}.
Implicit Type s : estate W.

Lemma fill_id v n : length v = n → fill n v = v.
Proof. intros <-. unfold fill. rewrite Nat.sub_diag, app_nil_r. by apply take_ge. Qed.

Lemma bind_ocall {A B} (m : M W A) (f : A → M (estate W) B) s :
  (ocall m ≫= f) s = match m (e_world s) with Ok (a, w) => f a (put_world w s) | Fault e => Fault e end.
Proof. unfold mbind, M_bind, ocall. by destruct (m (e_world s)) as [[a w]|]. Qed.

Lemma copy_to_ok cap b s : (length b ≤ cap)%nat → copy_to cap b s = Ok (tt, s).
Proof. intros Hl. unfold copy_to. destruct (Nat.ltb_spec cap (length b)); [lia|done]. Qed.

(** Different plaintexts have different sealed forms. *)
Lemma encrypt_inj key iv a b :
  cr_out (crypto_aead_encrypt key iv a) = cr_out (crypto_aead_encrypt key iv b) → a = b.
Proof.
  intros Heq. destruct (aead_decrypt_encrypt key iv a) as [_ Ea]. destruct (aead_decrypt_encrypt key iv b) as [_ Eb].
  rewrite Heq in Ea. congruence.
Qed.

Lemma aes_encrypt_ok msg key cap s :
  length key = 16%nat → (length msg + 28 ≤ BUFLEN)%nat → (length msg + 28 ≤ cap)%nat →
  aes_encrypt msg key cap s = Ok ((0, seal key (sgx_rand (e_nrnd s) 12) msg), put_nrnd (S (e_nrnd s)) s).
Proof.
  intros Hk Hb Hc. unfold aes_encrypt, encryptMessage.
  change (SGX_AESGCM_MAC_SIZE + SGX_AESGCM_IV_SIZE + length msg)%nat with (28 + length msg)%nat.
  destruct (Nat.ltb_spec BUFLEN (length msg + SGX_AESGCM_MAC_SIZE + SGX_AESGCM_IV_SIZE)) as [Hlt|_];
    [unfold SGX_AESGCM_MAC_SIZE, SGX_AESGCM_IV_SIZE in Hlt; lia|].
  rewrite bind_assoc. erewrite (bind_ok (sgx_read_rand _)) by done.
  set (iv := sgx_rand (e_nrnd s) SGX_AESGCM_IV_SIZE).
  assert (length iv = 12%nat) as Hiv by apply sgx_rand_length.
  destruct (gcm_encrypts key iv msg Hk Hiv) as (ct & tag & -> & Hct & Htag & Hsum). cbn [default from_option id].
  rewrite (fill_id ct), (fill_id tag), (app_assoc ct tag iv), Hsum by done. fold (seal key iv msg).
  rewrite take_fill by (rewrite ?seal_length by done; lia).
  rewrite bind_assoc. erewrite (bind_ok (copy_to _ _)); [|apply copy_to_ok; rewrite seal_length by done; lia]. done.
Qed.

(** The parts a message is split into. *)
Lemma aes_decrypt_eq msg key cap s :
  (28 ≤ length msg ≤ BUFLEN + 28)%nat → (length msg ≤ cap + 28)%nat →
  let n := (length msg - 28)%nat in
  aes_decrypt msg key cap s =
  Ok ((0, fill n (default (sgx_gcm_rejected key (drop (n + 16) msg) (take n msg) (field n 16 msg))
                    (sgx_gcm_decrypt key (drop (n + 16) msg) (take n msg) (field n 16 msg)))), s).
Proof.
  intros Hl Hc n. unfold aes_decrypt, decryptMessage.
  assert (uint64 (Z.of_nat (length msg) - Z.of_nat (SGX_AESGCM_MAC_SIZE + SGX_AESGCM_IV_SIZE)) = Z.of_nat n) as ->.
  { unfold uint64, n, BUFLEN, SGX_AESGCM_MAC_SIZE, SGX_AESGCM_IV_SIZE in *. rewrite Z.mod_small; lia. }
  destruct (Z.ltb_spec (Z.of_nat BUFLEN) (Z.of_nat n)); [unfold n in *; lia|].
  destruct (Z.ltb_spec (Z.of_nat (length msg)) (Z.of_nat n + 28)); [unfold n in *; lia|]. cbn [orb].
  rewrite Nat2Z.id. rewrite bind_assoc.
  replace (length msg - SGX_AESGCM_IV_SIZE)%nat with (n + 16)%nat by (unfold n, SGX_AESGCM_IV_SIZE; lia).
  replace (n + 16 - SGX_AESGCM_MAC_SIZE)%nat with n by (unfold SGX_AESGCM_MAC_SIZE; lia).
  change SGX_AESGCM_MAC_SIZE with 16%nat.
  set (p := default _ _). assert (take n (fill BUFLEN p) = fill n p) as ->.
  { unfold fill. rewrite take_take, Nat.min_l by (unfold n in *; lia).
    rewrite !take_app, !take_replicate. f_equal. f_equal. unfold n in *. lia. }
  erewrite (bind_ok (copy_to _ _)); [done|]. apply copy_to_ok. rewrite fill_length. unfold n in *. lia.
Qed.

Lemma sealed_parts key iv data :
  length iv = 12%nat →
  let msg := seal key iv data in
  let n := (length msg - 28)%nat in
  n = length data ∧ drop (n + 16) msg = iv ∧ take n msg ++ field n 16 msg = cr_out (crypto_aead_encrypt key iv data) ∧
  length (field n 16 msg) = 16%nat.
Proof.
  intros Hiv msg n. pose proof (seal_length key iv data Hiv) as Hl. fold msg in Hl.
  destruct (aead_encrypt_ok key iv data) as [_ Hc]. unfold _CITADEL_TAG_LENGTH in Hc.
  assert (n = length data) as Hn by (unfold n; lia). split; [done|]. unfold msg, seal in *.
  split_and!.
  - rewrite drop_app_length'; [done|lia].
  - unfold field. set (c := cr_out (crypto_aead_encrypt key iv data)) in *.
    trans (take n c ++ drop n c); [|apply take_drop]. rewrite take_app_le, drop_app_le by lia.
    f_equal. apply take_app_length'. rewrite length_drop. lia.
  - unfold field. rewrite length_take, length_drop, Hl. lia.
Qed.

Lemma aes_decrypt_ok key iv data cap s :
  length key = 16%nat → length iv = 12%nat → (length data ≤ BUFLEN)%nat → (length data ≤ cap)%nat →
  aes_decrypt (seal key iv data) key cap s = Ok ((0, data), s).
Proof.
  intros Hk Hiv Hb Hc. pose proof (seal_length key iv data Hiv) as Hl.
  rewrite aes_decrypt_eq by (rewrite Hl; lia).
  destruct (sealed_parts key iv data Hiv) as (Hn & -> & Hsum & Htag).
  set (n := (length (seal key iv data) - 28)%nat) in *. pose proof (gcm_decrypts key iv (take n (seal key iv data)) _ Hk Hiv Htag) as Hd.
  rewrite Hsum in Hd. destruct (sgx_gcm_decrypt _ _ _ _) as [data'|]; [|by destruct (Hd data)].
  apply encrypt_inj in Hd as <-. cbn. by rewrite fill_id.
Qed.

Lemma seal_inj key iv a iv' a' :
  length iv = 12%nat → length iv' = 12%nat → seal key iv a = seal key iv' a' → a = a'.
Proof.
  intros Hiv Hiv' Heq. unfold seal in Heq. apply app_inj_2 in Heq as [Hc <-]; [|congruence]. by apply encrypt_inj in Hc.
Qed.

(** What is not sealed under the key decrypts to zeros. *)
Lemma aes_decrypt_cases msg key cap s :
  length key = 16%nat → (28 ≤ length msg ≤ BUFLEN + 28)%nat → (length msg ≤ cap + 28)%nat →
  (∃ iv data, length iv = 12%nat ∧ msg = seal key iv data ∧ aes_decrypt msg key cap s = Ok ((0, data), s)) ∨
  (∀ iv data, length iv = 12%nat → msg ≠ seal key iv data) ∧
    aes_decrypt msg key cap s = Ok ((0, replicate (length msg - 28) 0), s).
Proof.
  intros Hk Hl Hc. pose proof (aes_decrypt_eq msg key cap s Hl Hc) as He. cbv zeta in He.
  set (n := (length msg - 28)%nat) in *. set (iv := drop (n + 16) msg) in *.
  assert (length iv = 12%nat) as Hiv by (unfold iv; rewrite length_drop; unfold n; lia).
  assert (length (field n 16 msg) = 16%nat) as Htag by (unfold field; rewrite length_take, length_drop; unfold n; lia).
  pose proof (gcm_decrypts key iv (take n msg) (field n 16 msg) Hk Hiv Htag) as Hd.
  destruct (sgx_gcm_decrypt _ _ _ _) as [data|] eqn:Eg.
  - left. exists iv, data.
    assert (msg = seal key iv data) as Hmsg.
    { unfold seal. rewrite <- Hd, <- app_assoc. unfold field, iv. by rewrite <- drop_drop, (take_drop 16), take_drop. }
    split_and!; [done|done|]. rewrite He. cbn [default from_option id]. rewrite fill_id; [done|].
    unfold n. rewrite Hmsg, seal_length by done. lia.
  - right. rewrite He. split.
    + intros iv' data Hiv' Hmsg. destruct (sealed_parts key iv' data Hiv') as (_ & Hiv2 & Hsum & _).
      rewrite <- Hmsg in Hiv2, Hsum. fold n in Hiv2, Hsum. fold iv in Hiv2. apply (Hd data). by rewrite Hsum, Hiv2.
    + cbn [default from_option id]. rewrite (sgx_gcm_clears _ _ _ _ Eg), length_take, Nat.min_l by (unfold n; lia).
      by rewrite fill_id by by rewrite length_replicate.
Qed.

(** ** Tickets *)

(** The header of a ticket and its sealed form, by the numbers of the random
    draws for the key update and the IV. *)
Definition ticket_header (n : nat) : citadel_update_header :=
  UpdateHeader challenge_signature (sgx_rand n 16) 1.
Definition ticket_message (key : bytes) (n niv : nat) (r : citadel_update_record) : bytes :=
  seal key (sgx_rand niv 12) (enc_update (frame_junk n) (ticket_header n) [r]).

Lemma ticket_header_ok n : update_header_ok (ticket_header n).
Proof. split_and!; [done|apply sgx_rand_length|done]. Qed.

Lemma ticket_payload_eq n r :
  ticket_payload (frame_junk n) (sgx_rand n 16) r = enc_update (frame_junk n) (ticket_header n) [r].
Proof. unfold ticket_payload, enc_update. cbn [fmap list_fmap concat]. by rewrite app_nil_r. Qed.

Lemma ticket_payload_length n r :
  update_record_ok r → length (ticket_payload (frame_junk n) (sgx_rand n 16) r) = 49%nat.
Proof.
  intros Hr. rewrite ticket_payload_eq, enc_update_length; [done|apply frame_junk_length|apply ticket_header_ok|].
  by apply Forall_singleton.
Qed.

(** The sealed ticket, or the overflow of the array it is written to. *)
Lemma seal_ticket n r key s :
  length key = 16%nat → update_record_ok r →
  aes_encrypt (ticket_payload (frame_junk n) (sgx_rand n 16) r) key cipher_room s =
  if (frame_slack <? 12)%nat then Fault OutOfBounds
  else Ok ((0, ticket_message key n (e_nrnd s) r), put_nrnd (S (e_nrnd s)) s).
Proof.
  intros Hk Hr. pose proof (ticket_payload_length n r Hr) as Hl.
  assert (cipher_room = 65 + frame_slack)%nat as Hroom by reflexivity.
  destruct (Nat.ltb_spec frame_slack 12) as [Hlt|Hge].
  - unfold aes_encrypt, encryptMessage. rewrite Hl.
    change (BUFLEN <? 49 + SGX_AESGCM_MAC_SIZE + SGX_AESGCM_IV_SIZE)%nat with false. cbv iota zeta.
    change (SGX_AESGCM_MAC_SIZE + SGX_AESGCM_IV_SIZE + 49)%nat with 77%nat. rewrite bind_assoc. erewrite (bind_ok (sgx_read_rand _)) by done.
    destruct (default _ _) as [ct tag]. rewrite bind_assoc. apply bind_fault. unfold copy_to.
    rewrite length_take, fill_length, Nat.min_l by (unfold BUFLEN; lia).
    destruct (Nat.ltb_spec cipher_room 77); [done|lia].
  - rewrite aes_encrypt_ok; [|done|unfold BUFLEN; lia|lia]. by rewrite ticket_payload_eq.
Qed.

Lemma enclave_update_aes_key key s :
  length key = 16%nat → update_aes_key key s = Ok (tt, put_aes_key (xor_bytes (aes_key s) key) s).
Proof.
  intros Hl. unfold update_aes_key. rewrite Hl. cbn [Nat.leb _CITADEL_AES_KEY_LENGTH when].
  unfold modify. by rewrite take_ge by (unfold _CITADEL_AES_KEY_LENGTH; lia).
Qed.

(** The record of a ticket, the world after it was handed out, and the key. *)
Lemma generate_ticket_eq pid metadata operation s :
  length (aes_key s) = 16%nat → (16 ≤ length metadata)%nat → is_i32 pid → is_u16 operation →
  let n := e_nrnd s in
  generate_ticket pid metadata operation s =
  if (frame_slack <? 12)%nat then Fault OutOfBounds else
  match install_ticket (ticket_message (aes_key s) n (S n) (UpdateRecord pid (take 16 metadata) operation)) (e_world s) with
  | Fault f => Fault f
  | Ok (ret, w) =>
      let s' := put_world w (put_nrnd (S (S n)) s) in
      if ret =? 0 then Ok (false, s') else Ok (true, put_aes_key (xor_bytes (aes_key s) (sgx_rand n 16)) s')
  end.
Proof.
  intros Hk Hm Hp Ho n. unfold generate_ticket. mred. erewrite (bind_ok (sgx_read_rand _)) by done.
  unfold read_identifier. change _CITADEL_AES_KEY_LENGTH with 16%nat. change _CITADEL_IDENTIFIER_LENGTH with 16%nat.
  rewrite (proj2 (Nat.ltb_ge _ _) Hm). mred. fold n. cbn [put_nrnd aes_key].
  assert (update_record_ok (UpdateRecord pid (take 16 metadata) operation)) as Hr
    by (split_and!; [apply Hp|unfold len_ok; cbn; rewrite length_take; lia|apply Ho..]).
  destruct (frame_slack <? 12)%nat eqn:Es.
  { apply bind_fault. rewrite seal_ticket by done. by rewrite Es. }
  erewrite bind_ok; [|rewrite seal_ticket by done; by rewrite Es]. cbn [Z.eqb negb].
  rewrite bind_ocall. cbn [put_nrnd e_world e_nrnd].
  destruct (install_ticket _ _) as [[ret w]|]; [|done]. destruct (ret =? 0); [done|].
  erewrite bind_ok; [|apply enclave_update_aes_key, sgx_rand_length]. done.
Qed.

(** The same for a labelling request: the identifier is fresh unless the daemon
    labels its own socket. *)
Definition label_fresh (internal declassify : bool) : bool := negb (internal && negb declassify).
Definition label_identifier (fresh : bool) (n : nat) : bytes := if fresh then sgx_rand n 16 else replicate 16 0xFF.
Definition label_draws (fresh : bool) (n : nat) : nat := if fresh then S n else n.

Lemma label_identifier_length fresh n : length (label_identifier fresh n) = 16%nat.
Proof. destruct fresh; [apply sgx_rand_length|done]. Qed.

Lemma xattr_ticket_eq path internal taint declassify s :
  length (aes_key s) = 16%nat →
  let n := e_nrnd s in
  let fresh := label_fresh internal declassify in
  let id := label_identifier fresh (S n) in
  let niv := label_draws fresh (S n) in
  let r := UpdateRecord 0 id (xattr_operation taint declassify) in
  _generate_xattr_ticket path internal taint declassify s =
  if (frame_slack <? 12)%nat then Fault OutOfBounds else
  match path with
  | None => Fault NullDeref
  | Some path =>
      if (length (cstring path) <? length path)%nat then
        match install_xattr (take (length (cstring path) + 1) path) (ticket_message (aes_key s) n niv r) (e_world s) with
        | Fault f => Fault f
        | Ok (ret, w) =>
            let s' := put_world w (put_nrnd (S niv) s) in
            if ret =? _CITADEL_XATTR_ACCEPTED_SIGNAL
            then Ok ((true, if negb declassify then Some id else None),
                     put_aes_key (xor_bytes (aes_key s) (sgx_rand n 16)) s')
            else Ok ((false, None), s')
        end
      else Fault OutOfBounds
  end.
Proof.
  intros Hk n fresh id niv r. unfold _generate_xattr_ticket. mred. erewrite (bind_ok (sgx_read_rand _)) by done.
  change _CITADEL_AES_KEY_LENGTH with 16%nat. change _CITADEL_IDENTIFIER_LENGTH with 16%nat. fold n.
  erewrite (bind_ok (if internal && negb declassify then _ else _) _ _ id (put_nrnd niv s));
    [|unfold id, niv, fresh, label_fresh; by destruct (internal && negb declassify)].
  mred. cbn [put_nrnd aes_key]. fold r.
  assert (update_record_ok r) as Hr
    by (split_and!; [vm_compute; split; congruence|apply label_identifier_length|destruct declassify, taint; vm_compute; split; congruence]).
  destruct (frame_slack <? 12)%nat eqn:Es.
  { apply bind_fault. rewrite seal_ticket by done. by rewrite Es. }
  erewrite bind_ok; [|rewrite seal_ticket by done; by rewrite Es].
  destruct path as [path|]; [|done]. unfold strlen_in. destruct (_ <? length path)%nat; [|done]. mred.
  rewrite bind_ocall. cbn [put_nrnd e_world e_nrnd].
  destruct (install_xattr _ _ _) as [[ret w]|]; [|done]. destruct (ret =? _CITADEL_XATTR_ACCEPTED_SIGNAL); [|done].
  erewrite bind_ok; [|apply enclave_update_aes_key, sgx_rand_length]. done.
Qed.

(** ** Process tokens *)

(** The request carries a token that the module sealed for the process. *)
Definition vouches (key : bytes) (pid : Z) (request : citadel_op_request) (p : citadel_ptoken_protected) : Prop :=
  ∃ iv d, length iv = 12%nat ∧ length d = 36%nat ∧ rq_signed_ptoken request = seal key iv d ∧
    p = dec_ptoken_protected d ∧ pp_signature p = challenge_signature ∧ pp_pid p = pid.

Lemma vouched_nonce key pid request p : vouches key pid request p → length (pp_ptoken p) = 8%nat.
Proof. intros (iv & d & _ & Hd & _ & -> & _). cbn. unfold field. by rewrite length_take, length_drop, Hd. Qed.

Lemma open_ptoken_cases pid request s :
  length (ptoken_aes_key s) = 16%nat → length (rq_signed_ptoken request) = 64%nat →
  (∃ p, vouches (ptoken_aes_key s) pid request p ∧ open_ptoken pid request s = Ok (inl p, s)) ∨
  (∀ p, ¬ vouches (ptoken_aes_key s) pid request p) ∧
    ∃ answer, (answer = CITADEL_OP_INVALID ∨ answer = CITADEL_OP_FORGED) ∧ open_ptoken pid request s = Ok (inr answer, s).
Proof.
  intros Hk Hl. unfold open_ptoken.
  change (sizeof citadel_ptoken_protected_fields + _CITADEL_IV_LENGTH + _CITADEL_TAG_LENGTH)%nat with 64%nat.
  change (sizeof citadel_ptoken_protected_fields)%nat with 36%nat. mred. rewrite take_ge by lia.
  destruct (aes_decrypt_cases (rq_signed_ptoken request) (ptoken_aes_key s) 64 s Hk)
    as [(iv & d & Hiv & Hs & He)|[Hno He]]; [unfold BUFLEN; lia|lia| |]; mstep He; cbn [Z.eqb negb].
  2:{ right. split; [intros p (iv & d & Hiv & _ & Hs & _); by apply (Hno iv d Hiv)|].
      exists CITADEL_OP_INVALID. rewrite Hl. split; [by left|reflexivity]. }
  assert (length d = 36%nat) as Hd by (rewrite Hs, seal_length in Hl by done; lia). rewrite Hd. cbn [Nat.eqb negb].
  assert (∀ p, vouches (ptoken_aes_key s) pid request p → p = dec_ptoken_protected d) as Huniq.
  { intros p (iv' & d' & Hiv' & _ & Hs' & -> & _). f_equal. symmetry. by apply (seal_inj (ptoken_aes_key s) iv d iv' d'); congruence. }
  destruct (bytes_eqb _ challenge_signature) eqn:Esig; cbn [negb].
  2:{ right. split; [|exists CITADEL_OP_INVALID; split; [by left|done]]. intros p Hp. pose proof (Huniq p Hp) as ->.
      destruct Hp as (_ & _ & _ & _ & _ & _ & Hsig & _). by rewrite Hsig, bytes_eqb_refl in Esig. }
  apply bytes_eqb_eq in Esig. destruct (Z.eqb_spec pid (pp_pid (dec_ptoken_protected d))) as [Epid|Epid]; cbn [negb].
  - left. eexists. split; [|reflexivity]. by exists iv, d.
  - right. split; [|exists CITADEL_OP_FORGED; split; [by right|done]]. intros p Hp. pose proof (Huniq p Hp) as ->.
    by destruct Hp as (_ & _ & _ & _ & _ & _ & _ & <-).
Qed.

(** ** Requests *)
Definition well_formed (data : bytes) : bool :=
  ((length data =? 90)%nat || (length data =? 4188)%nat) && bytes_eqb (field 0 8 data) challenge_signature.
Definition extended (data : bytes) : bool := (length data =? 4188)%nat.
Definition request_metadata (data : bytes) : option bytes :=
  if extended data then Some (field 92 4096 data) else None.
Definition request_translate (data : bytes) : bool := extended data && bool_at 90 data.
Definition request_success (data : bytes) : bool := extended data && bool_at 91 data.

(** The decision on a request: unless it is well formed and vouched for it is
    refused, and nothing happens. *)
Lemma handle_request_cases policy data pid s :
  length (ptoken_aes_key s) = 16%nat →
  let rq := dec_op_request data in
  let md := request_metadata data in
  (∃ p, well_formed data = true ∧ vouches (ptoken_aes_key s) pid rq p ∧
     handle_request policy data pid (Some 8%nat) s =
     (core_handle_request pid rq md (request_translate data) (request_success data) (uint8 (policy pid rq md))
        ≫= λ answer, mret (answer, Some (pp_ptoken p))) s) ∨
  ¬ (well_formed data = true ∧ ∃ p, vouches (ptoken_aes_key s) pid rq p) ∧
  ∃ answer, (answer = CITADEL_OP_INVALID ∨ answer = CITADEL_OP_FORGED) ∧
    handle_request policy data pid (Some 8%nat) s = Ok ((answer, None), s).
Proof.
  intros Hk rq md. unfold handle_request. rewrite bool_decide_eq_true_2 by done. cbn [negb].
  change (sizeof citadel_op_request_fields) with 90%nat. change (sizeof citadel_op_extended_request_fields) with 4188%nat.
  cbv zeta. fold (extended data). fold rq. change (rq_signature rq) with (field 0 8 data).
  assert (∀ b b', negb b && negb b' = negb (b || b')) as -> by (by intros [] []).
  unfold well_formed. fold (extended data).
  destruct ((length data =? 90)%nat || extended data) eqn:Elen; cbn [negb andb].
  2:{ right. split; [by intros [? _]|]. exists CITADEL_OP_INVALID. split; [by left|done]. }
  destruct (bytes_eqb (field 0 8 data) challenge_signature) eqn:Esig; cbn [negb].
  2:{ right. split; [by intros [? _]|]. exists CITADEL_OP_INVALID. split; [by left|done]. }
  assert (length (rq_signed_ptoken rq) = 64%nat) as Hl.
  { cbn. unfold field. rewrite length_take, length_drop.
    apply orb_true_iff in Elen as [E|E]; apply Nat.eqb_eq in E; rewrite E; done. }
  destruct (open_ptoken_cases pid rq s Hk Hl) as [(p & Hp & He)|(Hno & answer & Ha & He)]; mstep He.
  - left. exists p. split_and!; [done|done|]. unfold md, request_metadata, request_translate, request_success.
    destruct (Nat.eqb_spec (length data) 90) as [E|E].
    + unfold extended. rewrite E. done.
    + cbn [orb] in Elen. by rewrite Elen.
  - right. split; [|by exists answer]. intros (_ & p & Hp). by apply (Hno p).
Qed.
End spec.
