(* ===== verification/EnclaveTheorems.v ===== *)
(** * Properties of the enclave

    Who is served, and what a caller can do to the enclave. *)

From S2P Require Import Prelude Shared Hex RBTree Kernel Ring Tickets TicketsSpec CacheModel Access.
From S2P Require Import Crypto Concrete PayloadIO ProtocolSpec.
From S2P Require Import Ltc LtcRsa Der DerSeq LtcKeys Enclave EnclaveSpec.

Section theorems.
Context `{HCry : KernelCrypto} `{HCLaw : !CryptoLaws}.
Context {W : Type} `{HSgx : Sgx} `{HSLaw : !SgxLaws} `{HGcm : !GcmInterop} `{HLtc : LtcEnv} `{HUn : Untrusted W}.
Implicit Type s : estate W.

(** C10: requests are authenticated.  A request is acted upon exactly when it is
    of one of the two sizes, carries the signature, and its token was sealed by
    the module under the registered key for the very process that sent it; the
    answer then is that of [core_handle_request] on the decision of the policy,
    and the caller gets its nonce back.  Every other request is answered
    "invalid" or "forged" and changes nothing: no random number is drawn and
    no message leaves the enclave. *)
Theorem requests_are_authenticated policy data pid s :
  length (ptoken_aes_key s) = 16%nat →
  let rq := dec_op_request data in
  let md := request_metadata data in
  (∃ p, well_formed data = true ∧ vouches (ptoken_aes_key s) pid rq p ∧
     handle_request policy data pid (Some 8%nat) s =
     (core_handle_request pid rq md (request_translate data) (request_success data) (uint8 (policy pid rq md))
        ≫= λ answer, mret (answer, Some (pp_ptoken p))) s) ∨
  ¬ (well_formed data = true ∧ ∃ p, vouches (ptoken_aes_key s) pid rq p) ∧
  ∃ answer, (answer = CITADEL_OP_INVALID ∨ answer = CITADEL_OP_FORGED) ∧
    handle_request policy data pid (Some 8%nat) s = Ok ((answer, None), s).
Proof. intros Hk. by apply handle_request_cases. Qed.

(** C37: the array for a sealed ticket is too small.  The message is twelve bytes
    longer than the array it is encrypted into: wherever the compiler leaves
    fewer than twelve unused bytes behind the array, every ticket overwrites the
    frame before any message leaves the enclave; otherwise the message is handed
    out and the key advances with its acceptance. *)
Theorem ticket_needs_twelve_bytes pid metadata operation s :
  length (aes_key s) = 16%nat → (16 ≤ length metadata)%nat → is_i32 pid → is_u16 operation →
  let n := e_nrnd s in
  let r := UpdateRecord pid (take 16 metadata) operation in
  generate_ticket pid metadata operation s =
  if (frame_slack <? 12)%nat then Fault OutOfBounds else
  match install_ticket (ticket_message (aes_key s) n (S n) r) (e_world s) with
  | Fault f => Fault f
  | Ok (ret, w) =>
      let s' := put_world w (put_nrnd (S (S n)) s) in
      if ret =? 0 then Ok (false, s') else Ok (true, put_aes_key (xor_bytes (aes_key s) (sgx_rand n 16)) s')
  end.
Proof. intros Hk Hm Hp Ho n r. by apply generate_ticket_eq. Qed.

(** C39: any process can stop the enclave.  A request of the short form has no
    path; an authenticated one that asks for a claim and is approved makes the
    enclave take the length of a null pointer. *)
Theorem claim_without_path_faults policy data pid p s :
  length (ptoken_aes_key s) = 16%nat → length (aes_key s) = 16%nat → (12 ≤ frame_slack)%nat →
  well_formed data = true → length data = 90%nat →
  let rq := dec_op_request data in
  vouches (ptoken_aes_key s) pid rq p → uint8 (policy pid rq None) = CITADEL_OP_APPROVED →
  has_flag (rq_operation rq) CITADEL_OP_CLAIM = true →
  handle_request policy data pid (Some 8%nat) s = Fault NullDeref.
Proof.
  intros Hpk Hk Hsl Hwf Hl rq Hv Hpol Hcl.
  assert (extended data = false) as Hext by (unfold extended; by rewrite Hl).
  destruct (handle_request_cases policy data pid s Hpk) as [(p' & _ & _ & ->)|[Hno _]].
  2:{ destruct Hno. split; [done|]. by exists p. }
  apply bind_fault. unfold request_metadata, request_translate, request_success. rewrite Hext. cbn [andb]. fold rq.
  rewrite Hpol. unfold core_handle_request. change (CITADEL_OP_APPROVED =? CITADEL_OP_APPROVED) with true. cbn [negb].
  cbv zeta. rewrite Hcl. apply bind_fault. unfold handle_claim. apply bind_fault. unfold generate_xattr_ticket.
  rewrite xattr_ticket_eq by done. by rewrite (proj2 (Nat.ltb_ge _ _) Hsl).
Qed.
End theorems.

(** ** Out of memory *)
Section memory.
Context {W : Type} `{HSgx : Sgx} `{HLtc : LtcEnv}.
Implicit Type s : estate W.

Lemma init_fails n (l : ltc) :
  (∃ i, (i < n)%nat ∧ xalloc (n_alloc l + i) = false) → ∃ l', ltc_init_multi n l = Ok (CRYPT_MEM, l').
Proof.
  revert l. induction n as [|n IH]; intros l (i & Hi & Hx); [lia|]. cbn [ltc_init_multi].
  erewrite (bind_ok xmalloc) by done. destruct (xalloc (n_alloc l)) eqn:E; [|by eexists].
  apply IH. destruct i as [|i]; [rewrite Nat.add_0_r in Hx; congruence|]. exists i. split; [lia|]. rewrite <- Hx. cbn. f_equal. lia.
Qed.

(** When one of the eight numbers of a key cannot be allocated, rsa_import
    fails and leaves pointers to numbers it has released, and both RSA functions
    of the enclave release them again: whatever the message and the key, the
    enclave runs into undefined behaviour instead of reporting the error. *)
Theorem out_of_memory_frees_twice msg key keylen cap s :
  (∃ i, (i < 8)%nat ∧ xalloc (n_alloc (e_ltc s) + i) = false) →
  rsa_decrypt msg key keylen cap s = Fault BadAccess ∧ rsa_encrypt msg key keylen cap s = Fault BadAccess.
Proof.
  intros Hx. destruct (init_fails 8 (e_ltc s) Hx) as (l & E).
  assert (in_ltc (rsa_import key keylen) s = Ok ((CRYPT_MEM, Dangling), put_ltc l s)) as Hi.
  { unfold in_ltc, rsa_import, rsa_init. rewrite bind_assoc. by rewrite (bind_ok _ _ _ _ _ E). }
  unfold rsa_decrypt, rsa_encrypt. by rewrite !(bind_ok _ _ _ _ _ Hi).
Qed.
End memory.

(** ** Types *)
Section typed.
Context {W : Type} `{HSgx : Sgx} `{HSLaw : !SgxLaws} `{HLtc : LtcEnv} `{HUn : Untrusted W}.
Implicit Type s : estate W.

(** The session key has sixteen bytes; the key of the tokens is [pk]. *)
Definition key_shape (pk : bytes) s : Prop := length (aes_key s) = 16%nat ∧ ptoken_aes_key s = pk.

(** Whatever the world outside answers. *)
Definition typed {X} (m : M (estate W) X) (P : X → Prop) : Prop :=
  ∀ pk s x s', key_shape pk s → m s = Ok (x, s') → key_shape pk s' ∧ P x.

Lemma typed_ret {X} (x : X) (P : X → Prop) : P x → typed (mret x) P.
Proof. intros Hx pk s x' s' Hs [= <- <-]. done. Qed.
Lemma typed_crash {X} f (P : X → Prop) : typed (crash f) P.
Proof. by intros pk s x s' Hs [=]. Qed.
Lemma typed_gets {X} (f : estate W → X) (P : X → Prop) : (∀ s, P (f s)) → typed (gets f) P.
Proof. intros Hf pk s x s' Hs [= <- <-]. done. Qed.
Lemma typed_bind {X Y} (m : M (estate W) X) (f : X → M (estate W) Y) P Q :
  typed m P → (∀ x, P x → typed (f x) Q) → typed (m ≫= f) Q.
Proof.
  intros Hm Hf pk s y s' Hs He. apply bind_ok_inv in He as (x & s1 & E1 & E2).
  destruct (Hm pk s x s1 Hs E1) as [Hs1 Hx]. by apply (Hf x Hx pk s1).
Qed.
Lemma typed_if {X} (b : bool) (m m' : M (estate W) X) P : typed m P → typed m' P → typed (if b then m else m') P.
Proof. by destruct b. Qed.
Lemma typed_rand n : typed (sgx_read_rand n) (λ b, length b = n).
Proof. intros pk s x s' Hs [= <- <-]. split; [done|apply sgx_rand_length]. Qed.
Lemma typed_ocall {X} (m : M W X) : typed (ocall m) (λ _, True).
Proof.
  intros pk s x s' Hs. unfold ocall. destruct (m (e_world s)) as [[a w]|]; [|done]. by intros [= <- <-].
Qed.
Lemma typed_encrypt msg key cap : typed (aes_encrypt msg key cap) (λ _, True).
Proof.
  unfold aes_encrypt, encryptMessage, copy_to.
  eapply (typed_bind _ _ (λ _, True)); [apply typed_if; [apply typed_crash|]|intros; by apply typed_ret].
  eapply typed_bind; [apply typed_rand|]. intros iv _. destruct (default _ _) as [ct tag].
  eapply (typed_bind _ _ (λ _, True)); [|intros; by apply typed_ret]. apply typed_if; [apply typed_crash|by apply typed_ret].
Qed.
Lemma typed_update key : length key = 16%nat → typed (update_aes_key key) (λ _, True).
Proof.
  intros Hk pk s x s' [Hl Hp]. unfold update_aes_key. rewrite Hk. cbn [Nat.leb when _CITADEL_AES_KEY_LENGTH].
  intros [= <- <-]. split; [|done]. split; [|done]. cbn.
  change _CITADEL_AES_KEY_LENGTH with 16%nat. rewrite take_ge by lia. by rewrite xor_bytes_length; [|congruence].
Qed.

Lemma typed_ticket pid metadata operation : typed (generate_ticket pid metadata operation) (λ _, True).
Proof.
  unfold generate_ticket, read_identifier. eapply (typed_bind _ _ (λ _, True)); [by apply typed_gets|]. intros junk _.
  eapply typed_bind; [apply typed_rand|]. intros ku Hku.
  eapply (typed_bind _ _ (λ _, True)); [apply typed_if; [apply typed_crash|by apply typed_ret]|]. intros id _.
  eapply (typed_bind _ _ (λ _, True)); [by apply typed_gets|]. intros key _.
  eapply typed_bind; [apply typed_encrypt|]. intros [ret cipher] _. apply typed_if; [by apply typed_ret|].
  eapply typed_bind; [apply typed_ocall|]. intros ir _. apply typed_if; [by apply typed_ret|].
  eapply typed_bind; [by apply typed_update|]. intros _ _. by apply typed_ret.
Qed.

Lemma typed_label path taint declassify : typed (generate_xattr_ticket path taint declassify) (λ _, True).
Proof.
  unfold generate_xattr_ticket, _generate_xattr_ticket, strlen_in.
  eapply (typed_bind _ _ (λ _, True)); [by apply typed_gets|]. intros junk _.
  eapply typed_bind; [apply typed_rand|]. intros ku Hku. cbn [andb].
  eapply typed_bind; [apply typed_rand|]. intros id _.
  eapply (typed_bind _ _ (λ _, True)); [by apply typed_gets|]. intros key _.
  eapply typed_bind; [apply typed_encrypt|]. intros [ret cipher] _. destruct path as [path|]; [|apply typed_crash].
  eapply (typed_bind _ _ (λ _, True)); [apply typed_if; [by apply typed_ret|apply typed_crash]|]. intros n _.
  eapply typed_bind; [apply typed_ocall|]. intros ir _. apply typed_if; [|by apply typed_ret].
  eapply typed_bind; [by apply typed_update|]. intros _ _. by apply typed_ret.
Qed.

Lemma approved_u8 (ok : bool) result : is_u8 result → is_u8 (if ok then result else CITADEL_OP_ERROR).
Proof. destruct ok; [done|intros _; vm_compute; by split]. Qed.

Lemma typed_grant pid id op result :
  is_u8 result → typed (granted ← generate_ticket pid id op; mret (if granted : bool then result else CITADEL_OP_ERROR)) is_u8.
Proof. intros Hr. eapply typed_bind; [apply typed_ticket|]. intros ok _. apply typed_ret. by apply approved_u8. Qed.

Lemma typed_core pid request metadata translated success asm_result :
  is_u8 asm_result → typed (core_handle_request pid request metadata translated success asm_result) is_u8.
Proof.
  intros Hr. unfold core_handle_request. apply typed_if; [by apply typed_ret|]. cbv zeta.
  eapply (typed_bind _ _ is_u8).
  { apply typed_if; [|by apply typed_ret]. unfold handle_claim. eapply typed_bind; [apply typed_label|]. intros [ok id] _.
    assert (is_u8 (if ok then CITADEL_OP_APPROVED else CITADEL_OP_ERROR)) as Hok by (destruct ok; vm_compute; by split).
    apply typed_if; [|by apply typed_ret].
    eapply (typed_bind _ _ (λ _, True)); [destruct id; [by apply typed_ret|apply typed_crash]|]. intros i _. by apply typed_grant. }
  intros r1 Hr1. eapply (typed_bind _ _ is_u8).
  { apply typed_if; [|by apply typed_ret]. unfold handle_open. eapply (typed_bind _ _ (λ r, is_u8 r.1)).
    { apply typed_if; [|by apply typed_ret]. eapply typed_bind; [apply typed_label|]. intros [ok id] _. apply typed_ret. by apply approved_u8. }
    intros [r2 id] Hr2. apply typed_if; [|by apply typed_ret].
    eapply (typed_bind _ _ (λ _, True)); [destruct id; [by apply typed_ret|apply typed_crash]|]. intros i _. by apply typed_grant. }
  intros r2 Hr2. eapply (typed_bind _ _ is_u8); [apply typed_if; [by apply typed_grant|by apply typed_ret]|].
  intros r3 Hr3. eapply (typed_bind _ _ is_u8); [apply typed_if; [by apply typed_grant|by apply typed_ret]|].
  intros r4 Hr4. apply typed_if; [|by apply typed_ret].
  eapply typed_bind; [apply typed_label|]. intros [ok id] _. apply typed_ret. by apply approved_u8.
Qed.

Lemma typed_decrypt msg key cap : typed (aes_decrypt msg key cap) (λ _, True).
Proof.
  unfold aes_decrypt, decryptMessage, copy_to.
  eapply (typed_bind _ _ (λ _, True)); [apply typed_if; [apply typed_crash|]|intros; by apply typed_ret].
  eapply (typed_bind _ _ (λ _, True)); [|intros; by apply typed_ret]. apply typed_if; [apply typed_crash|by apply typed_ret].
Qed.

(** C18: the enclave keeps its shape against a hostile daemon.  Whatever message
    the daemon passes in, whatever process it names and whatever its functions
    answer to the calls out of the enclave: when a request returns, the answer is
    one byte, the token buffer is written only if it has eight bytes, and then
    with a whole token; the session key has sixteen bytes as before and the key
    that authenticates tokens is the one that was registered. *)
Theorem hostile_daemon_keeps_shape policy data pid buffer s answer token s' :
  length (aes_key s) = 16%nat → handle_request policy data pid buffer s = Ok ((answer, token), s') →
  is_u8 answer ∧ length (aes_key s') = 16%nat ∧ ptoken_aes_key s' = ptoken_aes_key s ∧
  ∀ t, token = Some t → buffer = Some 8%nat ∧ length t = 8%nat.
Proof.
  intros Hk He.
  assert (typed (handle_request policy data pid buffer)
    (λ r, is_u8 r.1 ∧ ∀ t, r.2 = Some t → buffer = Some 8%nat ∧ length t = 8%nat)) as Ht.
  2:{ destruct (Ht (ptoken_aes_key s) s _ s' (conj Hk eq_refl) He) as [[Hl Hp] [Ha Htok]]. by split_and!. }
  assert (∀ a, is_u8 a → typed (mret (a, None) : M (estate W) (Z * option bytes))
    (λ r, is_u8 r.1 ∧ ∀ t, r.2 = Some t → buffer = Some 8%nat ∧ length t = 8%nat)) as Hno by (intros a Ha; by apply typed_ret).
  unfold handle_request. destruct (bool_decide (buffer = _)) eqn:Eb; cbn [negb]; [|apply Hno; vm_compute; by split].
  apply bool_decide_eq_true in Eb. apply typed_if; [apply Hno; vm_compute; by split|]. cbv zeta.
  apply typed_if; [apply Hno; vm_compute; by split|].
  eapply (typed_bind _ _ (λ t, match t with inl p => length (pp_ptoken p) = 8%nat | inr a => is_u8 a end)).
  { unfold open_ptoken. cbv zeta. eapply (typed_bind _ _ (λ _, True)); [by apply typed_gets|]. intros key _.
    eapply typed_bind; [apply typed_decrypt|]. intros [r d] _. apply typed_if; [apply typed_ret; vm_compute; by split|].
    destruct (length d =? sizeof citadel_ptoken_protected_fields)%nat eqn:El; cbn [negb]; [|apply typed_ret; vm_compute; by split].
    apply Nat.eqb_eq in El. apply typed_if; [apply typed_ret; vm_compute; by split|].
    apply typed_if; [apply typed_ret; vm_compute; by split|]. apply typed_ret. cbn. unfold field.
    rewrite length_take, length_drop, El. done. }
  intros [p|a] Hp; [|by apply Hno].
  eapply typed_bind; [apply typed_core; unfold is_u8, uint8; apply Z.mod_pos_bound; lia|]. intros r Hr. apply typed_ret.
  split; [done|]. intros t [= <-]. done.
Qed.
End typed.
