(* ===== verification/System.v ===== *)
(** * The machine the daemon runs on

    The operating system of the daemon with the security module loaded: the
    system calls on the module's files and on extended attributes run the
    module's handlers, all others go to an arbitrary rest of the system
    ([rest]).  [resolve] is the path lookup.  The kernel passes a write of a
    security attribute to the module's hook first and reports its refusal
    through errno; the C library reads a file in units of its buffer.  The
    checks the kernel makes before it lets the daemon open the module's files
    are left out: the module exempts the daemon from them. *)

From S2P Require Import Prelude Shared Hex RBTree Kernel Ring Tickets TicketsSpec CacheModel Access.
From S2P Require Import Crypto PayloadIO FileIO Shm Hooks.
From S2P Require Import Ltc LtcRsa Enclave Daemon.

Definition ENOENT : Z := 2.

Section system.
Context `{HKer : Kernel} `{HRb : RbTree} `{HCry : KernelCrypto}.
Context (rest : DaemonOS) (resolve : bytes → option dentry) (daemon : task_struct).

Definition world : Type := kstate * @os rest.

Definition in_kernel {A} (m : M kstate A) : M world A := λ w,
  match m w.1 with Ok (a, k) => Ok (a, (k, w.2)) | Fault f => Fault f end.
Definition in_rest (c : daemon_call) : M world daemon_ret := λ w,
  match dsys c w.2 with Ok (r, o) => Ok (r, (w.1, o)) | Fault f => Fault f end.

(** The result of a handler as that of a system call. *)
Definition sys_result (ret : Z) (out : bytes) : daemon_ret :=
  if ret <? 0 then DRet (- 1) (- ret) [] else DRet ret 0 out.

Definition module_file (path : string) : bool :=
  String.eqb path _CITADEL_LSM_CHALLENGE_PATH || String.eqb path _CITADEL_LSM_UPDATE_PATH ||
  String.eqb path _CITADEL_SEALED_KEYS_PATH.

Definition module_write (path : string) (data : bytes) : M kstate Z :=
  if String.eqb path _CITADEL_LSM_CHALLENGE_PATH then challenge_receive data true
  else if String.eqb path _CITADEL_LSM_UPDATE_PATH then update_receive data true
  else mret (- EINVAL).
Definition module_read (path : string) : M kstate read_result :=
  let count := Z.of_nat stream_buffer in
  if String.eqb path _CITADEL_LSM_CHALLENGE_PATH then challenge_read count 0 true
  else if String.eqb path _CITADEL_LSM_UPDATE_PATH then update_read count 0 true
  else sealed_keys_read count 0 true.

Definition machine_call (c : daemon_call) : M world daemon_ret :=
  match c with
  | d_fopen path _ => if module_file path then mret (DRet 1 0 []) else in_rest c
  | d_write_file path data =>
      if module_file path then ret ← in_kernel (module_write path data); mret (sys_result ret []) else in_rest c
  | d_read_file path size =>
      if module_file path
      then r ← in_kernel (module_read path); mret (sys_result (rr_ret r) (take size (rr_copied r)))
      else in_rest c
  | d_setxattr path name value =>
      match resolve path with
      | None => mret (DRet (- 1) ENOENT [])
      | Some de =>
          ret ← in_kernel (trm_inode_setxattr de name value 0);
          if ret <? 0 then mret (sys_result ret []) else in_rest c
      end
  | d_getxattr path name size =>
      match resolve path with
      | None => mret (DRet (- 1) ENOENT [])
      | Some de =>
          in_kernel (trm_inode_getxattr daemon de);;
          '(ret, v) ← in_kernel (getxattr de (d_inode de) name size);
          mret (sys_result ret v)
      end
  | _ => in_rest c
  end.

Definition machine : DaemonOS := {|
  os := world;
  dsys := machine_call;
  dmem := @dmem rest;
  dstack := @dstack rest;
  copies := @copies rest |}.
End system.
