(* ===== verification/Boot.v ===== *)
(** * The start of the module (lsm/src/citadel.c)

    [integrity_fs_init] creates the directory and the files through which the
    module talks to the daemon and to the processes; [lsm_citadel_init] adds the
    table of hooks.  Whether the kernel can create a directory or a file is a
    parameter. *)

From S2P Require Import LibIpc LibClient.
From S2P Require Import Prelude Shared Hex RBTree Kernel Ring Tickets TicketsSpec CacheModel Access.
From S2P Require Import Crypto PayloadIO FileIO Shm Hooks Ltc LtcRsa Enclave Daemon System.

(** ** Names and modes *)
Definition _CITADEL_LSM_NAME : string := "citadel".
Definition _CITADEL_SECURITYFS_NS : string := _CITADEL_LSM_NAME.
Definition _CITADEL_SECURITYFS_PTOKEN : string := "get_ptoken".
Definition _CITADEL_SECURITYFS_UPDATE : string := "update".
Definition _CITADEL_SECURITYFS_CHALLENGE : string := "challenge".
Definition _CITADEL_SECURITYFS_SEALED_KEYS : string := "sealed_keys".
Definition _CITADEL_SECURITYFS_ROOT : string := ("/sys/kernel/security/" ++ _CITADEL_SECURITYFS_NS ++ "/")%string.

Definition S_IRUSR : Z := 0x100.
Definition S_IWUSR : Z := 0x80.
Definition S_IRGRP : Z := 0x20.
Definition S_IWGRP : Z := 0x10.
Definition S_IROTH : Z := 0x4.
Definition S_IRWXO : Z := 0x7.

Section boot.
Context `{HKer : Kernel} `{HRb : RbTree} `{HCry : KernelCrypto}.

(** ** Files *)
Record file_operations := FileOps {
  fo_read : option (task_struct → Z → Z → bool → M kstate read_result);
  fo_write : option (bytes → bool → M kstate Z) }.

Definition challenge_file_ops : file_operations := FileOps (Some (λ _, challenge_read)) (Some challenge_receive).
Definition update_file_ops : file_operations := FileOps (Some (λ _, update_read)) (Some update_receive).
Definition ptoken_file_ops : file_operations := FileOps (Some ptoken_read) None.
Definition sealed_keys_file_ops : file_operations := FileOps (Some (λ _, sealed_keys_read)) None.

(** ** Hooks *)

(** The tables of hooks that security modules have added, each under its name. *)
Abbreviation lsm_table := (list (string * (task_struct → lsm_event → M kstate Z))).

(** The module's own start, named apart from the library's function. *)
Definition lsm_citadel_init : M lsm_table Z := modify (λ t, t ++ [(_CITADEL_LSM_NAME, citadel_hooks)]);; mret 0.

(** An event goes through the tables in turn, up to the first refusal. *)
Fixpoint call_hooks (table : lsm_table) (current : task_struct) (ev : lsm_event) : M kstate Z :=
  match table with
  | [] => mret 0
  | (_, hook) :: table => r ← hook current ev; if r =? 0 then call_hooks table current ev else mret r
  end.

(** With the module alone in the table, an event has the effect of its hook. *)
Lemma hooks_installed current ev k :
  ∃ table, lsm_citadel_init [] = Ok (0, table) ∧ call_hooks table current ev k = citadel_hooks current ev k.
Proof.
  eexists. split; [reflexivity|]. cbn [app call_hooks]. unfold mbind, M_bind.
  destruct (citadel_hooks current ev k) as [[r k']|]; [|done]. by destruct (Z.eqb_spec r 0) as [->|].
Qed.

(** A file of the directory, by its path. *)
Record sfile := SFile { sf_mode : Z; sf_ops : file_operations }.
Abbreviation sfs := (gmap string sfile).

(** The results of securityfs_create_dir and securityfs_create_file: an error
    pointer is a negative number. *)
Context (create_dir : Z) (create_file : string → Z).

Definition securityfs_create_file (name : string) (mode : Z) (ops : file_operations) : M sfs unit :=
  if create_file name <? 0 then mret tt
  else modify (λ fs, <[(_CITADEL_SECURITYFS_ROOT ++ name)%string := SFile mode ops]> fs).

(** The pointers to the files are stored without a test. *)
Definition integrity_fs_init : M sfs Z :=
  if create_dir <? 0 then mret create_dir else
  securityfs_create_file _CITADEL_SECURITYFS_CHALLENGE
    (Z.lor (Z.lor (Z.lor S_IRUSR S_IRGRP) S_IWUSR) S_IWGRP) challenge_file_ops;;
  securityfs_create_file _CITADEL_SECURITYFS_UPDATE
    (Z.lor (Z.lor (Z.lor S_IRUSR S_IRGRP) S_IWUSR) S_IWGRP) update_file_ops;;
  securityfs_create_file _CITADEL_SECURITYFS_PTOKEN (Z.lor (Z.lor S_IRUSR S_IRGRP) S_IROTH) ptoken_file_ops;;
  securityfs_create_file _CITADEL_SECURITYFS_SEALED_KEYS (Z.lor (Z.lor S_IRUSR S_IRGRP) S_IROTH) sealed_keys_file_ops;;
  mret 0.

(** ** What the system calls of the other components reach *)

(** The kernel calls the operation of a file; without one, the call is invalid. *)
Definition fs_read (fs : sfs) (current : task_struct) (path : string) (count : Z) : M kstate read_result :=
  match fs !! path with
  | Some f => match fo_read (sf_ops f) with
              | Some op => op current count 0 true
              | None => mret (ReadResult (- EINVAL) [] 0)
              end
  | None => mret (ReadResult (- ENOENT) [] 0)
  end.
Definition fs_write (fs : sfs) (path : string) (data : bytes) : M kstate Z :=
  match fs !! path with
  | Some f => match fo_write (sf_ops f) with Some op => op data true | None => mret (- EINVAL) end
  | None => mret (- ENOENT)
  end.

(** Whether a process that is neither the owner nor of the group may use a file. *)
Definition others_may (fs : sfs) (path : string) : bool :=
  match fs !! path with Some f => negb (Z.land (sf_mode f) S_IRWXO =? 0) | None => false end.

Definition boot : Z * sfs :=
  match integrity_fs_init ∅ with Ok (ret, fs) => (ret, fs) | Fault _ => (- EINVAL, ∅) end.

(** C35: the files of the module.  When the kernel can create the files,
    initialisation succeeds, and what the daemon and the library do with their
    paths reaches the right handlers: reading and writing a path of the daemon
    is what [module_read] and [module_write] say (the sealed keys cannot be
    written), and the path of the library gives the calling process its token.
    Everyone may read tokens and sealed keys; the challenge and update files are
    for the owner and the group alone. *)
Theorem securityfs_serves_paths current path data :
  0 ≤ create_dir → (∀ name, 0 ≤ create_file name) →
  boot.1 = 0 ∧
  (module_file path = true → fs_read boot.2 current path (Z.of_nat stream_buffer) = module_read path ∧
     fs_write boot.2 path data = module_write path data) ∧
  fs_read boot.2 current _CITADEL_PROCESS_GET_PTOKEN_PATH (Z.of_nat stream_buffer) =
    ptoken_read current (Z.of_nat stream_buffer) 0 true ∧
  ((others_may boot.2 path = true ↔
      path = LibClient._CITADEL_PROCESS_GET_PTOKEN_PATH ∨ path = _CITADEL_SEALED_KEYS_PATH)).
Proof.
  intros Hd Hf. unfold boot, integrity_fs_init, securityfs_create_file.
  rewrite (proj2 (Z.ltb_ge _ _) Hd), !(proj2 (Z.ltb_ge _ _) (Hf _)). mred. cbn [fst snd].
  change (_CITADEL_SECURITYFS_ROOT ++ _CITADEL_SECURITYFS_CHALLENGE)%string with _CITADEL_LSM_CHALLENGE_PATH.
  change (_CITADEL_SECURITYFS_ROOT ++ _CITADEL_SECURITYFS_UPDATE)%string with _CITADEL_LSM_UPDATE_PATH.
  change (_CITADEL_SECURITYFS_ROOT ++ _CITADEL_SECURITYFS_PTOKEN)%string with LibClient._CITADEL_PROCESS_GET_PTOKEN_PATH.
  change (_CITADEL_SECURITYFS_ROOT ++ _CITADEL_SECURITYFS_SEALED_KEYS)%string with _CITADEL_SEALED_KEYS_PATH.
  unfold mret, M_ret. cbn [fst snd]. split_and!; [done| |done|].
  - unfold module_file. intros [[E|E]%orb_true_iff|E]%orb_true_iff; apply String.eqb_eq in E as ->; done.
  - unfold others_may. split; [|by intros [->| ->]].
    destruct (decide (path = _CITADEL_SEALED_KEYS_PATH)) as [->|H1]; [by right|].
    destruct (decide (path = LibClient._CITADEL_PROCESS_GET_PTOKEN_PATH)) as [->|H2]; [by left|].
    rewrite !lookup_insert_ne by done.
    destruct (decide (path = _CITADEL_LSM_UPDATE_PATH)) as [->|H3]; [done|rewrite lookup_insert_ne by done].
    destruct (decide (path = _CITADEL_LSM_CHALLENGE_PATH)) as [->|H4]; [done|rewrite lookup_insert_ne by done].
    by rewrite lookup_empty.
Qed.

(** A file that cannot be created goes unnoticed: initialisation succeeds without
    it. *)
Lemma missing_file_unnoticed : 0 ≤ create_dir → boot.1 = 0.
Proof.
  intros Hd. unfold boot, integrity_fs_init, securityfs_create_file. rewrite (proj2 (Z.ltb_ge _ _) Hd).
  by do 4 (case_if; mred).
Qed.
End boot.
