(* ===== verification/SystemSpec.v ===== *)
(** * Enclave and module together

    The invariant that ties the enclave to the module ([in_step]), and the effect
    of the enclave's two calls out on the module, for a machine on which
    allocations succeed. *)

From S2P Require Import Prelude Shared Hex RBTree Kernel Ring Tickets TicketsSpec CacheModel Access.
From S2P Require Import Crypto PayloadIO FileIO Shm Hooks AccessSpec LabelSpec ProtocolSpec.
From S2P Require Import Ltc LtcRsa Enclave Daemon EnclaveSpec System.

(** ** Labelling requests in the module *)
Section labelling.
Context `{HKer : Kernel} `{HRb : RbTree} `{HCry : KernelCrypto} `{HLaw : !CryptoLaws}.
Implicit Types k : kstate.

(** What a labelling request leaves alone. *)
Record labels_only k k' : Prop := LabelsOnly {
  lo_heap : k_heap k' = k_heap k;
  lo_brk : k_brk k' = k_brk k;
  lo_resv : k_resv k' = k_resv k;
  lo_creds : k_creds k' = k_creds k;
  lo_clock : k_nclk k' = k_nclk k;
  lo_rsa : k_rsa_available k' = k_rsa_available k;
  lo_inodes : ∀ a, is_Some (k_inodes k !! a) → is_Some (k_inodes k' !! a) }.

Lemma labels_only_refines k k' A : labels_only k k' → refines k A → refines k' A.
Proof. intros [] Hr. by eapply refines_ext. Qed.

Lemma insert_is_some {V} (m : gmap positive V) a b v : is_Some (m !! b) → is_Some (<[a := v]> m !! b).
Proof. intros H. destruct (decide (a = b)) as [->|]; [rewrite lookup_insert_eq|rewrite lookup_insert_ne]; eauto. Qed.

Lemma induct_refused de a d h r k rc D1 :
  (∀ n, kmem n = true) → k_inodes k !! a = Some d → identifier_ok (ur_identifier r) →
  vfs_setxattr_noperm (k_disk k) de _CITADEL_XATTR_IDENTIFIER (hex_body (ur_identifier r)) = (rc, D1) → rc ≠ 0 →
  ∃ k', induct de (Some a) h r k = Ok (- 1, k') ∧ labels_only k k' ∧ k_pio k' = k_pio k.
Proof.
  intros Hm Ha Hid HD Hrc. pose proof (hex_identifier_length _ Hid) as Hl. destruct Hid as [Hb Hlid].
  unfold induct. erewrite (bind_ok (store_inode _ _)); [|by eapply store_inode_some].
  erewrite (bind_ok (store_inode _ _)); [|eapply store_inode_some; cbn; by rewrite lookup_alter_eq, Ha].
  unfold to_hexstring_k. rewrite to_hexstring_some by (intros E; by rewrite E in Hlid).
  rewrite bind_assoc. erewrite (bind_ok kmalloc_unchecked); [|by apply kmalloc_unchecked_ok]. mred.
  cbn [from_option id]. change (2 * _CITADEL_IDENTIFIER_LENGTH)%nat with 32%nat. rewrite <- Hl, take_length_app.
  cbn [set_inodes set_nmem k_inodes k_nmem]. rewrite alter_alter_eq, (alter_lookup _ _ _ _ Ha).
  erewrite (bind_ok (setxattr_noperm _ _ _)); [|apply setxattr_ok; exact HD].
  set (k2 := set_disk D1 _). rewrite bind_when, (proj2 (Z.eqb_neq _ _) Hrc).
  assert (∀ D, ∃ k', (store_inode (Some a) (id_set_checked_disk_xattr false) ≫= λ _, mret (- 1)) (set_disk D k2) =
    Ok (- 1, k') ∧ labels_only k k' ∧ k_pio k' = k_pio k) as Hend.
  { intros D. eexists. split; [erewrite bind_ok; [reflexivity|eapply store_inode_some; cbn; apply lookup_insert_eq]|].
    split; [|done]. split; try done. intros b Hb'. cbn. rewrite alter_insert_eq. by apply insert_is_some. }
  destruct (has_flag _ _).
  - destruct (vfs_setxattr_noperm (k_disk k2) de _CITADEL_XATTR_IN_REALM []) as [rc2 D2] eqn:E.
    rewrite !bind_assoc. mstep (setxattr_ok _ _ _ _ _ _ E). apply Hend.
  - destruct (Hend D1) as (k' & E & Hk). by exists k'.
Qed.

(** A labelling request in general: it is accepted with the key advanced, or
    refused with the key as it was. *)
Lemma induct_total de a d h r k :
  (∀ n, kmem n = true) → k_inodes k !! a = Some d → update_header_ok h → identifier_ok (ur_identifier r) →
  ∃ rc k', induct de (Some a) h r k = Ok (rc, k') ∧ labels_only k k' ∧
    k_pio k' = if rc =? 0 then pio_set_aes_key (xor_bytes (Kernel.aes_key (k_pio k)) (uh_key_update h)) (k_pio k)
               else k_pio k.
Proof.
  intros Hm Ha Hh Hid.
  destruct (vfs_setxattr_noperm (k_disk k) de _CITADEL_XATTR_IDENTIFIER (hex_body (ur_identifier r))) as [rc D1] eqn:HD.
  destruct (decide (rc = 0)) as [->|Hne].
  - pose proof (induct_ok de a d h r k D1 Hm Ha Hh Hid HD) as He. cbv zeta in He.
    eexists _, _. split; [exact He|]. split; [|done]. split; try done. intros b Hb. cbn. by apply insert_is_some.
  - destruct (induct_refused de a d h r k rc D1 Hm Ha Hid HD Hne) as (k' & He & Hl & Hp). by exists (- 1), k'.
Qed.
End labelling.

(** ** The enclave's calls out, on the machine *)
Section together.
Context `{HKer : Kernel} `{HRb : RbTree} `{HCry : KernelCrypto} `{HLaw : !CryptoLaws}.
Context `{HSgx : Sgx} `{HSLaw : !SgxLaws} `{HGcm : !GcmInterop} `{HLtc : LtcEnv}.
Context (rest : DaemonOS) (resolve : bytes → option dentry) (daemon : task_struct).
Context (Hmem : ∀ n, kmem n = true).
Abbreviation mhost := (@host (machine rest resolve daemon)).
Implicit Types (h : mhost) (s : estate mhost) (A : acache) (k : kstate).

Definition kern h : kstate := (h_os h).1.
Definition kern_of s : kstate := kern (e_world s).

(** Every file that can be named has a blob in the module. *)
Definition files_known k : Prop :=
  ∀ path de, resolve path = Some de → ∃ a, citadel_inode (d_inode de) = Some a ∧ is_Some (k_inodes k !! a).

(** The module is ready to serve the enclave, whose key is [key]; its ticket
    cache stands for [A]. *)
Record ready (key : bytes) A k : Prop := Ready {
  rd_registered : registered (k_pio k) = true;
  rd_rsa : k_rsa_available k = true;
  rd_key : Kernel.aes_key (k_pio k) = key;
  rd_length : length key = 16%nat;
  rd_refines : refines k A;
  rd_files : files_known k }.

(** A small message to one of the module's files. *)
Lemma write_item_eq path msg h :
  module_file path = true → (0 < length msg < 4096)%nat →
  ∃ e, write_item path msg h =
    match module_write path msg (kern h) with
    | Ok (ret, k) => Ok (1, Host (machine rest resolve daemon) (k, (h_os h).2) (if ret <? 0 then - ret else e))
    | Fault f => Fault f
    end.
Proof.
  intros Hf Hl. exists (h_errno h). unfold write_item.
  destruct h as [[k o] e]. unfold call_ret. rewrite bind_assoc.
  erewrite (bind_ok (call _)); [|unfold call; cbn [dsys machine machine_call]; by rewrite Hf]. mred. cbn [dr_ret Z.eqb].
  destruct (Nat.eqb_spec (length msg) 0); [lia|].
  destruct (Nat.ltb_spec (length msg) stream_buffer); [|unfold stream_buffer in *; lia].
  unfold mbind at 1, M_bind, call. cbn [dsys machine machine_call h_os]. rewrite Hf.
  unfold mbind, M_bind, in_kernel. cbn [fst snd kern h_os].
  destruct (module_write path msg k) as [[ret k']|f]; [|done]. unfold mret, M_ret, sys_result.
  destruct (Z.ltb_spec ret 0); cbn [dr_ret dr_errno h_errno Z.eqb]; [done|].
  destruct (Z.eqb_spec ret (- 1)); [lia|done].
Qed.

Lemma install_ticket_eq msg h :
  (0 < length msg < 4096)%nat →
  ∃ e, install_ticket msg h =
    match update_receive msg true (kern h) with
    | Ok (ret, k) => Ok (1, Host (machine rest resolve daemon) (k, (h_os h).2) (if ret <? 0 then - ret else e))
    | Fault f => Fault f
    end.
Proof. exact (write_item_eq _CITADEL_LSM_UPDATE_PATH msg h eq_refl). Qed.

(** The module after a message: ready for the next one, with the same
    credentials and registration. *)
Definition served (key : bytes) A k k' : Prop :=
  ready key A k' ∧ k_pio k' = pio_set_aes_key key (k_pio k) ∧ k_creds k' = k_creds k.

Lemma served_trans key key' A A' k k' k'' : served key A k k' → served key' A' k' k'' → served key' A' k k''.
Proof. intros (_ & Hp & Hc) (Hr & Hp' & Hc'). split_and!; [done| |congruence]. by rewrite Hp', Hp. Qed.

Lemma pio_same_key p : pio_set_aes_key (Kernel.aes_key p) p = p.
Proof. by destruct p. Qed.

Lemma served_refl key A k : ready key A k → served key A k k.
Proof. intros Hr. split_and!; [done| |done]. by rewrite <- (rd_key _ _ _ Hr), pio_same_key. Qed.

Lemma ticket_message_length key n niv r : update_record_ok r → length (ticket_message key n niv r) = 77%nat.
Proof.
  intros Hr. unfold ticket_message.
  rewrite seal_length, <- ticket_payload_eq, ticket_payload_length by (done || apply sgx_rand_length). done.
Qed.

Lemma xor_key_length key n : length key = 16%nat → length (xor_bytes key (sgx_rand n 16)) = 16%nat.
Proof. intros Hk. by rewrite xor_bytes_length; rewrite ?sgx_rand_length. Qed.

(** No label changes, in memory or on disk. *)
Record same_labels k k' : Prop := SameLabels {
  sl_inodes : k_inodes k' = k_inodes k;
  sl_disk : k_disk k' = k_disk k;
  sl_aes : k_aes_available k' = k_aes_available k }.

(** A ticket goes into the cache of the module. *)
Lemma ticket_reaches_module key n niv r h A :
  ready key A (kern h) → update_record_ok r → is_pid (ur_pid r) →
  ∃ h', install_ticket (ticket_message key n niv r) h = Ok (1, h') ∧
    served (xor_bytes key (sgx_rand n 16)) (abs_insert r A) (kern h) (kern h') ∧
    same_labels (kern h) (kern h') ∧ (h_os h').2 = (h_os h).2.
Proof.
  intros [Hreg Hrsa <- Hlen Hr Hf] Hok Hp.
  destruct (install_ticket_eq (ticket_message (Kernel.aes_key (k_pio (kern h))) n niv r) h) as (e & ->);
    [rewrite ticket_message_length by done; lia|].
  set (k := kern h) in *. set (msg := ticket_message _ _ _ _).
  unfold update_receive, is_rsa_available. mred. rewrite Hrsa. cbn [negb].
  erewrite (bind_ok kmalloc) by done. rewrite Hmem. cbn [negb].
  destruct (process_received_update_ok (frame_junk n) (ticket_header n) [r] (sgx_rand niv 12) (set_nmem (S (k_nmem k)) k) A)
    as (k' & He & Hr' & Hpio & Hc & Hi & Hrsa' & Hdisk & Haes);
    [done|done|done|apply sgx_rand_length|apply frame_junk_length|apply ticket_header_ok|by apply Forall_singleton
    |by apply Forall_singleton|done|by eapply refines_ext|].
  unfold msg, ticket_message. mstep He. eexists. split; [reflexivity|]. cbn [kern h_os fst].
  cbn [set_nmem k_pio k_creds k_inodes k_rsa_available] in Hpio, Hc, Hi, Hrsa'.
  split; [|by split]. split_and!; [|done|done]. split.
  - by rewrite Hpio.
  - congruence.
  - by rewrite Hpio.
  - by apply xor_key_length.
  - exact Hr'.
  - intros path de Hres. rewrite Hi. by apply (Hf path).
Qed.

Lemma install_xattr_unknown path msg h :
  resolve (cstring path) = None →
  install_xattr path msg h = Ok (ENOENT, Host (machine rest resolve daemon) (h_os h) 0).
Proof.
  intros Hres. cbn [install_xattr host_untrusted]. unfold install_xattr_io.
  erewrite bind_ok; [|unfold call; cbn [dsys machine machine_call]; by rewrite Hres]. reflexivity.
Qed.

Lemma install_xattr_answer path msg h de ret k' :
  resolve (cstring path) = Some de →
  trm_inode_setxattr de _CITADEL_XATTR_INSTALL msg 0 (kern h) = Ok (ret, k') → ret < 0 →
  install_xattr path msg h = Ok (- ret, Host (machine rest resolve daemon) (k', (h_os h).2) 0).
Proof.
  intros Hres He Hret. unfold kern in He.
  assert (machine_call rest resolve daemon (d_setxattr (cstring path) _CITADEL_XATTR_INSTALL msg) (h_os h) =
    Ok (DRet (- 1) (- ret) [], (k', (h_os h).2))) as Hcall.
  { cbn [machine_call]. rewrite Hres. erewrite bind_ok; [|unfold in_kernel; by rewrite He].
    unfold mret, M_ret, sys_result. by destruct (Z.ltb_spec ret 0) as [_|]; [|lia]. }
  cbn [install_xattr host_untrusted]. unfold install_xattr_io.
  erewrite bind_ok; [|unfold call; cbn [dsys machine]; by rewrite Hcall]. reflexivity.
Qed.

(** A labelling request, in general. *)
Lemma label_reaches_module key n niv r path h A :
  ready key A (kern h) → update_record_ok r → identifier_ok (ur_identifier r) →
  has_flag (ur_operation r) CITADEL_OP_DECLASSIFY = false →
  ∃ ret h', install_xattr path (ticket_message key n niv r) h = Ok (ret, h') ∧
    served (if ret =? _CITADEL_XATTR_ACCEPTED_SIGNAL then xor_bytes key (sgx_rand n 16) else key) A (kern h) (kern h').
Proof.
  intros Hrd Hok Hid Hop. destruct (resolve (cstring path)) as [de|] eqn:Hres.
  2:{ rewrite install_xattr_unknown by done. eexists _, _. split; [reflexivity|]. by apply served_refl. }
  pose proof Hrd as [Hreg Hrsa <- Hlen Hr Hf]. destruct (Hf _ _ Hres) as (a & Ha & d & Hd).
  set (k := kern h) in *.
  destruct (induct_total de a d (ticket_header n) r (set_nmem (S (S (S (S (k_nmem k))))) k))
    as (rc & k' & He & Hlo & Hpio); [done|done|apply ticket_header_ok|done|].
  erewrite install_xattr_answer; [|exact Hres| |].
  2:{ unfold trm_inode_setxattr, system_ready. cbn [String.eqb]. change (String.eqb _ _) with true. cbv iota. mred.
      fold k. rewrite Hreg. erewrite bind_ok; [reflexivity|]. unfold ticket_message.
      rewrite installation_accepts;
        [|done|done|done|apply sgx_rand_length|apply frame_junk_length|apply ticket_header_ok|done|done|done].
      rewrite Hop, Ha. exact He. }
  2:{ by destruct (rc =? 0). }
  eexists _, _. split; [reflexivity|]. cbn [kern h_os fst].
  assert (labels_only k k') as Hlo' by (destruct Hlo; by split). cbn [set_nmem k_pio] in Hpio.
  assert (∀ key, length key = 16%nat → k_pio k' = pio_set_aes_key key (k_pio k) → served key A k k') as Hserved.
  { intros key Hl Hp. split_and!; [|done|apply Hlo']. split; rewrite ?Hp; try done.
    - rewrite (lo_rsa _ _ Hlo'). done.
    - by eapply labels_only_refines.
    - intros path' de' Hres'. destruct (Hf _ _ Hres') as (a' & Ha' & Hs). exists a'. split; [done|]. by apply (lo_inodes _ _ Hlo'). }
  destruct (rc =? 0); cbn [negb] in *; apply Hserved; [by apply xor_key_length|done|done|].
  rewrite Hpio. symmetry. apply pio_same_key.
Qed.

(** ** The enclave and the module in step *)
Record in_step s A : Prop := InStep {
  is_ready : ready (Enclave.aes_key s) A (kern_of s);
  is_ptoken : Enclave.ptoken_aes_key s = Kernel.ptoken_aes_key (k_pio (kern_of s));
  is_ptoken_length : length (Enclave.ptoken_aes_key s) = 16%nat }.

(** From [s] to [s'] the records [recs], all for the process [pid], went into
    the cache of the module; registration, tokens and credentials are the same. *)
Record step (pid : Z) A s (recs : list citadel_update_record) s' : Prop := Step {
  st_in_step : in_step s' (abs_inserts recs A);
  st_pids : Forall (λ r, ur_pid r = pid) recs;
  st_ptoken : Enclave.ptoken_aes_key s' = Enclave.ptoken_aes_key s;
  st_enclave : enclave_pid (k_pio (kern_of s')) = enclave_pid (k_pio (kern_of s));
  st_creds : k_creds (kern_of s') = k_creds (kern_of s) }.

Lemma step_refl pid A s : in_step s A → step pid A s [] s.
Proof. by split. Qed.

Lemma step_trans pid A s1 recs1 s2 recs2 s3 :
  step pid A s1 recs1 s2 → step pid (abs_inserts recs1 A) s2 recs2 s3 → step pid A s1 (recs1 ++ recs2) s3.
Proof.
  intros [H1 Hp1 Ht1 He1 Hc1] [H2 Hp2 Ht2 He2 Hc2]. split; [|by apply Forall_app|congruence..].
  unfold abs_inserts. by rewrite foldl_app.
Qed.

(** The state after a message to the module. *)
Lemma step_served pid A s recs n key h :
  in_step s A → served key (abs_inserts recs A) (kern_of s) (kern h) → Forall (λ r, ur_pid r = pid) recs →
  step pid A s recs (put_aes_key key (put_world h (put_nrnd n s))).
Proof.
  intros [Hr Hpt Hl] (Hr' & Hp & Hc) Hpid. split; try done; [|by unfold kern_of; cbn; rewrite Hp].
  split; try done. unfold kern_of. cbn. by rewrite Hp.
Qed.

(** A computation of the enclave on behalf of [pid] that returns, with a result
    in [P]. *)
Definition conforms (pid : Z) {X} (m : M (estate mhost) X) (P : X → Prop) : Prop :=
  ∀ s A, in_step s A → wp m (λ x s', P x ∧ ∃ recs, step pid A s recs s') s.

Lemma conforms_ret pid {X} (x : X) (P : X → Prop) : P x → conforms pid (mret x) P.
Proof. intros Hx s A Hs. apply wp_ret. split; [done|]. exists []. by apply step_refl. Qed.

Lemma conforms_bind pid {X Y} (m : M (estate mhost) X) (f : X → M (estate mhost) Y) P Q :
  conforms pid m P → (∀ x, P x → conforms pid (f x) Q) → conforms pid (m ≫= f) Q.
Proof.
  intros Hm Hf s A Hs. apply wp_bind. eapply wp_mono; [by apply Hm|]. intros x s' (Hx & recs & Hst).
  eapply wp_mono; [apply Hf; [done|apply Hst]|]. intros y s'' (Hy & recs' & Hst'). split; [done|].
  exists (recs ++ recs'). by eapply step_trans.
Qed.

Lemma conforms_if pid {X} (b : bool) (m m' : M (estate mhost) X) P :
  (b = true → conforms pid m P) → (b = false → conforms pid m' P) → conforms pid (if b then m else m') P.
Proof. destruct b; auto. Qed.

Context (Hslack : (12 ≤ frame_slack)%nat).

Lemma conforms_ticket pid metadata operation :
  is_pid pid → (16 ≤ length metadata)%nat → is_u16 operation →
  conforms pid (generate_ticket pid metadata operation) (λ ok, ok = true).
Proof.
  intros Hp Hl Ho s A Hs. pose proof Hs as [Hr Hpt Hptl]. unfold wp.
  rewrite generate_ticket_eq; [|apply (rd_length _ _ _ Hr)|done|unfold is_pid, is_i32 in *; lia|done].
  rewrite (proj2 (Nat.ltb_ge _ _) Hslack). set (r := UpdateRecord _ _ _).
  destruct (ticket_reaches_module (Enclave.aes_key s) (e_nrnd s) (S (e_nrnd s)) r (e_world s) A Hr) as (h' & -> & Hsv & _);
    [|done|].
  { unfold is_pid in Hp. split_and!; [unfold is_i32; cbn; lia|unfold len_ok; cbn; rewrite length_take; lia|apply Ho]. }
  cbn [Z.eqb]. split; [done|]. exists [r]. apply step_served; [done|done|by apply Forall_singleton].
Qed.

Definition is_cstring (path : bytes) : bool := (length (cstring path) <? length path)%nat.

Lemma label_step pid path internal taint s A :
  is_cstring path = true → in_step s A →
  wp (_generate_xattr_ticket (Some path) internal taint false)
    (λ r s', (r.1 = true → ∃ id, r.2 = Some id ∧ length id = 16%nat) ∧ step pid A s [] s') s.
Proof.
  intros Hc Hs. pose proof Hs as [Hr Hpt Hptl]. unfold wp.
  rewrite xattr_ticket_eq by apply (rd_length _ _ _ Hr). unfold is_cstring in Hc.
  rewrite (proj2 (Nat.ltb_ge _ _) Hslack), Hc. set (fresh := label_fresh _ _). set (id := label_identifier _ _).
  assert (identifier_ok id) as Hid by (split; [|apply label_identifier_length]; unfold id; destruct fresh;
    [apply sgx_rand_ok|apply Forall_replicate; unfold byte_ok; lia]).
  set (r := UpdateRecord _ _ _).
  destruct (label_reaches_module (Enclave.aes_key s) (e_nrnd s) (label_draws fresh (S (e_nrnd s))) r
    (take (length (cstring path) + 1) path) (e_world s) A Hr) as (ret & h' & -> & Hsv).
  { split_and!; [vm_compute; split; congruence|apply Hid|destruct taint; vm_compute; split; congruence]. }
  { done. }
  { by destruct taint. }
  destruct (ret =? _); cbn [negb fst snd].
  - split; [intros _; exists id; split; [done|apply Hid]|]. by apply step_served.
  - split; [done|]. pose proof (step_served pid A s [] (S (label_draws fresh (S (e_nrnd s)))) _ h' Hs Hsv) as Hst.
    apply Hst. done.
Qed.

Lemma conforms_label pid path internal taint :
  is_cstring path = true →
  conforms pid (_generate_xattr_ticket (Some path) internal taint false)
    (λ r, r.1 = true → ∃ id, r.2 = Some id ∧ length id = 16%nat).
Proof. intros Hc s A Hs. eapply wp_mono; [by eapply label_step|]. intros r s' [Hr Hst]. eauto. Qed.

(** ** Requests *)

(** The path a request needs for a new label. *)
Definition has_path (metadata : option bytes) : bool :=
  match metadata with Some path => is_cstring path | None => false end.
Definition long_enough (metadata : option bytes) : bool :=
  match metadata with Some m => (16 <=? length m)%nat | None => false end.

Lemma conforms_claim pid op metadata :
  is_pid pid → has_path metadata = true → conforms pid (handle_claim pid op metadata) (λ _, True).
Proof.
  intros Hp Hm. destruct metadata as [path|]; [|done]. unfold handle_claim, generate_xattr_ticket.
  eapply conforms_bind; [by apply conforms_label|]. intros [ok id] Hid. cbn [fst snd] in Hid.
  apply conforms_if; [|intros _; by apply conforms_ret]. intros [-> _]%andb_true_iff.
  destruct Hid as (i & -> & Hl); [done|]. eapply (conforms_bind _ _ _ (λ x, x = i)); [by apply conforms_ret|]. intros ? ->.
  eapply conforms_bind; [apply conforms_ticket; [done|lia|vm_compute; split; congruence]|]. intros ok ->. by apply conforms_ret.
Qed.

Lemma conforms_open pid request metadata translated success result :
  is_pid pid → length (rq_subject request) = 16%nat → is_u16 (rq_operation request) →
  (translated = true → long_enough metadata = true) →
  (translated = true → success = false → has_path metadata = true) →
  conforms pid (handle_open pid request metadata translated success result) (λ _, True).
Proof.
  intros Hp Hsub Hop Hlong Hpath. unfold handle_open.
  eapply (conforms_bind _ _ _ (λ r, r.1 ≠ CITADEL_OP_ERROR → ∃ i, r.2 = Some i ∧ (16 ≤ length i)%nat)).
  - apply conforms_if.
    + intros [-> Hs%negb_true_iff]%andb_true_iff. specialize (Hpath eq_refl Hs). destruct metadata as [path|]; [|done].
      eapply conforms_bind; [by apply conforms_label|]. intros [ok id] Hid. apply conforms_ret. cbn [fst snd] in *.
      destruct ok; [|done]. intros _. destruct (Hid eq_refl) as (i & -> & Hl). exists i. split; [done|lia].
    + intros _. apply conforms_ret. cbn [fst snd]. intros _. destruct translated.
      * specialize (Hlong eq_refl). destruct metadata as [m|]; [|done]. exists m. split; [done|]. by apply Nat.leb_le.
      * exists (rq_subject request). split; [done|lia].
  - intros [result' id] Hid. cbn [fst snd] in Hid. apply conforms_if; [|intros _; by apply conforms_ret].
    intros Hne%negb_true_iff%Z.eqb_neq. destruct (Hid Hne) as (i & -> & Hl).
    eapply (conforms_bind _ _ _ (λ x, x = i)); [by apply conforms_ret|]. intros ? ->.
    eapply conforms_bind; [by apply conforms_ticket|]. intros ok ->. by apply conforms_ret.
Qed.

Lemma conforms_subject pid request wanted result :
  is_pid pid → length (rq_subject request) = 16%nat → is_u16 (rq_operation request) →
  conforms pid (grant_subject pid request wanted result) (λ _, True).
Proof.
  intros Hp Hsub Hop. apply conforms_if; [|intros _; by apply conforms_ret]. intros _.
  eapply conforms_bind; [apply conforms_ticket; [done|lia|done]|]. intros ok ->. by apply conforms_ret.
Qed.

(** What a request must have to be served: no declassification, and a path when
    a label is to be made. *)
Definition serviceable (request : citadel_op_request) (metadata : option bytes) (translated success : bool) : bool :=
  negb (has_flag (rq_operation request) CITADEL_OP_DECLASSIFY) &&
  implb (has_flag (rq_operation request) CITADEL_OP_CLAIM) (has_path metadata) &&
  implb translated (long_enough metadata && implb (negb success) (has_path metadata)).

Lemma has_flag_less op a b : Z.land a b = 0 → has_flag (Z.land op (Z.lnot b)) a = has_flag op a.
Proof.
  intros H. unfold has_flag. replace (Z.land (Z.land op (Z.lnot b)) a) with (Z.land op a); [done|].
  apply Z.bits_inj'. intros i Hi. rewrite !Z.land_spec, Z.lnot_spec by done.
  assert (Z.testbit a i && Z.testbit b i = false) as Hab by (by rewrite <- Z.land_spec, H, Z.testbit_0_l).
  by destruct (Z.testbit op i), (Z.testbit a i), (Z.testbit b i).
Qed.

Lemma conforms_core pid request metadata translated success asm_result :
  is_pid pid → length (rq_subject request) = 16%nat → is_u16 (rq_operation request) →
  serviceable request metadata translated success = true →
  conforms pid (core_handle_request pid request metadata translated success asm_result) (λ _, True).
Proof.
  intros Hp Hsub Hop [[Hd Hc]%andb_true_iff Ht]%andb_true_iff. apply negb_true_iff in Hd. unfold core_handle_request.
  apply conforms_if; intros _; [by apply conforms_ret|]. cbv zeta.
  eapply (conforms_bind _ _ _ (λ _, True)).
  { apply conforms_if; intros E; [|by apply conforms_ret]. rewrite E in Hc. by apply conforms_claim. }
  intros result _. set (op := if has_flag _ _ then _ else _).
  assert (has_flag op CITADEL_OP_DECLASSIFY = false) as Hd'
    by (unfold op; destruct (has_flag _ CITADEL_OP_CLAIM); [rewrite has_flag_less|]; done).
  eapply (conforms_bind _ _ _ (λ _, True)).
  { apply conforms_if; intros E; [|by apply conforms_ret].
    apply conforms_open; try done; intros ->; cbn [implb] in Ht; apply andb_true_iff in Ht as [Hl Ht']; [done|].
    intros ->. exact Ht'. }
  intros result1 _. eapply conforms_bind; [by apply conforms_subject|].
  intros result2 _. eapply conforms_bind; [by apply conforms_subject|].
  intros result3 _. rewrite Hd'. by apply conforms_ret.
Qed.
End together.
