(* ===== verification/SystemServe.v ===== *)
(** * A request from the socket to the module

    What the daemon does with a message between the socket and the enclave, and
    the enclave's answer to a request to open an object, on the machine with the
    module. *)

From S2P Require Import Prelude Shared Hex RBTree Kernel Ring Tickets TicketsSpec CacheModel Access.
From S2P Require Import Crypto PayloadIO FileIO Shm Hooks AccessSpec AccessTheorems LabelSpec ProtocolSpec.
From S2P Require Import Ltc LtcRsa Enclave Daemon EnclaveSpec System SystemSpec.

Lemma operation_u16 data : bytes_ok data → is_u16 (rq_operation (dec_op_request data)).
Proof.
  intros Hb. unfold is_u16. cbn [dec_op_request rq_operation]. unfold u16_at, field.
  assert (bytes_ok (take 2 (drop 8 data))) as Hf by (by apply Forall_take, Forall_drop).
  pose proof (le_value_range _ Hf) as H. split; [apply H|]. eapply Z.lt_le_trans; [apply H|].
  change (2 ^ 16) with (256 ^ 2). apply Z.pow_le_mono_r; [lia|]. rewrite length_take. lia.
Qed.

Lemma subject_length data : well_formed data = true → length (rq_subject (dec_op_request data)) = 16%nat.
Proof.
  intros [Hl _]%andb_true_iff. cbn. unfold field. rewrite length_take, length_drop.
  apply orb_true_iff in Hl as [E|E]; apply Nat.eqb_eq in E; rewrite E; done.
Qed.

Section served.
Context `{HKer : Kernel} `{HRb : RbTree} `{HCry : KernelCrypto} `{HLaw : !CryptoLaws}.
Context `{HSgx : Sgx} `{HSLaw : !SgxLaws} `{HGcm : !GcmInterop} `{HLtc : LtcEnv}.
Context (rest : DaemonOS) (resolve : bytes → option dentry) (daemon : task_struct).
Context (policy : Z → citadel_op_request → option bytes → Z).
Abbreviation OS := (machine rest resolve daemon).
Abbreviation kern_of := (kern_of rest resolve daemon).
Implicit Types (s : estate (@host OS)) (d : @dstate OS).

Definition rest_of d : @os rest := (h_os (e_world (d_enclave d))).2.
Definition put_rest (o : @os rest) d : @dstate OS :=
  let w := e_world (d_enclave d) in put_enclave (put_world (Host OS ((h_os w).1, o) (h_errno w)) (d_enclave d)) d.

(** The calls on sockets, and the clock, go to the rest of the system. *)
Definition socket_call (c : daemon_call) : bool :=
  match c with d_read _ _ | d_write _ _ _ | d_peercred _ | d_close _ | d_accept | d_gettimeofday => true | _ => false end.

Lemma sys_rest c d r o :
  socket_call c = true → dsys c (rest_of d) = Ok (r, o) → dr_ret r ≠ - 1 → sys c d = Ok (r, put_rest o d).
Proof.
  intros Hc He Hr. unfold sys, on_host, ecall, ocall, call, rest_of in *.
  destruct d as [[kl ak pk pr pl lp lt nr [[k o0] e]] dc dd nm ns nc]. cbn [d_enclave e_world h_os snd] in *.
  assert (@dsys OS c (k, o0) = Ok (r, (k, o))) as ->.
  { cbn [dsys machine]. assert (machine_call rest resolve daemon c = in_rest rest c) as -> by (by destruct c).
    unfold in_rest. cbn [fst snd]. by rewrite He. }
  cbn. by rewrite (proj2 (Z.eqb_neq _ _) Hr).
Qed.

Lemma overwrite_start (v buf : bytes) : overwrite 0 v buf = v ++ drop (length v) buf.
Proof. done. Qed.

(** The reply that is laid over a request. *)
Lemma reply_layout (data tok tail : bytes) answer :
  (35 ≤ length data)%nat → length tok = 8%nat →
  overwrite 34 [answer] (overwrite 26 tok (data ++ tail)) = take 26 data ++ tok ++ answer :: drop 35 (data ++ tail).
Proof.
  intros Hd Ht. unfold overwrite. rewrite Ht. set (b := data ++ tail).
  assert (35 ≤ length b)%nat as Hb by (unfold b; rewrite length_app; lia).
  assert (length (take 26 b) = 26%nat) as H26 by (rewrite length_take; lia).
  replace (take 26 data) with (take 26 b) by (unfold b; rewrite take_app_le; [done|lia]).
  rewrite (app_assoc (take 26 b)), take_app_length', drop_app_ge by (rewrite length_app; lia).
  rewrite length_app, H26, Ht, drop_drop. cbn [length]. by rewrite <- app_assoc.
Qed.

(** ** The daemon around the enclave *)

(** The reply to a request: the token and the answer over the request. *)
Definition reply_to (data tok : bytes) (answer : Z) (tail : bytes) : bytes :=
  take 26 data ++ tok ++ answer :: drop 35 (data ++ tail).

(** The state after [n] uninitialised variables. *)
Definition drawn (n : nat) d : @dstate OS :=
  DState _ (d_enclave d) (d_cache d) (d_deleted_key d) (d_nmem d) (n + d_nstk d) (d_ncopy d).

Definition request_sized (data : bytes) : Prop := length data = 90%nat ∨ length data = 4188%nat.

(** The daemon sends the answer of the enclave to the [message] that the cache of
    identifiers made of the request. *)
Lemma response_sent fuel fd pid data message tail d d2 o2 sent answer tok s' :
  request_sized data → length message = length data → is_pid pid → length tok = 8%nat →
  let len := Z.of_nat (length data) in
  dsys (d_peercred fd) (rest_of d) = Ok (DRet pid 0 [], o2) →
  cache_passthrough data (put_rest o2 (drawn 1 d)) = Ok ((true, message), d2) →
  handle_request policy message pid (Some 8%nat) (d_enclave d2) = Ok ((answer, Some tok), s') →
  (∀ reply, dsys (d_write fd reply len) (h_os (e_world s')).2 = Ok (DRet len 0 [], sent reply)) →
  send_response policy (S fuel) fd (data ++ tail) len d =
    Ok (tt, put_rest (sent (reply_to message tok answer tail)) (put_enclave s' d2)).
Proof.
  intros Hsz Hm Hp Ht len Hcred Hpass Hreq Hw. unfold send_response. erewrite (bind_ok (uninitialised _)) by done.
  change (DState _ _ _ _ _ _ _) with (drawn 1 d).
  mstep (sys_rest (d_peercred fd) (drawn 1 d) _ _ eq_refl Hcred ltac:(unfold is_pid in Hp; cbn; lia)). cbn [dr_ret].
  assert ((len =? Z.of_nat sizeof_request) || (len =? Z.of_nat sizeof_extended) = true) as ->
    by (unfold len; destruct Hsz as [-> | ->]; done).
  cbv iota zeta. replace (Z.to_nat len) with (length data) by lia. rewrite take_app_length. mstep Hpass.
  assert (ask_enclave policy message pid d2 = Ok ((answer, tok), put_enclave s' d2)) as Hask.
  { unfold ask_enclave, ecall. rewrite int32_id by (unfold is_pid in Hp; lia).
    change _CITADEL_PROCESS_PTOKEN_LENGTH with 8%nat. erewrite bind_ok; [|by rewrite Hreq]. reflexivity. }
  cbv iota beta. mstep Hask. rewrite overwrite_start, Hm, drop_app_length, reply_layout by (destruct Hsz; lia).
  fold (reply_to message tok answer tail). cbn [send_loop].
  pose proof (Hw (reply_to message tok answer tail)) as Hwr.
  mstep (sys_rest (d_write fd (reply_to message tok answer tail) len) (put_enclave s' d2) _ _ eq_refl Hwr
    ltac:(cbn; destruct Hsz; lia)).
  unfold get_errno. mred. cbn [dr_ret]. destruct (Z.eqb_spec len (- 1)); [lia|].
  assert (len >? 0 = true) as -> by (rewrite Z.gtb_ltb; apply Z.ltb_lt; destruct Hsz; lia).
  cbn [andb]. cbv iota zeta. rewrite Z.add_0_l. unfold uint64. rewrite Z.mod_small by (destruct Hsz; lia).
  by rewrite Z.eqb_refl.
Qed.

(** The same from the accepted connection to its end. *)
Lemma client_served fuel fd pid data message d d2 o1 o2 sent closed answer tok s' :
  request_sized data → length message = length data → is_pid pid → length tok = 8%nat →
  let len := Z.of_nat (length data) in
  dsys (d_read fd 4188) (rest_of d) = Ok (DRet len 0 data, o1) →
  dsys (d_peercred fd) o1 = Ok (DRet pid 0 [], o2) →
  cache_passthrough data (put_rest o2 (drawn 2 d)) = Ok ((true, message), d2) →
  handle_request policy message pid (Some 8%nat) (d_enclave d2) = Ok ((answer, Some tok), s') →
  (∀ reply, dsys (d_write fd reply len) (h_os (e_world s')).2 = Ok (DRet len 0 [], sent reply)) →
  (∀ reply, dsys (d_close fd) (sent reply) = Ok (DRet 0 0 [], closed reply)) →
  ∃ tail, handle_client_socket policy (S (S fuel)) fd d =
    Ok (tt, put_rest (closed (reply_to message tok answer tail)) (put_enclave s' d2)).
Proof.
  intros Hsz Hm Hp Ht len Hread Hcred Hpass Hreq Hw Hcl.
  unfold handle_client_socket. erewrite (bind_ok (uninitialised _)) by done.
  change (DState _ _ _ _ _ _ _) with (drawn 1 d). set (buffer := dstack _ _). set (tail := drop (length data) buffer).
  exists tail. set (reply := reply_to message tok answer tail).
  assert (receive_loop policy (S (S fuel)) fd buffer 0 0 (drawn 1 d) = Ok (tt, put_rest (sent reply) (put_enclave s' d2))) as Hloop.
  { cbn [receive_loop].
    mstep (sys_rest (d_read fd 4188) (drawn 1 d) _ _ eq_refl Hread ltac:(cbn; destruct Hsz; lia)).
    unfold get_errno. mred. cbn [dr_ret dr_out].
    assert (uint64 len = len) as -> by (apply Z.mod_small; destruct Hsz; lia).
    assert (len =? uint64 (- 1) = false) as -> by (unfold len; destruct Hsz as [-> | ->]; done).
    assert (len >? 0 = true) as -> by (rewrite Z.gtb_ltb; apply Z.ltb_lt; destruct Hsz; lia).
    cbn [andb]. cbv iota zeta. assert (uint64 (0 + len) = len) as -> by (apply Z.mod_small; destruct Hsz; lia).
    rewrite overwrite_start. fold tail.
    by apply (response_sent fuel fd pid data message tail (put_rest o1 (drawn 1 d)) d2 o2 sent answer tok s'). }
  mstep Hloop.
  by mstep (sys_rest (d_close fd) (put_rest (sent reply) (put_enclave s' d2)) _ _ eq_refl (Hcl reply) ltac:(done)).
Qed.

Lemma reply_decodes rq tok answer tail :
  op_request_ok rq → length tok = 8%nat → is_u8 answer →
  ∃ padding, dec_op_reply (reply_to (enc_op_request rq) tok answer tail) =
    OpReply (rq_signature rq) (rq_operation rq) (rq_subject rq) tok answer padding.
Proof.
  intros Hok Ht Ha. pose proof (enc_op_request_length _ Hok) as Hl. pose proof Hok as (H1 & H2 & H3 & _).
  set (rem := drop 35 (enc_op_request rq ++ tail)). exists (take 55 rem).
  assert (55 ≤ length rem)%nat as Hrem by (unfold rem; rewrite length_drop, length_app; lia).
  set (reply := OpReply _ _ _ _ _ _).
  assert (reply_to (enc_op_request rq) tok answer tail = enc_op_reply reply ++ drop 55 rem) as ->.
  { unfold reply_to, enc_op_reply. fold rem. cbn [rp_signature rp_operation rp_subject rp_ptoken rp_result rp_padding reply].
    replace (le_bytes 1 answer) with [answer] by (unfold is_u8 in Ha; change (le_bytes 1 answer) with [answer mod 256]; by rewrite Z.mod_small by lia).
    rewrite <- !app_assoc, (take_drop 55 rem). unfold enc_op_request, len_ok in *.
    rewrite (app_assoc _ (le_bytes _ _)), (app_assoc _ (rq_subject _)), take_app_length';
      [by rewrite <- !app_assoc|]. autorewrite with citadel. lia. }
  apply dec_enc_op_reply. split_and!; try done. unfold len_ok. cbn. rewrite length_take. lia.
Qed.

Lemma reply_to_app data more tok answer tail :
  (26 ≤ length data)%nat → reply_to (data ++ more) tok answer tail = reply_to data tok answer (more ++ tail).
Proof. intros Hl. unfold reply_to. by rewrite take_app_le, <- app_assoc by done. Qed.

(** ** The module honours the ticket *)
Lemma granted_opens (cred_of : Z → positive) pid id A k ino lab td mask n :
  (∀ n, 0 < ktime n < ktime (S n)) → ordered cred_of A → is_pid pid → 1 < pid →
  refines k (abs_insert (UpdateRecord pid id CITADEL_OP_OPEN) A) →
  k_creds k !! cred_of pid = Some td → i_security ino = true → k_inodes k !! i_ref ino = Some lab →
  i_magic ino ≠ PIPEFS_MAGIC → id_anonymous lab = false → id_identifier lab = id →
  (k_nclk k ≤ n)%nat → ktime n - ktime (ac_clock A) < expiry_ns →
  ∃ k', trm_inode_permission (Task pid (cred_of pid)) ino mask (set_nclk n k) = Ok (0, k').
Proof.
  intros Hclk Hord Hp H1 Hr Htd Hsec Hlab Hmagic Han Hid Hn Hexp. set (r := UpdateRecord pid id CITADEL_OP_OPEN) in *.
  pose proof (insert_ordered cred_of Hclk r A Hp Hord) as Ho1. rewrite (ref_clock _ _ Hr) in Hn.
  destruct (ticket_opens cred_of (set_nclk n k) (tick n (abs_insert r A)) pid ino lab td mask) as (k2 & He2 & _);
    [by apply refines_tick|by apply ordered_tick|done|done|by apply (inserted_reserved k A r)|done..|by apply inserted_ticket|by exists k2].
Qed.

Context (Hmem : ∀ n, kmem n = true) (Hslack : (12 ≤ frame_slack)%nat).

(** ** Tickets and labels from the enclave *)

(** What serving a request leaves alone; the module's cache stands for [A'] after
    it. *)
Record serves (A' : acache) s s' : Prop := Serves {
  sv_step : in_step rest resolve daemon s' A';
  sv_ptoken : Enclave.ptoken_aes_key s' = Enclave.ptoken_aes_key s;
  sv_creds : k_creds (kern_of s') = k_creds (kern_of s);
  sv_enclave : enclave_pid (k_pio (kern_of s')) = enclave_pid (k_pio (kern_of s));
  sv_rest : (h_os (e_world s')).2 = (h_os (e_world s)).2 }.

Lemma serves_refl A s : in_step rest resolve daemon s A → serves A s s.
Proof. by split. Qed.
Lemma serves_trans A1 A2 s1 s2 s3 : serves A1 s1 s2 → serves A2 s2 s3 → serves A2 s1 s3.
Proof. intros [] []. split; [done|congruence..]. Qed.

Lemma same_labels_trans k1 k2 k3 : same_labels k1 k2 → same_labels k2 k3 → same_labels k1 k3.
Proof. intros [] []. split; congruence. Qed.

Lemma serves_put A A' s n key h :
  in_step rest resolve daemon s A → served resolve key A' (kern_of s) (kern rest resolve daemon h) →
  (h_os h).2 = (h_os (e_world s)).2 → serves A' s (put_aes_key key (put_world h (put_nrnd n s))).
Proof.
  intros [Hr Hpt Hl] (Hr' & Hp & Hc) Hrest. split; try done; [|by unfold SystemSpec.kern_of; cbn; rewrite Hp].
  split; try done. unfold SystemSpec.kern_of. cbn. by rewrite Hp.
Qed.

Lemma ticket_granted pid metadata op s A :
  in_step rest resolve daemon s A → is_pid pid → (16 ≤ length metadata)%nat → is_u16 op →
  ∃ s', generate_ticket pid metadata op s = Ok (true, s') ∧
    serves (abs_insert (UpdateRecord pid (take 16 metadata) op) A) s s' ∧ same_labels (kern_of s) (kern_of s').
Proof.
  intros Hs Hp Hl Ho. pose proof (is_ready _ _ _ _ _ Hs) as Hr. set (r := UpdateRecord _ _ _).
  destruct (ticket_reaches_module rest resolve daemon Hmem (Enclave.aes_key s) (e_nrnd s) (S (e_nrnd s)) r (e_world s) A Hr)
    as (h' & Hi & Hsv & Hlab & Hrest); [|done|].
  { unfold is_pid in Hp. split_and!; [unfold is_i32; cbn; lia|unfold len_ok; cbn; rewrite length_take; lia|apply Ho]. }
  eexists. split.
  { rewrite generate_ticket_eq; [|apply (rd_length _ _ _ _ Hr)|lia|unfold is_pid, is_i32 in *; lia|done].
    rewrite (proj2 (Nat.ltb_ge _ _) Hslack). fold r. rewrite Hi. reflexivity. }
  split; [by eapply serves_put|done].
Qed.

(** A file that the module knows, with its blob up to date. *)
Record known_file k (de : dentry) (ino : inode) (lab : citadel_inode_data) : Prop := KnownFile {
  kf_inode : d_inode de = Some ino; kf_real : d_real_inode de = Some ino;
  kf_blob : i_security ino = true; kf_label : k_inodes k !! i_ref ino = Some lab;
  kf_checked : id_checked_disk_xattr lab = true; kf_clean : id_needs_xattr_update lab = false;
  kf_file : i_magic ino ≠ PIPEFS_MAGIC }.

(** The blob of the file, and no other, has the new label. *)
Record relabelled (de : dentry) (ino : inode) (lab lab' : citadel_inode_data) (id : bytes) k k' : Prop := Relabelled {
  rl_known : known_file k' de ino lab';
  rl_carries : carries id lab';
  rl_inodes : k_inodes k' = <[i_ref ino := lab']> (k_inodes k) }.

(** A labelling request for such a file: the new label is in the blob and on the
    disk. *)
Lemma label_granted internal path de ino lab D1 s A :
  let fresh := label_fresh internal false in
  let id := label_identifier fresh (S (e_nrnd s)) in
  in_step rest resolve daemon s A → is_cstring path = true → resolve (cstring path) = Some de →
  known_file (kern_of s) de ino lab →
  vfs_setxattr_noperm (k_disk (kern_of s)) de _CITADEL_XATTR_IDENTIFIER (hex_body id) = (0, D1) →
  ∃ s' lab', _generate_xattr_ticket (Some path) internal true false s = Ok ((true, Some id), s') ∧
    serves A s s' ∧ relabelled de ino lab lab' id (kern_of s) (kern_of s') ∧
    k_disk (kern_of s') = (vfs_setxattr_noperm D1 de _CITADEL_XATTR_IN_REALM []).2 ∧
    k_aes_available (kern_of s') = k_aes_available (kern_of s).
Proof.
  intros fresh id Hs Hc Hres [Hdi Hdr Hsec Hlab Hck Hcl Hmag] HD. pose proof (is_ready _ _ _ _ _ Hs) as Hr.
  assert (identifier_ok id) as Hid by (split; [|apply label_identifier_length]; unfold id; destruct fresh;
    [apply sgx_rand_ok|apply Forall_replicate; unfold byte_ok; lia]).
  set (k := kern_of s) in *. set (n := e_nrnd s) in *. set (r := UpdateRecord 0 id (xattr_operation true false)).
  assert (update_record_ok r) as Hrok by (split_and!; [vm_compute; split; congruence|apply Hid|vm_compute; split; congruence]).
  assert (citadel_inode (d_inode de) = Some (i_ref ino)) as Hci by (rewrite Hdi; cbn; by rewrite Hsec).
  assert (cstring (take (length (cstring path) + 1) path) = cstring path) as Hcs.
  { unfold is_cstring in Hc. apply Nat.ltb_lt in Hc. by apply cstring_take. }
  pose proof (induct_ok de (i_ref ino) lab (ticket_header n) r (set_nmem (S (S (S (S (k_nmem k))))) k) D1
    Hmem Hlab (ticket_header_ok n) Hid HD) as He. cbv zeta in He.
  change (has_flag (ur_operation r) CITADEL_OP_REGISTER) with true in He. cbv iota in He.
  pose proof (rd_registered _ _ _ _ Hr) as Hreg. pose proof (rd_length _ _ _ _ Hr) as Hlen.
  set (k' := set_pio _ _) in He.
  assert (install_xattr (take (length (cstring path) + 1) path) (ticket_message (Enclave.aes_key s) n (label_draws fresh (S n)) r) (e_world s) =
    Ok (_CITADEL_XATTR_ACCEPTED_SIGNAL, Host OS (k', (h_os (e_world s)).2) 0)) as Hi.
  { rewrite (install_xattr_answer rest resolve daemon _ _ _ de (- _CITADEL_XATTR_ACCEPTED_SIGNAL) k'); [done|by rewrite Hcs| |done].
    unfold trm_inode_setxattr, system_ready. cbn [String.eqb]. change (String.eqb _ _) with true. cbv iota. mred.
    change (kern rest resolve daemon (e_world s)) with k. rewrite Hreg. rewrite (bind_ok _ _ _ 0 k'); [done|]. unfold ticket_message.
    rewrite <- (rd_key _ _ _ _ Hr). fold k.
    rewrite installation_accepts;
      [|done|done|by rewrite (rd_key _ _ _ _ Hr)|apply sgx_rand_length|apply frame_junk_length|apply ticket_header_ok|done|done|done].
    change (has_flag (ur_operation r) CITADEL_OP_DECLASSIFY) with false. cbv iota. rewrite Hci. exact He. }
  eexists _, _. split.
  { rewrite xattr_ticket_eq by done. rewrite (proj2 (Nat.ltb_ge _ _) Hslack).
    unfold is_cstring in Hc. rewrite Hc. fold n fresh id r. rewrite Hi. reflexivity. }
  split_and!.
  - eapply serves_put; [done| |done]. split_and!; [|cbn; by rewrite (rd_key _ _ _ _ Hr)|done].
    destruct Hr as [? ? Hkey ? Href Hf]. split; try done; [cbn; by rewrite Hkey|by apply xor_key_length|by eapply refines_ext|].
    intros path' de' Hres'. destruct (Hf _ _ Hres') as (a & Ha & Hsome). exists a. split; [done|]. cbn. by apply insert_is_some.
  - split; [split; [done|done|done|unfold SystemSpec.kern_of; cbn; apply lookup_insert_eq|done..]|by split|done].
  - done.
  - done.
Qed.

(** ** The enclave's answers *)

(** A request that carries a token of its sender. *)
Lemma vouched_request data pid p s A :
  let rq := dec_op_request data in
  let md := request_metadata data in
  in_step rest resolve daemon s A → well_formed data = true → vouches (Enclave.ptoken_aes_key s) pid rq p →
  handle_request policy data pid (Some 8%nat) s =
    (core_handle_request pid rq md (request_translate data) (request_success data) (uint8 (policy pid rq md))
       ≫= λ answer, mret (answer, Some (pp_ptoken p))) s.
Proof.
  intros rq md Hs Hwf Hv.
  destruct (handle_request_cases policy data pid s (is_ptoken_length _ _ _ _ _ Hs)) as [(p' & _ & Hv' & ->)|[Hno _]].
  2:{ destruct Hno. split; [done|]. by exists p. }
  assert (p' = p) as ->; [|done].
  destruct Hv as (iv & b & Hiv & _ & E & -> & _), Hv' as (iv' & b' & Hiv' & _ & E' & -> & _). f_equal.
  apply (seal_inj (Enclave.ptoken_aes_key s) iv' b' iv b Hiv' Hiv). by rewrite <- E', <- E.
Qed.

(** A request to open an object whose identifier is known asks for one ticket. *)
Lemma core_open pid rq md tr su id (f : Z → M (estate (@host OS)) (Z * option bytes)) s :
  rq_operation rq = CITADEL_OP_OPEN → tr && negb su = false → (if tr then md else Some (rq_subject rq)) = Some id →
  (core_handle_request pid rq md tr su CITADEL_OP_APPROVED ≫= f) s =
  ((granted ← generate_ticket pid id CITADEL_OP_OPEN;
    mret (if granted : bool then CITADEL_OP_APPROVED else CITADEL_OP_ERROR)) ≫= f) s.
Proof.
  intros Hop Htr Hid. unfold core_handle_request, grant_subject. rewrite Hop.
  change (CITADEL_OP_APPROVED =? CITADEL_OP_APPROVED) with true.
  change (has_flag CITADEL_OP_OPEN CITADEL_OP_CLAIM) with false. cbn [negb]. cbv iota zeta.
  change (has_flag CITADEL_OP_OPEN CITADEL_OP_OPEN) with true.
  change (has_flag CITADEL_OP_OPEN CITADEL_OP_SHM) with false.
  change (has_flag CITADEL_OP_OPEN CITADEL_OP_DECLASSIFY) with false.
  change (has_flag CITADEL_OP_OPEN (Z.lor CITADEL_OP_PTY_ACCESS CITADEL_OP_SOCKET)) with false. cbv iota.
  rewrite bind_assoc, bind_ret, bind_assoc. unfold handle_open. rewrite Htr, Hid. cbv iota. rewrite bind_assoc, bind_ret.
  change (negb (CITADEL_OP_APPROVED =? CITADEL_OP_ERROR)) with true. cbv iota. rewrite bind_assoc, bind_ret, Hop.
  rewrite !bind_assoc. unfold mbind, M_bind, mret, M_ret. by destruct (generate_ticket _ _ _ s) as [[[] s']|].
Qed.

(** A claim with access: a label, then a ticket for it. *)
Lemma core_claim pid rq md tr su (f : Z → M (estate (@host OS)) (Z * option bytes)) s :
  rq_operation rq = Z.lor CITADEL_OP_CLAIM CITADEL_OP_OPEN →
  (core_handle_request pid rq md tr su CITADEL_OP_APPROVED ≫= f) s =
  (handle_claim pid (Z.lor CITADEL_OP_CLAIM CITADEL_OP_OPEN) md ≫= f) s.
Proof.
  intros Hop. unfold core_handle_request, grant_subject. rewrite Hop.
  change (CITADEL_OP_APPROVED =? CITADEL_OP_APPROVED) with true. set (op := Z.lor CITADEL_OP_CLAIM CITADEL_OP_OPEN).
  change (has_flag op CITADEL_OP_CLAIM) with true. cbn [negb]. cbv iota zeta.
  set (op' := Z.land op (Z.lnot CITADEL_OP_OPEN)). change (has_flag op' CITADEL_OP_OPEN) with false.
  change (has_flag op' CITADEL_OP_SHM) with false. change (has_flag op' CITADEL_OP_DECLASSIFY) with false.
  change (has_flag op' (Z.lor CITADEL_OP_PTY_ACCESS CITADEL_OP_SOCKET)) with false. cbv iota.
  rewrite bind_assoc. unfold mbind, M_bind, mret, M_ret. by destruct (handle_claim _ _ _ s) as [[]|].
Qed.

(** A request that the policy does not approve does nothing. *)
Lemma core_refused pid rq md tr su answer (f : Z → M (estate (@host OS)) (Z * option bytes)) s :
  answer ≠ CITADEL_OP_APPROVED → (core_handle_request pid rq md tr su answer ≫= f) s = f answer s.
Proof. intros Ha. unfold core_handle_request. by rewrite (proj2 (Z.eqb_neq _ _) Ha). Qed.

(** A request that only registers its sender asks for nothing. *)
Lemma core_register pid rq md tr su (f : Z → M (estate (@host OS)) (Z * option bytes)) s :
  rq_operation rq = CITADEL_OP_REGISTER →
  (core_handle_request pid rq md tr su CITADEL_OP_APPROVED ≫= f) s = f CITADEL_OP_APPROVED s.
Proof. intros Hop. unfold core_handle_request, grant_subject. by rewrite Hop. Qed.

(** The object that a request to open names: the metadata once the daemon has
    translated it, the subject otherwise. *)
Definition named_object (data : bytes) : option bytes :=
  if request_translate data then request_metadata data else Some (rq_subject (dec_op_request data)).

Lemma open_request_served data pid p id s A :
  let rq := dec_op_request data in
  let r := UpdateRecord pid (take 16 id) CITADEL_OP_OPEN in
  in_step rest resolve daemon s A → is_pid pid → well_formed data = true →
  request_translate data && negb (request_success data) = false → named_object data = Some id → (16 ≤ length id)%nat →
  rq_operation rq = CITADEL_OP_OPEN → vouches (Enclave.ptoken_aes_key s) pid rq p →
  uint8 (policy pid rq (request_metadata data)) = CITADEL_OP_APPROVED →
  ∃ s', handle_request policy data pid (Some 8%nat) s = Ok ((CITADEL_OP_APPROVED, Some (pp_ptoken p)), s') ∧
    serves (abs_insert r A) s s' ∧ same_labels (kern_of s) (kern_of s').
Proof.
  intros rq r Hs Hp Hwf Htr Hid Hl Hop Hv Hpol.
  destruct (ticket_granted pid id CITADEL_OP_OPEN s A Hs Hp Hl) as (s' & Hg & Hsv & Hlab); [vm_compute; split; congruence|].
  exists s'. split; [|done]. rewrite (vouched_request data pid p s A Hs Hwf Hv). fold rq. rewrite Hpol.
  rewrite (core_open pid rq _ _ _ id) by done. rewrite bind_assoc. by mstep Hg.
Qed.

(** A file gets a fresh identifier, in the module and on the disk, and a process a
    ticket for it. *)
Definition newly_labelled (pid : Z) (de : dentry) (ino : inode) (lab : citadel_inode_data) (D1 : disk) s A s' : Prop :=
  let id := sgx_rand (S (e_nrnd s)) 16 in
  ∃ lab', serves (abs_insert (UpdateRecord pid id CITADEL_OP_OPEN) A) s s' ∧
    relabelled de ino lab lab' id (kern_of s) (kern_of s') ∧
    k_disk (kern_of s') = (vfs_setxattr_noperm D1 de _CITADEL_XATTR_IN_REALM []).2.

Lemma label_and_ticket pid md de ino lab D1 s A :
  let id := sgx_rand (S (e_nrnd s)) 16 in
  in_step rest resolve daemon s A → is_pid pid → is_cstring md = true → resolve (cstring md) = Some de →
  known_file (kern_of s) de ino lab →
  vfs_setxattr_noperm (k_disk (kern_of s)) de _CITADEL_XATTR_IDENTIFIER (hex_body id) = (0, D1) →
  ∃ s1 s', _generate_xattr_ticket (Some md) false true false s = Ok ((true, Some id), s1) ∧
    generate_ticket pid id CITADEL_OP_OPEN s1 = Ok (true, s') ∧ newly_labelled pid de ino lab D1 s A s'.
Proof.
  intros id Hs Hp Hc Hres Hk HD.
  destruct (label_granted false md de ino lab D1 s A Hs Hc Hres Hk HD) as (s1 & lab1 & E1 & Hsv1 & [Hk1 Hca Hrl] & Hdisk & _). fold id in E1, Hca.
  assert (length id = 16%nat) as Hid by apply sgx_rand_length.
  destruct (ticket_granted pid id CITADEL_OP_OPEN s1 A (sv_step _ _ _ Hsv1) Hp) as (s' & Hg & Hsv & [Hin Hdk _]);
    [lia|vm_compute; split; congruence|]. rewrite take_ge in Hsv by lia.
  exists s1, s'. split_and!; [done..|]. exists lab1. split_and!.
  - by eapply serves_trans.
  - split; [destruct Hk1; split; try done; by rewrite Hin|done|by rewrite Hin].
  - by rewrite Hdk.
Qed.

(** A request to claim a file. *)
Lemma claim_request_served data pid p md de ino lab D1 s A :
  let rq := dec_op_request data in
  in_step rest resolve daemon s A → is_pid pid → well_formed data = true → request_metadata data = Some md →
  rq_operation rq = Z.lor CITADEL_OP_CLAIM CITADEL_OP_OPEN → vouches (Enclave.ptoken_aes_key s) pid rq p →
  uint8 (policy pid rq (Some md)) = CITADEL_OP_APPROVED →
  is_cstring md = true → resolve (cstring md) = Some de → known_file (kern_of s) de ino lab →
  vfs_setxattr_noperm (k_disk (kern_of s)) de _CITADEL_XATTR_IDENTIFIER (hex_body (sgx_rand (S (e_nrnd s)) 16)) = (0, D1) →
  ∃ s', handle_request policy data pid (Some 8%nat) s = Ok ((CITADEL_OP_APPROVED, Some (pp_ptoken p)), s') ∧
    newly_labelled pid de ino lab D1 s A s'.
Proof.
  intros rq Hs Hp Hwf Hmd Hop Hv Hpol Hc Hres Hk HD.
  destruct (label_and_ticket pid md de ino lab D1 s A Hs Hp Hc Hres Hk HD) as (s1 & s' & E1 & Hg & Hnew).
  exists s'. split; [|done]. rewrite (vouched_request data pid p s A Hs Hwf Hv). fold rq. rewrite Hmd, Hpol, core_claim by done.
  unfold handle_claim, generate_xattr_ticket. rewrite bind_assoc. mstep E1. cbn [andb].
  change (has_flag (Z.lor CITADEL_OP_CLAIM CITADEL_OP_OPEN) CITADEL_OP_OPEN) with true. cbv iota. rewrite bind_assoc, bind_ret.
  rewrite bind_assoc. by mstep Hg.
Qed.

(** A request to open a file that the daemon found no identifier for: it is
    labelled first. *)
Lemma unlabelled_request_served data pid p md de ino lab D1 s A :
  let rq := dec_op_request data in
  in_step rest resolve daemon s A → is_pid pid → well_formed data = true → request_metadata data = Some md →
  request_translate data = true → request_success data = false →
  rq_operation rq = CITADEL_OP_OPEN → vouches (Enclave.ptoken_aes_key s) pid rq p →
  uint8 (policy pid rq (Some md)) = CITADEL_OP_APPROVED →
  is_cstring md = true → resolve (cstring md) = Some de → known_file (kern_of s) de ino lab →
  vfs_setxattr_noperm (k_disk (kern_of s)) de _CITADEL_XATTR_IDENTIFIER (hex_body (sgx_rand (S (e_nrnd s)) 16)) = (0, D1) →
  ∃ s', handle_request policy data pid (Some 8%nat) s = Ok ((CITADEL_OP_APPROVED, Some (pp_ptoken p)), s') ∧
    newly_labelled pid de ino lab D1 s A s'.
Proof.
  intros rq Hs Hp Hwf Hmd Htr Hsu Hop Hv Hpol Hc Hres Hk HD.
  destruct (label_and_ticket pid md de ino lab D1 s A Hs Hp Hc Hres Hk HD) as (s1 & s' & E1 & Hg & Hnew).
  exists s'. split; [|done]. rewrite (vouched_request data pid p s A Hs Hwf Hv). fold rq. rewrite Hmd, Hpol, Htr, Hsu.
  unfold core_handle_request, handle_open, grant_subject. rewrite Hop.
  change (CITADEL_OP_APPROVED =? CITADEL_OP_APPROVED) with true.
  change (has_flag CITADEL_OP_OPEN CITADEL_OP_CLAIM) with false. cbn [negb andb]. cbv iota zeta.
  change (has_flag CITADEL_OP_OPEN CITADEL_OP_OPEN) with true.
  change (has_flag CITADEL_OP_OPEN CITADEL_OP_SHM) with false.
  change (has_flag CITADEL_OP_OPEN CITADEL_OP_DECLASSIFY) with false.
  change (has_flag CITADEL_OP_OPEN (Z.lor CITADEL_OP_PTY_ACCESS CITADEL_OP_SOCKET)) with false. cbv iota.
  rewrite bind_assoc, bind_ret. unfold generate_xattr_ticket. rewrite !bind_assoc. mstep E1. mred.
  change (negb (CITADEL_OP_APPROVED =? CITADEL_OP_ERROR)) with true. cbv iota. rewrite !bind_assoc. mred.
  rewrite !bind_assoc. by mstep Hg.
Qed.
End served.
