(* ===== verification/SystemTheorems.v ===== *)
(** * Properties of the whole system

    Client, daemon, enclave and module together. *)

From S2P Require Import Prelude Shared Hex RBTree Kernel Ring Tickets TicketsSpec CacheModel Access.
From S2P Require Import Crypto PayloadIO FileIO Shm Hooks AccessSpec AccessTheorems LabelSpec ProtocolSpec.
From S2P Require Import Ltc LtcRsa Enclave Daemon EnclaveSpec System SystemSpec SystemServe.

Section theorems.
Context `{HKer : Kernel} `{HRb : RbTree} `{HCry : KernelCrypto} `{HLaw : !CryptoLaws}.
Context `{HSgx : Sgx} `{HSLaw : !SgxLaws} `{HGcm : !GcmInterop} `{HLtc : LtcEnv}.
Context (rest : DaemonOS) (resolve : bytes → option dentry) (daemon : task_struct).
Context (policy : Z → citadel_op_request → option bytes → Z).
Abbreviation mhost := (@host (machine rest resolve daemon)).
Implicit Types (s : estate mhost) (A : acache) (k : kstate).

(** ** Sequences of requests *)

(** A request as it reaches the enclave: the message and the process. *)
Definition acceptable (req : bytes * Z) : Prop :=
  bytes_ok req.1 ∧ is_pid req.2 ∧
  serviceable (dec_op_request req.1) (request_metadata req.1) (request_translate req.1) (request_success req.1) = true.

(** Who was given a ticket: a process that proved who it is, for a request that
    the policy approved. *)
Definition entitled (key : bytes) (reqs : list (bytes * Z)) (r : citadel_update_record) : Prop :=
  ∃ data p, (data, ur_pid r) ∈ reqs ∧ vouches key (ur_pid r) (dec_op_request data) p ∧
    uint8 (policy (ur_pid r) (dec_op_request data) (request_metadata data)) = CITADEL_OP_APPROVED.

Fixpoint run_requests (reqs : list (bytes * Z)) : M (estate mhost) (list Z) :=
  match reqs with
  | [] => mret []
  | (data, pid) :: reqs =>
      '(answer, _) ← handle_request policy data pid (Some 8%nat);
      answers ← run_requests reqs;
      mret (answer :: answers)
  end.

Context (Hmem : ∀ n, kmem n = true) (Hslack : (12 ≤ frame_slack)%nat).

(** One request. *)
Lemma request_served data pid s A :
  acceptable (data, pid) → in_step rest resolve daemon s A →
  ∃ answer tok s' recs, handle_request policy data pid (Some 8%nat) s = Ok ((answer, tok), s') ∧
    step rest resolve daemon pid A s recs s' ∧
    Forall (entitled (Enclave.ptoken_aes_key s) [(data, pid)]) recs.
Proof.
  intros (Hb & Hp & Hsv) Hs. cbn [fst snd] in *.
  destruct (handle_request_cases policy data pid s (is_ptoken_length _ _ _ _ _ Hs)) as [(p & Hwf & Hv & ->)|(_ & answer & _ & ->)].
  2:{ exists answer, None, s, []. split_and!; [done|by apply step_refl|done]. }
  set (rq := dec_op_request data) in *. set (md := request_metadata data) in *.
  destruct (uint8 (policy pid rq md) =? CITADEL_OP_APPROVED) eqn:Epol.
  - destruct (wp_elim _ _ _ (conforms_core rest resolve daemon Hmem Hslack pid rq md (request_translate data) (request_success data)
      (uint8 (policy pid rq md)) Hp (subject_length _ Hwf) (operation_u16 _ Hb) Hsv s A Hs)) as (answer & s' & He & _ & recs & Hst).
    exists answer, (Some (pp_ptoken p)), s', recs. mstep He. split_and!; [done|done|].
    eapply Forall_impl; [apply (st_pids _ _ _ _ _ _ _ _ Hst)|]. intros r <-. exists data, p.
    split_and!; [by apply list_elem_of_singleton|done|by apply Z.eqb_eq].
  - exists (uint8 (policy pid rq md)), (Some (pp_ptoken p)), s, [].
    unfold core_handle_request. rewrite Epol. cbn [negb]. split_and!; [done|by apply step_refl|done].
Qed.

Lemma entitled_mono key reqs reqs' r : reqs ⊆ reqs' → entitled key reqs r → entitled key reqs' r.
Proof. intros Hsub (data & p & Hin & H). exists data, p. split; [by apply Hsub|done]. Qed.

(** C7: enclave and module stay in step.  On a machine whose allocations succeed,
    and with room behind the ticket array, any sequence of requests (from any
    processes, authenticated or not, without declassifications and with a path
    where a label is made) is answered without a fault; afterwards the enclave
    and the module share the session key again, and the module's ticket cache
    holds what it held before and the records sent meanwhile, each for a process
    that presented a token of its own and whose request the policy approved. *)
Theorem requests_stay_in_step reqs s A :
  Forall acceptable reqs → in_step rest resolve daemon s A →
  ∃ answers s' recs, run_requests reqs s = Ok (answers, s') ∧ length answers = length reqs ∧
    in_step rest resolve daemon s' (abs_inserts recs A) ∧
    Forall (entitled (Enclave.ptoken_aes_key s) reqs) recs.
Proof.
  intros Hok. revert s A. induction Hok as [|[data pid] reqs Ha Hok IH]; intros s A Hs; [by exists [], s, []|].
  destruct (request_served data pid s A Ha Hs) as (answer & tok & s1 & recs1 & He & Hst & Hent).
  destruct (IH s1 (abs_inserts recs1 A) (st_in_step _ _ _ _ _ _ _ _ Hst)) as (answers & s2 & recs2 & He2 & Hl & Hs2 & Hent2).
  exists (answer :: answers), s2, (recs1 ++ recs2). cbn [run_requests]. mstep He. mstep He2.
  split_and!; [done|cbn; by rewrite Hl|unfold abs_inserts in *; by rewrite foldl_app|].
  apply Forall_app. rewrite (st_ptoken _ _ _ _ _ _ _ _ Hst) in Hent2.
  split; eapply Forall_impl; [exact Hent| |exact Hent2|]; intros r; apply entitled_mono; set_solver.
Qed.
End theorems.

(** ** Lost messages *)
Section lost.
Context `{HKer : Kernel} `{HRb : RbTree} `{HCry : KernelCrypto} `{HLaw : !CryptoLaws}.
Context `{HSgx : Sgx} `{HSLaw : !SgxLaws} `{HGcm : !GcmInterop} `{HLtc : LtcEnv}.
Context (rest : DaemonOS) (resolve : bytes → option dentry) (daemon : task_struct).
Implicit Types (s : estate (@host (machine rest resolve daemon))).
Abbreviation kern_of := (kern_of rest resolve daemon).

Lemma xor_bytes_fixed a b : length a = length b → xor_bytes a b = a → b = replicate (length b) 0.
Proof.
  revert b. induction a as [|x a IH]; intros [|y b] Hl; try done. cbn in *. intros [= Hx Hr]. f_equal.
  - by rewrite <- (Z.lxor_0_l y), <- (Z.lxor_nilpotent x), Z.lxor_assoc, Hx.
  - apply IH; [lia|done].
Qed.

(** C38: a lost ticket separates enclave and module.  When the module
    cannot allocate the buffer for an update it drops it, but the enclave is told
    that the ticket was installed: the C library only buffers the write, and the
    result of closing the file is not looked at.  The enclave moves on to the next
    key, the module does not, and after the call the two keys differ, unless
    the step drawn for the key is all zero. *)
Theorem lost_ticket_desynchronises pid metadata operation s :
  (12 ≤ frame_slack)%nat → length (Enclave.aes_key s) = 16%nat → (16 ≤ length metadata)%nat →
  is_i32 pid → is_u16 operation →
  Enclave.aes_key s = Kernel.aes_key (k_pio (kern_of s)) → k_rsa_available (kern_of s) = true →
  kmem (k_nmem (kern_of s)) = false → sgx_rand (e_nrnd s) 16 ≠ replicate 16 0 →
  ∃ s', generate_ticket pid metadata operation s = Ok (true, s') ∧
    kern_of s' = set_nmem (S (k_nmem (kern_of s))) (kern_of s) ∧
    Enclave.aes_key s' ≠ Kernel.aes_key (k_pio (kern_of s')).
Proof.
  intros Hsl Hk Hl Hp Ho Heq Hrsa Hm Hne.
  rewrite generate_ticket_eq by done. rewrite (proj2 (Nat.ltb_ge _ _) Hsl).
  set (r := UpdateRecord _ _ _).
  assert (update_record_ok r) as Hr by (split_and!; [apply Hp|unfold len_ok; cbn; rewrite length_take; lia|apply Ho..]).
  destruct (install_ticket_eq rest resolve daemon (ticket_message (Enclave.aes_key s) (e_nrnd s) (S (e_nrnd s)) r) (e_world s))
    as (e & ->); [rewrite ticket_message_length by done; lia|].
  unfold update_receive, is_rsa_available. mred. fold (kern_of s). rewrite Hrsa. cbn [negb].
  erewrite (bind_ok kmalloc) by done. rewrite Hm. cbn [negb]. eexists. split; [reflexivity|]. split; [done|].
  cbn [put_aes_key Enclave.aes_key]. change (k_pio _) with (k_pio (kern_of s)). rewrite <- Heq.
  intros Hx%xor_bytes_fixed; rewrite sgx_rand_length in *; done.
Qed.
End lost.

(** ** A request from the socket to the module *)
Section served.
Context `{HKer : Kernel} `{HRb : RbTree} `{HCry : KernelCrypto} `{HLaw : !CryptoLaws}.
Context `{HSgx : Sgx} `{HSLaw : !SgxLaws} `{HGcm : !GcmInterop} `{HLtc : LtcEnv}.
Context (rest : DaemonOS) (resolve : bytes → option dentry) (daemon : task_struct).
Context (policy : Z → citadel_op_request → option bytes → Z).
Abbreviation OS := (machine rest resolve daemon).
Abbreviation kern_of := (kern_of rest resolve daemon).
Abbreviation rest_of := (rest_of rest resolve daemon).
Implicit Types (s : estate (@host OS)) (d : @dstate OS).
Context (Hmem : ∀ n, kmem n = true) (Hslack : (12 ≤ frame_slack)%nat).

(** What the rest of the system does while a request is served: the message is
    read, its sender is known, the reply is taken in one piece. *)
Record client (fd pid : Z) (data : bytes) (o o2 : @os rest) (sent closed : bytes → @os rest) : Prop := Client {
  cl_read : ∃ o1, dsys (d_read fd 4188) o = Ok (DRet (Z.of_nat (length data)) 0 data, o1) ∧
    dsys (d_peercred fd) o1 = Ok (DRet pid 0 [], o2);
  cl_write : ∀ reply, dsys (d_write fd reply (Z.of_nat (length data))) o2 = Ok (DRet (Z.of_nat (length data)) 0 [], sent reply);
  cl_close : ∀ reply, dsys (d_close fd) (sent reply) = Ok (DRet 0 0 [], closed reply) }.

(** From the client's request to the open file.  A process sends the daemon a
    request to open the object [id], with its process token.  The daemon answers
    with an approving reply that carries the nonce of the token, closes the
    connection, and enclave and module are in step again; and from then on, until
    the ticket is fifteen seconds old, the module lets the process open every
    object labelled [id]. *)
Theorem open_request_end_to_end (cred_of : Z → positive) fuel fd pid id tok p d A o2 sent closed :
  let s := d_enclave d in
  let rq := OpRequest challenge_signature CITADEL_OP_OPEN id tok in
  let data := enc_op_request rq in
  (∀ n, 0 < ktime n < ktime (S n)) → in_step rest resolve daemon s A → ordered cred_of A →
  is_pid pid → 1 < pid → op_request_ok rq → vouches (Enclave.ptoken_aes_key s) pid rq p →
  uint8 (policy pid rq None) = CITADEL_OP_APPROVED →
  client fd pid data (rest_of d) o2 sent closed →
  ∃ d' reply, handle_client_socket policy (S (S fuel)) fd d = Ok (tt, d') ∧
    rest_of d' = closed reply ∧
    rp_signature (dec_op_reply reply) = challenge_signature ∧ rp_ptoken (dec_op_reply reply) = pp_ptoken p ∧
    rp_subject (dec_op_reply reply) = id ∧ rp_result (dec_op_reply reply) = CITADEL_OP_APPROVED ∧
    in_step rest resolve daemon (d_enclave d') (abs_insert (UpdateRecord pid id CITADEL_OP_OPEN) A) ∧
    ∀ ino lab td mask n, k_creds (kern_of s) !! cred_of pid = Some td → i_security ino = true →
      k_inodes (kern_of s) !! i_ref ino = Some lab → i_magic ino ≠ PIPEFS_MAGIC →
      id_anonymous lab = false → id_identifier lab = id →
      (k_nclk (kern_of (d_enclave d')) ≤ n)%nat → ktime n - ktime (k_nclk (kern_of s)) < expiry_ns →
      ∃ k', trm_inode_permission (Task pid (cred_of pid)) ino mask (set_nclk n (kern_of (d_enclave d'))) = Ok (0, k').
Proof.
  intros s rq data Hclk Hs Hord Hp H1 Hok Hv Hpol [(o1 & Hread & Hcred) Hw Hcl].
  pose proof (enc_op_request_length rq Hok) as Hl. fold data in Hl.
  assert (dec_op_request data = rq) as Hdec.
  { unfold data. rewrite <- (app_nil_r (enc_op_request rq)). by apply dec_enc_op_request. }
  assert (well_formed data = true) as Hwf.
  { unfold well_formed. rewrite Hl. change (field 0 8 data) with (rq_signature (dec_op_request data)).
    by rewrite Hdec. }
  assert (extended data = false) as Hext by (unfold extended; by rewrite Hl).
  assert (length (pp_ptoken p) = 8%nat) as Ht by (by eapply vouched_nonce).
  set (d2 := put_rest rest resolve daemon o2 (drawn rest resolve daemon 2 d)).
  destruct (open_request_served rest resolve daemon policy Hmem Hslack data pid p id (d_enclave d2) A)
    as (s' & Hreq & [Hs' _ Hc _ Hr] & Hlabs);
    [destruct Hs; by split|done|done|by unfold request_translate; rewrite Hext
    |unfold named_object, request_translate; by rewrite Hext, Hdec|destruct Hok as (_ & _ & Hi & _); unfold len_ok in Hi; cbn in Hi; lia
    |by rewrite Hdec|by rewrite Hdec|unfold request_metadata; by rewrite Hext, Hdec|].
  destruct (client_served rest resolve daemon policy fuel fd pid data data d d2 o1 o2 sent closed
    CITADEL_OP_APPROVED (pp_ptoken p) s') as (tail & He);
    [by left|done|done|done|done|done|by unfold cache_passthrough; rewrite Hl|done|by rewrite Hr|done|].
  destruct (reply_decodes rq (pp_ptoken p) CITADEL_OP_APPROVED tail Hok Ht) as (pad & Hrep); [vm_compute; split; congruence|].
  fold data in Hrep.
  set (reply := reply_to data (pp_ptoken p) CITADEL_OP_APPROVED tail) in *.
  eexists _, reply. split; [exact He|].
  rewrite Hrep. cbn [rp_signature rp_ptoken rp_subject rp_result]. rewrite take_ge in Hs' by (destruct Hok as (_ & _ & Hi & _); unfold len_ok in Hi; cbn in Hi; lia).
  split_and!; try done; [destruct Hs'; by split|].
  intros ino lab td mask n Htd Hsec Hlab Hmagic Han Hid Hn Hexp.
  change (k_nclk (kern_of s') ≤ n)%nat in Hn. change (∃ k', trm_inode_permission (Task pid (cred_of pid)) ino mask (set_nclk n (kern_of s')) = Ok (0, k')).
  apply (granted_opens cred_of pid id A (kern_of s') ino lab td); try done.
  - apply (rd_refines _ _ _ _ (is_ready _ _ _ _ _ Hs')).
  - by rewrite Hc.
  - by rewrite (sl_inodes _ _ Hlabs).
  - by rewrite <- (ref_clock _ _ (rd_refines _ _ _ _ (is_ready _ _ _ _ _ Hs))).
Qed.
End served.
