(* ===== verification/Registration.v ===== *)
(** * The registration of the enclave

    From the sealed keys to a shared session key: fetch_sealed_keys,
    perform_registration and the start of the daemon, against the challenge
    handlers of the module.  Both sides use RSA with PKCS #1 v1.5 padding, one
    through libtomcrypt and one through the kernel; [rsa_interop] states what
    the kernel documents of its half. *)

From S2P Require Import Prelude Shared Hex RBTree Kernel Ring Tickets TicketsSpec CacheModel Access.
From S2P Require Import Crypto PayloadIO FileIO Shm Hooks AccessSpec LabelSpec ProtocolSpec ProtocolTheorems.
From S2P Require Import Ltc LtcRsa LtcSpec LtcTheorems Der DerSeq LtcKeys DerPrims DerSeqSpec LtcKeysSpec Enclave Daemon EnclaveSpec System SystemSpec SystemServe SystemTheorems.

(** A padding string for a message in a block of 256 bytes. *)
Record pads (ps msg : bytes) : Prop := Pads {
  pd_length : length (eme_block ps msg) = 256%nat;
  pd_eight : (8 ≤ length ps)%nat;
  pd_nonzero : Forall nonzero_byte ps;
  pd_bytes : bytes_ok msg;
  pd_some : (0 < length msg)%nat }.

(** The keys of a build: [ekey] is the pair of the enclave and [lkey] that of the
    module.  The enclave has its own private key in the form of PKCS #1 and the
    module's public key in that of X.509. *)
Definition epriv (ekey : LtcRsa.rsa_key) : bytes := der (private_value ekey).
Definition lpub (lkey : LtcRsa.rsa_key) : bytes := der (spki_value lkey).

Record rsa_interop `{KernelCrypto} (ekey lkey : LtcRsa.rsa_key) : Prop := RsaInterop {
  ri_esize : mp_unsigned_bin_size (key_N ekey) = 256;
  ri_lsize : mp_unsigned_bin_size (key_N lkey) = 256;
  ri_encrypt msg : bytes_ok msg → (0 < length msg ≤ 245)%nat →
    let r := crypto_akcipher_encrypt (RSA_PUB_KEY enclave_key_pub) msg in
    ∃ ps, pads ps msg ∧ aead_wait_async_op r = Some 0 ∧ cr_out r = rsa_cipher ekey (eme_block ps msg);
  ri_decrypt ps msg : pads ps msg →
    let r := crypto_akcipher_decrypt (RSA_PRIV_KEY lsm_key_priv) (rsa_cipher lkey (eme_block ps msg)) in
    aead_wait_async_op r = Some 0 ∧ cr_out r = msg }.

(** ** The challenge and its answer *)
Lemma overwrite_app (a b c v : bytes) off :
  length a = off → length v = length b → overwrite off v (a ++ b ++ c) = a ++ v ++ c.
Proof.
  intros <- Hv. unfold overwrite. rewrite take_app_length, Hv, drop_app_ge by lia.
  replace (length a + length b - length a)%nat with (length b) by lia. by rewrite drop_app_length.
Qed.

Definition answered (random key : bytes) (pid : Z) : citadel_challenge :=
  Challenge challenge_signature random (asm_name ++ replicate 23 0) key pid (replicate _CITADEL_CHALLENGE_PADDING 1).

Lemma answer_challenge_eq random key pid :
  length random = 32%nat → length key = 16%nat →
  answer_challenge (enc_challenge (challenge_for random)) key pid = enc_challenge (answered random key pid).
Proof.
  intros Hr Hk. unfold answer_challenge, enc_challenge, challenge_for, answered.
  cbn [ch_signature ch_challenge ch_name ch_key ch_pid ch_padding].
  change (replicate _CITADEL_ASM_NAME_LENGTH 0) with (replicate 17 0 ++ replicate 23 0).
  set (tail := replicate _CITADEL_CHALLENGE_PADDING 1 ++ [0; 0]).
  assert (∀ a b c d e f : bytes, length (a ++ b) = 40%nat → length c = 17%nat → length d = 23%nat → length e = 16%nat →
    length f = 4%nat → overwrite 96 (le_bytes 4 pid) (overwrite 80 key (overwrite 40 asm_name
      (a ++ b ++ (c ++ d) ++ e ++ f ++ tail))) = a ++ b ++ (asm_name ++ d) ++ key ++ le_bytes 4 pid ++ tail) as H.
  { intros a b c d e f Hab Hc Hd He Hf. rewrite (app_assoc a), <- (app_assoc c), overwrite_app by done.
    rewrite (app_assoc asm_name), (app_assoc (a ++ b)).
    assert (length ((a ++ b) ++ asm_name ++ d) = 80%nat) as H80 by (rewrite !length_app in *; cbn; lia).
    rewrite overwrite_app by (done || congruence).
    rewrite (app_assoc _ key). rewrite overwrite_app; [by rewrite <- !app_assoc| |by rewrite le_bytes_length].
    rewrite (length_app _ key). lia. }
  apply H; try done. rewrite length_app, Hr. done.
Qed.

Lemma challenge_for_ok random : length random = 32%nat → challenge_ok (challenge_for random).
Proof. intros Hr. by split_and!. Qed.

Lemma answered_ok random key pid :
  length random = 32%nat → length key = 16%nat → is_i32 pid → challenge_ok (answered random key pid).
Proof. intros Hr Hk Hp. by split_and!. Qed.

Lemma enc_challenge_bytes c :
  bytes_ok (ch_signature c) → bytes_ok (ch_challenge c) → bytes_ok (ch_name c) → bytes_ok (ch_key c) →
  bytes_ok (ch_padding c) → bytes_ok (enc_challenge c).
Proof.
  intros H1 H2 H3 H4 H5. unfold enc_challenge, bytes_ok. rewrite !Forall_app. split_and!; try done; [apply le_bytes_ok|].
  repeat constructor; unfold byte_ok; lia.
Qed.

(** The padding behind the challenge does not matter. *)
Lemma dec_challenge_app b z : (214 ≤ length b)%nat → dec_challenge (b ++ z) = dec_challenge b.
Proof. intros Hl. unfold dec_challenge, i32_at. by rewrite !field_app_l by lia. Qed.

(** ** The enclave *)
Section enclave.
Context `{HCry : KernelCrypto} `{HSgx : Sgx} `{HSLaw : !SgxLaws} `{HLtc : LtcEnv} `{HLLaw : !LtcLaws}.
Context {W : Type} `{HUn : Untrusted W} (ekey lkey : LtcRsa.rsa_key).
Context (Hx : ∀ i, xalloc i = true) (Hio : rsa_interop ekey lkey).
Context (Hek : usable_key ekey) (Hlk : usable_key lkey) (Hblind : ∀ l, Z.gcd (blinding ekey l) (key_N ekey) = 1).
Implicit Type s : estate W.

(** The tables of the library before and after the first operation. *)
Definition table_of (name : string) : list (option string) := Some name :: replicate 33 None.
Definition tables_set (l : ltc) : Prop := hash_descriptor l = table_of "sha1" ∧ prng_descriptor l = table_of "sprng".
Definition tables_ok (l : ltc) : Prop :=
  (hash_descriptor l = empty_table ∧ prng_descriptor l = empty_table) ∨ tables_set l.

Lemma registers_ok l :
  tables_ok l → ∃ l1 l2, register_hash "sha1" l = Ok (0, l1) ∧ register_prng "sprng" l1 = Ok (0, l2) ∧ tables_set l2.
Proof.
  destruct l as [h p a b c]. intros [[Hh Hp]|[Hh Hp]]; cbn in Hh, Hp; subst h p.
  all: unfold register_hash, register_prng; cbn [hash_descriptor prng_descriptor].
  all: eexists _, _; split_and!; [vm_compute; reflexivity|vm_compute; reflexivity|done].
Qed.

(** Reading a key spends allocations only. *)
Lemma import_ok key keylen k s :
  yields (rsa_import key keylen) (CRYPT_OK, Live k) → tables_ok (e_ltc s) →
  ∃ l, in_ltc (rsa_import key keylen) s = Ok ((CRYPT_OK, Live k), put_ltc l s) ∧ tables_ok l.
Proof.
  intros Hy Ht. destruct (Hy (e_ltc s)) as [n E]. eexists. split; [unfold in_ltc; by rewrite E|]. exact Ht.
Qed.

Lemma enclave_rsa_decrypt_ok ps msg behind s :
  tables_ok (e_ltc s) → pads ps msg → (length msg ≤ 256)%nat → (length (epriv ekey) ≤ 1200)%nat →
  ∃ l, rsa_decrypt (rsa_cipher ekey (eme_block ps msg)) (epriv ekey ++ behind) (Z.of_nat (length (epriv ekey))) 256 s =
    Ok ((0, Some msg), put_ltc l s) ∧ tables_set l.
Proof.
  intros Ht [Hl H8 Hnz Hb H0] Hlen He.
  destruct (import_ok _ _ ekey s (import_private_key_ok Hx ekey behind (uk_private _ Hek) ltac:(unfold der_size; fold (epriv ekey); lia)) Ht)
    as (l0 & E0 & Ht0).
  destruct (registers_ok _ Ht0) as (l1 & l2 & E1 & E2 & Hset).
  unfold rsa_decrypt. rewrite (bind_ok _ _ _ _ _ E0). cbn [Z.eqb CRYPT_OK negb].
  erewrite (bind_ok (in_ltc _)); [|unfold in_ltc; cbn [put_ltc e_ltc]; by rewrite E1]. cbn [Z.ltb Z.compare].
  erewrite (bind_ok (in_ltc _)); [|unfold in_ltc; cbn [put_ltc e_ltc]; by rewrite E2]. cbn [Z.ltb Z.compare with_key].
  destruct (rsa_decrypt_ok ekey Hx Hek msg ps 256 l2) as (l3 & E3 & Hh & Hp);
    [rewrite (ri_esize _ _ Hio); lia|by rewrite (ri_esize _ _ Hio)|done|done|done|done|lia|done|].
  erewrite (bind_ok (in_ltc _)); [|unfold in_ltc; cbn [put_ltc e_ltc]; by rewrite E3].
  exists l3. split; [done|]. destruct Hset. split; congruence.
Qed.

Lemma enclave_rsa_encrypt_ok msg s :
  tables_ok (e_ltc s) → bytes_ok msg → (0 < length msg ≤ 245)%nat → length (lpub lkey) = 294%nat →
  ∃ l ps, rsa_encrypt msg (lpub lkey) 294 256 s = Ok ((0, Some (rsa_cipher lkey (eme_block ps msg))), put_ltc l s) ∧ pads ps msg.
Proof.
  intros Ht Hb Hlen Hlp. pose proof (import_spki_key_ok Hx lkey []) as Himp. unfold der_size in Himp. fold (lpub lkey) in Himp.
  rewrite app_nil_r, Hlp in Himp. destruct (import_ok _ _ (public_part lkey) s (Himp ltac:(lia)) Ht) as (l0 & E0 & Ht0).
  destruct (registers_ok _ Ht0) as (l1 & l2 & E1 & E2 & [Hh Hp]).
  unfold rsa_encrypt. change 294 with (Z.of_nat 294). rewrite (bind_ok _ _ _ _ _ E0). cbn [Z.eqb CRYPT_OK negb].
  erewrite (bind_ok (in_ltc _)); [|unfold in_ltc; cbn [put_ltc e_ltc]; by rewrite E1]. cbn [Z.ltb Z.compare].
  erewrite (bind_ok (in_ltc _)); [|unfold in_ltc; cbn [put_ltc e_ltc]; by rewrite E2]. cbn [Z.ltb Z.compare with_key].
  pose proof (ri_lsize _ _ Hio) as Hsz.
  destruct (rsa_encrypt_ok (public_part lkey) lkey Hx Hlk msg 256 0 l2) as (ps & l3 & E3 & Hl & H8 & Hnz);
    [done|by rewrite Hp|done|lia|lia|].
  erewrite (bind_ok (in_ltc _)); [|unfold in_ltc; cbn [put_ltc e_ltc]; by rewrite E3].
  exists l3, ps. split; [done|]. split; [lia|done|done|done|lia].
Qed.

Lemma challenge_bytes random :
  bytes_ok random → length random = 32%nat →
  bytes_ok (enc_challenge (challenge_for random)) ∧ length (enc_challenge (challenge_for random)) = 216%nat.
Proof.
  intros Hb Hl. split; [|apply enc_challenge_length; by apply challenge_for_ok].
  apply enc_challenge_bytes; cbn [ch_signature ch_challenge ch_name ch_key ch_padding challenge_for]; try done;
    [|apply Forall_replicate; unfold byte_ok; lia..].
  repeat constructor; unfold byte_ok; lia.
Qed.

Lemma answer_bytes random key pid :
  bytes_ok random → length random = 32%nat → bytes_ok key → length key = 16%nat → is_i32 pid →
  bytes_ok (enc_challenge (answered random key pid)) ∧ length (enc_challenge (answered random key pid)) = 216%nat.
Proof.
  intros Hb Hl Hk Hkl Hp. split; [|apply enc_challenge_length; by apply answered_ok].
  apply enc_challenge_bytes; cbn [ch_signature ch_challenge ch_name ch_key ch_padding answered]; try done.
  - repeat constructor; unfold byte_ok; lia.
  - repeat constructor; unfold byte_ok; lia.
  - apply Forall_replicate. unfold byte_ok. lia.
Qed.

(** The keys have been loaded. *)
Definition keys_in s : Prop :=
  (length (epriv ekey) ≤ 1200)%nat ∧ length (lpub lkey) = 294%nat ∧
  (∃ behind, enclave_key_priv s = epriv ekey ++ behind) ∧ enclave_key_priv_len s = Z.of_nat (length (epriv ekey)) ∧
  lsm_key_padded_pub s = lpub lkey.

(** The enclave answers a challenge of the module with a fresh key. *)
Lemma handle_kernel_challenge_ok random ps pid s :
  let key := sgx_rand (e_nrnd s) 16 in
  keys_in s → tables_ok (e_ltc s) →
  bytes_ok random → length random = 32%nat → is_i32 pid → pads ps (enc_challenge (challenge_for random)) →
  ∃ ps' s', handle_kernel_challenge (rsa_cipher ekey (eme_block ps (enc_challenge (challenge_for random)))) 256 pid s =
      Ok ((0, Some (rsa_cipher lkey (eme_block ps' (enc_challenge (answered random key pid))))), s') ∧
    pads ps' (enc_challenge (answered random key pid)) ∧
    aes_key s' = key ∧ ptoken_aes_key s' = key ∧ e_world s' = e_world s.
Proof.
  intros key (Hpl & Hlpl & [behind Hpriv] & Hplen & Hpub) Ht Hb Hl Hp Hpad. destruct (challenge_bytes random Hb Hl) as [_ Hcl].
  destruct (answer_bytes random key pid Hb Hl (sgx_rand_ok _ _) (sgx_rand_length _ _) Hp) as [Hab Hal].
  unfold handle_kernel_challenge. mred. rewrite Hpriv, Hplen. change (Z.of_nat _CITADEL_RSA_KEY_LENGTH) with 256.
  destruct (enclave_rsa_decrypt_ok ps _ behind s Ht Hpad) as (l1 & E1 & Ht1); [lia|done|].
  mstep E1. cbn [Z.eqb negb]. rewrite Hcl. change (216 =? sizeof citadel_challenge_fields)%nat with true. cbn [negb].
  rewrite dec_enc_challenge by (by apply challenge_for_ok). rewrite bytes_eqb_refl. cbn [negb].
  erewrite (bind_ok (sgx_read_rand _)) by done. change _CITADEL_AES_KEY_LENGTH with 16%nat.
  cbn [put_ltc e_nrnd]. fold key. mred. unfold set_ptoken_aes_key. mred.
  rewrite (take_ge key) by (unfold key; rewrite sgx_rand_length; lia).
  set (s2 := put_ptoken_key _ _). change (lsm_key_padded_pub s2) with (lsm_key_padded_pub s). rewrite Hpub.
  rewrite answer_challenge_eq by (done || apply sgx_rand_length).
  destruct (enclave_rsa_encrypt_ok (enc_challenge (answered random key pid)) s2) as (l2 & ps' & E2 & Hpad');
    [by right|done|lia|done|].
  change (Z.of_nat _CITADEL_KEY_PUB_PAD_LEN) with 294. mstep E2. cbn [Z.eqb negb default from_option id].
  assert (length (rsa_cipher lkey (eme_block ps' (enc_challenge (answered random key pid)))) = 256%nat) as Hlen
    by (unfold rsa_cipher; rewrite be_bytes_length, (ri_lsize _ _ Hio); done).
  change (_CITADEL_RSA_KEY_LENGTH <? 256)%nat with false. rewrite Hlen. change (256 <? 256)%nat with false. cbv iota.
  rewrite take_ge by (rewrite Hlen; lia). eexists ps', _. split; [reflexivity|]. by split_and!.
Qed.
End enclave.

(** ** The module *)
Section module.
Context `{HKer : Kernel} `{HKLaw : !KernelLaws} `{HRb : RbTree} `{HCry : KernelCrypto} `{HLaw : !CryptoLaws}.
Context (ekey lkey : LtcRsa.rsa_key) (Hio : rsa_interop ekey lkey).
Context (Hmem : ∀ n, kmem n = true).
Implicit Type k : kstate.

Lemma labels_only_trans k1 k2 k3 : labels_only k1 k2 → labels_only k2 k3 → labels_only k1 k3.
Proof. intros [] []. split; [congruence..|auto]. Qed.

(** A challenge encrypted for the enclave. *)
Lemma trm_rsa_encrypt_ok msg k :
  bytes_ok msg → (0 < length msg ≤ 245)%nat →
  ∃ ps n, pads ps msg ∧ trm_rsa_encrypt msg k = Ok (Some (rsa_cipher ekey (eme_block ps msg)), set_nmem n k).
Proof.
  intros Hb Hl. destruct (ri_encrypt _ _ Hio msg Hb Hl) as (ps & Hpad & Hw & Hout). exists ps.
  unfold trm_rsa_encrypt. erewrite (bind_ok kmalloc) by done. rewrite Hmem. cbn [negb].
  unfold trm_akcrypto_encrypt_pub, trm_akcrypto. rewrite akcipher_available. cbn [Z.eqb negb].
  rewrite bind_assoc. erewrite (bind_ok kmalloc) by done. rewrite Hmem. cbn [negb].
  unfold uf_akcrypto. rewrite bind_assoc. erewrite (bind_ok kmalloc) by done. rewrite Hmem. cbn [negb].
  rewrite bind_assoc. erewrite (bind_ok kmalloc) by done. rewrite Hmem. cbn [negb].
  destruct (Nat.ltb_spec PAGE_SIZE (length msg)); [unfold PAGE_SIZE in *; lia|]. cbv zeta.
  rewrite bind_assoc. erewrite (bind_ok (await _)); [|by apply await_ok]. cbn [Z.eqb negb].
  rewrite Hout, akcipher_size, fill_id by (unfold rsa_cipher; rewrite be_bytes_length, (ri_esize _ _ Hio); done).
  rewrite bind_assoc. erewrite (bind_ok (memcpy_out _ _)); [|apply memcpy_out_ok].
  2:{ unfold rsa_cipher. rewrite be_bytes_length, (ri_esize _ _ Hio). unfold PAGE_SIZE. lia. }
  mred. cbn [rsa_copy_out]. erewrite (bind_ok kmalloc_unchecked); [|by apply kmalloc_unchecked_ok].
  eexists. split; [done|reflexivity].
Qed.

(** The challenge file. *)
Lemma challenge_read_ok k :
  k_rsa_available k = true →
  let random := krand (k_nrnd k) 32 in
  ∃ ps k', pads ps (enc_challenge (challenge_for random)) ∧
    challenge_read 4096 0 true k =
      Ok (ReadResult 256 (rsa_cipher ekey (eme_block ps (enc_challenge (challenge_for random)))) 256, k') ∧
    labels_only k k' ∧ same_labels k k' ∧ k_pio k' = pio_set_challenge random (k_pio k).
Proof.
  intros Hrsa random. destruct (challenge_bytes random (krand_ok _ _) (krand_length _ _)) as [Hb Hl].
  unfold challenge_read, is_rsa_available. mred. rewrite Hrsa. cbn [negb]. unfold generate_challenge.
  rewrite bind_assoc. erewrite (bind_ok kmalloc) by done. rewrite Hmem. cbn [negb].
  rewrite bind_assoc. erewrite (bind_ok (get_random_bytes _)) by done. cbn [set_nmem k_nrnd].
  change _CITADEL_CHALLENGE_LENGTH with 32%nat. fold random. unfold set_pio_field. rewrite bind_assoc. mred.
  unfold to_hexstring_k. rewrite to_hexstring_some by (intros E; pose proof (krand_length (k_nrnd k) 32) as HL; fold random in HL; by rewrite E in HL).
  rewrite !bind_assoc. erewrite (bind_ok kmalloc_unchecked); [|by apply kmalloc_unchecked_ok]. mred.
  set (k1 := set_nmem _ (set_pio _ _)).
  destruct (trm_rsa_encrypt_ok (enc_challenge (challenge_for random)) k1 Hb ltac:(lia)) as (ps & n & Hpad & He).
  rewrite bind_assoc. mstep He. mred. cbn [read_len default from_option id]. mred.
  set (c := rsa_cipher _ _). assert (length c = 256%nat) as Hc
    by (unfold c, rsa_cipher; rewrite be_bytes_length, (ri_esize _ _ Hio); done).
  rewrite Hc. change (Z.of_nat 256 =? 0) with false. change ((0 >=? Z.of_nat 256) || (4096 =? 0)) with false. cbv iota.
  unfold copy_out. change (4096 <? Z.of_nat 256 - 0) with false. cbv iota zeta. rewrite Hc.
  change (Z.of_nat 256 <? Z.of_nat 256 - 0) with false. cbn [negb].
  change (Z.to_nat (Z.of_nat 256 - 0)) with 256%nat. rewrite take_ge by lia.
  exists ps, (set_nmem n k1). split_and!; [done|done|by split|by split|done].
Qed.

(** The answer is accepted: name, key and process number are registered. *)
Lemma challenge_receive_ok random key pid ps k :
  k_rsa_available k = true → current_challenge (k_pio k) = random →
  length random = 32%nat → length key = 16%nat → is_i32 pid → pads ps (enc_challenge (answered random key pid)) →
  ∃ k', challenge_receive (rsa_cipher lkey (eme_block ps (enc_challenge (answered random key pid)))) true k = Ok (256, k') ∧
    labels_only k k' ∧ same_labels k k' ∧ k_pio k' = pio_register (answered random key pid) (k_pio k).
Proof.
  intros Hrsa Hcur Hr Hk Hp Hpad. set (c := rsa_cipher _ _). assert (length c = 256%nat) as Hc
    by (unfold c, rsa_cipher; rewrite be_bytes_length, (ri_lsize _ _ Hio); done).
  unfold challenge_receive. rewrite Hc. change ((Z.of_nat 256 =? 0) || (Z.of_nat 256 >? CHALLENGE_MAX_SIZE)) with false.
  cbv iota zeta. unfold is_rsa_available. mred. rewrite Hrsa. cbn [negb].
  erewrite (bind_ok kmalloc) by done. rewrite Hmem. cbn [negb]. set (k1 := set_nmem _ k).
  destruct (process_challenge_response_ok c k1 Hmem Hc) as (n & He). mstep He. eexists. split; [reflexivity|].
  unfold registered_by, rsa_plain. destruct (ri_decrypt _ _ Hio _ _ Hpad) as [Hw Hout]. fold c in Hw, Hout.
  rewrite bool_decide_true, Hout by done. pose proof (answered_ok random key pid Hr Hk Hp) as Hok.
  pose proof (enc_challenge_length _ Hok) as Hl.
  replace (fill 256 _) with (enc_challenge (answered random key pid) ++ replicate 40 0)
    by (rewrite <- fill_app; by rewrite Hl).
  rewrite dec_challenge_app, dec_enc_challenge by (done || lia). cbn [answered ch_signature ch_challenge].
  rewrite bytes_eqb_refl. cbn [k1 set_nmem k_pio]. rewrite Hcur, bytes_eqb_refl. cbn [andb]. split_and!; [by split|by split|done].
Qed.
End module.

(** ** The daemon *)
Section daemon.
Context `{HKer : Kernel} `{HKLaw : !KernelLaws} `{HRb : RbTree} `{HCry : KernelCrypto} `{HLaw : !CryptoLaws}.
Context `{HSgx : Sgx} `{HSLaw : !SgxLaws} `{HGcm : !GcmInterop} `{HLtc : LtcEnv} `{HLLaw : !LtcLaws}.
Context (rest : DaemonOS) (resolve : bytes → option dentry) (daemon : task_struct).
Context (ekey lkey : LtcRsa.rsa_key) (Hio : rsa_interop ekey lkey).
Context (Hek : usable_key ekey) (Hlk : usable_key lkey) (Hblind : ∀ l, Z.gcd (blinding ekey l) (key_N ekey) = 1).
Context (Hx : ∀ i, xalloc i = true) (Hmem : ∀ n, kmem n = true).
Abbreviation OS := (machine rest resolve daemon).
Abbreviation kern_of := (SystemSpec.kern_of rest resolve daemon).
Abbreviation rest_of := (SystemServe.rest_of rest resolve daemon).
Implicit Types (d : @dstate OS) (k : kstate).

Definition kernel_of d : kstate := kern_of (d_enclave d).
Definition put_os (w : @os OS) d : @dstate OS :=
  put_enclave (put_world (Host OS w (h_errno (e_world (d_enclave d)))) (d_enclave d)) d.
Definition put_kernel k d : @dstate OS := put_os (k, rest_of d) d.

Lemma on_host_ok {A} (m : M (@host OS) A) d a w :
  m (e_world (d_enclave d)) = Ok (a, Host OS w (h_errno (e_world (d_enclave d)))) → on_host m d = Ok (a, put_os w d).
Proof. intros He. unfold on_host, ecall, ocall. by rewrite He. Qed.

Lemma call_ok c (h : @host OS) r w :
  machine_call rest resolve daemon c (h_os h) = Ok (r, w) → dr_ret r ≠ - 1 → call c h = Ok (r, Host OS w (h_errno h)).
Proof. intros He Hr. unfold call. cbn [dsys machine]. by rewrite He, (proj2 (Z.eqb_neq _ _) Hr). Qed.

(** Reading one of the module's files. *)
Lemma read_item_ok path size d r k :
  module_file path = true → module_read path (kernel_of d) = Ok (r, k) → 0 ≤ rr_ret r →
  read_item path size d = Ok ((true, take size (rr_copied r)), put_kernel k d).
Proof.
  intros Hf He Hr.
  assert (on_host (call_ret (d_fopen path "rb")) d = Ok (1, d)) as Hopen.
  { destruct d as [[? ? ? ? ? ? ? ? [w e]] ? ? ? ? ?].
    assert (call (d_fopen path "rb") (Host OS w e) = Ok (DRet 1 0 [], Host OS w e)) as Hcall
      by (apply call_ok; [cbn [machine_call]; by rewrite Hf|done]).
    unfold on_host, ecall, ocall, call_ret. cbn [d_enclave e_world]. by rewrite (bind_ok _ _ _ _ _ Hcall). }
  assert (sys (d_read_file path size) d = Ok (DRet (rr_ret r) 0 (take size (rr_copied r)), put_kernel k d)) as Hread.
  { apply on_host_ok, call_ok; [|cbn; lia]. cbn [machine_call]. rewrite Hf.
    erewrite bind_ok; [|unfold in_kernel; unfold kernel_of, SystemSpec.kern_of, kern in He; by rewrite He].
    unfold mret, M_ret, sys_result. by destruct (Z.ltb_spec (rr_ret r) 0); [lia|]. }
  unfold read_item. mstep Hopen. cbn [Z.eqb]. by mstep Hread.
Qed.

(** Writing to it. *)
Lemma write_module_ok path data d ret k :
  module_file path = true → (0 < length data < 4096)%nat → module_write path data (kernel_of d) = Ok (ret, k) →
  ∃ e, on_host (write_item path data) d = Ok (1, put_enclave (put_world (Host OS (k, rest_of d) e) (d_enclave d)) d).
Proof.
  intros Hf Hl He. destruct (write_item_eq rest resolve daemon path data (e_world (d_enclave d)) Hf Hl) as (e & Hw).
  change (kern rest resolve daemon (e_world (d_enclave d))) with (kernel_of d) in Hw. rewrite He in Hw.
  exists (if ret <? 0 then - ret else e). unfold on_host, ecall, ocall. by rewrite Hw.
Qed.

(** The buffer that a complete read leaves. *)
Lemma read_buffer_full out size d :
  length out = size → ∃ d', read_buffer out size d = Ok (out, d') ∧ d_enclave d' = d_enclave d.
Proof.
  intros <-. unfold read_buffer. erewrite (bind_ok (uninitialised _)) by done. rewrite take_app_length. by eexists.
Qed.

Lemma getpid_ok d mypid o :
  dsys d_getpid (rest_of d) = Ok (DRet mypid 0 [], o) → mypid ≠ - 1 →
  sys d_getpid d = Ok (DRet mypid 0 [], put_os (kernel_of d, o) d).
Proof.
  intros He Hp. apply on_host_ok, call_ok; [|done]. cbn [machine_call]. unfold in_rest.
  unfold SystemServe.rest_of in He. by rewrite He.
Qed.

(** The exchange of challenge and answer. *)
Lemma perform_registration_ok d o mypid :
  let key := sgx_rand (e_nrnd (d_enclave d)) 16 in
  dsys d_getpid (rest_of d) = Ok (DRet mypid 0 [], o) → is_pid mypid → k_rsa_available (kernel_of d) = true →
  keys_in ekey lkey (d_enclave d) → tables_ok (e_ltc (d_enclave d)) →
  ∃ d' random, perform_registration d = Ok (true, d') ∧
    Enclave.aes_key (d_enclave d') = key ∧ Enclave.ptoken_aes_key (d_enclave d') = key ∧
    labels_only (kernel_of d) (kernel_of d') ∧ same_labels (kernel_of d) (kernel_of d') ∧
    k_pio (kernel_of d') = pio_register (answered random key mypid) (pio_set_challenge random (k_pio (kernel_of d))).
Proof.
  intros key Hpid Hp Hrsa Hkeys Ht. unfold is_pid in Hp.
  unfold perform_registration. erewrite (bind_ok (sys _)); [|apply getpid_ok; [exact Hpid|lia]]. cbn [dr_ret].
  set (d1 := put_os _ d). change (kernel_of d) with (kernel_of d1) in Hrsa.
  destruct (challenge_read_ok ekey lkey Hio Hmem (kernel_of d1) Hrsa) as (ps & k2 & Hpad & Hread & Hlo & Hsl & Hpio).
  set (random := krand (k_nrnd (kernel_of d1)) 32) in *. set (c := rsa_cipher ekey _) in Hread.
  assert (length c = 256%nat) as Hc by (unfold c, rsa_cipher; rewrite be_bytes_length, (ri_esize _ _ Hio); done).
  erewrite (bind_ok (read_item _ _)); [|apply (read_item_ok _CITADEL_LSM_CHALLENGE_PATH _ d1 _ k2 eq_refl Hread); done].
  cbn [rr_copied negb]. rewrite take_ge by (rewrite Hc; done). set (d2 := put_kernel k2 d1).
  destruct (read_buffer_full c _CITADEL_RSA_KEY_LENGTH d2 Hc) as (d3 & E3 & He3). mstep E3.
  rewrite int32_id by lia.
  destruct (handle_kernel_challenge_ok ekey lkey Hx Hio Hek Hlk Hblind random ps mypid (d_enclave d3))
    as (ps' & s4 & E4 & Hpad' & Hk4 & Hpk4 & Hw4);
    [rewrite He3; done|rewrite He3; done|apply krand_ok|apply krand_length|unfold is_i32; lia|done|].
  fold c in E4. rewrite He3 in E4, Hpad', Hk4, Hpk4, Hw4. change (sgx_rand (e_nrnd (d_enclave d2)) 16) with key in *.
  erewrite (bind_ok (ecall _)); [|unfold ecall; rewrite He3; change _CITADEL_RSA_KEY_LENGTH with 256%nat; by rewrite E4].
  cbn [default from_option id]. set (d4 := put_enclave s4 d3).
  assert (kernel_of d4 = k2) as Hk2 by (unfold kernel_of, SystemSpec.kern_of, d4; cbn [put_enclave d_enclave]; by rewrite Hw4).
  set (resp := rsa_cipher lkey _). assert (length resp = 256%nat) as Hr
    by (unfold resp, rsa_cipher; rewrite be_bytes_length, (ri_lsize _ _ Hio); done).
  destruct (challenge_receive_ok ekey lkey Hio Hmem random key mypid ps' k2) as (k5 & E5 & Hlo5 & Hsl5 & Hpio5);
    [by rewrite (lo_rsa _ _ Hlo)|by rewrite Hpio|apply krand_length|apply sgx_rand_length|unfold is_i32; lia|done|].
  destruct (write_module_ok _CITADEL_LSM_CHALLENGE_PATH resp d4 256 k5 eq_refl) as (e & E6); [lia|by rewrite Hk2|].
  unfold send_registration. mstep E6. eexists _, random. split; [reflexivity|].
  cbn [put_enclave d_enclave put_world Enclave.aes_key Enclave.ptoken_aes_key d4]. split_and!; [done|done| | |].
  - change (kernel_of _) with k5 at 2. by eapply labels_only_trans.
  - change (kernel_of _) with k5 at 2. by eapply same_labels_trans.
  - change (kernel_of _) with k5 at 1. by rewrite Hpio5, Hpio.
Qed.

(** ** The sealed keys *)

(** What the preparatory enclave sealed: the length and the private key of the
    enclave, its public key twice, and the public key of the module twice. *)
Definition key_file (epub_padded epub lpub_short : bytes) : bytes :=
  le_bytes 2 (Z.of_nat (length (epriv ekey))) ++ epriv ekey ++ epub_padded ++ epub ++ lpub lkey ++ lpub_short.

Record sealed_keys : Prop := SealedKeys {
  sk_size : (0 < length enclave_keys_sealed ≤ 4096)%nat;
  sk_unseal : ∃ epub_padded epub lpub_short,
    (length (epriv ekey) ≤ 1200)%nat ∧ length epub_padded = 294%nat ∧ length epub = 270%nat ∧
    length (lpub lkey) = 294%nat ∧ length lpub_short = 270%nat ∧
    ∀ junk, sgx_unseal_data (take 4096 (enclave_keys_sealed ++ junk)) (length (cstring _CITADEL_SEAL_MAC)) _CITADEL_SEAL_MAXSIZE =
      (0, key_file epub_padded epub lpub_short) }.

Lemma copy_from_ok {W : Type} (pre b post : bytes) off len cap (s : estate W) :
  length pre = off → length b = len → (len ≤ cap)%nat → copy_from (pre ++ b ++ post) off len cap s = Ok (b, s).
Proof.
  intros <- <- Hc. unfold copy_from. rewrite (proj2 (Nat.ltb_ge _ _) Hc).
  rewrite (proj2 (Nat.ltb_ge _ _)) by (rewrite !length_app; lia). unfold field. by rewrite drop_app_length, take_app_length.
Qed.

Definition keys_put {W : Type} (s : estate W) : estate W :=
  put_keys (overwrite 0 (epriv ekey) (enclave_key_priv s)) (Z.of_nat (length (epriv ekey))) (lpub lkey) s.

Lemma process_sealed_keys_ok {W : Type} data a b c (s : estate W) :
  (length (epriv ekey) ≤ 1200)%nat → length a = 294%nat → length b = 270%nat → length (lpub lkey) = 294%nat → length c = 270%nat →
  sgx_unseal_data data (length (cstring _CITADEL_SEAL_MAC)) _CITADEL_SEAL_MAXSIZE = (0, key_file a b c) → process_sealed_keys data s = Ok (0, keys_put s).
Proof.
  intros He Ha Hb Hl Hc Hu. unfold process_sealed_keys. rewrite Hu. cbn [Z.eqb negb]. unfold key_file, keys_put.
  generalize dependent (epriv ekey). generalize dependent (lpub lkey). intros lpub Hl epriv He.
  set (n2 := le_bytes 2 (Z.of_nat (length epriv))). assert (length n2 = 2%nat) as H2 by apply le_bytes_length.
  erewrite (bind_ok (copy_from _ _ _ _)); [|apply (copy_from_ok [] n2); (done || lia)]. cbv zeta.
  assert (Z.to_nat (le_value n2) = length epriv) as -> by (unfold n2; rewrite u16_bytes; [lia|unfold is_u16; lia]).
  erewrite (bind_ok (copy_from _ _ _ _)); [|apply (copy_from_ok n2 epriv); (done || lia)].
  rewrite (app_assoc n2).
  erewrite (bind_ok (copy_from _ _ _ _)); [|apply (copy_from_ok (n2 ++ epriv) a); (rewrite ?length_app; done || lia)].
  rewrite (app_assoc (n2 ++ epriv)).
  erewrite (bind_ok (copy_from _ _ _ _)); [|apply (copy_from_ok ((n2 ++ epriv) ++ a) b); (rewrite ?length_app, ?Ha; done || lia)].
  rewrite (app_assoc ((n2 ++ epriv) ++ a)).
  erewrite (bind_ok (copy_from _ _ _ _)); [|apply (copy_from_ok (((n2 ++ epriv) ++ a) ++ b) lpub); (rewrite ?length_app, ?Ha, ?Hb; done || lia)].
  rewrite <- (app_nil_r c), (app_assoc (((n2 ++ epriv) ++ a) ++ b)).
  erewrite (bind_ok (copy_from _ _ _ _)); [|apply (copy_from_ok ((((n2 ++ epriv) ++ a) ++ b) ++ lpub) c); (rewrite ?length_app, ?Ha, ?Hb, ?Hl; done || lia)].
  done.
Qed.

Lemma sealed_keys_read_ok k :
  (0 < length enclave_keys_sealed ≤ 4096)%nat →
  sealed_keys_read 4096 0 true k =
  Ok (ReadResult (Z.of_nat (length enclave_keys_sealed)) enclave_keys_sealed (Z.of_nat (length enclave_keys_sealed)), k).
Proof.
  intros Hl. unfold sealed_keys_read, copy_out. destruct (Z.geb_spec 0 (Z.of_nat (length enclave_keys_sealed))); [lia|].
  rewrite Z.sub_0_r. destruct (Z.ltb_spec 4096 (Z.of_nat (length enclave_keys_sealed))); [lia|]. rewrite Z.ltb_irrefl.
  cbn [negb]. rewrite Nat2Z.id, take_ge by lia. done.
Qed.

Lemma fetch_sealed_keys_ok d :
  sealed_keys → ∃ d', fetch_sealed_keys d = Ok (true, d') ∧ d_enclave d' = keys_put (d_enclave d).
Proof.
  intros [Hsz (a & b & c & He & Ha & Hb & Hl & Hc & Hu)]. unfold fetch_sealed_keys.
  erewrite (bind_ok (read_item _ _)); [|apply (read_item_ok _CITADEL_SEALED_KEYS_PATH _ d _ (kernel_of d) eq_refl
    (sealed_keys_read_ok _ Hsz)); cbn; lia].
  cbn [rr_copied negb]. change _CITADEL_SEAL_MAXSIZE with 4096%nat. rewrite take_ge by lia. set (d1 := put_kernel _ d).
  unfold read_buffer. rewrite bind_assoc. erewrite (bind_ok (uninitialised _)) by done. mred.
  erewrite (bind_ok (ecall _)); [|unfold ecall; by rewrite (process_sealed_keys_ok _ a b c _ He Ha Hb Hl Hc (Hu _))].
  eexists. split; [reflexivity|]. by destruct d as [[? ? ? ? ? ? ? ? [[] ?]] ? ? ? ? ?].
Qed.

Lemma keys_put_in {W : Type} (s : estate W) : sealed_keys → keys_in ekey lkey (keys_put s).
Proof.
  intros [_ (a & b & c & He & _ & _ & Hl & _)]. split_and!; [done|done| |done|done].
  exists (drop (length (epriv ekey)) (enclave_key_priv s)). cbn. unfold overwrite. by rewrite take_0.
Qed.

(** What start-up needs besides the keys: the RSA cipher of the module has been
    tested, files have blobs, and the ticket cache is well formed. *)
Record bootable A k : Prop := Bootable {
  bt_rsa : k_rsa_available k = true;
  bt_refines : refines k A;
  bt_files : files_known resolve k }.

(** What the module has on the socket of the daemon, if it knew the file and the
    disk took the label: the identifier that is reserved for the enclave, in the
    blob and on the disk. *)
Definition socket_labelled k k' : Prop := ∀ de ino lab D1,
  let id := replicate 16 0xFF in
  resolve (cstring _CITADEL_IPC_FILE) = Some de → known_file k de ino lab →
  vfs_setxattr_noperm (k_disk k) de _CITADEL_XATTR_IDENTIFIER (hex_body id) = (0, D1) →
  ∃ lab', known_file k' de ino lab' ∧ carries id lab' ∧ k_disk k' = (vfs_setxattr_noperm D1 de _CITADEL_XATTR_IN_REALM []).2.

(** C8: the daemon registers the enclave.  Once the socket is there, a daemon
    whose sealed keys unseal fetches them from the module, answers the module's
    challenge with a fresh key, and has its socket labelled, without a fault; then
    the enclave and the module share the session key and the key of the process
    tokens, the module knows the process number of the daemon, its ticket cache is
    the one it had, and the socket carries the identifier of the enclave. *)
Theorem daemon_registers d d0 A o mypid fd :
  initialise_socket d = Ok ((0, fd), d0) → sealed_keys → (12 ≤ frame_slack)%nat →
  bootable A (kernel_of d0) → tables_ok (e_ltc (d_enclave d0)) →
  dsys d_getpid (rest_of d0) = Ok (DRet mypid 0 [], o) → is_pid mypid →
  ∃ d', start_daemon d = Ok ((0, true, fd), d') ∧
    in_step rest resolve daemon (d_enclave d') A ∧ enclave_pid (k_pio (kernel_of d')) = mypid ∧
    Enclave.ptoken_aes_key (d_enclave d') = sgx_rand (e_nrnd (d_enclave d0)) 16 ∧
    socket_labelled (kernel_of d0) (kernel_of d').
Proof.
  intros Hinit Hsk Hslack [Hrsa Href Hfiles] Ht Hpid Hp. unfold start_daemon, lsm_register. mstep Hinit. cbn [Z.eqb negb].
  destruct (fetch_sealed_keys_ok d0 Hsk) as (d1 & E1 & He1). mstep E1. cbn [negb].
  assert (kernel_of d1 = kernel_of d0) as Hk1 by (unfold kernel_of; by rewrite He1).
  destruct (perform_registration_ok d1 o mypid) as (d2 & random & E2 & Hkey & Hpk & Hlo & Hsl & Hpio);
    [unfold SystemServe.rest_of; by rewrite He1|done|by rewrite Hk1|rewrite He1; by apply keys_put_in|by rewrite He1|].
  rewrite bind_assoc. mstep E2. mred. rewrite He1 in Hkey, Hpk, Hpio. rewrite Hk1 in Hlo, Hsl, Hpio. cbn [keys_put put_keys e_nrnd] in Hkey, Hpk, Hpio.
  set (key := sgx_rand (e_nrnd (d_enclave d0)) 16) in *.
  assert (length key = 16%nat) as Hl by apply sgx_rand_length.
  assert (in_step rest resolve daemon (d_enclave d2) A) as Hs.
  { unfold kernel_of in Hpio. split; [|by rewrite Hpk, Hpio|by rewrite Hpk]. split; rewrite ?Hpio, ?Hkey; try done.
    - by rewrite <- Hrsa, <- (lo_rsa _ _ Hlo).
    - by eapply labels_only_refines.
    - intros path de Hres. destruct (Hfiles _ _ Hres) as (a & Ha & Hs). exists a. split; [done|]. by apply (lo_inodes _ _ Hlo). }
  destruct (wp_elim _ _ _ (label_step rest resolve daemon Hmem Hslack mypid _CITADEL_IPC_FILE true true (d_enclave d2) A eq_refl Hs))
    as ([ok id] & s3 & E3 & _ & Hst).
  erewrite (bind_ok (ecall protect_socket)).
  2:{ unfold ecall, protect_socket, generate_xattr_ticket_internal. rewrite bind_assoc. mstep E3. reflexivity. }
  unfold identifier_cache_setup. mred. eexists. split; [reflexivity|]. cbn [d_enclave put_enclave]. split_and!.
  - exact (st_in_step _ _ _ _ _ _ _ _ Hst).
  - unfold kernel_of. cbn [d_enclave]. rewrite (st_enclave _ _ _ _ _ _ _ _ Hst). unfold kernel_of in Hpio. by rewrite Hpio.
  - by rewrite (st_ptoken _ _ _ _ _ _ _ _ Hst).
  - intros de ino lab D1 id0 Hres [? ? ? Hlab ? ? ?] HD. unfold kernel_of in Hsl, Hlab, HD.
    destruct Hsl as [Hsi Hsd _]. rewrite <- Hsi in Hlab. rewrite <- Hsd in HD.
    destruct (label_granted rest resolve daemon Hmem Hslack true _CITADEL_IPC_FILE de ino lab D1 (d_enclave d2) A
      Hs eq_refl Hres ltac:(by split) HD) as (s4 & lab' & E4 & _ & [Hkn Hca _] & Hdk & _).
    rewrite E3 in E4. injection E4 as -> -> <-. by exists lab'.
Qed.
End daemon.
