(* ===== verification/PreparatoryTheorems.v ===== *)
(** * From the preparatory enclave to the registration

    The keys that the tool seals are those that the enclave of the daemon loads;
    and they stay behind in the clear. *)

From S2P Require Import Prelude Shared Hex RBTree Kernel Ring Tickets TicketsSpec CacheModel Access.
From S2P Require Import Crypto PayloadIO FileIO Shm Hooks AccessSpec LabelSpec ProtocolSpec ProtocolTheorems.
From S2P Require Import Ltc LtcRsa LtcSpec LtcTheorems Der DerSeq LtcKeys DerSpec DerPrims DerBits DerOid DerSafety DerSeqSpec LtcKeysSpec.
From S2P Require Import Enclave Daemon EnclaveSpec System SystemSpec SystemTheorems Registration Preparatory.

(** What sealed data promise: a blob of the computed size, which unseals to the
    data on the same machine into buffers that are large enough, whatever lies
    behind it in memory. *)
Class SealLaws `{Sealer} `{Sgx} := {
  sealed_size text data blob : sgx_seal_data text data = (0, blob) →
    Z.of_nat (length blob) = sgx_calc_sealed_data_size (Z.of_nat (length text)) (Z.of_nat (length data));
  sealed_opens text data blob junk mac_len plaintext_len : sgx_seal_data text data = (0, blob) →
    (length text ≤ mac_len)%nat → (length data ≤ plaintext_len)%nat →
    sgx_unseal_data (blob ++ junk) mac_len plaintext_len = (0, data);
}.

(** ** Numbers on the command line *)
Definition digit (c : Z) : Prop := 48 ≤ c ≤ 57.
Lemma atoi_snoc s c n : Forall digit s → digit c → atoi_digits (s ++ [c]) n = 10 * atoi_digits s n + (c - 48).
Proof.
  intros Hs Hc. revert n. induction Hs as [|x s Hx _ IH]; intros n; cbn [app atoi_digits]; unfold digit in *.
  - by destruct (Z.leb_spec 48 c), (Z.leb_spec c 57); try lia.
  - destruct (Z.leb_spec 48 x), (Z.leb_spec x 57); try lia. apply IH.
Qed.
Lemma atoi_decimal d n :
  0 ≤ n < 10 ^ Z.of_nat d → (0 < d)%nat → Forall digit (decimal d n) ∧ atoi_digits (decimal d n) 0 = n ∧ decimal d n ≠ [].
Proof.
  revert n. induction d as [|d IH]; intros n Hn Hd; [lia|]. cbn [decimal]. destruct (Z.ltb_spec n 10).
  - split_and!; [repeat constructor; lia| |done]. cbn. destruct (Z.leb_spec 48 (48 + n)), (Z.leb_spec (48 + n) 57); cbn; lia.
  - rewrite Nat2Z.inj_succ, Z.pow_succ_r in Hn by lia. destruct d as [|d]; [cbn in Hn; lia|].
    destruct (IH (n / 10)) as (H1 & H2 & H3); [split; [apply Z.div_pos; lia|apply Z.div_lt_upper_bound; lia]|lia|].
    pose proof (Z.mod_pos_bound n 10 ltac:(lia)). pose proof (Z.div_mod n 10 ltac:(lia)).
    split_and!; [apply Forall_app; split; [done|repeat constructor; lia]| |by destruct (decimal (S d) (n / 10))].
    rewrite atoi_snoc, H2 by (done || unfold digit; lia). lia.
Qed.

Section tool.
Context `{HSeal : Sealer}.
Lemma atoi_ok n (s : tool) : 0 ≤ n < 2 ^ 16 → atoi (decimal 5 n) s = Ok (n, s).
Proof.
  intros Hn. destruct (atoi_decimal 5 n) as (Hd & Ha & Hne); [change (10 ^ Z.of_nat 5) with 100000; lia|lia|]. unfold atoi.
  destruct (decimal 5 n) as [|c l]; [done|]. apply Forall_cons in Hd as [Hc _]. unfold digit in Hc.
  assert (skip_space (c :: l) = c :: l) as ->.
  { cbn [skip_space]. unfold is_space. destruct (Z.eqb_spec c 32), (Z.leb_spec 9 c), (Z.leb_spec c 13); (done || lia). }
  replace (match c :: l with 45 :: s => - atoi_digits s 0 | 43 :: s => atoi_digits s 0 | s => atoi_digits s 0 end) with n.
  2:{ rewrite <- Ha. assert (c = 48 ∨ c = 49 ∨ c = 50 ∨ c = 51 ∨ c = 52 ∨ c = 53 ∨ c = 54 ∨ c = 55 ∨ c = 56 ∨ c = 57) as Hcs by lia.
      by repeat destruct Hcs as [->|Hcs]; subst. }
  rewrite int32_id by lia. by rewrite Z.eqb_refl.
Qed.

(** What the tool needs of the machine. *)
Record tool_ready (enclave_path datafile : bytes) : Prop := {
  tr_enclave : sgx_create_enclave enclave_path = 0;
  tr_malloc n : tool_malloc n = true;
  tr_inside n : prep_malloc n = true;
  tr_read : may_read datafile = true;
  tr_copy : may_write plain_copy_path = true ∧ write_fails plain_copy_path = false;
  tr_sealed : may_write (datafile ++ sealed_suffix) = true ∧ write_fails (datafile ++ sealed_suffix) = false }.

Lemma write_ok path buf (s : tool) :
  may_write path = true → write_fails path = false → buf ≠ [] → ∃ s', write_buf_to_file path buf 0 s = Ok (true, s') ∧
    t_files s' = <[path := buf]> (t_files s).
Proof.
  intros Hw Hf Hb. unfold write_buf_to_file. destruct (Nat.eqb_spec (length buf) 0) as [E|]; [by apply nil_length_inv in E|].
  rewrite Hw, Hf. cbn [negb]. mred. eexists. split; [reflexivity|]. cbn. by rewrite insert_insert_eq.
Qed.

Lemma seal_and_save_ok `{HSgx : Sgx} `{HLaw : !SealLaws} path datafile preamble data blob s :
  tool_ready path datafile → t_files s !! datafile = Some data → data ≠ [] → Z.of_nat (length data) < 2 ^ 31 →
  let plain := le_bytes 2 preamble ++ data in
  sgx_seal_data aad_mac_text plain = (0, blob) → Z.of_nat (length blob) < UINT32_MAX → blob ≠ [] →
  plain_copy_path ≠ datafile ++ sealed_suffix →
  ∃ s', seal_and_save_data path datafile preamble s = Ok (true, s') ∧
    t_files s' !! (datafile ++ sealed_suffix) = Some blob ∧ t_files s' !! plain_copy_path = Some plain.
Proof.
  intros [He Hm Hi Hrd [Hc1 Hc2] [Hs1 Hs2]] Hf Hne Hl plain Hseal Hb Hbne Hpath.
  pose proof (sealed_size _ _ _ Hseal) as Hsz. assert (0 < length data)%nat as Hpos by (destruct data; [done|cbn; lia]).
  assert (length plain = 2 + length data)%nat as Hpl by (unfold plain; rewrite length_app, le_bytes_length; lia).
  unfold seal_and_save_data, initialize_enclave. rewrite He. cbn [Z.eqb SGX_SUCCESS negb].
  unfold get_file_size. mred. rewrite Hf, Hrd. destruct (Z.eqb_spec (Z.of_nat (length data)) 0); [lia|].
  erewrite (bind_ok malloc) by done. rewrite Hm. cbn [negb].
  unfold read_file_to_buf. destruct (Z.eqb_spec (Z.of_nat (length data)) 0); [lia|]. mred. cbn [t_files]. rewrite Hf, Hrd, Z.leb_refl.
  cbn [andb]. rewrite Nat2Z.id, (take_ge data) by lia. fold plain.
  assert (uint64 (Z.of_nat (length data) + 2) = Z.of_nat (length plain)) as -> by (rewrite Hpl; unfold uint64; rewrite Z.mod_small; lia).
  assert (uint32 (Z.of_nat (length plain)) = Z.of_nat (length plain)) as -> by (rewrite Hpl; unfold uint32; rewrite Z.mod_small; lia).
  assert (plain ≠ []) as Hpne by (intros E; rewrite E in Hpl; cbn in Hpl; lia).
  set (s1 := Tool _ _ _). destruct (write_ok plain_copy_path plain s1 Hc1 Hc2 Hpne) as (s2 & E2 & Hf2). mstep E2. cbv zeta.
  unfold get_sealed_data_size at 1 2. rewrite <- Hsz. destruct (Z.eqb_spec (Z.of_nat (length blob)) UINT32_MAX); [lia|].
  erewrite (bind_ok malloc) by done. rewrite Hm. cbn [negb]. rewrite Nat2Z.id, take_ge by lia.
  set (s3 := Tool _ _ _).
  assert (seal_data plain (Z.of_nat (length blob)) s3 = Ok ((0, blob), Tool (t_files s3) (t_nmalloc s3) (S (t_nprep s3)))) as E3.
  { unfold seal_data, get_sealed_data_size. rewrite <- Hsz. destruct (Z.eqb_spec (Z.of_nat (length blob)) UINT32_MAX); [lia|].
    rewrite Z.ltb_irrefl. erewrite (bind_ok malloc_inside) by done. rewrite Hi, Hseal. cbn [negb Z.eqb SGX_SUCCESS].
    unfold overwrite. rewrite Nat2Z.id, (fill_id blob), take_0 by done. cbn [app Nat.add].
    rewrite drop_ge, app_nil_r by (rewrite length_replicate; lia). done. }
  mstep E3. cbn [Z.eqb negb].
  destruct (write_ok (datafile ++ sealed_suffix) blob (Tool (t_files s3) (t_nmalloc s3) (S (t_nprep s3))) Hs1 Hs2 Hbne) as (s4 & E4 & Hf4).
  exists s4. split; [exact E4|]. rewrite Hf4. cbn [t_files s3]. split; [apply lookup_insert_eq|].
  rewrite lookup_insert_ne by done. rewrite Hf2. apply lookup_insert_eq.
Qed.
End tool.

Section keys.
Context `{HSeal : Sealer} `{HSgx : Sgx} `{HLaw : !SealLaws} `{HCry : KernelCrypto}.

(** The short form of a key of 2048 bits is what dd cuts out of the padded one. *)
Lemma cut_prefix_ok k : rsa2048 k → cut_prefix (der (spki_value k)) = der (public_value k).
Proof. intros Hk. rewrite (spki_2048 k Hk). done. Qed.
Lemma key_lengths k : rsa2048 k → length (der (spki_value k)) = 294%nat ∧ length (cut_prefix (der (spki_value k))) = 270%nat.
Proof. intros Hk. rewrite cut_prefix_ok, spki_2048, length_app, public_2048 by done. done. Qed.

(** C9: the keys that are sealed are the keys that are loaded.  Run on the key
    file of generate_keys.sh for two keys of 2048 bits, the tool exits with 0 and
    leaves a sealed file, from which the enclave's [process_sealed_keys] loads the
    private key of the first and the public key of the second, whatever lies behind
    it in the buffer; a module built with that file satisfies what [daemon_registers]
    assumes of it.  The same run leaves the private key of the enclave, unsealed,
    in "/opt/abcd". *)
Theorem sealed_keys_are_loaded ekey lkey path datafile blob s :
  tool_ready path datafile → t_files s !! datafile = Some (enclave_keys ekey lkey) → plain_copy_path ≠ datafile ++ sealed_suffix →
  rsa2048 ekey → rsa2048 lkey → (0 < length (epriv ekey) ≤ 1200)%nat →
  let n := Z.of_nat (length (epriv ekey)) in
  let plain := le_bytes 2 n ++ enclave_keys ekey lkey in
  sgx_seal_data aad_mac_text plain = (0, blob) → (0 < length blob ≤ 4096)%nat →
  ∃ s', main [path; datafile; decimal 5 n] s = Ok (0, s') ∧
    t_files s' !! (datafile ++ sealed_suffix) = Some blob ∧
    (∀ W (e : estate W) junk, process_sealed_keys (take 4096 (blob ++ junk)) e =
       Ok (0, put_keys (overwrite 0 (epriv ekey) (enclave_key_priv e)) n (lpub lkey) e)) ∧
    (enclave_keys_sealed = blob → sealed_keys ekey lkey) ∧
    t_files s' !! plain_copy_path = Some plain.
Proof.
  intros Hready Hf Hpath He Hl Hp n plain Hseal Hb.
  destruct (key_lengths ekey He) as [He1 He2]. destruct (key_lengths lkey Hl) as [Hl1 Hl2].
  assert (length (enclave_keys ekey lkey) = length (epriv ekey) + 1128)%nat as Hlen.
  { unfold enclave_keys. fold (epriv ekey). rewrite !length_app, He1, He2, Hl1, Hl2. lia. }
  assert (uint16 n = n) as Hn by (unfold uint16, n; apply Z.mod_small; lia).
  assert (enclave_keys ekey lkey ≠ []) as Hne by (intros E; rewrite E in Hlen; cbn in Hlen; lia).
  assert (blob ≠ []) as Hbne by (intros ->; cbn in Hb; lia).
  destruct (seal_and_save_ok path datafile n (enclave_keys ekey lkey) blob s Hready Hf Hne ltac:(lia) Hseal
    ltac:(unfold UINT32_MAX; lia) Hbne Hpath) as (s' & E & Hs & Hc).
  assert (∀ junk, sgx_unseal_data (take 4096 (blob ++ junk)) (length (cstring _CITADEL_SEAL_MAC)) _CITADEL_SEAL_MAXSIZE = (0, plain)) as Hun.
  { intros junk. rewrite take_app_ge by lia. apply (sealed_opens aad_mac_text); [done|done|].
    unfold plain. rewrite length_app, le_bytes_length, Hlen. unfold _CITADEL_SEAL_MAXSIZE. lia. }
  exists s'. split_and!; [|done| | |done].
  - unfold main. erewrite bind_ok; [|apply atoi_ok; lia]. rewrite Hn. by mstep E.
  - intros W e junk. apply (process_sealed_keys_ok ekey lkey _ (der (spki_value ekey)) (cut_prefix (der (spki_value ekey)))
      (cut_prefix (der (spki_value lkey)))); [lia|done..|apply Hun].
  - intros Hk. split; [rewrite Hk; lia|].
    exists (der (spki_value ekey)), (cut_prefix (der (spki_value ekey))), (cut_prefix (der (spki_value lkey))).
    split_and!; [lia|done|done|done|done|]. intros junk. rewrite Hk. apply Hun.
Qed.
End keys.
