(* ===== verification/DaemonTheorems.v ===== *)
(** * Properties of the daemon

    The translation of paths to identifiers, the loop that reads requests, and the
    life of the process. *)

From S2P Require Import Prelude Shared Hex Ltc LtcRsa Enclave Daemon.

Section theorems.
Context `{HOs : DaemonOS} `{HSgx : Sgx} `{HLtc : LtcEnv}.
Context (policy : Z → citadel_op_request → option bytes → Z).
Implicit Type d : dstate.

Definition world_of d : os := h_os (e_world (d_enclave d)).

(** A system call that succeeds. *)
Definition after (o : os) d : dstate :=
  put_enclave (put_world (Host _ o (h_errno (e_world (d_enclave d)))) (d_enclave d)) d.

Lemma sys_ok c d r o : dsys c (world_of d) = Ok (r, o) → dr_ret r ≠ - 1 → sys c d = Ok (r, after o d).
Proof.
  intros He Hr. unfold sys, on_host, ecall, ocall, call. unfold world_of in He. by rewrite He, (proj2 (Z.eqb_neq _ _) Hr).
Qed.

(** ** A closed connection *)
Lemma receive_loop_stuck fuel fd buffer attempts received d :
  dsys (d_read fd 4188) (world_of d) = Ok (DRet 0 0 [], world_of d) →
  receive_loop policy fuel fd buffer attempts received d = Fault OutOfFuel.
Proof.
  revert buffer attempts received d. induction fuel as [|fuel IH]; intros buffer attempts received d Hr; [done|].
  cbn [receive_loop]. mstep (sys_ok (d_read fd 4188) d _ _ Hr ltac:(done)). unfold get_errno. mred. cbn [dr_ret].
  change (uint64 0) with 0. change (0 =? uint64 (- 1)) with false. change (0 >? 0) with false. cbn [andb].
  cbv iota zeta. apply IH. done.
Qed.

(** C40: a client that closes its connection stops the daemon.  When the other
    side of an accepted connection has been closed without a message, reads
    return 0 for ever, and the loop neither counts them as attempts nor leaves:
    it runs out of any number of iterations, and the server never accepts another
    connection. *)
Theorem closed_connection_stops_server n fuel fd o d :
  dsys d_accept (world_of d) = Ok (DRet fd 0 [], o) → 0 < fd →
  dsys (d_read fd 4188) o = Ok (DRet 0 0 [], o) →
  run_server policy (S n) fuel d = Fault OutOfFuel.
Proof.
  intros Ha Hfd Hr. cbn [run_server]. mstep (sys_ok d_accept d _ _ Ha ltac:(cbn; lia)). unfold get_errno. mred. cbn [dr_ret].
  destruct (Z.gtb_spec fd 0); [|lia]. apply bind_fault. unfold handle_client_socket.
  erewrite (bind_ok (uninitialised _)) by done. apply bind_fault, receive_loop_stuck. done.
Qed.

(** ** Paths *)
Lemma metadata_string_ok metadata d :
  (length (cstring metadata) < length metadata)%nat → metadata_string metadata d = Ok (cstring metadata, d).
Proof. intros Hl. unfold metadata_string. by rewrite (proj2 (Nat.ltb_lt _ _) Hl). Qed.

Lemma cache_find_ok key d : key ≠ [] → cache_find key d = Ok (d_cache d !! key, d).
Proof.
  intros Hk. unfold cache_find, check_key. rewrite bind_assoc. mred.
  assert (bytes_eqb key [] = false) as -> by (by apply bytes_eqb_neq). by rewrite andb_false_r.
Qed.

(** The identifier of a file, by the answer of getxattr: 32 bytes are taken for
    digits up to the first NUL. *)
Definition attribute_digits (r : daemon_ret) : option bytes :=
  if dr_ret r =? 32 then hexstring_to_bytes (fill 33 (dr_out r)) else None.

Lemma get_identifier_eq path d r o :
  (∀ n, dmem n = true) → dsys (d_getxattr path _CITADEL_XATTR_IDENTIFIER 33) (world_of d) = Ok (r, o) →
  ∃ d', get_identifier_for_path path d = Ok (attribute_digits r, d') ∧ d_cache d' = d_cache d ∧ world_of d' = o.
Proof.
  intros Hm He. unfold get_identifier_for_path, sys, on_host, ecall, ocall, call, mbind, M_bind. unfold world_of in He.
  change (2 * _CITADEL_IDENTIFIER_LENGTH + 1)%nat with 33%nat. rewrite He.
  change (Z.of_nat (2 * _CITADEL_IDENTIFIER_LENGTH)) with 32. unfold attribute_digits, _hex_identifier_to_bytes.
  destruct (dr_ret r =? 32); [|by eexists]. destruct (hexstring_to_bytes _) as [b|]; [|by eexists].
  unfold dmalloc_unchecked, mbind, M_bind. rewrite Hm. by eexists.
Qed.

Lemma gettimeofday_ok d now o :
  dsys d_gettimeofday (world_of d) = Ok (DRet now 0 [], o) → 0 ≤ now → gettimeofday d = Ok (now, after o d).
Proof. intros He Hn. unfold gettimeofday. by mstep (sys_ok d_gettimeofday d _ _ He ltac:(cbn; lia)). Qed.

Lemma cache_insert_ok key value d now o :
  key ≠ [] → d_cache d !! key = None → dsys d_gettimeofday (world_of d) = Ok (DRet now 0 [], o) → 0 ≤ now →
  ∃ d', cache_insert key value d = Ok (tt, d') ∧ d_cache d' !! key = Some (Entry value now).
Proof.
  intros Hk Hn He Hpos. unfold cache_insert, check_key. rewrite bind_assoc. mred.
  assert (bytes_eqb key [] = false) as -> by (by apply bytes_eqb_neq). rewrite andb_false_r. mred.
  mstep (gettimeofday_ok d now o He Hpos). eexists. split; [reflexivity|]. cbn [put_ncopy put_cache d_cache after put_enclave].
  set (m := refresh_copied _ _ _). assert (m !! key = None) as -> by (unfold m, refresh_copied; by rewrite map_lookup_imap, Hn).
  apply lookup_insert_eq.
Qed.

(** The path is not in the cache, or only with an entry that is found expired, and
    then erased. *)
Inductive missed (path : bytes) d : dstate → Prop :=
  | missed_absent : d_cache d !! path = None → missed path d d
  | missed_expired e now o now' o' :
      d_cache d !! path = Some e → d_deleted_key d = true →
      dsys d_gettimeofday (world_of d) = Ok (DRet now 0 [], o) → 0 ≤ now →
      dsys d_gettimeofday o = Ok (DRet now' 0 [], o') → 0 ≤ now' →
      _CITADEL_CACHE_EXPIRY * 1000000 < uint64 (now - ce_time e) → _CITADEL_CACHE_EXPIRY * 1000000 < uint64 (now' - ce_time e) →
      missed path d (put_cache (delete path (d_cache d)) (after o' (after o d))).

Lemma expired_eq e d now o :
  dsys d_gettimeofday (world_of d) = Ok (DRet now 0 [], o) → 0 ≤ now →
  expired e d = Ok (uint64 (now - ce_time e) >? _CITADEL_CACHE_EXPIRY * 1000000, after o d).
Proof. intros Ht Hn. unfold expired. by mstep (gettimeofday_ok d now o Ht Hn). Qed.

Lemma missed_eq metadata d d1 :
  let path := cstring metadata in
  (length path < length metadata)%nat → path ≠ [] → missed path d d1 →
  d_cache d1 !! path = None ∧
  metadata_path_to_identifier metadata d =
    (get_identifier_for_path path ≫= λ identifier,
     match identifier with
     | Some identifier => cache_insert path identifier;; metadata ← write_identifier identifier metadata; mret (metadata, true)
     | None => mret (metadata, false)
     end) d1.
Proof.
  intros path Hl Hne Hmiss. unfold metadata_path_to_identifier. mstep (metadata_string_ok metadata d Hl). mstep (cache_find_ok path d Hne).
  destruct Hmiss as [Hc|e now o now' o' Hc Hdel Ht Hn Ht' Hn' Hexp Hexp']; rewrite Hc.
  - split; [done|]. mred. cbv iota. by mred.
  - split; [apply lookup_delete_eq|]. mstep (expired_eq e d now o Ht Hn). rewrite (proj2 (Z.gtb_lt _ _)) by lia.
    mstep (expired_eq e (after o d) now' o' Ht' Hn'). rewrite (proj2 (Z.gtb_lt _ _)) by lia. unfold cache_erase.
    rewrite bind_assoc. mred. cbn [after put_enclave d_deleted_key]. rewrite Hdel. by mred.
Qed.

(** C19: paths are translated to identifiers.  A path that is in the cache and not
    expired is replaced by its identifier without looking at the file.  Otherwise an
    expired entry is erased, and the attribute of the file decides: 32 bytes that
    spell 16 bytes replace the path, and the cache remembers them from now on; 32
    bytes with a NUL at an even place before the end make the daemon read past the
    identifier they spell; and when the attribute is missing, has any other length
    (such as the 33 bytes the module writes when it labels a file on its own), or
    has a NUL at an odd place, the path is left in place, the request is marked as
    not translated, and nothing is added to the cache. *)
Theorem paths_are_translated metadata d :
  let path := cstring metadata in
  (∀ n, dmem n = true) → (length path < length metadata)%nat → path ≠ [] →
  (∀ e now o, d_cache d !! path = Some e → dsys d_gettimeofday (world_of d) = Ok (DRet now 0 [], o) → 0 ≤ now →
     uint64 (now - ce_time e) ≤ _CITADEL_CACHE_EXPIRY * 1000000 → length (ce_value e) = 16%nat →
     metadata_path_to_identifier metadata d = Ok ((ce_value e ++ drop 16 metadata, true), after o d)) ∧
  (∀ d1 r o, missed path d d1 → dsys (d_getxattr path _CITADEL_XATTR_IDENTIFIER 33) (world_of d1) = Ok (r, o) →
     match attribute_digits r with
     | Some id => ∀ now o', dsys d_gettimeofday o = Ok (DRet now 0 [], o') → 0 ≤ now →
         (length id = 16%nat → ∃ d', metadata_path_to_identifier metadata d = Ok ((id ++ drop 16 metadata, true), d') ∧
            d_cache d' !! path = Some (Entry id now)) ∧
         ((length id < 16)%nat → metadata_path_to_identifier metadata d = Fault OutOfBounds)
     | None => ∃ d', metadata_path_to_identifier metadata d = Ok ((metadata, false), d') ∧ d_cache d' = d_cache d1
     end).
Proof.
  intros path Hm Hl Hne.
  assert (∀ id d0, length id = 16%nat → write_identifier id metadata d0 = Ok (id ++ drop 16 metadata, d0)) as Hwrite.
  { intros id d0 Hid. unfold write_identifier, overwrite. by rewrite Hid, (take_ge id), Hid by (rewrite Hid; done). }
  split.
  - intros e now o Hc Ht Hn Hexp Hv. unfold metadata_path_to_identifier.
    mstep (metadata_string_ok metadata d Hl). mstep (cache_find_ok path d Hne). rewrite Hc. mstep (expired_eq e d now o Ht Hn).
    destruct (Z.gtb_spec (uint64 (now - ce_time e)) (_CITADEL_CACHE_EXPIRY * 1000000)); [lia|]. cbv iota.
    by mstep (Hwrite (ce_value e) (after o d) Hv).
  - intros d1 r o Hmiss Hx. destruct (missed_eq metadata d d1 Hl Hne Hmiss) as [Hc1 ->].
    destruct (get_identifier_eq path d1 r o Hm Hx) as (d2 & E2 & Hc2 & Hw2). mstep E2.
    destruct (attribute_digits r) as [id|]; [|by exists d2]. intros now o' Ht Hn. rewrite <- Hw2 in Ht. rewrite <- Hc2 in Hc1.
    destruct (cache_insert_ok path id d2 now o' Hne Hc1 Ht Hn) as (d3 & E3 & Hc3). mstep E3. split.
    + intros Hid. mstep (Hwrite id d3 Hid). by exists d3.
    + intros Hid. unfold write_identifier. change _CITADEL_IDENTIFIER_LENGTH with 16%nat.
      unfold mbind, M_bind. by rewrite (proj2 (Nat.ltb_lt _ _) Hid).
Qed.
End theorems.

(** ** Start and end of the process *)
Section process.
Context `{HOs : DaemonOS} `{HSgx : Sgx} `{HLtc : LtcEnv}.
Implicit Type d : dstate.
(** Every system call returns. *)
Context (Htotal : ∀ c o, ∃ r o', dsys c o = Ok (r, o')).

Lemma sys_total c d : ∃ r d' o o', sys c d = Ok (r, d') ∧ dsys c o = Ok (r, o').
Proof.
  destruct (Htotal c (h_os (e_world (d_enclave d)))) as (r & o' & E).
  eexists r, _, _, o'. split; [|exact E]. unfold sys, on_host, ecall, ocall, call. by rewrite E.
Qed.

Lemma fopen_total path mode d : ∃ fp d', on_host (call_ret (d_fopen path mode)) d = Ok (fp, d').
Proof.
  destruct (Htotal (d_fopen path mode) (h_os (e_world (d_enclave d)))) as (r & o' & E).
  eexists (dr_ret r), _. unfold on_host, ecall, ocall, call_ret, call, mbind, M_bind, mret, M_ret. by rewrite E.
Qed.

Lemma read_launch_token_total fp readable d :
  ∃ token d', read_launch_token fp readable d = Ok (token, d') ∧ length token = sgx_launch_token_size.
Proof.
  unfold read_launch_token. destruct (fp =? 0); [by eexists _, d|]. destruct readable; cbn [negb]; [|by eexists _, d].
  destruct (sys_total (d_read_file token_path sgx_launch_token_size) d) as (r & d' & _ & _ & E & _). mstep E.
  set (read := take _ _). eexists _, d'. split; [reflexivity|].
  destruct (Nat.eqb_spec (length read) sgx_launch_token_size); [done|apply length_replicate].
Qed.

(** Whether the enclave could be created is all that decides the result; trouble
    with the file of the launch token never does. *)
Lemma initialize_enclave_decides name d :
  ∃ token r o o' d', length token = sgx_launch_token_size ∧ dsys (d_create_enclave name token) o = Ok (r, o') ∧
    initialize_enclave name d = Ok (if dr_ret r =? 0 then 0 else - 1, d').
Proof.
  unfold initialize_enclave. destruct (fopen_total token_path "rb" d) as (fp & d1 & E1). mstep E1.
  assert (∃ fp' readable d2, (if fp =? 0 then fp ← on_host (call_ret (d_fopen token_path "wb")); mret (fp, false)
    else mret (fp, true)) d1 = Ok ((fp', readable), d2)) as (fp' & readable & d2 & E2).
  { destruct (fp =? 0); [|by eexists _, _, d1]. destruct (fopen_total token_path "wb" d1) as (fp2 & d2 & E2). mstep E2. by eexists _, _, d2. }
  mstep E2. destruct (read_launch_token_total fp' readable d2) as (token & d3 & E3 & Hl). mstep E3.
  destruct (sys_total (d_create_enclave name token) d3) as (r & d4 & o & o' & E4 & Ho). mstep E4. exists token, r, o, o'.
  destruct (dr_ret r =? 0); cbn [negb]; [|by exists d4]. destruct (negb _ || _); [by exists d4|].
  destruct (fopen_total token_path "wb" d4) as (fp5 & d5 & E5). mstep E5. destruct (fp5 =? 0); [by exists d5|].
  destruct (sys_total (d_write_file token_path (tail (dr_out r))) d5) as (r6 & d6 & _ & _ & E6 & _). mstep E6. by exists d6.
Qed.

(** The loop goes on until a sleep is interrupted. *)
Lemma main_loop_ends n d :
  (∃ d', main_loop n true d = Ok (tt, d')) ∨ main_loop n true d = Fault OutOfFuel.
Proof.
  revert d. induction n as [|n IH]; intros d; [by right|]. cbn [main_loop negb].
  destruct (sys_total (d_sleep 10) d) as (r & d' & _ & _ & E & _). mstep E.
  destruct (dr_ret r >? 0); [left|apply IH]. exists d'. by destruct n.
Qed.
End process.
