(* ===== verification/Platform.v ===== *)
(** * The platform that a client runs on

    A process with libcitadel ([me]) and the daemon on one machine with the
    module.  The daemon runs on [machine] with the socket between the two
    ([sockets]); the system calls of the process act on the other end of that
    socket, on the module's token file and on extended attributes ([platform]).
    All other calls go to an arbitrary rest, [base] for the daemon and [other]
    for the process.  The daemon gets to run while the process polls for its
    reply: [schedule] says at which polls, and then [run_server] does one round.
    The socket is the only connection; the checks the kernel makes when the
    process opens the token file and connects are left out. *)

From S2P Require Import LibState LibCache LibIpc LibIpcTheorems LibClient.
From S2P Require Import Prelude Shared Hex RBTree Kernel Ring Tickets TicketsSpec CacheModel Access.
From S2P Require Import Crypto PayloadIO FileIO Shm Hooks.
From S2P Require Import Ltc LtcRsa Enclave Daemon System SystemSpec.

Definition ECONNREFUSED : Z := 111.

(** ** The daemon's end of the socket *)
Section sockets.
Context (base : DaemonOS) (me : task_struct).

(** A connection that waits to be accepted, and the bytes on their way to the
    daemon and to the process. *)
Record net := Net { n_backlog : bool; n_up : bytes; n_down : bytes; n_base : @os base }.

Definition conn_fd : Z := 4.

Definition in_base (c : daemon_call) : M net daemon_ret := λ n,
  match dsys c (n_base n) with
  | Ok (r, o) => Ok (r, Net (n_backlog n) (n_up n) (n_down n) o)
  | Fault f => Fault f
  end.

Definition socket_step (c : daemon_call) : M net daemon_ret := λ n,
  match c with
  | d_accept =>
      Ok (if n_backlog n then DRet conn_fd 0 [] else DRet (- 1) Daemon.EAGAIN [],
          Net false (n_up n) (n_down n) (n_base n))
  | d_read fd size =>
      if negb (fd =? conn_fd) then in_base c n else
      match n_up n with
      | [] => Ok (DRet (- 1) Daemon.EAGAIN [], n)
      | up => Ok (DRet (Z.of_nat (length (take size up))) 0 (take size up),
                  Net (n_backlog n) (drop size up) (n_down n) (n_base n))
      end
  | d_write fd data len =>
      if negb (fd =? conn_fd) then in_base c n else
      Ok (DRet len 0 [], Net (n_backlog n) (n_up n) (n_down n ++ take (Z.to_nat len) data) (n_base n))
  | d_peercred fd => if negb (fd =? conn_fd) then in_base c n else Ok (DRet (ts_pid me) 0 [], n)
  | d_close fd => if negb (fd =? conn_fd) then in_base c n else Ok (DRet 0 0 [], n)
  | _ => in_base c n
  end.

Definition sockets : DaemonOS := {|
  os := net;
  dsys := socket_step;
  dmem := @dmem base;
  dstack := @dstack base;
  copies := @copies base |}.
End sockets.
Arguments Net {_} _ _ _ _.
Arguments n_backlog {_} _.
Arguments n_up {_} _.
Arguments n_down {_} _.
Arguments n_base {_} _.

(** ** The process's end *)
Section platform.
Context `{HKer : Kernel} `{HRb : RbTree} `{HCry : KernelCrypto} `{HSgx : Sgx} `{HLtc : LtcEnv}.
Context (base : DaemonOS) (other : Posix) (resolve : bytes → option dentry) (daemon me : task_struct).
Context (policy : Z → citadel_op_request → option bytes → Z) (schedule : nat → bool) (fuel : nat).

Abbreviation OS := (machine (sockets base me) resolve daemon).

(** [p_alive] is false once the kernel or the daemon has crashed; [p_stream] says
    that the token file is open. *)
Record plat := Plat {
  p_daemon : @dstate OS; p_alive : bool; p_polls : nat; p_stream : bool; p_other : @LibState.world other }.

Implicit Type p : plat.

Definition put_daemon (d : @dstate OS) p : plat := Plat d (p_alive p) (p_polls p) (p_stream p) (p_other p).
Definition crashed p : plat := Plat (p_daemon p) false (p_polls p) (p_stream p) (p_other p).

Definition kernel_of p : kstate := kern_of (sockets base me) resolve daemon (d_enclave (p_daemon p)).
Definition net_of p : net base := (h_os (e_world (d_enclave (p_daemon p)))).2.
Definition put_machine (k : kstate) (n : net base) p : plat :=
  let d := p_daemon p in
  put_daemon (put_enclave (put_world (Host OS (k, n) (h_errno (e_world (d_enclave d)))) (d_enclave d)) d) p.

(** The kernel works for the process. *)
Definition in_module (m : M kstate sysret) p : sysret * plat :=
  match m (kernel_of p) with
  | Ok (r, k) => (r, put_machine k (net_of p) p)
  | Fault _ => (SysRet (- 1) 0 [] [], crashed p)
  end.
Definition posix_result (ret : Z) (out : bytes) : sysret :=
  if ret <? 0 then SysRet (- 1) (- ret) [] [] else SysRet ret 0 out [].

(** The daemon gets to run. *)
Definition serve p : plat :=
  match run_server policy 1 fuel (p_daemon p) with
  | Ok (_, d) => put_daemon d p
  | Fault _ => crashed p
  end.
Definition poll p : plat :=
  let p1 := if p_alive p && schedule (p_polls p) then serve p else p in
  Plat (p_daemon p1) (p_alive p1) (S (p_polls p1)) (p_stream p1) (p_other p1).

Definition client_fd : Z := 3.

Definition token_path (path : bytes) : bool :=
  bytes_eqb path (path_bytes LibClient._CITADEL_PROCESS_GET_PTOKEN_PATH).

Definition in_other (c : syscall) p : sysret * plat :=
  let r := LibState.sys c (p_other p) in
  (r.1, Plat (p_daemon p) (p_alive p) (p_polls p) (p_stream p) r.2).

Definition platform_call (c : syscall) p : sysret * plat :=
  let n := net_of p in
  match c with
  | sys_socket => (SysRet client_fd 0 [] [], p)
  | sys_fcntl_getfl fd => if fd =? client_fd then (SysRet 2 0 [] [], p) else in_other c p
  | sys_fcntl_setfl fd _ => if fd =? client_fd then (SysRet 0 0 [] [], p) else in_other c p
  | sys_connect fd addr =>
      if negb (fd =? client_fd) then in_other c p
      else if p_alive p && bytes_eqb (sun_path addr) (path_bytes LibIpc._CITADEL_IPC_FILE)
      then (SysRet 0 0 [] [], put_machine (kernel_of p) (Net true [] [] (n_base n)) p)
      else (SysRet (- 1) ECONNREFUSED [] [], p)
  | sys_write fd data =>
      if negb (fd =? client_fd) then in_other c p
      else (SysRet (Z.of_nat (length data)) 0 [] [],
            put_machine (kernel_of p) (Net (n_backlog n) (n_up n ++ data) (n_down n) (n_base n)) p)
  | sys_read fd count =>
      if negb (fd =? client_fd) then in_other c p else
      let p1 := poll p in
      let n1 := net_of p1 in
      match n_down n1 with
      | [] => (SysRet (- 1) LibState.EAGAIN [] [], p1)
      | down =>
          let out := take (Z.to_nat count) down in
          (SysRet (Z.of_nat (length out)) 0 out [],
           put_machine (kernel_of p1) (Net (n_backlog n1) (n_up n1) (drop (Z.to_nat count) down) (n_base n1)) p1)
      end
  | sys_peercred fd => (SysRet 0 0 [] [ts_pid daemon], p)
  | sys_close fd => if fd =? client_fd then (SysRet 0 0 [] [], p) else in_other c p
  | sys_fopen path _ =>
      if token_path path
      then (SysRet 1 0 [] [], Plat (p_daemon p) (p_alive p) (p_polls p) true (p_other p)) else in_other c p
  | sys_fread size =>
      if negb (p_stream p) then in_other c p else
      in_module (r ← ptoken_read me (Z.of_nat stream_buffer) 0 true;
        mret (if rr_ret r <? Z.of_nat size then SysRet 0 0 [] [] else SysRet 1 0 (take size (rr_copied r)) [])) p
  | sys_fclose =>
      if p_stream p
      then (SysRet 0 0 [] [], Plat (p_daemon p) (p_alive p) (p_polls p) false (p_other p)) else in_other c p
  | sys_getxattr path name size =>
      match resolve path with
      | None => (SysRet (- 1) ENOENT [] [], p)
      | Some de =>
          in_module (trm_inode_getxattr me de;;
            '(ret, v) ← getxattr de (d_inode de) name size; mret (posix_result ret v)) p
      end
  | sys_getpid => (SysRet (ts_pid me) 0 [] [], p)
  | _ => in_other c p
  end.

Definition platform : Posix := {|
  LibState.world := plat;
  LibState.sys := platform_call;
  LibState.clock := @LibState.clock other;
  LibState.mem := @LibState.mem other;
  LibState.stack := @LibState.stack other |}.
End platform.
Arguments p_daemon {_ _ _ _ _ _ _ _} _.
Arguments p_alive {_ _ _ _ _ _ _ _} _.
Arguments p_polls {_ _ _ _ _ _ _ _} _.
Arguments p_stream {_ _ _ _ _ _ _ _} _.
Arguments p_other {_ _ _ _ _ _ _ _} _.
