(* ===== verification/PlatformSpec.v ===== *)
(** * Transactions on the platform

    What a transaction of the library does when the daemon answers it: the
    polling, the round of the server and the check of the reply. *)

From S2P Require Import LibState LibCache LibIpc LibIpcTheorems LibClient.
From S2P Require Import Prelude Shared Hex RBTree Kernel Ring Tickets TicketsSpec CacheModel Access.
From S2P Require Import Crypto PayloadIO FileIO Shm Hooks AccessSpec AccessTheorems LabelSpec ProtocolSpec.
From S2P Require Import Ltc LtcRsa Enclave Daemon EnclaveSpec System SystemSpec SystemServe Platform.

Section transactions.
Context `{HKer : Kernel} `{HRb : RbTree} `{HCry : KernelCrypto} `{HSgx : Sgx} `{HLtc : LtcEnv}.
Context (base : DaemonOS) (other : Posix) (resolve : bytes → option dentry) (daemon me : task_struct).
Context (policy : Z → citadel_op_request → option bytes → Z) (schedule : nat → bool) (fuel : nat).
Abbreviation PL := (platform base other resolve daemon me policy schedule fuel).
Abbreviation pl := (plat base other resolve daemon me).
Abbreviation OS := (machine (sockets base me) resolve daemon).
Abbreviation net_of := (net_of base other resolve daemon me).
Abbreviation kernel_of := (kernel_of base other resolve daemon me).
Abbreviation put_machine := (put_machine base other resolve daemon me).
Abbreviation put_rest := (put_rest (sockets base me) resolve daemon).
Abbreviation rest_of := (rest_of (sockets base me) resolve daemon).
Implicit Types (l : @lstate PL) (p : pl) (d : @dstate OS).

Lemma world_called c l : l_world (LibIpcTheorems.called c l) = (LibState.sys c (l_world l)).2.
Proof. done. Qed.

Lemma put_machine_rest n p : p_daemon (put_machine (kernel_of p) n p) = put_rest n (p_daemon p).
Proof. done. Qed.

(** ** Connecting and sending *)
Lemma platform_connects l :
  p_alive (l_world l) = true →
  ∃ l', LibIpc.init_socket l = Ok (client_fd, l') ∧ ipc_frame l l' ∧ l_buffer l' = l_buffer l ∧
    l_world l' = put_machine (kernel_of (l_world l)) (Net true [] [] (n_base (net_of (l_world l)))) (l_world l).
Proof.
  intros Ha. unfold LibIpc.init_socket.
  rewrite (bind_ok _ _ _ _ _ (call_ret_eq _ l)). cbn [LibState.sys platform platform_call fst snd sr_ret client_fd Z.eqb].
  set (l1 := LibIpcTheorems.called _ l). rewrite (bind_ok _ _ _ _ _ (call_ret_eq _ l1)).
  set (l2 := LibIpcTheorems.called _ l1). rewrite (bind_ok _ _ _ _ _ (call_ret_eq _ l2)).
  cbn [LibState.sys platform platform_call fst snd sr_ret client_fd Z.eqb negb Pos.eqb].
  set (l3 := LibIpcTheorems.called _ l2). rewrite (bind_ok _ _ _ _ _ (call_ret_eq _ l3)).
  assert (l_world l3 = l_world l) as Hw by done.
  cbn [LibState.sys platform platform_call client_fd Z.eqb negb Pos.eqb sun_path]. rewrite Hw, Ha.
  change (bytes_eqb _ _) with true. cbn [andb fst sr_ret Z.eqb].
  eexists. split; [reflexivity|]. split_and!.
  - do 3 (etrans; [apply called_frame|]). apply called_frame.
  - by rewrite !called_buffer.
  - rewrite world_called, Hw. cbn [LibState.sys platform platform_call client_fd Z.eqb negb Pos.eqb sun_path].
    rewrite Ha. done.
Qed.

Lemma platform_sends data l :
  (0 < length data)%nat →
  ∃ l', LibIpc.ipc_send client_fd data l = Ok (true, l') ∧ ipc_frame l l' ∧ l_buffer l' = l_buffer l ∧
    let n := net_of (l_world l) in
    l_world l' = put_machine (kernel_of (l_world l)) (Net (n_backlog n) (n_up n ++ data) (n_down n) (n_base n)) (l_world l).
Proof.
  intros Hl. unfold LibIpc.ipc_send. destruct (Z.to_nat LibIpc.ipc_timeout) as [|m] eqn:E; [done|]. clear E.
  cbn [LibIpc.ipc_send_loop]. rewrite (bind_ok _ _ _ _ _ (call_ret_eq _ l)). mred.
  cbn [LibState.sys platform platform_call client_fd Z.eqb negb Pos.eqb fst sr_ret].
  assert (Z.of_nat (length data) >? 0 = true) as -> by (rewrite Z.gtb_ltb; apply Z.ltb_lt; lia).
  rewrite Z.add_0_l, Z.ltb_irrefl, Z.eqb_refl.
  assert (Z.of_nat (length data) =? -1 = false) as Hne by (apply Z.eqb_neq; lia). rewrite Hne. cbn [orb andb].
  eexists. split; [reflexivity|]. split_and!; [apply called_frame|apply called_buffer|by rewrite world_called].
Qed.

(** ** Polling for the reply *)

(** A poll at which the daemon does not get to run. *)
Lemma idle_poll fuel' attempts l :
  schedule (p_polls (l_world l)) = false → n_down (net_of (l_world l)) = [] → attempts + 1 < LibIpc.ipc_timeout →
  ∃ l1, LibIpc.ipc_recv_loop (S fuel') client_fd attempts l = LibIpc.ipc_recv_loop fuel' client_fd (attempts + 1) l1 ∧
    ipc_frame l l1 ∧ l_buffer l1 = l_buffer l ∧
    l_world l1 = Plat _ _ _ _ _ (p_daemon (l_world l)) (p_alive (l_world l)) (S (p_polls (l_world l)))
      (p_stream (l_world l)) (p_other (l_world l)).
Proof.
  intros Hs Hd Ha. set (p := l_world l) in *.
  assert (poll base other resolve daemon me policy schedule fuel p =
    Plat _ _ _ _ _ (p_daemon p) (p_alive p) (S (p_polls p)) (p_stream p) (p_other p)) as Hp.
  { unfold poll. by rewrite Hs, andb_false_r. }
  assert (LibState.sys (Posix := PL) (sys_read client_fd (Z.of_nat LibIpc.sizeof_extended)) p =
    (SysRet (- 1) LibState.EAGAIN [] [], poll base other resolve daemon me policy schedule fuel p)) as Hr.
  { cbn [LibState.sys platform platform_call client_fd Z.eqb negb Pos.eqb]. rewrite Hp.
    change (net_of (Plat _ _ _ _ _ (p_daemon p) _ _ _ _)) with (net_of p). by rewrite Hd. }
  cbn [LibIpc.ipc_recv_loop]. rewrite (bind_ok _ _ _ _ _ (call_eq _ l)).
  fold p. rewrite Hr. cbn [fst snd sr_ret sr_out]. mred.
  assert (l_errno (LibIpcTheorems.called (sys_read client_fd (Z.of_nat LibIpc.sizeof_extended)) l) = LibState.EAGAIN) as ->.
  { unfold LibIpcTheorems.called. fold p. rewrite Hr. done. }
  change ((-1 =? -1) && LibIpc.would_block LibState.EAGAIN) with true. cbv iota. unfold LibState.set_errno. mred.
  assert (attempts + 1 >=? LibIpc.ipc_timeout = false) as -> by (rewrite Z.geb_leb; apply Z.leb_gt; lia).
  eexists. split; [reflexivity|]. cbn [LibState.put_errno LibState.put_buffer l_buffer l_world].
  split_and!.
  - change (-1 >? 0) with false. cbv iota. etrans; [apply called_frame|]. split; try done. by exists [].
  - apply called_buffer.
  - rewrite world_called. fold p. by rewrite Hr.
Qed.

(** The reply to the request on its way, as the server makes it. *)
Definition answered d (reply : bytes) (b : @os base) d' : Prop :=
  run_server policy 1 fuel d = Ok (true, d') ∧ rest_of d' = Net false [] reply b.

(** The poll at which it does. *)
Lemma busy_poll fuel' attempts l reply b d' :
  let p := l_world l in
  p_alive p = true → schedule (p_polls p) = true → answered (p_daemon p) reply b d' → (1 ≤ length reply ≤ 4188)%nat →
  ∃ l', LibIpc.ipc_recv_loop (S fuel') client_fd attempts l = Ok (true, l') ∧
    ipc_frame l l' ∧ l_buffer l' = reply ++ drop (length reply) (l_buffer l) ∧
    l_world l' = Plat _ _ _ _ _ (put_rest (Net false [] [] b) d') true (S (p_polls p)) (p_stream p) (p_other p).
Proof.
  intros p Ha Hs [Hrun Hrest] Hl.
  assert (poll base other resolve daemon me policy schedule fuel p =
    Plat _ _ _ _ _ d' true (S (p_polls p)) (p_stream p) (p_other p)) as Hp.
  { unfold poll, serve. rewrite Ha, Hs, Hrun. cbn. by rewrite Ha. }
  assert (LibState.sys (Posix := PL) (sys_read client_fd (Z.of_nat LibIpc.sizeof_extended)) p =
    (SysRet (Z.of_nat (length reply)) 0 reply [],
     Plat _ _ _ _ _ (put_rest (Net false [] [] b) d') true (S (p_polls p)) (p_stream p) (p_other p))) as Hr.
  { cbn [LibState.sys platform platform_call client_fd Z.eqb negb Pos.eqb]. rewrite Hp.
    unfold Platform.net_of. cbn [p_daemon]. fold (rest_of d'). rewrite Hrest. cbn [n_down n_up n_backlog n_base].
    destruct reply as [|x reply]; [cbn in Hl; lia|]. change (Z.to_nat (Z.of_nat LibIpc.sizeof_extended)) with 4188%nat.
    rewrite take_ge, drop_ge by lia. done. }
  cbn [LibIpc.ipc_recv_loop]. rewrite (bind_ok _ _ _ _ _ (call_eq _ l)).
  fold p. rewrite Hr. cbn [fst snd sr_ret sr_out]. mred.
  assert (Z.of_nat (length reply) >? 0 = true) as -> by (rewrite Z.gtb_ltb; apply Z.ltb_lt; lia).
  assert (Z.of_nat (length reply) =? -1 = false) as -> by (apply Z.eqb_neq; lia). cbn [andb].
  eexists. split; [reflexivity|]. split_and!.
  - etrans; [apply called_frame|]. split; try done. by exists [].
  - cbn [LibState.put_buffer l_buffer]. by rewrite called_buffer.
  - cbn [LibState.put_buffer l_world]. rewrite world_called. fold p. by rewrite Hr.
Qed.

Lemma platform_receives j fuel' attempts l reply b d' :
  let p := l_world l in
  p_alive p = true → n_down (net_of p) = [] → (∀ i, (i < j)%nat → schedule (p_polls p + i) = false) →
  schedule (p_polls p + j) = true → (j < fuel')%nat → attempts + Z.of_nat j < LibIpc.ipc_timeout →
  answered (p_daemon p) reply b d' → (1 ≤ length reply ≤ 4188)%nat →
  ∃ l', LibIpc.ipc_recv_loop fuel' client_fd attempts l = Ok (true, l') ∧
    ipc_frame l l' ∧ l_buffer l' = reply ++ drop (length reply) (l_buffer l) ∧
    l_world l' = Plat _ _ _ _ _ (put_rest (Net false [] [] b) d') true (S (p_polls p + j)) (p_stream p) (p_other p).
Proof.
  revert fuel' attempts l. induction j as [|j IH]; intros [|fuel'] attempts l p Ha Hd Hidle Hs Hf Ht Hans Hl; try lia.
  - rewrite Nat.add_0_r in *. by apply busy_poll.
  - destruct (idle_poll fuel' attempts l) as (l1 & -> & F1 & B1 & W1);
      [rewrite <- (Nat.add_0_r (p_polls _)); apply Hidle; lia|done|lia|].
    destruct (IH fuel' (attempts + 1) l1) as (l' & He & F & B & W).
    + by rewrite W1.
    + by rewrite W1.
    + intros i Hi. rewrite W1. cbn [p_polls]. replace (S _ + i)%nat with (p_polls p + S i)%nat by (unfold p; lia). apply Hidle. lia.
    + rewrite W1. cbn [p_polls]. replace (S _ + j)%nat with (p_polls p + S j)%nat by (unfold p; lia). done.
    + lia.
    + lia.
    + by rewrite W1.
    + done.
    + exists l'. split; [done|]. split; [by etrans|]. split; [by rewrite B, B1|].
      rewrite W, W1. cbn [p_polls p_stream p_other]. do 2 f_equal. unfold p. lia.
Qed.

(** ** The whole transaction *)

(** The daemon gets to run before the process gives up. *)
Definition fair : Prop := ∀ n, ∃ j, Z.of_nat j < LibIpc.ipc_timeout ∧ schedule (n + j) = true.

Lemma first_below j n :
  schedule (n + j) = true →
  ∃ i, (i ≤ j)%nat ∧ schedule (n + i) = true ∧ ∀ m, (m < i)%nat → schedule (n + m) = false.
Proof.
  revert n. induction j as [|j IH]; intros n Hs; [exists O; split_and!; [done..|lia]|].
  destruct (schedule (n + 0)) eqn:E0; [exists O; split_and!; [lia|done|lia]|].
  destruct (IH (S n)) as (i & Hi & Hsi & Hlt); [by rewrite Nat.add_succ_comm|].
  exists (S i). rewrite <- Nat.add_succ_comm. split_and!; [lia|done|].
  intros [|m] Hm; [done|]. rewrite <- Nat.add_succ_comm. apply Hlt. lia.
Qed.

Lemma first_poll n : fair →
  ∃ j, Z.of_nat j < LibIpc.ipc_timeout ∧ schedule (n + j) = true ∧ ∀ i, (i < j)%nat → schedule (n + i) = false.
Proof.
  intros Hf. destruct (Hf n) as (j & Hj & Hs). destruct (first_below j n Hs) as (i & Hi & Hsi & Hlt).
  exists i. split_and!; [lia|done..].
Qed.

(** A reply that carries the token of the process decides by its result. *)
Lemma platform_checks socket l tok :
  LibState.citadel_pid (l_self l) = ts_pid daemon → ptoken (l_self l) = Some tok → length tok = 8%nat →
  (90 ≤ length (l_buffer l))%nat → rp_ptoken (dec_op_reply (l_buffer l)) = tok → socket = client_fd →
  ∃ l', LibIpc.check_reply socket l = Ok (rp_result (dec_op_reply (l_buffer l)) =? CITADEL_OP_APPROVED, l') ∧
    ipc_frame l l' ∧ l_buffer l' = l_buffer l ∧ l_world l' = l_world l.
Proof.
  intros Hpid Htok Hl8 Hb Hrt ->.
  unfold LibIpc.check_reply, LibIpc.get_citadel_pid, LibIpc.get_ptoken. rewrite (bind_ok _ _ _ _ _ (call_eq _ l)).
  cbn [LibState.sys platform platform_call fst sr_nums head LibState.defined]. set (l1 := LibIpcTheorems.called _ l).
  mred. change (l_self l1) with (l_self l). rewrite Hpid, Z.eqb_refl. mred.
  change (l_self l1) with (l_self l). change (l_buffer l1) with (l_buffer l). rewrite Htok. cbn [LibState.nonnull]. mred.
  erewrite (bind_ok (LibState.memcmp _ _ _)); [|apply memcmp_ok; [rewrite Hrt; done|done]].
  rewrite Hrt, (proj2 (bytes_eqb_eq tok tok) eq_refl). mred. cbn [negb andb].
  assert (ipc_frame l l1) as F1 by apply called_frame. unfold LibState.set_errno.
  destruct (rp_result (dec_op_reply (l_buffer l)) =? CITADEL_OP_APPROVED).
  - rewrite bind_assoc, (bind_ok _ _ _ _ _ (call_eq _ l1)). mred. rewrite (bind_ok _ _ _ _ _ (call_eq _ _)). mred.
    eexists. split; [reflexivity|]. split_and!; [|done|done].
    etrans; [exact F1|]. etrans; [apply called_frame|]. etrans; [apply called_frame|apply errno_frame].
  - mred. rewrite (bind_ok _ _ _ _ _ (call_eq _ l1)). mred. eexists. split; [reflexivity|]. split_and!; [|done|done].
    etrans; [exact F1|]. etrans; [apply called_frame|apply errno_frame].
Qed.

Lemma platform_transaction request l reply b d' tok :
  let p := l_world l in
  fair → p_alive p = true → request_sized request →
  answered (put_rest (Net true request [] (n_base (net_of p))) (p_daemon p)) reply b d' →
  (90 ≤ length reply ≤ 4188)%nat → rp_ptoken (dec_op_reply reply) = tok →
  LibState.citadel_pid (l_self l) = ts_pid daemon → ptoken (l_self l) = Some tok → length tok = 8%nat →
  ∃ l' n, LibIpc.ipc_transaction request l = Ok (rp_result (dec_op_reply reply) =? CITADEL_OP_APPROVED, l') ∧ ipc_frame l l' ∧ (length (l_buffer l) ≤ length (l_buffer l'))%nat ∧
    l_world l' = Plat _ _ _ _ _ (put_rest (Net false [] [] b) d') true n (p_stream p) (p_other p).
Proof.
  intros p Hf Ha Hsz Hans Hl Hrt Hpid Htok Hl8. unfold LibIpc.ipc_transaction, LibState.set_errno. mred.
  set (l0 := LibState.put_errno 0 l).
  destruct (platform_connects l0 Ha) as (l1 & E1 & F1 & B1 & W1). mstep E1. change (client_fd <? 0) with false. cbv iota.
  assert (negb (length request =? LibIpc.sizeof_request)%nat && negb (length request =? LibIpc.sizeof_extended)%nat = false) as ->
    by (destruct Hsz as [-> | ->]; done).
  destruct (platform_sends request l1) as (l2 & E2 & F2 & B2 & W2); [destruct Hsz; lia|]. mstep E2. cbv zeta in W2.
  assert (l_world l2 = put_machine (kernel_of p) (Net true request [] (n_base (net_of p))) p) as W2'
    by (rewrite W2, W1; done).
  destruct (first_poll (p_polls p) Hf) as (j & Hj & Hs & Hidle).
  destruct (platform_receives j (Z.to_nat LibIpc.ipc_timeout) 0 l2 reply b d') as (l3 & E3 & F3 & B3 & W3);
    [by rewrite W2'|by rewrite W2'|by rewrite W2'|by rewrite W2'|lia|lia|by rewrite W2'|lia|].
  unfold LibIpc.ipc_recv. mstep E3.
  assert (ipc_frame l l3) as F03 by (etrans; [apply errno_frame|]; etrans; [exact F1|]; etrans; [exact F2|exact F3]).
  assert (dec_op_reply (l_buffer l3) = dec_op_reply reply) as Hdec.
  { rewrite B3. unfold dec_op_reply, u16_at, u8_at. rewrite !field_app_l by lia. done. }
  destruct (platform_checks client_fd l3 tok) as (l4 & E4 & F4 & B4 & W4);
    [by rewrite (if_self _ _ F03)|by rewrite (if_self _ _ F03)|done|rewrite B3, length_app; lia|by rewrite Hdec|done|].
  rewrite E4, Hdec. exists l4, (S (p_polls (l_world l2) + j)). split_and!; [done|by etrans| |].
  - rewrite B4, B3, length_app, length_drop, B2, B1. cbn. lia.
  - rewrite W4, W3, W2'. done.
Qed.

(** ** A round of the server *)
Lemma round_answered data message b b' d d2 answer tok s' :
  (2 ≤ fuel)%nat → request_sized data → length message = length data → is_pid (ts_pid me) → length tok = 8%nat →
  rest_of d = Net true data [] b →
  cache_passthrough data (put_rest (Net false [] [] b) (drawn (sockets base me) resolve daemon 2 d)) = Ok ((true, message), d2) →
  handle_request policy message (ts_pid me) (Some 8%nat) (d_enclave d2) = Ok ((answer, Some tok), s') →
  (h_os (e_world s')).2 = Net false [] [] b' →
  ∃ tail, let reply := take (length data) (reply_to message tok answer tail) in
    answered d reply b' (put_rest (Net false [] reply b') (put_enclave s' d2)).
Proof.
  intros Hf Hsz Hm Hp Ht Hrest Hpass Hreq Hs'. unfold answered. destruct fuel as [|[|f]]; [lia..|].
  set (d1 := put_rest (Net false data [] b) d).
  destruct (client_served (sockets base me) resolve daemon policy f conn_fd (ts_pid me) data message d1 d2
    (Net false [] [] b) (Net false [] [] b)
    (λ reply, Net false [] (take (length data) reply) b') (λ reply, Net false [] (take (length data) reply) b')
    answer tok s') as (tail & He); try done.
  - change (dsys (DaemonOS := sockets base me) (d_read conn_fd 4188) (Net false data [] b) =
      Ok (DRet (Z.of_nat (length data)) 0 data, Net false [] [] b)).
    assert (length data ≤ 4188)%nat as Hle by (destruct Hsz; lia).
    cbn [dsys sockets socket_step n_up n_backlog n_down n_base]. change (negb (conn_fd =? conn_fd)) with false. cbv iota.
    destruct data as [|x data]; [destruct Hsz as [E|E]; discriminate E|]. by rewrite take_ge, drop_ge by lia.
  - intros reply. rewrite Hs'. cbn. by rewrite Nat2Z.id.
  - exists tail. cbv zeta. split; [|done]. cbn [run_server].
    assert (sys d_accept d = Ok (DRet conn_fd 0 [], d1)) as Ha by (apply (sys_rest (sockets base me)); [done|by rewrite Hrest|done]).
    mstep Ha. unfold get_errno. mred. cbn [dr_ret]. change (conn_fd >? 0) with true. cbv iota.
    mstep He. done.
Qed.
End transactions.
