(* ===== verification/PlatformCache.v ===== *)
(** * Paths and identifiers on the platform

    What the daemon makes of a request that names a file by its path: the file's
    identifier, from its cache or from the file's attribute, whose reading runs
    the module's hook. *)

From S2P Require Import LibState LibCache LibIpc LibIpcTheorems LibClient.
From S2P Require Import Prelude Shared Hex RBTree Kernel Ring Tickets TicketsSpec CacheModel Access.
From S2P Require Import Crypto PayloadIO FileIO Shm Hooks AccessSpec AccessTheorems LabelSpec ProtocolSpec.
From S2P Require Import Ltc LtcRsa Enclave Daemon EnclaveSpec System SystemSpec SystemServe Platform.

(** ** The hook of a file that the module knows *)
Section files.
Context `{HKer : Kernel} `{HRb : RbTree} `{HCry : KernelCrypto}.

Lemma getxattr_hook_quiet current de ino lab k :
  known_file k de ino lab → trm_inode_getxattr current de k = Ok (0, k).
Proof.
  intros [Hi Hr Hs Hl Hck Hn Hm]. unfold trm_inode_getxattr, refresh, d_backing_inode. cbn [citadel_dentry].
  rewrite Hi, Hr. cbn [citadel_inode]. rewrite Hs. erewrite bind_ok; [reflexivity|]. unfold dentry_housekeeping.
  assert (inode_housekeeping current (Some (i_ref ino)) (Some ino) k = Ok (tt, k)) as Hh.
  { unfold inode_housekeeping. rewrite (proj2 (Z.eqb_neq _ _) Hm). by case_match. }
  mstep Hh. unfold check_disk_xattr, write_disk_xattr. rewrite bind_assoc.
  mstep (load_inode_some _ _ _ Hl). rewrite Hck. cbn [negb andb when]. mred.
  mstep (load_inode_some _ _ _ Hl). rewrite Hn, andb_false_r. done.
Qed.

(** The file has the identifier [id] on the disk. *)
Definition disk_identifier (D : disk) (de : dentry) (id : bytes) : Prop :=
  vfs_getxattr D de (d_inode de) _CITADEL_XATTR_IDENTIFIER 33 = (32, hex_body id).
(** The file has no identifier there. *)
Definition no_identifier (D : disk) (de : dentry) : Prop :=
  ∃ rc v, vfs_getxattr D de (d_inode de) _CITADEL_XATTR_IDENTIFIER 33 = (rc, v) ∧ rc < 0.
End files.

Section translation.
Context `{HKer : Kernel} `{HRb : RbTree} `{HCry : KernelCrypto} `{HSgx : Sgx} `{HLtc : LtcEnv}.
Context (base : DaemonOS) (resolve : bytes → option dentry) (daemon me : task_struct).
Abbreviation rest := (sockets base me).
Abbreviation OS := (machine rest resolve daemon).
Abbreviation put_rest := (put_rest rest resolve daemon).
Abbreviation rest_of := (rest_of rest resolve daemon).
Abbreviation kern_of := (kern_of rest resolve daemon).
Implicit Types (d : @dstate OS).
Context (Hclock : ∀ o, ∃ now o', dsys (DaemonOS := base) d_gettimeofday o = Ok (DRet now 0 [], o') ∧ 0 ≤ now).
Context (Hdmem : ∀ n, @dmem base n = true).

(** Only the clock of the rest of the system has moved on. *)
Definition aged (o : @os base) d : @dstate OS :=
  put_rest (Net (n_backlog (rest_of d)) (n_up (rest_of d)) (n_down (rest_of d)) o) d.

(** The cache holds nothing new but, perhaps, [id] for [path]. *)
Definition cache_grows (path id : bytes) (C C' : gmap bytes cache_entry) : Prop := ∀ key e, C' !! key = Some e →
  (∃ e0, C !! key = Some e0 ∧ ce_value e0 = ce_value e) ∨ key = path ∧ ce_value e = id.

(** What a translation of [path] does to the daemon. *)
Record translated (path id : bytes) d d' : Prop := Translated {
  tl_enclave : ∃ o, d_enclave d' = d_enclave (aged o d);
  tl_deleted : d_deleted_key d' = d_deleted_key d;
  tl_cache : cache_grows path id (d_cache d) (d_cache d') }.

Lemma aged_enclave o o' d d' : d_enclave d' = d_enclave (aged o d) → d_enclave (aged o' d') = d_enclave (aged o' d).
Proof. unfold aged, SystemServe.put_rest, SystemServe.rest_of. by intros ->. Qed.

Lemma aged_self d : d_enclave (aged (n_base (rest_of d)) d) = d_enclave d.
Proof.
  unfold aged, SystemServe.put_rest, SystemServe.rest_of. destruct d as [[? ? ? ? ? ? ? ? [[k [? ? ? ?]] e]] ? ? ? ? ?]. done.
Qed.

Lemma translated_trans path id d1 d2 d3 : translated path id d1 d2 → translated path id d2 d3 → translated path id d1 d3.
Proof.
  intros [(o1 & E1) D1 C1] [(o2 & E2) D2 C2]. split; [|congruence|].
  - exists o2. by rewrite E2, (aged_enclave o1 _ d1).
  - intros key e He. destruct (C2 key e He) as [(e0 & He0 & Hv)|?]; [|by right].
    rewrite <- Hv. by apply C1.
Qed.

(** A step that leaves the enclave alone and adds nothing to the cache. *)
Lemma translated_local path id d d' :
  d_enclave d' = d_enclave d → d_deleted_key d' = d_deleted_key d →
  (∀ key e, d_cache d' !! key = Some e → d_cache d !! key = Some e) → translated path id d d'.
Proof. intros He Hd Hc. split; [exists (n_base (rest_of d)); by rewrite aged_self|done|]. intros key e ?%Hc. left. by exists e. Qed.

Lemma clock_translated path id d : ∃ now d', gettimeofday d = Ok (now, d') ∧ translated path id d d' ∧ d_cache d' = d_cache d.
Proof.
  destruct (Hclock (n_base (rest_of d))) as (now & o' & Ho & Hn). exists now, (aged o' d).
  assert (sys d_gettimeofday d = Ok (DRet now 0 [], aged o' d)) as Hs.
  { apply sys_rest; [done| |cbn; lia]. cbn [dsys sockets socket_step]. unfold in_base. by rewrite Ho. }
  split_and!; [unfold gettimeofday; by mstep Hs| |done]. split; [by exists o'|done|]. intros key e He. left. by exists e.
Qed.

Lemma expired_ok path id e d : ∃ b d', expired e d = Ok (b, d') ∧ translated path id d d' ∧ d_cache d' = d_cache d.
Proof.
  destruct (clock_translated path id d) as (now & d' & He & Ht & Hc). eexists _, d'. split_and!; [|done..].
  unfold expired. by mstep He.
Qed.

Lemma insert_translated path id d :
  path ≠ [] → (∀ e, d_cache d !! path = Some e → ce_value e = id) →
  ∃ d', cache_insert path id d = Ok (tt, d') ∧ translated path id d d'.
Proof.
  intros Hne Hco. unfold cache_insert, check_key. rewrite bind_assoc. mred.
  assert (d_deleted_key d && bytes_eqb path [] = false) as -> by (destruct path; [done|apply andb_false_r]). mred.
  destruct (clock_translated path id d) as (now & d1 & He & Ht & Hc). mstep He. eexists. split; [reflexivity|].
  eapply translated_trans; [exact Ht|].
  set (m := refresh_copied _ now _).
  assert (∀ key e, m !! key = Some e → ∃ e0, d_cache d1 !! key = Some e0 ∧ ce_value e0 = ce_value e) as Hm.
  { intros key e. unfold m, refresh_copied. rewrite map_lookup_imap. destruct (d_cache d1 !! key) as [e0|]; [|done].
    cbn. intros [= <-]. exists e0. split; [done|]. by case_match. }
  split; [exists (n_base (rest_of d1)); by rewrite aged_self|done|].
  intros key e. cbn. destruct (m !! path) eqn:Ep; [by intros; left; apply Hm|].
  destruct (decide (key = path)) as [->|Hk].
  - rewrite lookup_insert_eq. intros [= <-]. by right.
  - rewrite lookup_insert_ne by done. intros. left. by apply Hm.
Qed.

(** ** The attribute of the file *)
Lemma machine_getxattr path de ino lab id d :
  let s := d_enclave d in
  resolve path = Some de → known_file (kern_of s) de ino lab → disk_identifier (k_disk (kern_of s)) de id →
  sys (d_getxattr path _CITADEL_XATTR_IDENTIFIER 33) d = Ok (DRet 32 0 (hex_body id), d).
Proof.
  intros s Hres Hk Hd. unfold s, SystemSpec.kern_of, kern in *. unfold sys, on_host, ecall, ocall, call.
  destruct d as [[kl ak pk pr pl lp lt nr [[k n] e]] dc dd nm ns nc]. cbn [d_enclave e_world h_os fst] in *.
  cbn [dsys machine machine_call]. rewrite Hres. unfold in_kernel, mbind, M_bind.
  cbn [fst snd]. rewrite (getxattr_hook_quiet daemon de ino lab k Hk). unfold getxattr, gets. cbn [fst snd].
  unfold disk_identifier in Hd. rewrite Hd. done.
Qed.

Lemma identifier_for_path path de ino lab id d :
  let s := d_enclave d in
  resolve path = Some de → known_file (kern_of s) de ino lab → disk_identifier (k_disk (kern_of s)) de id →
  identifier_ok id →
  ∃ d', get_identifier_for_path path d = Ok (Some id, d') ∧ translated path id d d' ∧ d_cache d' = d_cache d.
Proof.
  intros s Hres Hk Hd [Hb Hl]. unfold get_identifier_for_path. change (2 * _CITADEL_IDENTIFIER_LENGTH + 1)%nat with 33%nat.
  mstep (machine_getxattr path de ino lab id d Hres Hk Hd). cbn [dr_ret dr_out].
  change (32 =? Z.of_nat (2 * _CITADEL_IDENTIFIER_LENGTH)) with true. cbv iota. unfold _hex_identifier_to_bytes.
  assert (length (hex_body id) = 32%nat) as Hh by (rewrite hex_body_length, Hl; done).
  change 33%nat with (32 + 1)%nat. rewrite <- Hh, fill_app. destruct id as [|x id]; [discriminate Hl|].
  change (replicate 1 0) with [0]. rewrite hexstring_to_bytes_body by done.
  eexists. split; [unfold dmalloc_unchecked; erewrite bind_ok; [reflexivity|cbn [dmem machine sockets]; by rewrite Hdmem]|].
  split; [by apply translated_local|done].
Qed.

(** ** The translation *)

(** What the cache holds for [path], if anything, is [id]. *)
Definition coherent (path id : bytes) d : Prop := ∀ e, d_cache d !! path = Some e → ce_value e = id.

Lemma grown_coherent path id d d' : cache_grows path id (d_cache d) (d_cache d') → coherent path id d → coherent path id d'.
Proof. intros Hc Hco e He. destruct (Hc _ _ He) as [(e0 & He0 & <-)|[_ ?]]; [by apply Hco|done]. Qed.


Lemma translated_coherent path id d d' : translated path id d d' → coherent path id d → coherent path id d'.
Proof. intros [_ _ Hc]. by apply grown_coherent. Qed.

Lemma translated_kern path id d d' : translated path id d d' → kern_of (d_enclave d') = kern_of (d_enclave d).
Proof. intros [(o & ->) _ _]. done. Qed.

Context (path id : bytes) (de : dentry) (ino : inode) (lab : citadel_inode_data).
Context (Hne : path ≠ []) (Hres : resolve path = Some de) (Hid : identifier_ok id).

(** The file as the daemon finds it. *)
Definition file_found d : Prop :=
  known_file (kern_of (d_enclave d)) de ino lab ∧ disk_identifier (k_disk (kern_of (d_enclave d))) de id ∧ coherent path id d.

Lemma file_found_translated d d' : translated path id d d' → file_found d → file_found d'.
Proof. intros Ht (Hk & Hd & Hc). unfold file_found. rewrite (translated_kern _ _ _ _ Ht). split_and!; [done..|by eapply translated_coherent]. Qed.

Lemma write_identifier_ok metadata d : write_identifier id metadata d = Ok (overwrite 0 id metadata, d).
Proof.
  destruct Hid as [_ Hl]. unfold write_identifier. rewrite Hl. change (16 <? _CITADEL_IDENTIFIER_LENGTH)%nat with false.
  cbv iota. by rewrite take_ge by (rewrite Hl; done).
Qed.

(** The attribute is read and remembered. *)
Lemma looked_up metadata d :
  file_found d →
  ∃ d', (identifier ← get_identifier_for_path path;
    match identifier with
    | Some identifier =>
        cache_insert path identifier;;
        metadata ← write_identifier identifier metadata;
        mret (metadata, true)
    | None => mret (metadata, false)
    end) d = Ok ((overwrite 0 id metadata, true), d') ∧ translated path id d d'.
Proof.
  intros Hf. pose proof Hf as (Hk & Hd & Hc).
  destruct (identifier_for_path path de ino lab id d Hres Hk Hd Hid) as (d1 & E1 & T1 & C1). mstep E1.
  destruct (insert_translated path id d1 Hne) as (d2 & E2 & T2); [by rewrite C1|]. mstep E2.
  mstep (write_identifier_ok metadata d2). exists d2. split; [done|by eapply translated_trans].
Qed.

Lemma metadata_translated metadata d :
  cstring metadata = path → (length path < length metadata)%nat → d_deleted_key d = true → file_found d →
  ∃ d', metadata_path_to_identifier metadata d = Ok ((overwrite 0 id metadata, true), d') ∧ translated path id d d'.
Proof.
  intros Hs Hl Hdel Hf. unfold metadata_path_to_identifier, metadata_string. rewrite Hs, (proj2 (Nat.ltb_lt _ _) Hl). mred.
  unfold cache_find, check_key. rewrite !bind_assoc. mred.
  assert (d_deleted_key d && bytes_eqb path [] = false) as -> by (destruct path; [done|apply andb_false_r]). mred.
  destruct (d_cache d !! path) as [e|] eqn:Ee; [|mred; by apply looked_up].
  destruct (expired_ok path id e d) as (b1 & d1 & E1 & T1 & C1). mstep E1. pose proof (file_found_translated _ _ T1 Hf) as Hf1.
  destruct b1.
  - destruct (expired_ok path id e d1) as (b2 & d2 & E2 & T2 & C2). mstep E2. pose proof (file_found_translated _ _ T2 Hf1) as Hf2.
    destruct b2; mred.
    + assert (translated path id d2 (put_cache (delete path (d_cache d2)) d2)) as T3.
      { apply translated_local; [done..|]. intros key e'. cbn. by intros [? ?]%lookup_delete_Some. }
      unfold cache_erase. rewrite bind_assoc. mred. rewrite (tl_deleted _ _ _ _ T2), (tl_deleted _ _ _ _ T1), Hdel. mred.
      destruct (looked_up metadata _ (file_found_translated _ _ T3 Hf2)) as (d4 & E4 & T4).
      exists d4. split; [exact E4|]. do 2 (eapply translated_trans; [done|]). by eapply translated_trans.
    + destruct (looked_up metadata _ Hf2) as (d4 & E4 & T4). exists d4. split; [exact E4|].
      eapply translated_trans; [done|]. by eapply translated_trans.
  - assert (ce_value e = id) as -> by (by apply Hf). mstep (write_identifier_ok metadata d1). by exists d1.
Qed.

(** ** A file without an identifier *)

(** Only errno has changed. *)
Definition errno_only d d' : Prop :=
  ∃ e, d_enclave d' = put_world (Host OS (h_os (e_world (d_enclave d))) e) (d_enclave d).

Lemma lookup_fails d :
  known_file (kern_of (d_enclave d)) de ino lab → no_identifier (k_disk (kern_of (d_enclave d))) de →
  ∃ d', get_identifier_for_path path d = Ok (None, d') ∧ errno_only d d' ∧
    d_deleted_key d' = d_deleted_key d ∧ d_cache d' = d_cache d.
Proof.
  intros Hk (rc & v & Hv & Hrc). unfold get_identifier_for_path. change (2 * _CITADEL_IDENTIFIER_LENGTH + 1)%nat with 33%nat.
  set (d' := put_enclave (put_world (Host OS (h_os (e_world (d_enclave d))) (- rc)) (d_enclave d)) d).
  assert (sys (d_getxattr path _CITADEL_XATTR_IDENTIFIER 33) d = Ok (DRet (- 1) (- rc) [], d')) as Hs.
  { unfold d', SystemSpec.kern_of, kern in *. unfold sys, on_host, ecall, ocall, call.
    destruct d as [[kl ak pk pr pl lp lt nr [[k n] e]] dc dd nm ns nc]. cbn [d_enclave e_world h_os fst] in *.
    cbn [dsys machine machine_call]. rewrite Hres. unfold in_kernel, mbind, M_bind.
    cbn [fst snd]. rewrite (getxattr_hook_quiet daemon de ino lab k Hk). unfold getxattr, gets. cbn [fst snd].
    rewrite Hv. unfold mret, M_ret, sys_result. destruct (Z.ltb_spec rc 0); [done|lia]. }
  mstep Hs. exists d'. split_and!; [done|by eexists|done|done].
Qed.

Lemma metadata_untranslated metadata d :
  cstring metadata = path → (length path < length metadata)%nat → d_cache d !! path = None →
  known_file (kern_of (d_enclave d)) de ino lab → no_identifier (k_disk (kern_of (d_enclave d))) de →
  ∃ d', metadata_path_to_identifier metadata d = Ok ((metadata, false), d') ∧ errno_only d d' ∧
    d_deleted_key d' = d_deleted_key d ∧ d_cache d' = d_cache d.
Proof.
  intros Hs Hl Hc Hk Hno. unfold metadata_path_to_identifier, metadata_string. rewrite Hs, (proj2 (Nat.ltb_lt _ _) Hl). mred.
  unfold cache_find, check_key. rewrite !bind_assoc. mred.
  assert (d_deleted_key d && bytes_eqb path [] = false) as -> by (destruct path; [done|apply andb_false_r]). mred.
  rewrite Hc. mred. destruct (lookup_fails d Hk Hno) as (d' & E & He & Hd & Hc'). mstep E. by exists d'.
Qed.
End translation.
