(* ===== verification/PlatformServe.v ===== *)
(** * Requests of a process that has joined

    The state of a process that holds a token of the module ([joined]), and a
    request of it from the library to the module and back. *)

From S2P Require Import LibState LibCache LibIpc LibIpcTheorems LibClient.
From S2P Require Import Prelude Shared Hex RBTree Kernel Ring Tickets TicketsSpec CacheModel Access.
From S2P Require Import Crypto PayloadIO FileIO Shm Hooks AccessSpec AccessTheorems LabelSpec ProtocolSpec.
From S2P Require Import Ltc LtcRsa Enclave Daemon EnclaveSpec System SystemSpec SystemServe Platform PlatformSpec PlatformCache.

(** ** Messages *)
Lemma dec_op_reply_take n (b : bytes) : (90 ≤ n)%nat → (90 ≤ length b)%nat → dec_op_reply (take n b) = dec_op_reply b.
Proof.
  intros Hn Hb. rewrite <- (take_drop n b) at 2. unfold dec_op_reply, u16_at, u8_at.
  by rewrite !field_app_l by (rewrite length_take; lia).
Qed.

(** The fields of an extended request, as the daemon and the enclave read them. *)
Lemma ext_request_view rq tr su md :
  ext_request_ok (ExtRequest rq tr su md) → rq_signature rq = challenge_signature →
  let data := enc_ext_request (ExtRequest rq tr su md) in
  length data = 4188%nat ∧ dec_op_request data = rq ∧ dec_ext_request data = ExtRequest rq tr su md ∧
  request_metadata data = Some md ∧ request_translate data = tr ∧ request_success data = su ∧ well_formed data = true.
Proof.
  intros Hok Hsig data. pose proof (dec_enc_ext_request _ Hok) as Hdec. fold data in Hdec.
  pose proof Hok as [Hrq Hmd]. cbn [xr_request xr_metadata] in *. unfold len_ok in Hmd.
  assert (length data = 4188%nat) as Hl.
  { unfold data, enc_ext_request. rewrite !length_app, enc_op_request_length by done. cbn [xr_request xr_metadata length]. lia. }
  assert (dec_op_request data = rq) as Hd by (by apply (f_equal xr_request) in Hdec).
  split_and!; try done.
  - unfold request_metadata, extended. rewrite Hl. change (4188 =? 4188)%nat with true. cbv iota.
    f_equal. by apply (f_equal xr_metadata) in Hdec.
  - unfold request_translate, extended. rewrite Hl. by apply (f_equal xr_translate) in Hdec.
  - unfold request_success, extended. rewrite Hl. by apply (f_equal xr_translate_success) in Hdec.
  - unfold well_formed. rewrite Hl. change (field 0 8 data) with (rq_signature (dec_op_request data)). by rewrite Hd, Hsig.
Qed.

(** [translate_success] and the metadata are overwritten in place. *)
Lemma ext_request_overwritten rq tr su md su' md' :
  ext_request_ok (ExtRequest rq tr su md) → length md' = length md →
  overwrite 91 (bool_byte su' :: md') (enc_ext_request (ExtRequest rq tr su md)) = enc_ext_request (ExtRequest rq tr su' md').
Proof.
  intros [Hrq Hmd] Hl. cbn [xr_request xr_metadata] in *. pose proof (enc_op_request_length _ Hrq) as H90.
  unfold overwrite, enc_ext_request. cbn [xr_request xr_translate xr_translate_success xr_metadata length]. rewrite Hl.
  set (a := enc_op_request rq) in *. change (a ++ [bool_byte tr; bool_byte su] ++ md) with (a ++ [bool_byte tr] ++ [bool_byte su] ++ md).
  rewrite (app_assoc a), take_app_length' by (rewrite length_app, H90; done).
  rewrite drop_ge by (rewrite !length_app, H90; cbn [length]; lia). rewrite app_nil_r, <- app_assoc. done.
Qed.

Section joined.
Context `{HKer : Kernel} `{HRb : RbTree} `{HCry : KernelCrypto} `{HLaw : !CryptoLaws}.
Context `{HSgx : Sgx} `{HSLaw : !SgxLaws} `{HGcm : !GcmInterop} `{HLtc : LtcEnv}.
Context (base : DaemonOS) (other : Posix) (resolve : bytes → option dentry) (daemon me : task_struct).
Context (policy : Z → citadel_op_request → option bytes → Z) (schedule : nat → bool) (fuel : nat).
Abbreviation PL := (platform base other resolve daemon me policy schedule fuel).
Abbreviation rest := (sockets base me).
Abbreviation OS := (machine rest resolve daemon).
Abbreviation put_rest := (put_rest rest resolve daemon).
Abbreviation rest_of := (rest_of rest resolve daemon).
Abbreviation kern_of := (kern_of rest resolve daemon).
Abbreviation kernel_of := (kernel_of base other resolve daemon me).
Implicit Types (l : @lstate PL) (d : @dstate OS) (A : acache).

(** The token of the process, as the library holds it, opens to [p]. *)
Record holds_token (key : bytes) l (p : citadel_ptoken_protected) (sealed : bytes) : Prop := HoldsToken {
  ht_daemon : LibState.citadel_pid (l_self l) = ts_pid daemon;
  ht_nonce : ptoken (l_self l) = Some (pp_ptoken p);
  ht_sealed : signed_ptoken (l_self l) = Some sealed;
  ht_length : length sealed = 64%nat;
  ht_vouches : ∀ rq, rq_signed_ptoken rq = sealed → vouches key (ts_pid me) rq p;
  ht_buffer : (90 ≤ length (l_buffer l))%nat }.

(** The daemon as it is between requests. *)
Record at_rest d A : Prop := AtRest {
  ar_step : in_step rest resolve daemon (d_enclave d) A;
  ar_deleted : d_deleted_key d = true }.

Record joined l A p sealed : Prop := Joined {
  jn_alive : p_alive (l_world l) = true;
  jn_rest : at_rest (p_daemon (l_world l)) A;
  jn_token : holds_token (Enclave.ptoken_aes_key (d_enclave (p_daemon (l_world l)))) l p sealed }.

Lemma in_step_host (s : estate (@host OS)) h A :
  kern rest resolve daemon h = kern_of s → in_step rest resolve daemon s A → in_step rest resolve daemon (put_world h s) A.
Proof. intros Hh [Hr Hp Hl]. split; unfold SystemSpec.kern_of; cbn; by rewrite ?Hh. Qed.

Context (Hfair : fair schedule) (Hfuel : (2 ≤ fuel)%nat) (Hpid : is_pid (ts_pid me)).

(** A request that the enclave answers. *)
Lemma request_answered l A A' p sealed rq more more' d2 s' b b' answer :
  let data := enc_op_request rq ++ more in
  let message := enc_op_request rq ++ more' in
  let d := p_daemon (l_world l) in
  joined l A p sealed → op_request_ok rq → request_sized data → length more' = length more →
  n_base (rest_of d) = b →
  cache_passthrough data (put_rest (Net false [] [] b) (drawn rest resolve daemon 2 d)) = Ok ((true, message), d2) →
  d_deleted_key d2 = true → rest_of d2 = Net false [] [] b' → Enclave.ptoken_aes_key (d_enclave d2) = Enclave.ptoken_aes_key (d_enclave d) →
  handle_request policy message (ts_pid me) (Some 8%nat) (d_enclave d2) = Ok ((answer, Some (pp_ptoken p)), s') → is_u8 answer →
  serves rest resolve daemon A' (d_enclave d2) s' →
  ∃ l', LibIpc.ipc_transaction data l = Ok (answer =? CITADEL_OP_APPROVED, l') ∧ ipc_frame l l' ∧ joined l' A' p sealed ∧
    kernel_of (l_world l') = kern_of s' ∧ d_cache (p_daemon (l_world l')) = d_cache d2.
Proof.
  intros data message d [Ha [Hs Hdel] Htok] Hok Hsz Hl Hb Hpass Hdel2 Hrest2 Hkey Hreq Hu8 Hsv.
  pose proof (vouched_nonce _ _ _ _ (ht_vouches _ _ _ _ Htok (OpRequest [] 0 [] sealed) eq_refl)) as Ht8.
  assert (length message = length data) as Hm by (unfold message, data; rewrite !length_app; lia).
  destruct (round_answered base resolve daemon me policy fuel data message b b'
    (put_rest (Net true data [] b) d) d2 answer (pp_ptoken p) s')
    as (tail & Hans); [done..| |].
  { rewrite (sv_rest _ _ _ _ _ _ Hsv). exact Hrest2. }
  cbv zeta in Hans. set (reply := take _ _) in Hans.
  destruct (reply_decodes rq (pp_ptoken p) answer (more' ++ tail) Hok Ht8) as (pad & Hdec); [done|].
  rewrite <- reply_to_app in Hdec by (rewrite enc_op_request_length by done; lia). fold message in Hdec.
  assert (length (reply_to message (pp_ptoken p) answer tail) = length data + length tail)%nat as Hrl.
  { unfold reply_to. rewrite !length_app. cbn [length]. rewrite length_take, length_drop, length_app, Ht8, Hm.
    destruct Hsz; lia. }
  rewrite <- (dec_op_reply_take (length data)) in Hdec by (destruct Hsz; lia). fold reply in Hdec.
  assert (length reply = length data) as Hlr by (unfold reply; rewrite length_take; lia).
  destruct (platform_transaction base other resolve daemon me policy schedule fuel data l reply b'
    (put_rest (Net false [] reply b') (put_enclave s' d2)) (pp_ptoken p))
    as (l' & n & He & F & B & W);
    [done|done|done| |rewrite Hlr; destruct Hsz; lia|by rewrite Hdec|apply Htok..|done|].
  { unfold Platform.net_of. fold d. fold (rest_of d). rewrite Hb. exact Hans. }
  rewrite Hdec in He. exists l'. split_and!; [done..| |by rewrite W|by rewrite W].
  split; [by rewrite W| |].
  - rewrite W. split; [|done]. cbn [p_daemon]. apply (in_step_host s'); [done|apply Hsv].
  - destruct Htok as [? ? ? ? Hv Hbuf]. split; rewrite ?(if_self _ _ F); try done; [|lia].
    rewrite W. cbn [p_daemon]. change (Enclave.ptoken_aes_key (d_enclave _)) with (Enclave.ptoken_aes_key s').
    rewrite (sv_ptoken _ _ _ _ _ _ Hsv), Hkey. done.
Qed.

(** ** Requests about a file *)
Context (Hpid1 : 1 < ts_pid me) (Hmem : ∀ n, kmem n = true) (Hslack : (12 ≤ frame_slack)%nat).
Context (Hclock : ∀ o, ∃ now o', dsys (DaemonOS := base) d_gettimeofday o = Ok (DRet now 0 [], o') ∧ 0 ≤ now).
Context (Hdmem : ∀ n, @dmem base n = true).

(** What a request of this process leaves alone. *)
Record same_tasks (k k' : kstate) : Prop := SameTasks {
  sm_creds : k_creds k' = k_creds k;
  sm_enclave : enclave_pid (k_pio k') = enclave_pid (k_pio k) }.

Lemma serves_same_tasks A s s' : serves rest resolve daemon A s s' → same_tasks (kern_of s) (kern_of s').
Proof. intros []. by split. Qed.

(** A request of [citadel_file_open] as the daemon hands it on: the path has been
    translated. *)
Lemma open_passthrough l p sealed A subject flag md path id de ino lab :
  let rq := OpRequest challenge_signature CITADEL_OP_OPEN subject sealed in
  let md' := overwrite 0 id md in
  let d := p_daemon (l_world l) in
  let d1 := put_rest (Net false [] [] (n_base (rest_of d))) (drawn rest resolve daemon 2 d) in
  let data := enc_ext_request (ExtRequest rq true flag md) in
  let message := enc_ext_request (ExtRequest rq true true md') in
  joined l A p sealed → length subject = 16%nat → length md = 4096%nat → cstring md = path → (length path < 4096)%nat →
  path ≠ [] → resolve path = Some de → identifier_ok id → file_found base resolve daemon me path id de ino lab d →
  ∃ d2 o, length data = 4188%nat ∧ length md' = 4096%nat ∧ op_request_ok rq ∧ cache_passthrough data d1 = Ok ((true, message), d2) ∧
    well_formed message = true ∧ request_metadata message = Some md' ∧ dec_op_request message = rq ∧
    d_enclave d2 = d_enclave (aged base resolve daemon me o d1) ∧ d_deleted_key d2 = d_deleted_key d1 ∧
    cache_grows path id (d_cache d1) (d_cache d2) ∧ request_translate message = true ∧ request_success message = true.
Proof.
  intros rq md' d d1 data message Hj Hsub Hmd Hstr Hlt Hne Hres Hid Hfile. pose proof Hj as [Ha [Hs Hdel] Htok].
  assert (length md' = 4096%nat) as Hmd'.
  { unfold md'. rewrite overwrite_start, length_app, length_drop, Hmd, (proj2 Hid). done. }
  assert (ext_request_ok (ExtRequest rq true flag md) ∧ ext_request_ok (ExtRequest rq true true md')) as [Hx Hx'].
  { destruct Htok. split; split; try done; split_and!; try done; vm_compute; split; congruence. }
  destruct (ext_request_view _ _ _ _ Hx eq_refl) as (Hlen & Hrq & Hdec & _). fold data in Hlen, Hrq, Hdec.
  destruct (ext_request_view _ _ _ _ Hx' eq_refl) as (_ & Hrq' & _ & Hm' & Ht' & Hsu' & Hwf').
  destruct (metadata_translated base resolve daemon me Hclock Hdmem path id de ino lab Hne Hres Hid md d1)
    as (d2 & Etr & [(o & He2) Hd2 Hc2]); [done|by rewrite Hmd|done|exact Hfile|].
  exists d2, o. split_and!; try done; [apply Hx|]. unfold cache_passthrough. rewrite Hlen.
  change (4188 =? Daemon.sizeof_request)%nat with false.
  change (4188 =? Daemon.sizeof_extended)%nat with true. cbv iota zeta. cbn [negb]. rewrite Hdec.
  cbn [xr_request rq_operation rq xr_translate xr_metadata]. change (has_flag CITADEL_OP_OPEN CITADEL_OP_CLAIM) with false. cbv iota.
  mstep Etr. cbv iota beta. unfold message. rewrite <- (ext_request_overwritten rq true flag md true md' Hx) by (by rewrite Hmd, Hmd'). done.
Qed.

(** The request of [citadel_file_open], whose path the daemon translates. *)
Lemma path_open_granted l A p sealed subject flag md path id de ino lab :
  let rq := OpRequest challenge_signature CITADEL_OP_OPEN subject sealed in
  let md' := overwrite 0 id md in
  joined l A p sealed → length subject = 16%nat → length md = 4096%nat → cstring md = path → (length path < 4096)%nat →
  path ≠ [] → resolve path = Some de → identifier_ok id →
  file_found base resolve daemon me path id de ino lab (p_daemon (l_world l)) →
  uint8 (policy (ts_pid me) rq (Some md')) = CITADEL_OP_APPROVED →
  ∃ l', LibIpc.ipc_transaction (enc_ext_request (ExtRequest rq true flag md)) l = Ok (true, l') ∧ ipc_frame l l' ∧
    joined l' (abs_insert (UpdateRecord (ts_pid me) id CITADEL_OP_OPEN) A) p sealed ∧
    same_tasks (kernel_of (l_world l)) (kernel_of (l_world l')) ∧
    same_labels (kernel_of (l_world l)) (kernel_of (l_world l')) ∧
    cache_grows path id (d_cache (p_daemon (l_world l))) (d_cache (p_daemon (l_world l'))).
Proof.
  intros rq md' Hj Hsub Hmd Hstr Hlt Hne Hres Hid Hfile Hpol. pose proof Hj as [Ha [Hs Hdel] Htok].
  destruct (open_passthrough l p sealed A subject flag md path id de ino lab)
    as (d2 & o & Hlen & Hlm & Hok & Hpass & Hwf & Hm & Hrq & He2 & Hd2 & Hc2 & Ht & Hsu); [done..|].
  fold rq md' in Hlen, Hlm, Hok, Hpass, Hwf, Hm, Hrq, Ht, Hsu. set (message := enc_ext_request (ExtRequest rq true true md')) in *.
  destruct (open_request_served rest resolve daemon policy Hmem Hslack message (ts_pid me) p md' (d_enclave d2) A)
    as (s' & Hreq & Hsv & Hlabs);
    [rewrite He2; by apply (in_step_host (d_enclave (p_daemon (l_world l))))|done|done|by rewrite Ht, Hsu|unfold named_object; by rewrite Ht
    |lia|by rewrite Hrq|rewrite Hrq, He2; by apply Htok|by rewrite Hrq, Hm|].
  assert (take 16 md' = id) as Htake by (unfold md'; rewrite overwrite_start; by apply take_app_length'; rewrite (proj2 Hid)).
  rewrite Htake in Hsv.
  destruct (request_answered l A (abs_insert (UpdateRecord (ts_pid me) id CITADEL_OP_OPEN) A) p sealed rq
    ([bool_byte true; bool_byte flag] ++ md) ([bool_byte true; bool_byte true] ++ md')
    d2 s' (n_base (rest_of (p_daemon (l_world l)))) o CITADEL_OP_APPROVED Hj) as (l' & Htr & F & Hj' & Hk' & Hcache);
    [done|by right|rewrite !length_app, Hlm, Hmd; done|done|exact Hpass|by rewrite Hd2|unfold SystemServe.rest_of; by rewrite He2|by rewrite He2
    |exact Hreq|vm_compute; split; congruence|exact Hsv|].
  exists l'. split; [exact Htr|]. split; [done|]. split; [done|]. rewrite Hk'.
  assert (kernel_of (l_world l) = kern_of (d_enclave d2)) as -> by (rewrite He2; done).
  split_and!; [by eapply serves_same_tasks|done|]. rewrite Hcache. exact Hc2.
Qed.

(** The same request, with a policy that refuses it. *)
Lemma path_open_refused l A p sealed subject flag md path id de ino lab :
  let rq := OpRequest challenge_signature CITADEL_OP_OPEN subject sealed in
  let md' := overwrite 0 id md in
  joined l A p sealed → length subject = 16%nat → length md = 4096%nat → cstring md = path → (length path < 4096)%nat →
  path ≠ [] → resolve path = Some de → identifier_ok id →
  file_found base resolve daemon me path id de ino lab (p_daemon (l_world l)) →
  uint8 (policy (ts_pid me) rq (Some md')) ≠ CITADEL_OP_APPROVED →
  ∃ l', LibIpc.ipc_transaction (enc_ext_request (ExtRequest rq true flag md)) l = Ok (false, l') ∧ ipc_frame l l' ∧
    joined l' A p sealed ∧ kernel_of (l_world l') = kernel_of (l_world l).
Proof.
  intros rq md' Hj Hsub Hmd Hstr Hlt Hne Hres Hid Hfile Hpol. pose proof Hj as [Ha [Hs Hdel] Htok].
  destruct (open_passthrough l p sealed A subject flag md path id de ino lab)
    as (d2 & o & Hlen & Hlm & Hok & Hpass & Hwf & Hm & Hrq & He2 & Hd2 & _); [done..|].
  fold rq md' in Hlen, Hlm, Hok, Hpass, Hwf, Hm, Hrq. set (message := enc_ext_request (ExtRequest rq true true md')) in *.
  assert (in_step rest resolve daemon (d_enclave d2) A) as Hs2 by (rewrite He2; by apply (in_step_host (d_enclave (p_daemon (l_world l))))).
  destruct (request_answered l A A p sealed rq ([bool_byte true; bool_byte flag] ++ md) ([bool_byte true; bool_byte true] ++ md')
    d2 (d_enclave d2) (n_base (rest_of (p_daemon (l_world l)))) o (uint8 (policy (ts_pid me) rq (Some md'))) Hj)
    as (l' & Htr & F & Hj' & Hk' & _); try done.
  - by right.
  - rewrite !length_app, Hlm, Hmd. done.
  - by rewrite Hd2.
  - unfold SystemServe.rest_of. by rewrite He2.
  - by rewrite He2.
  - change (enc_op_request rq ++ [bool_byte true; bool_byte true] ++ md') with message.
    rewrite (vouched_request rest resolve daemon policy message (ts_pid me) p (d_enclave d2) A Hs2 Hwf) by (rewrite Hrq, He2; by apply Htok).
    rewrite Hrq, Hm. by rewrite core_refused.
  - by apply Z.mod_pos_bound.
  - rewrite (proj2 (Z.eqb_neq _ _) Hpol) in Htr. exists l'. split_and!; [exact Htr|done|done|]. rewrite Hk', He2. done.
Qed.

(** What a claim of [path] leaves of the daemon's cache. *)
Lemma entry_cleared md path d :
  cstring md = path → (length path < length md)%nat → path ≠ [] → d_deleted_key d = true →
  ∃ d', clear_entry_from_cache md d = Ok (tt, d') ∧ d_enclave d' = d_enclave d ∧ d_deleted_key d' = true ∧
    d_cache d' = delete path (d_cache d).
Proof.
  intros Hs Hl Hne Hdel. unfold clear_entry_from_cache, metadata_string. rewrite Hs, (proj2 (Nat.ltb_lt _ _) Hl). mred.
  unfold cache_find, check_key. rewrite !bind_assoc. mred. rewrite Hdel.
  assert (true && bytes_eqb path [] = false) as -> by (by destruct path). mred.
  destruct (d_cache d !! path) as [e|] eqn:Ee.
  - unfold cache_erase. mred. rewrite Hdel. eexists. split; [reflexivity|]. done.
  - exists d. split_and!; [done..|]. by rewrite delete_id.
Qed.

Lemma claimed_on_disk `{!KernelLaws} D D1 de id :
  length id = 16%nat → vfs_setxattr_noperm D de _CITADEL_XATTR_IDENTIFIER (hex_body id) = (0, D1) →
  let D2 := (vfs_setxattr_noperm D1 de _CITADEL_XATTR_IN_REALM []).2 in
  disk_identifier D2 de id ∧ ∀ de' i len, d_ref de' ≠ d_ref de →
    vfs_getxattr D2 de' i _CITADEL_XATTR_IDENTIFIER len = vfs_getxattr D de' i _CITADEL_XATTR_IDENTIFIER len.
Proof.
  intros Hid HD. unfold disk_identifier.
  destruct (vfs_setxattr_noperm D1 de _CITADEL_XATTR_IN_REALM []) as [rc D2] eqn:E2. cbn [snd]. split.
  - rewrite (get_setxattr_ne _ _ _ _ _ _ _ _ _ _ E2) by done.
    assert (length (hex_body id) = 32%nat) as Hh by (by rewrite hex_body_length, Hid).
    rewrite (get_setxattr _ _ _ _ _ _ _ _ HD) by (done || lia). by rewrite Hh.
  - intros de' i len Hne. by rewrite (get_setxattr_other _ _ _ _ _ _ _ _ _ _ E2 Hne), (get_setxattr_other _ _ _ _ _ _ _ _ _ _ HD Hne).
Qed.

(** What a request that labels a file has done, from the world [w] to [l']. *)
Record labels_file (w : plat base other resolve daemon me) A p sealed (path id : bytes) (de : dentry) (ino : inode) (lab : citadel_inode_data) l'
    (lab' : citadel_inode_data) : Prop := LabelsFile {
  lb_joined : joined l' (abs_insert (UpdateRecord (ts_pid me) id CITADEL_OP_OPEN) A) p sealed;
  lb_tasks : same_tasks (kernel_of w) (kernel_of (l_world l'));
  lb_label : relabelled de ino lab lab' id (kernel_of w) (kernel_of (l_world l'));
  lb_disk : disk_identifier (k_disk (kernel_of (l_world l'))) de id;
  lb_others : ∀ de' i len, d_ref de' ≠ d_ref de →
    vfs_getxattr (k_disk (kernel_of (l_world l'))) de' i _CITADEL_XATTR_IDENTIFIER len =
    vfs_getxattr (k_disk (kernel_of w)) de' i _CITADEL_XATTR_IDENTIFIER len;
  lb_cache : d_cache (p_daemon (l_world l')) = delete path (d_cache (p_daemon w)) }.

(** The end of such a request: the daemon has handed the [message] on, and the
    enclave has labelled the file. *)
Lemma file_labelled `{!KernelLaws} l A p sealed rq more more' path de ino lab D1 d2 s' :
  let d := p_daemon (l_world l) in
  let s := d_enclave d in
  let b := n_base (rest_of d) in
  let d1 := put_rest (Net false [] [] b) (drawn rest resolve daemon 2 d) in
  let id := sgx_rand (S (e_nrnd s)) 16 in
  joined l A p sealed → op_request_ok rq → request_sized (enc_op_request rq ++ more) → length more' = length more →
  vfs_setxattr_noperm (k_disk (kern_of s)) de _CITADEL_XATTR_IDENTIFIER (hex_body id) = (0, D1) →
  cache_passthrough (enc_op_request rq ++ more) d1 = Ok ((true, enc_op_request rq ++ more'), d2) →
  errno_only base resolve daemon me d1 d2 → d_deleted_key d2 = true → d_cache d2 = delete path (d_cache d) →
  handle_request policy (enc_op_request rq ++ more') (ts_pid me) (Some 8%nat) (d_enclave d2) =
    Ok ((CITADEL_OP_APPROVED, Some (pp_ptoken p)), s') →
  newly_labelled rest resolve daemon (ts_pid me) de ino lab D1 (d_enclave d2) A s' →
  ∃ l' lab', LibIpc.ipc_transaction (enc_op_request rq ++ more) l = Ok (true, l') ∧ ipc_frame l l' ∧
    labels_file (l_world l) A p sealed path id de ino lab l' lab'.
Proof.
  intros d s b d1 id Hj Hok Hsz Hl HD Hpass (e & He2) Hd2 Hc2 Hreq (lab' & Hsv & Hrl & Hdisk).
  rewrite He2 in Hsv, Hrl. change (serves rest resolve daemon (abs_insert (UpdateRecord (ts_pid me) id CITADEL_OP_OPEN) A)
    (put_world (Host OS (h_os (e_world (d_enclave d1))) e) (d_enclave d1)) s') in Hsv.
  change (relabelled de ino lab lab' id (kern_of s) (kern_of s')) in Hrl.
  destruct (request_answered l A (abs_insert (UpdateRecord (ts_pid me) id CITADEL_OP_OPEN) A) p sealed rq more more' d2 s' b b CITADEL_OP_APPROVED Hj)
    as (l' & Htr & F & Hj' & Hk' & Hcache);
    [done..|unfold SystemServe.rest_of; by rewrite He2|by rewrite He2|exact Hreq|vm_compute; split; congruence|by rewrite He2|].
  destruct (claimed_on_disk _ _ _ _ (sgx_rand_length _ _) HD) as [Hdid Hoth]. rewrite <- Hdisk in Hdid, Hoth.
  exists l', lab'. split; [exact Htr|]. split; [done|]. split; rewrite ?Hk', ?Hcache; try done. by apply serves_same_tasks in Hsv.
Qed.

Lemma same_errno d d' : d_enclave d' = d_enclave d → errno_only base resolve daemon me d d'.
Proof. intros E. exists (h_errno (e_world (d_enclave d))). rewrite E. by destruct (d_enclave d) as [? ? ? ? ? ? ? ? []]. Qed.

(** The request of [citadel_file_claim]. *)
Lemma path_claim_granted `{!KernelLaws} l A p sealed subject flag md path de ino lab D1 :
  let rq := OpRequest challenge_signature (Z.lor CITADEL_OP_CLAIM CITADEL_OP_OPEN) subject sealed in
  let s := d_enclave (p_daemon (l_world l)) in
  let id := sgx_rand (S (e_nrnd s)) 16 in
  joined l A p sealed → length subject = 16%nat → length md = 4096%nat → cstring md = path → (length path < 4096)%nat →
  path ≠ [] → resolve path = Some de → known_file (kern_of s) de ino lab →
  vfs_setxattr_noperm (k_disk (kern_of s)) de _CITADEL_XATTR_IDENTIFIER (hex_body id) = (0, D1) →
  uint8 (policy (ts_pid me) rq (Some md)) = CITADEL_OP_APPROVED →
  ∃ l' lab', LibIpc.ipc_transaction (enc_ext_request (ExtRequest rq false flag md)) l = Ok (true, l') ∧ ipc_frame l l' ∧
    labels_file (l_world l) A p sealed path id de ino lab l' lab'.
Proof.
  intros rq s id Hj Hsub Hmd Hstr Hlt Hne Hres Hk HD Hpol.
  pose proof Hj as [Ha [Hs Hdel] Htok]. set (d := p_daemon (l_world l)) in *.
  assert (ext_request_ok (ExtRequest rq false flag md)) as Hx.
  { destruct Htok. split; try done; split_and!; try done; vm_compute; split; congruence. }
  destruct (ext_request_view _ _ _ _ Hx eq_refl) as (Hlen & Hrq & Hdec & Hm & _ & _ & Hwf). set (data := enc_ext_request _) in *.
  set (d1 := put_rest (Net false [] [] (n_base (rest_of d))) (drawn rest resolve daemon 2 d)).
  destruct (entry_cleared md path d1) as (d2 & Ecl & He2 & Hd2 & Hc2); [done|lia|done..|].
  assert (cache_passthrough data d1 = Ok ((true, data), d2)) as Hpass.
  { unfold cache_passthrough. rewrite Hlen. change (4188 =? Daemon.sizeof_request)%nat with false.
    change (4188 =? Daemon.sizeof_extended)%nat with true. cbv iota zeta. cbn [negb]. rewrite Hdec.
    cbn [xr_request rq_operation rq xr_translate xr_metadata].
    change (has_flag (Z.lor CITADEL_OP_CLAIM CITADEL_OP_OPEN) CITADEL_OP_CLAIM) with true. cbv iota. by mstep Ecl. }
  destruct (claim_request_served rest resolve daemon policy Hmem Hslack data (ts_pid me) p md de ino lab D1 (d_enclave d2) A)
    as (s' & Hreq & Hnew);
    [rewrite He2; by apply (in_step_host (d_enclave d))|done|done|done|by rewrite Hrq|rewrite Hrq, He2; by apply Htok
    |by rewrite Hrq|unfold is_cstring; rewrite Hstr, Hmd; by apply Nat.ltb_lt|by rewrite Hstr|by rewrite He2|by rewrite He2|].
  by apply (file_labelled l A p sealed rq ([bool_byte false; bool_byte flag] ++ md) ([bool_byte false; bool_byte flag] ++ md)
    path de ino lab D1 d2 s' Hj (proj1 Hx) (or_intror Hlen) eq_refl HD Hpass (same_errno _ _ He2) Hd2 Hc2 Hreq).
Qed.

(** The request of [citadel_file_open] for a file without an identifier. *)
Lemma path_open_labels `{!KernelLaws} l A p sealed subject flag md path de ino lab D1 :
  let rq := OpRequest challenge_signature CITADEL_OP_OPEN subject sealed in
  let d := p_daemon (l_world l) in
  let s := d_enclave d in
  let id := sgx_rand (S (e_nrnd s)) 16 in
  joined l A p sealed → length subject = 16%nat → length md = 4096%nat → cstring md = path → (length path < 4096)%nat →
  path ≠ [] → resolve path = Some de → known_file (kern_of s) de ino lab → no_identifier (k_disk (kern_of s)) de →
  d_cache d !! path = None →
  vfs_setxattr_noperm (k_disk (kern_of s)) de _CITADEL_XATTR_IDENTIFIER (hex_body id) = (0, D1) →
  uint8 (policy (ts_pid me) rq (Some md)) = CITADEL_OP_APPROVED →
  ∃ l' lab', LibIpc.ipc_transaction (enc_ext_request (ExtRequest rq true flag md)) l = Ok (true, l') ∧ ipc_frame l l' ∧
    labels_file (l_world l) A p sealed path id de ino lab l' lab'.
Proof.
  intros rq d s id Hj Hsub Hmd Hstr Hlt Hne Hres Hk Hno Hcn HD Hpol. pose proof Hj as [Ha [Hs Hdel] Htok].
  assert (ext_request_ok (ExtRequest rq true flag md) ∧ ext_request_ok (ExtRequest rq true false md)) as [Hx Hx'].
  { destruct Htok. split; split; try done; split_and!; try done; vm_compute; split; congruence. }
  destruct (ext_request_view _ _ _ _ Hx eq_refl) as (Hlen & Hrq & Hdec & _).
  destruct (ext_request_view _ _ _ _ Hx' eq_refl) as (_ & Hrq' & _ & Hm' & Ht' & Hsu' & Hwf').
  set (data := enc_ext_request _) in *. set (message := enc_ext_request _) in Hrq', Hm', Ht', Hsu', Hwf'.
  set (d1 := put_rest (Net false [] [] (n_base (rest_of d))) (drawn rest resolve daemon 2 d)).
  destruct (metadata_untranslated base resolve daemon me path de ino lab Hne Hres md d1) as (d2 & Etr & He2 & Hd2 & Hc2); [done|lia|done..|].
  assert (cache_passthrough data d1 = Ok ((true, message), d2)) as Hpass.
  { unfold cache_passthrough. rewrite Hlen. change (4188 =? Daemon.sizeof_request)%nat with false.
    change (4188 =? Daemon.sizeof_extended)%nat with true. cbv iota zeta. cbn [negb]. rewrite Hdec.
    cbn [xr_request rq_operation rq xr_translate xr_metadata]. change (has_flag CITADEL_OP_OPEN CITADEL_OP_CLAIM) with false. cbv iota.
    mstep Etr. cbv iota beta. unfold message. rewrite <- (ext_request_overwritten rq true flag md false md Hx) by done. done. }
  pose proof He2 as (e & He2').
  destruct (unlabelled_request_served rest resolve daemon policy Hmem Hslack message (ts_pid me) p md de ino lab D1 (d_enclave d2) A)
    as (s' & Hreq & Hnew);
    [rewrite He2'; by apply (in_step_host (d_enclave d))|done|done|done|done|done|by rewrite Hrq'|rewrite Hrq', He2'; by apply Htok
    |by rewrite Hrq'|unfold is_cstring; rewrite Hstr, Hmd; by apply Nat.ltb_lt|by rewrite Hstr|by rewrite He2'|by rewrite He2'|].
  apply (file_labelled l A p sealed rq ([bool_byte true; bool_byte flag] ++ md) ([bool_byte true; bool_byte false] ++ md)
    path de ino lab D1 d2 s' Hj (proj1 Hx) (or_intror Hlen)); try done; [by rewrite Hd2|].
  rewrite Hc2. by rewrite delete_id.
Qed.

(** ** The files of the system *)

(** What the daemon and the module know about the file at [path]: either it has
    an identifier, the same one everywhere, or none anywhere. *)
Inductive file_state d (path : bytes) (de : dentry) (ino : inode) (lab : citadel_inode_data) : Prop :=
  | with_label id : file_found base resolve daemon me path id de ino lab d → identifier_ok id →
      id_anonymous lab = false → id_identifier lab = id → file_state d path de ino lab
  | without_label : known_file (kern_of (d_enclave d)) de ino lab → no_identifier (k_disk (kern_of (d_enclave d))) de →
      d_cache d !! path = None → file_state d path de ino lab.

Lemma file_state_known d path de ino lab : file_state d path de ino lab → known_file (kern_of (d_enclave d)) de ino lab.
Proof. intros [id (Hk & _) _ _ _|Hk _ _]; done. Qed.

(** A request that grants access leaves it so. *)
Lemma file_state_granted d d' path path' id de ino lab :
  same_labels (kern_of (d_enclave d)) (kern_of (d_enclave d')) → cache_grows path' id (d_cache d) (d_cache d') →
  (path' = path → id_identifier lab = id ∧ id_anonymous lab = false) →
  file_state d path de ino lab → (path' = path → disk_identifier (k_disk (kern_of (d_enclave d))) de id) →
  file_state d' path de ino lab.
Proof.
  intros [Hi Hd _] Hg Hsame Hf Hdisk.
  assert (∀ k, known_file (kern_of (d_enclave d)) de ino lab → k = kern_of (d_enclave d') → known_file k de ino lab) as Hkf.
  { intros k [] ->. split; try done. by rewrite Hi. }
  destruct Hf as [id0 (Hk & Hd0 & Hc) Hok Han Hl0|Hk (rc & v & Hv & Hrc) Hc].
  - apply (with_label _ _ _ _ _ id0); [|done..]. split_and!; [by apply Hkf|by rewrite Hd|].
    intros e He. destruct (Hg _ _ He) as [(e0 & He0 & <-)|[<- Hv]]; [by apply Hc|]. by rewrite Hv, <- (proj1 (Hsame eq_refl)).
  - apply without_label; [by apply Hkf|by exists rc, v; rewrite Hd|].
    destruct (d_cache d' !! path) as [e|] eqn:He; [|done]. destruct (Hg _ _ He) as [(e0 & He0 & _)|[<- _]]; [congruence|].
    pose proof (Hdisk eq_refl) as Hx. unfold disk_identifier in Hx. rewrite Hv in Hx. injection Hx as -> _. done.
Qed.

(** A request that labels a file gives it one, and leaves the others as they
    are. *)
Lemma labelled_state l A p sealed path id de ino lab l' lab' :
  labels_file (l_world l) A p sealed path id de ino lab l' lab' → identifier_ok id →
  file_state (p_daemon (l_world l')) path de ino lab'.
Proof.
  intros [_ _ [Hk [_ Hi Ha] _] Hd _ Hc] Hid. apply (with_label _ _ _ _ _ id); [|done..].
  split_and!; [done|done|]. intros e. by rewrite Hc, lookup_delete_eq.
Qed.

Lemma other_state l A p sealed path id de ino lab l' lab' path' de' ino' lab'' :
  labels_file (l_world l) A p sealed path id de ino lab l' lab' → path' ≠ path → d_ref de' ≠ d_ref de → i_ref ino' ≠ i_ref ino →
  file_state (p_daemon (l_world l)) path' de' ino' lab'' → file_state (p_daemon (l_world l')) path' de' ino' lab''.
Proof.
  intros [_ _ [_ _ Hin] _ Hoth Hc] Hp Hde Hino Hf.
  assert (known_file (kernel_of (l_world l)) de' ino' lab'' → known_file (kernel_of (l_world l')) de' ino' lab'') as Hkf.
  { intros []. split; try done. rewrite Hin. by rewrite lookup_insert_ne. }
  destruct Hf as [id0 (Hk & Hd0 & Hco) Hok Han Hl0|Hk (rc & v & Hv & Hrc) Hcn].
  - apply (with_label _ _ _ _ _ id0); [|done..]. split_and!; [by apply Hkf|unfold disk_identifier; by rewrite Hoth|].
    intros e. rewrite Hc, lookup_delete_ne by done. apply Hco.
  - apply without_label; [by apply Hkf|exists rc, v; by rewrite Hoth|]. by rewrite Hc, lookup_delete_ne.
Qed.
End joined.
