(* ===== verification/PlatformTheorems.v ===== *)
(** * A process, the daemon, the enclave and the module

    What the calls of libcitadel do on the platform: joining, claiming a file and
    opening one. *)

From S2P Require Import LibState LibCache LibIpc LibClient Shim LibCacheSpec LibCacheOps LibCacheTheorems LibIpcTheorems LibClientSpec LibPaths.
From S2P Require Import Prelude Shared Hex RBTree Kernel Ring Tickets TicketsSpec CacheModel Access.
From S2P Require Import Crypto PayloadIO FileIO Shm Hooks AccessSpec AccessTheorems LabelSpec ProtocolSpec ProtocolTheorems EndToEnd.
From S2P Require Import Ltc LtcRsa Enclave Daemon EnclaveSpec System SystemSpec SystemServe Platform PlatformSpec PlatformCache PlatformServe.

Section theorems.
Context `{HKer : Kernel} `{HKLaw : !KernelLaws} `{HRb : RbTree} `{HCry : KernelCrypto} `{HLaw : !CryptoLaws}.
Context `{HSgx : Sgx} `{HSLaw : !SgxLaws} `{HGcm : !GcmInterop} `{HLtc : LtcEnv}.
Context (base : DaemonOS) (other : Posix) `{HPLaw : !PosixLaws (H := other)}.
Context (resolve : bytes → option dentry) (daemon me : task_struct).
Context (policy : Z → citadel_op_request → option bytes → Z) (schedule : nat → bool) (fuel : nat).
Abbreviation PL := (platform base other resolve daemon me policy schedule fuel).
Abbreviation rest := (sockets base me).
Abbreviation kern_of := (kern_of rest resolve daemon).
Abbreviation kernel_of := (kernel_of base other resolve daemon me).
Abbreviation daemon_of l := (p_daemon (l_world l)).
Abbreviation joined := (joined base other resolve daemon me policy schedule fuel).
Abbreviation file_found := (file_found base resolve daemon me).
Implicit Types (l : @lstate PL) (A : acache).

#[local] Instance platform_laws : PosixLaws (H := PL).
Proof. split. apply (@stack_length other HPLaw). Qed.

(** What the theorems take for granted: memory, clocks that advance, a process
    like any other, room behind the enclave's ticket array, and a daemon that gets
    to run while the process waits. *)
Record environment : Prop := Environment {
  ev_fair : fair schedule;
  ev_fuel : (2 ≤ fuel)%nat;
  ev_pid : is_pid (ts_pid me);
  ev_user : 1 < ts_pid me;
  ev_kmem : ∀ n, kmem n = true;
  ev_ktime : ∀ n, 0 < ktime n < ktime (S n);
  ev_slack : (12 ≤ frame_slack)%nat;
  ev_clock : ∀ o, ∃ now o', dsys (DaemonOS := base) d_gettimeofday o = Ok (DRet now 0 [], o') ∧ 0 ≤ now;
  ev_dmem : ∀ n, @dmem base n = true;
  ev_mem : ∀ n, @LibState.mem other n = true }.

Lemma joined_local l l' A p sealed :
  l_world l' = l_world l → l_self l' = l_self l → l_buffer l' = l_buffer l → joined l A p sealed → joined l' A p sealed.
Proof. intros Hw Hs Hb [? ? []]. split; rewrite ?Hw; [done..|]. by split; rewrite ?Hs, ?Hb. Qed.

Lemma joined_lib l l' A p sealed : lib_frame l l' → joined l A p sealed → joined l' A p sealed.
Proof. intros []. by apply joined_local. Qed.

(** What the module grants the process from now on, for the fifteen seconds of a
    ticket. *)
Definition may_open (cred_of : Z → positive) (ino : inode) (since : Z) (k : kstate) : Prop :=
  ∀ mask n, (k_nclk k ≤ n)%nat → ktime n - since < expiry_ns →
    ∃ k', trm_inode_permission (Task (ts_pid me) (cred_of (ts_pid me))) ino mask (set_nclk n k) = Ok (0, k').

Lemma joined_may_open (cred_of : Z → positive) l A id p sealed td de ino lab :
  environment → ordered cred_of A → joined l (abs_insert (UpdateRecord (ts_pid me) id CITADEL_OP_OPEN) A) p sealed →
  k_creds (kernel_of (l_world l)) !! cred_of (ts_pid me) = Some td →
  known_file (kernel_of (l_world l)) de ino lab → id_anonymous lab = false → id_identifier lab = id →
  may_open cred_of ino (ktime (ac_clock A)) (kernel_of (l_world l)).
Proof.
  intros [] Hord [_ [Hs _] _] Htd [] Han Hid mask n Hn Hexp.
  eapply granted_opens; try done. apply (rd_refines _ _ _ _ (is_ready _ _ _ _ _ Hs)).
Qed.

Lemma joined_clock l A p sealed : joined l A p sealed → k_nclk (kernel_of (l_world l)) = ac_clock A.
Proof. intros [_ [Hs _] _]. apply (ref_clock _ _ (rd_refines _ _ _ _ (is_ready _ _ _ _ _ Hs))). Qed.

(** The library asks for a path, and the daemon grants it. *)
Lemma path_granted l C A p sealed path op op' tr (Q : @lstate PL → Prop) :
  environment → joined l A p sealed → lib_rep l C → unknown_path l path op C → path_ok path → has_flag op' op' = true →
  (∀ l1 subject flag md, joined l1 A p sealed → l_world l1 = l_world l → length subject = 16%nat → length md = 4096%nat →
     cstring md = path → (length path < 4096)%nat → path ≠ [] →
     ∃ l2, ipc_transaction (enc_ext_request (ExtRequest (OpRequest challenge_signature op' subject sealed) tr flag md)) l1 =
       Ok (true, l2) ∧ ipc_frame l1 l2 ∧ Q l2) →
  ∃ l2 l3 C', ask path op op' tr l = Ok (true, l3) ∧ lib_frame l2 l3 ∧ lib_rep l3 C' ∧ known_path path op' C' ∧ Q l2.
Proof.
  intros Hev Hj HC Hno Hp Hop Hgrant. pose proof Hp as [Hnz Hlen].
  destruct (asked l C path op op' tr (ev_mem Hev) Hp HC Hno Hop) as (l1 & F1 & Hask).
  pose proof (joined_lib _ _ _ _ _ F1 Hj) as Hj1. pose proof (jn_token _ _ _ _ _ _ _ _ _ _ _ _ Hj1) as Htok1.
  destruct (send_path_request_eq l1 path op' tr sealed Hp) as (subject & flag & md & Hs & Hm & Hstr & E);
    [apply Htok1..|]. set (l1' := LibState.put_nstk _ l1) in *.
  destruct (Hgrant l1' subject flag md) as (l2 & E2 & F2 & HQ);
    [by apply (joined_local l1)|apply F1|done..|lia|intros ->; cbn in Hlen; lia|].
  rewrite <- E in E2. destruct (Hask l2 E2 F2) as (l3 & C3 & E3 & F3 & HC3 & Hk3). by exists l2, l3, C3.
Qed.

(** What a granted request for a labelled file does. *)
Lemma open_granted l C A p sealed path id de ino lab :
  environment → joined l A p sealed → lib_rep l C → unknown_path l path CITADEL_OP_OPEN C →
  path_ok path → resolve path = Some de → identifier_ok id → file_found path id de ino lab (daemon_of l) →
  (∀ rq md, rq_operation rq = CITADEL_OP_OPEN → take 16 md = id → uint8 (policy (ts_pid me) rq (Some md)) = CITADEL_OP_APPROVED) →
  ∃ l' C', citadel_file_open (terminated path) (path_length path) l = Ok (true, l') ∧
    joined l' (abs_insert (UpdateRecord (ts_pid me) id CITADEL_OP_OPEN) A) p sealed ∧
    lib_rep l' C' ∧ known_path path CITADEL_OP_OPEN C' ∧
    same_tasks (kernel_of (l_world l)) (kernel_of (l_world l')) ∧
    same_labels (kernel_of (l_world l)) (kernel_of (l_world l')) ∧
    cache_grows path id (d_cache (daemon_of l)) (d_cache (daemon_of l')).
Proof.
  intros Hev Hj HC Hno Hp Hres Hid Hfile Hpol. rewrite (open_asks path l Hp).
  destruct (path_granted l C A p sealed path CITADEL_OP_OPEN CITADEL_OP_OPEN true (λ l',
    joined l' (abs_insert (UpdateRecord (ts_pid me) id CITADEL_OP_OPEN) A) p sealed ∧
    same_tasks (kernel_of (l_world l)) (kernel_of (l_world l')) ∧
    same_labels (kernel_of (l_world l)) (kernel_of (l_world l')) ∧
    cache_grows path id (d_cache (daemon_of l)) (d_cache (daemon_of l')))) as (l2 & l3 & C3 & E & F & HC3 & Hk & Hj2 & Ht & Hl & Hg);
    [done..| |].
  - intros l1 subject flag md Hj1 Hw Hs Hm Hstr Hlt Hne.
    assert (take 16 (overwrite 0 id md) = id) as Htake by (rewrite overwrite_start; apply take_app_length'; by rewrite (proj2 Hid)).
    destruct (path_open_granted base other resolve daemon me policy schedule fuel (ev_fair Hev) (ev_fuel Hev) (ev_pid Hev)
      (ev_kmem Hev) (ev_slack Hev) (ev_clock Hev) (ev_dmem Hev) l1 A p sealed subject flag md path id de ino lab)
      as (l2 & E2 & F2 & Hj2 & Ht & Hl & Hg); [done..|by rewrite Hw|by apply Hpol|].
    rewrite Hw in Ht, Hl, Hg. by exists l2.
  - assert (l_world l3 = l_world l2) as Hw3 by apply F. exists l3, C3. rewrite Hw3. split_and!; try done. by eapply joined_lib.
Qed.

(** What a granted request that labels a file does: [ask] with [op'] claims it or
    opens it the first time. *)
Lemma path_labelled l C A p sealed path op op' tr de ino lab D1 :
  let s := d_enclave (daemon_of l) in
  let id := sgx_rand (S (e_nrnd s)) 16 in
  environment → joined l A p sealed → lib_rep l C → unknown_path l path op C →
  path_ok path → resolve path = Some de → known_file (kern_of s) de ino lab →
  vfs_setxattr_noperm (k_disk (kern_of s)) de _CITADEL_XATTR_IDENTIFIER (hex_body id) = (0, D1) →
  op' = Z.lor CITADEL_OP_CLAIM CITADEL_OP_OPEN ∧ tr = false ∨
  op' = CITADEL_OP_OPEN ∧ tr = true ∧ no_identifier (k_disk (kern_of s)) de ∧ d_cache (daemon_of l) !! path = None →
  (∀ rq md, rq_operation rq = op' → cstring md = path → uint8 (policy (ts_pid me) rq (Some md)) = CITADEL_OP_APPROVED) →
  ∃ l' C' lab', ask path op op' tr l = Ok (true, l') ∧ lib_rep l' C' ∧ known_path path op' C' ∧
    labels_file base other resolve daemon me policy schedule fuel (l_world l) A p sealed path id de ino lab l' lab'.
Proof.
  intros s id Hev Hj HC Hno Hp Hres Hk HD Hkind Hpol.
  destruct (path_granted l C A p sealed path op op' tr (λ l', ∃ lab',
    labels_file base other resolve daemon me policy schedule fuel (l_world l) A p sealed path id de ino lab l' lab'))
    as (l2 & l3 & C3 & E & F & HC3 & Hk3 & lab' & Hlb); [done..|by destruct Hkind as [[-> _]|[-> _]]| |].
  - intros l1 subject flag md Hj1 Hw Hs Hm Hstr Hlt Hne.
    assert (∃ l2 lab', ipc_transaction (enc_ext_request (ExtRequest (OpRequest challenge_signature op' subject sealed) tr flag md)) l1 =
        Ok (true, l2) ∧ ipc_frame l1 l2 ∧ labels_file base other resolve daemon me policy schedule fuel (l_world l1) A p sealed path
        (sgx_rand (S (e_nrnd (d_enclave (daemon_of l1)))) 16) de ino lab l2 lab') as (l2 & lab' & E2 & F2 & Hlb).
    { destruct Hkind as [[-> ->]|(-> & -> & Hnid & Hcn)].
      - apply (path_claim_granted base other resolve daemon me policy schedule fuel (ev_fair Hev) (ev_fuel Hev) (ev_pid Hev)
          (ev_kmem Hev) (ev_slack Hev) l1 A p sealed subject flag md path de ino lab D1); try done; rewrite ?Hw; try done. by apply Hpol.
      - apply (path_open_labels base other resolve daemon me policy schedule fuel (ev_fair Hev) (ev_fuel Hev) (ev_pid Hev)
          (ev_kmem Hev) (ev_slack Hev) l1 A p sealed subject flag md path de ino lab D1); try done; rewrite ?Hw; try done. by apply Hpol. }
    rewrite Hw in Hlb. exists l2. split_and!; [done..|]. by exists lab'.
  - assert (l_world l3 = l_world l2) as Hw3 by apply F. exists l3, C3, lab'. split_and!; [done..|].
    destruct Hlb as [Hjl]. split; rewrite ?Hw3; try done. by eapply joined_lib.
Qed.

(** C3: opening a file, end to end.  A process that has joined calls
    [citadel_file_open] for a labelled file that is not in its cache, and the
    policy approves.  The library asks the daemon, which finds the identifier of
    the file; the enclave sends a ticket to the module; the call succeeds, the
    path is remembered, everyone is in step again, and until the ticket is fifteen
    seconds old the module lets the process open the file. *)
Theorem file_open_end_to_end (cred_of : Z → positive) l C A p sealed path id de ino lab td :
  environment → joined l A p sealed → ordered cred_of A → lib_rep l C → unknown_path l path CITADEL_OP_OPEN C →
  path_ok path → resolve path = Some de → identifier_ok id → file_found path id de ino lab (daemon_of l) →
  id_anonymous lab = false → id_identifier lab = id →
  k_creds (kernel_of (l_world l)) !! cred_of (ts_pid me) = Some td →
  (∀ rq md, rq_operation rq = CITADEL_OP_OPEN → take 16 md = id → uint8 (policy (ts_pid me) rq (Some md)) = CITADEL_OP_APPROVED) →
  ∃ l' C', citadel_file_open (terminated path) (path_length path) l = Ok (true, l') ∧
    joined l' (abs_insert (UpdateRecord (ts_pid me) id CITADEL_OP_OPEN) A) p sealed ∧
    lib_rep l' C' ∧ known_path path CITADEL_OP_OPEN C' ∧ file_found path id de ino lab (daemon_of l') ∧
    may_open cred_of ino (ktime (k_nclk (kernel_of (l_world l)))) (kernel_of (l_world l')).
Proof.
  intros Hev Hj Hord HC Hno Hp Hres Hid Hfile Han Hlab Htd Hpol.
  destruct (open_granted l C A p sealed path id de ino lab) as (l' & C' & E & Hj' & HC' & Hk' & [Hcr _] & Hsl & Hg); [done..|].
  assert (file_found path id de ino lab (daemon_of l')) as Hf'.
  { destruct Hfile as ([] & Hd & Hco), Hsl as [Hsi Hsd _]. unfold Platform.kernel_of in Hsi, Hsd.
    split_and!; [split; try done; by rewrite Hsi|unfold disk_identifier; by rewrite Hsd|by eapply grown_coherent]. }
  exists l', C'. split_and!; [done..|]. rewrite (joined_clock _ _ _ _ Hj).
  eapply (joined_may_open cred_of l' A id p sealed td de ino lab); try done; [by rewrite Hcr|apply Hf'].
Qed.

(** C6: a refusal, end to end.  When the policy does not approve, the same call
    fails: the module is as it was (no ticket, no label, nothing else), the
    library does not remember the path, and the process is as joined as before. *)
Theorem refused_open_changes_nothing l C A p sealed path id de ino lab :
  environment → joined l A p sealed → lib_rep l C → unknown_path l path CITADEL_OP_OPEN C →
  path_ok path → resolve path = Some de → identifier_ok id → file_found path id de ino lab (daemon_of l) →
  (∀ rq md, rq_operation rq = CITADEL_OP_OPEN → uint8 (policy (ts_pid me) rq (Some md)) ≠ CITADEL_OP_APPROVED) →
  ∃ l' C', citadel_file_open (terminated path) (path_length path) l = Ok (false, l') ∧
    kernel_of (l_world l') = kernel_of (l_world l) ∧ joined l' A p sealed ∧ lib_rep l' C' ∧ ¬ known_path path CITADEL_OP_OPEN C'.
Proof.
  intros Hev Hj HC Hno Hp Hres Hid Hfile Hpol. pose proof Hp as [Hnz Hlen]. rewrite (open_asks path l Hp).
  destruct (asked_in_vain l C path CITADEL_OP_OPEN CITADEL_OP_OPEN true Hp HC Hno) as (l1 & F1 & Hask).
  pose proof (joined_lib _ _ _ _ _ F1 Hj) as Hj1. pose proof (jn_token _ _ _ _ _ _ _ _ _ _ _ _ Hj1) as Htok1.
  destruct (send_path_request_eq l1 path CITADEL_OP_OPEN true sealed Hp) as (subject & flag & md & Hs & Hm & Hstr & E);
    [apply Htok1..|]. set (l1' := LibState.put_nstk _ l1) in *.
  assert (joined l1' A p sealed) as Hj1' by by apply (joined_local l1).
  assert (l_world l1' = l_world l) as Hw by apply F1.
  destruct (path_open_refused base other resolve daemon me policy schedule fuel (ev_fair Hev) (ev_fuel Hev) (ev_pid Hev)
    (ev_clock Hev) (ev_dmem Hev) l1' A p sealed subject flag md path id de ino lab) as (l2 & E2 & F2 & Hj2 & Hk2);
    [done..|lia|intros ->; cbn in Hlen; lia|done|done|by rewrite Hw|by apply Hpol|].
  rewrite <- E in E2. destruct (Hask l2 E2 F2) as (C' & E3 & HC' & Hun). exists l2, C'. rewrite Hk2, Hw.
  split_and!; [done..|]. unfold known_path. by rewrite Hun.
Qed.

(** The attribute of a known file, as the process reads it. *)
Lemma machine_unchanged p : put_machine base other resolve daemon me (kernel_of p) (net_of base other resolve daemon me p) p = p.
Proof. by destruct p as [[[? ? ? ? ? ? ? ? [[? ?] ?]] ? ? ? ? ?] ? ? ? ?]. Qed.

Lemma probe_path path size de ino lab rc v l :
  resolve path = Some de → known_file (kernel_of (l_world l)) de ino lab →
  vfs_getxattr (k_disk (kernel_of (l_world l))) de (d_inode de) _CITADEL_XATTR_IDENTIFIER size = (rc, v) →
  ∃ l', LibState.call_ret (sys_getxattr path _CITADEL_XATTR_IDENTIFIER size) l = Ok (if rc <? 0 then - 1 else rc, l') ∧
    ipc_frame l l' ∧ l_buffer l' = l_buffer l ∧ l_world l' = l_world l.
Proof.
  intros Hres Hk Hv. eexists. split; [rewrite call_ret_eq; f_equal; f_equal|].
  - cbn [LibState.sys platform platform_call]. rewrite Hres. unfold in_module, mbind, M_bind.
    rewrite (getxattr_hook_quiet me de ino lab _ Hk). unfold getxattr, gets. rewrite Hv. unfold posix_result. by destruct (rc <? 0).
  - split_and!; [apply called_frame|apply called_buffer|]. rewrite world_called.
    cbn [LibState.sys platform platform_call]. rewrite Hres. unfold in_module, mbind, M_bind.
    rewrite (getxattr_hook_quiet me de ino lab _ Hk). unfold getxattr, gets. rewrite Hv. apply machine_unchanged.
Qed.

(** C4: claiming a file, end to end.  A process that has joined calls
    [citadel_file_claim] for a file that the module knows, and the policy
    approves.  The enclave draws a fresh identifier; the module has it in the
    file's blob and on the disk; the daemon no longer has another one in its
    cache; the call succeeds, everyone is in step again, and until its ticket is
    fifteen seconds old the process may open the file. *)
Theorem file_claim_end_to_end (cred_of : Z → positive) l C A p sealed path de ino lab td rc v D1 :
  let s := d_enclave (daemon_of l) in
  let id := sgx_rand (S (e_nrnd s)) 16 in
  environment → joined l A p sealed → ordered cred_of A → lib_rep l C → unknown_path l path CITADEL_OP_CLAIM C →
  path_ok path → resolve path = Some de → known_file (kern_of s) de ino lab →
  vfs_getxattr (k_disk (kern_of s)) de (d_inode de) _CITADEL_XATTR_IDENTIFIER 0 = (rc, v) →
  rc ≠ sizeof_xattr_name → rc < 2 ^ 32 →
  vfs_setxattr_noperm (k_disk (kern_of s)) de _CITADEL_XATTR_IDENTIFIER (hex_body id) = (0, D1) →
  k_creds (kern_of s) !! cred_of (ts_pid me) = Some td →
  (∀ rq md, rq_operation rq = Z.lor CITADEL_OP_CLAIM CITADEL_OP_OPEN → cstring md = path →
     uint8 (policy (ts_pid me) rq (Some md)) = CITADEL_OP_APPROVED) →
  ∃ l' C' lab', citadel_file_claim (terminated path) (path_length path) l = Ok (true, l') ∧
    joined l' (abs_insert (UpdateRecord (ts_pid me) id CITADEL_OP_OPEN) A) p sealed ∧
    lib_rep l' C' ∧ known_path path (Z.lor CITADEL_OP_CLAIM CITADEL_OP_OPEN) C' ∧
    file_found path id de ino lab' (daemon_of l') ∧ carries id lab' ∧
    may_open cred_of ino (ktime (k_nclk (kern_of s))) (kernel_of (l_world l')).
Proof.
  intros s id Hev Hj Hord HC Hno Hp Hres Hk Hv Hrc Hrc32 HD Htd Hpol. unfold citadel_file_claim.
  assert (cstring (terminated path) = path) as Hcs by (apply cstring_nul, Hp). rewrite Hcs.
  destruct (probe_path path 0 de ino lab rc v l Hres Hk Hv) as (l0 & E0 & F0 & B0 & W0). mstep E0.
  assert (uint64 (if rc <? 0 then -1 else rc) =? sizeof_xattr_name = false) as ->.
  { apply Z.eqb_neq. destruct (Z.ltb_spec rc 0); [done|]. unfold uint64. by rewrite Z.mod_small by lia. }
  rewrite (claim_asks path l0 Hp).
  assert (lib_rep l0 C) as HC0 by (destruct HC, F0; split; [by eapply cr_ext|done]).
  assert (joined l0 A p sealed) as Hj0 by (apply (joined_local l); [done|apply F0|done..]).
  destruct (path_labelled l0 C A p sealed path CITADEL_OP_CLAIM (Z.lor CITADEL_OP_CLAIM CITADEL_OP_OPEN) false de ino lab D1)
    as (l' & C' & lab' & E & HC' & Hk' & Hlb); rewrite ?W0; try done; [by unfold unknown_path; rewrite (if_nclk _ _ F0)|by left|]. rewrite W0 in Hlb. fold s id in Hlb.
  pose proof Hlb as [Hj' [Hcr _] [Hkf Hca _] Hd _ Hc].
  assert (file_found path id de ino lab' (daemon_of l')) as Hf'.
  { split_and!; [done..|]. intros e. by rewrite Hc, lookup_delete_eq. }
  exists l', C', lab'. split_and!; [done..|].
  change (kern_of s) with (kernel_of (l_world l)). rewrite (joined_clock _ _ _ _ Hj).
  eapply (joined_may_open cred_of l' A id p sealed td de ino lab'); try done; [by rewrite Hcr|apply Hca..].
Qed.

(** ** Joining *)

(** A process that the module knows, before it has a token. *)
Record stranger l A (td : citadel_task_data) : Prop := Stranger {
  sg_alive : p_alive (l_world l) = true;
  sg_rest : at_rest base resolve daemon me (daemon_of l) A;
  sg_aes : k_aes_available (kernel_of (l_world l)) = true;
  sg_daemon : enclave_pid (k_pio (kernel_of (l_world l))) = ts_pid daemon;
  sg_cred : k_creds (kernel_of (l_world l)) !! ts_cred me = Some td;
  sg_identifier : length (td_identifier td) = 16%nat;
  sg_buffer : (90 ≤ length (l_buffer l))%nat }.

Lemma in_step_spent s A nr nm e (n : net base) :
  let k := kern_of s in
  in_step rest resolve daemon s A →
  in_step rest resolve daemon (put_world (Host (machine rest resolve daemon) (set_nrnd nr (set_nmem nm k), n) e) s) A.
Proof. intros k [[] ? ?]. split; [|done..]. split; try done. by eapply refines_ext. Qed.

(** The token of the process, from the module into the library. *)
Lemma token_fetched l A td :
  environment → is_pid (ts_pid daemon) → stranger l A td →
  ∃ l' p sealed, fetch_kernel_ptoken l = Ok (true, l') ∧ joined l' A p sealed ∧ pp_process_identifier p = td_identifier td ∧
    start_frame l l' ∧ same_tasks (kernel_of (l_world l)) (kernel_of (l_world l')) ∧
    same_labels (kernel_of (l_world l)) (kernel_of (l_world l')).
Proof.
  intros Hev Hdp [Ha [Hs Hdel] Haes Hen Htd Htid Hbuf]. set (w := l_world l) in *. set (k := kernel_of w) in *.
  pose proof (is_ptoken _ _ _ _ _ Hs) as Hpk. change (kern_of (d_enclave (p_daemon w))) with k in Hpk.
  assert (length (Kernel.ptoken_aes_key (k_pio k)) = 16%nat) as Hkey by (rewrite <- Hpk; apply Hs).
  pose proof (rd_registered _ _ _ _ (is_ready _ _ _ _ _ Hs)) as Hreg.
  assert (is_i32 (enclave_pid (k_pio k))) as Hi by (rewrite Hen; unfold is_pid, is_i32 in *; lia).
  destruct (generate_ptoken_sealed me td k) as (buf & k' & iv & Eg & Hl & Hk' & Hiv & Hok & Hdec); [apply Hev|done|done|done|done|apply Hev|done|].
  destruct (ptoken_read_ok me td k 4096) as (buf' & k2 & Eg' & _ & Er); [apply Hev|done..|apply Hev|done|lia|].
  rewrite Eg in Eg'. injection Eg' as <- <-.
  set (w1 := Plat _ _ _ _ _ (p_daemon w) (p_alive w) (p_polls w) true (p_other w)).
  set (w2 := put_machine base other resolve daemon me k' (net_of base other resolve daemon me w1) w1).
  destruct (fetch_kernel_ptoken_ok l buf w1 w2 1) as (l' & E & Hself & Hw & Hfr); [apply (ev_mem Hev)|done|by rewrite Hdec|done|done| |].
  { cbn [LibState.sys platform platform_call p_stream w1 negb]. unfold in_module, mbind, M_bind.
    change (kernel_of w1) with k. change (Z.of_nat stream_buffer) with 4096. rewrite Er. cbn [rr_ret rr_copied].
    change (100 <? Z.of_nat 100) with false. cbv iota. unfold mret, M_ret. rewrite take_ge by lia. done. }
  set (p := PTokenProtected challenge_signature (ts_pid me) (krand (k_nrnd k) 8) (td_identifier td)) in *.
  assert (kernel_of (l_world l') = k') as Hk1 by (by rewrite Hw).
  exists l', p. eexists. split; [exact E|].
  assert (joined l' A p (seal (Kernel.ptoken_aes_key (k_pio k)) iv (enc_ptoken_protected p))) as Hj.
  { split; [by rewrite Hw| |].
    - rewrite Hw. split; [|done]. cbn. rewrite Hk'. by apply in_step_spent.
    - rewrite Hw. split; rewrite ?Hself, ?Hdec; try done.
      + by rewrite seal_length, enc_ptoken_protected_length by done.
      + intros rq Hrq. exists iv, (enc_ptoken_protected p).
        split_and!; [done|by apply enc_ptoken_protected_length| |by rewrite dec_enc_ptoken_protected|done|done].
        rewrite Hrq, <- Hpk. done.
      + rewrite (sf_buffer _ _ Hfr). done. }
  split_and!; [exact Hj|done|done| |]; rewrite Hk1, Hk'; done.
Qed.

(** The request that registers the process. *)
Lemma register_granted l A p sealed :
  environment → joined l A p sealed →
  (∀ rq, rq_operation rq = CITADEL_OP_REGISTER → uint8 (policy (ts_pid me) rq None) = CITADEL_OP_APPROVED) →
  ∃ l', ipc_declare_self l = Ok (true, l') ∧ joined l' A p sealed ∧ start_frame (put_buffer (l_buffer l') l) l' ∧
    kernel_of (l_world l') = kernel_of (l_world l).
Proof.
  intros Hev Hj Hpol. unfold ipc_declare_self, send_anonymous_request, send_request.
  rewrite (bind_ok (LibState.uninitialised _) _ _ _ _ eq_refl). set (subject := LibState.stack _ _).
  set (l1 := LibState.put_nstk _ l). assert (joined l1 A p sealed) as Hj1 by by apply (joined_local l).
  pose proof Hj1 as [Ha [Hs Hdel] Htok].
  mstep (copy_signed_ptoken_eq l1 sealed (ht_sealed _ _ _ _ _ _ _ _ _ _ _ _ Htok) (ht_length _ _ _ _ _ _ _ _ _ _ _ _ Htok)).
  set (rq := OpRequest challenge_signature CITADEL_OP_REGISTER subject sealed).
  assert (op_request_ok rq) as Hok by (split_and!; [done|vm_compute; split; congruence|apply stack_length|apply Htok]).
  pose proof (enc_op_request_length rq Hok) as Hl.
  assert (dec_op_request (enc_op_request rq) = rq) as Hdec by (rewrite <- (app_nil_r (enc_op_request rq)); by apply dec_enc_op_request).
  set (d := daemon_of l1) in *. set (b := n_base (SystemServe.rest_of rest resolve daemon d)).
  set (d1 := SystemServe.put_rest rest resolve daemon (Net false [] [] b) (drawn rest resolve daemon 2 d)).
  assert (in_step rest resolve daemon (d_enclave d1) A) as Hs1 by by apply (in_step_host base resolve daemon me (d_enclave d)).
  assert (handle_request policy (enc_op_request rq ++ []) (ts_pid me) (Some 8%nat) (d_enclave d1) =
    Ok ((CITADEL_OP_APPROVED, Some (pp_ptoken p)), d_enclave d1)) as Hreq.
  { rewrite app_nil_r, (vouched_request rest resolve daemon policy _ (ts_pid me) p _ A Hs1).
    - rewrite Hdec. assert (request_metadata (enc_op_request rq) = None) as -> by (unfold request_metadata, extended; by rewrite Hl).
      rewrite Hpol by done. by rewrite core_register.
    - unfold well_formed. rewrite Hl. change (field 0 8 (enc_op_request rq)) with (rq_signature (dec_op_request (enc_op_request rq))).
      by rewrite Hdec.
    - rewrite Hdec. by apply Htok. }
  destruct (request_answered base other resolve daemon me policy schedule fuel (ev_fair Hev) (ev_fuel Hev) (ev_pid Hev)
    l1 A A p sealed rq [] [] d1 (d_enclave d1) b b CITADEL_OP_APPROVED Hj1) as (l' & E & F & Hj' & Hk & _);
    [done|left; by rewrite app_nil_r|done|done|unfold cache_passthrough; by rewrite app_nil_r, Hl|done|done|done|exact Hreq|vm_compute; split; congruence|by apply serves_refl|].
  rewrite app_nil_r in E. exists l'. split_and!; [done|done| |by rewrite Hk].
  destruct F. by split.
Qed.

(** C5: joining.  A process that starts calls [citadel_init], with the daemon at
    rest and a policy that lets it register.  It reads its token from the module,
    registers with the daemon and succeeds: afterwards it holds a token that the
    enclave accepts from it alone and that carries the identifier the module gave
    it, its cache is empty, and neither tickets nor labels have changed. *)
Theorem citadel_init_joins l A td :
  let own := own_pid (l_self l) in
  environment → is_pid (ts_pid daemon) → stranger l A td →
  (∀ a, is_Some (l_heap l !! a) → (a < l_brk l)%positive) →
  own ≠ ts_pid me → own ≠ sr_ret (LibState.sys sys_getppid (p_other (l_world l))).1 →
  (∀ rq, rq_operation rq = CITADEL_OP_REGISTER → uint8 (policy (ts_pid me) rq None) = CITADEL_OP_APPROVED) →
  ∃ l' p sealed, citadel_init l = Ok (true, l') ∧ joined l' A p sealed ∧ pp_process_identifier p = td_identifier td ∧
    lib_rep l' (λ _, []) ∧ same_tasks (kernel_of (l_world l)) (kernel_of (l_world l')) ∧
    same_labels (kernel_of (l_world l)) (kernel_of (l_world l')).
Proof.
  intros own Hev Hdp Hsg Hheap Hown Hpar Hpol. unfold citadel_init.
  destruct (init_pid_fresh l) as (l1 & E1 & F1 & W1 & _); [intros E; by apply Hown|intros E; by apply Hpar|]. mstep E1. cbn [negb].
  assert (∃ o, l_world l1 = Plat _ _ _ _ _ (daemon_of l) (p_alive (l_world l)) (p_polls (l_world l)) (p_stream (l_world l)) o) as (o1 & W1')
    by (rewrite W1; eexists; reflexivity).
  unfold init_rand. rewrite bind_assoc, (bind_ok _ _ _ _ _ (call_eq _ l1)). mred. set (l2 := called sys_time l1).
  pose proof (called_start sys_time l1) as F2. fold l2 in F2.
  assert (∃ o, l_world l2 = Plat _ _ _ _ _ (daemon_of l) (p_alive (l_world l)) (p_polls (l_world l)) (p_stream (l_world l)) o) as (o2 & W2)
    by (unfold l2; rewrite world_called, W1'; eexists; reflexivity).
  assert (start_frame l l2) as F02 by by etrans. cbn [negb when].
  destruct (init_cache_ok l2) as (l3 & E3 & F3 & HC3).
  { intros a. rewrite (sf_heap _ _ F02), (sf_brk _ _ F02). apply Hheap. }
  mstep E3.
  assert (stranger l3 A td) as Hsg3.
  { destruct Hsg, F3 as [? Hb ? ? Hw]. split; rewrite ?Hw, ?W2; try done. by rewrite Hb, (sf_buffer _ _ F02). }
  destruct (token_fetched l3 A td Hev Hdp Hsg3) as (l4 & p & sealed & E4 & Hj4 & Hid & F4 & Ht4 & Hl4). mstep E4.
  destruct (register_granted l4 A p sealed Hev Hj4 Hpol) as (l5 & E5 & Hj5 & F5 & Hk5).
  exists l5, p, sealed. split_and!; [done|done|done| |rewrite Hk5..].
  - destruct HC3 as [Hr Hg]. split; [|done]. destruct F4, F5. eapply cr_ext; [exact Hr|..]; cbn in *; congruence.
  - rewrite (lf_world _ _ F3), W2 in Ht4. exact Ht4.
  - rewrite (lf_world _ _ F3), W2 in Hl4. exact Hl4.
Qed.
End theorems.
