(* ===== verification/Sessions.v ===== *)
(** * Sessions of a process

    Any sequence of files that a process claims and opens through libcitadel. *)

From S2P Require Import LibState LibCache LibIpc LibClient Shim LibCacheSpec LibCacheOps LibCacheTheorems LibIpcTheorems LibClientSpec LibPaths.
From S2P Require Import Prelude Shared Hex RBTree Kernel Ring Tickets TicketsSpec CacheModel Access.
From S2P Require Import Crypto PayloadIO FileIO Shm Hooks AccessSpec AccessTheorems LabelSpec ProtocolSpec.
From S2P Require Import Ltc LtcRsa Enclave Daemon EnclaveSpec System SystemSpec SystemServe Platform PlatformSpec PlatformCache PlatformServe PlatformTheorems.

(** What the process does: the paths are those of files. *)
Inductive lib_op := open_file (path : bytes) | claim_file (path : bytes).
Definition op_path (o : lib_op) : bytes := match o with open_file path | claim_file path => path end.

Section runs.
Context `{HPos : Posix}.

Definition run_op (o : lib_op) : M lstate bool :=
  match o with
  | open_file path => citadel_file_open (terminated path) (path_length path)
  | claim_file path => citadel_file_claim_force (terminated path) (path_length path)
  end.
Fixpoint run_session (ops : list lib_op) : M lstate (list bool) :=
  match ops with
  | [] => mret []
  | o :: ops => r ← run_op o; rs ← run_session ops; mret (r :: rs)
  end.
End runs.

Section sessions.
Context `{HKer : Kernel} `{HKLaw : !KernelLaws} `{HRb : RbTree} `{HCry : KernelCrypto} `{HLaw : !CryptoLaws}.
Context `{HSgx : Sgx} `{HSLaw : !SgxLaws} `{HGcm : !GcmInterop} `{HLtc : LtcEnv}.
Context (base : DaemonOS) (other : Posix) `{HPLaw : !PosixLaws (H := other)}.
Context (resolve : bytes → option dentry) (daemon me : task_struct).
Context (policy : Z → citadel_op_request → option bytes → Z) (schedule : nat → bool) (fuel : nat).
Abbreviation PL := (platform base other resolve daemon me policy schedule fuel).
Abbreviation kernel_of := (kernel_of base other resolve daemon me).
Abbreviation daemon_of l := (p_daemon (l_world l)).
Abbreviation joined := (joined base other resolve daemon me policy schedule fuel).
Abbreviation file_state := (file_state base resolve daemon me).
Abbreviation labels_file := (labels_file base other resolve daemon me policy schedule fuel).
Implicit Types (l : @lstate PL) (A : acache).

(** The policy lets the process do this, and the disk takes labels. *)
Record permissive : Prop := Permissive {
  pm_policy : ∀ rq md, rq_operation rq = CITADEL_OP_OPEN ∨ rq_operation rq = Z.lor CITADEL_OP_CLAIM CITADEL_OP_OPEN →
    uint8 (policy (ts_pid me) rq (Some md)) = CITADEL_OP_APPROVED;
  pm_disk : ∀ D de v, (vfs_setxattr_noperm D de _CITADEL_XATTR_IDENTIFIER v).1 = 0 }.

(** Different paths are different files. *)
Definition separate : Prop := ∀ path1 path2 de1 de2,
  resolve path1 = Some de1 → resolve path2 = Some de2 → path1 ≠ path2 →
  d_ref de1 ≠ d_ref de2 ∧ ∀ i1 i2, d_inode de1 = Some i1 → d_inode de2 = Some i2 → i_ref i1 ≠ i_ref i2.

(** What holds between the calls of the process. *)
Record session_ok l A p sealed : Prop := SessionOk {
  so_joined : joined l A p sealed;
  so_cache : ∃ C, lib_rep l C;
  so_files : ∀ path de, resolve path = Some de → ∃ ino lab, file_state (daemon_of l) path de ino lab }.

(** A ticket of the process. *)
Definition own_ticket (r : citadel_update_record) : Prop := ur_pid r = ts_pid me ∧ ur_operation r = CITADEL_OP_OPEN.

(** What one call does. *)
Definition op_done l A p sealed (o : lib_op) : Prop :=
  ∃ l' recs, run_op o l = Ok (true, l') ∧ session_ok l' (abs_inserts recs A) p sealed ∧ Forall own_ticket recs ∧ (length recs ≤ 1)%nat.

Context (Hev : environment base other me schedule fuel) (Hperm : permissive) (Hsep : separate).

Lemma session_labelled l A p sealed path id de ino lab l' lab' :
  session_ok l A p sealed → resolve path = Some de → d_inode de = Some ino → identifier_ok id → (∃ C, lib_rep l' C) →
  labels_file (l_world l) A p sealed path id de ino lab l' lab' →
  session_ok l' (abs_insert (UpdateRecord (ts_pid me) id CITADEL_OP_OPEN) A) p sealed.
Proof.
  intros [Hj _ Hf] Hres Hino Hid HC Hlb. split; [apply Hlb|done|]. intros path' de' Hres'.
  destruct (decide (path' = path)) as [->|Hne].
  - assert (de' = de) as -> by congruence. exists ino, lab'. by eapply labelled_state.
  - destruct (Hf path' de' Hres') as (ino' & lab'' & Hst). exists ino', lab''.
    destruct (Hsep path' path de' de Hres' Hres Hne) as [Hde Hi].
    eapply other_state; [exact Hlb|done|done| |done]. apply Hi; [|done].
    apply (kf_inode _ _ _ _ (file_state_known _ _ _ _ _ _ _ _ _ Hst)).
Qed.

(** A request that labels the file. *)
Lemma labelling_done l A p sealed path op op' tr de ino lab C :
  let s := d_enclave (daemon_of l) in
  session_ok l A p sealed → lib_rep l C → unknown_path l path op C → path_ok path → resolve path = Some de →
  known_file (kernel_of (l_world l)) de ino lab →
  op' = Z.lor CITADEL_OP_CLAIM CITADEL_OP_OPEN ∧ tr = false ∨
  op' = CITADEL_OP_OPEN ∧ tr = true ∧ no_identifier (k_disk (kernel_of (l_world l))) de ∧ d_cache (daemon_of l) !! path = None →
  ∃ l' recs, ask path op op' tr l = Ok (true, l') ∧ session_ok l' (abs_inserts recs A) p sealed ∧ Forall own_ticket recs ∧
    (length recs ≤ 1)%nat.
Proof.
  intros s Hso HC Hno Hp Hres Hk Hkind. set (id := sgx_rand (S (e_nrnd s)) 16).
  destruct (vfs_setxattr_noperm (k_disk (kernel_of (l_world l))) de _CITADEL_XATTR_IDENTIFIER (hex_body id)) as [rc D1] eqn:HD.
  pose proof (pm_disk Hperm (k_disk (kernel_of (l_world l))) de (hex_body id)) as Hrc. rewrite HD in Hrc. cbn in Hrc. subst rc.
  destruct (path_labelled base other resolve daemon me policy schedule fuel l C A p sealed path op op' tr de ino lab D1)
    as (l' & C' & lab' & E & HC' & _ & Hlb); try done.
  - apply Hso.
  - intros rq md Hop _. apply (pm_policy Hperm). rewrite Hop. destruct Hkind as [[-> _]|[-> _]]; [by right|by left].
  - exists l', [UpdateRecord (ts_pid me) id CITADEL_OP_OPEN]. split_and!; [done| |by apply Forall_singleton|done].
    eapply session_labelled; [exact Hso|done|apply Hk| |by exists C'|exact Hlb].
    split; [apply sgx_rand_ok|apply sgx_rand_length].
Qed.

Lemma session_lib l l' A p sealed : lib_frame l l' → (∃ C, lib_rep l' C) → session_ok l A p sealed → session_ok l' A p sealed.
Proof.
  intros F HC [Hj _ Hf]. split; [by eapply joined_lib|done|]. by rewrite (lf_world _ _ F).
Qed.

Lemma open_done l A p sealed path de :
  session_ok l A p sealed → path_ok path → resolve path = Some de → op_done l A p sealed (open_file path).
Proof.
  intros Hso Hp Hres. pose proof Hso as [Hj [C HC] Hf]. unfold op_done, run_op. rewrite (open_asks path l Hp).
  destruct (decide (unknown_path l path CITADEL_OP_OPEN C)) as [Hno|Hkn].
  2:{ destruct (remembered l C path CITADEL_OP_OPEN CITADEL_OP_OPEN true Hp HC Hkn) as (l' & C' & E & F & HC').
      exists l', []. split_and!; [done| |done|cbn; lia]. eapply session_lib; [done|by exists C'|done]. }
  destruct (Hf path de Hres) as (ino & lab & Hst). pose proof Hst as [id Hff Hid Han Hlab|Hk Hnid Hcn].
  2:{ apply (labelling_done l A p sealed path _ _ _ de ino lab C); try done. right. by split_and!. }
  destruct (open_granted base other resolve daemon me policy schedule fuel l C A p sealed path id de ino lab)
    as (l' & C' & E & Hj' & HC' & _ & _ & Hsl & Hg); try done.
  { intros rq md Hop _. apply (pm_policy Hperm). by left. }
  rewrite (open_asks path l Hp) in E.
  exists l', [UpdateRecord (ts_pid me) id CITADEL_OP_OPEN]. split_and!; [done| |by apply Forall_singleton|done].
  split; [done|by exists C'|]. intros path' de' Hres'. destruct (Hf path' de' Hres') as (ino' & lab' & Hst'). exists ino', lab'.
  apply (file_state_granted base resolve daemon me (daemon_of l) (daemon_of l') path' path id); [exact Hsl|exact Hg| |exact Hst'|]; intros <-; assert (de' = de) as -> by congruence; [|apply Hff].
  assert (lab' = lab) as ->; [|done].
  pose proof (file_state_known _ _ _ _ _ _ _ _ _ Hst) as [Hi _ _ Hl _ _ _].
  pose proof (file_state_known _ _ _ _ _ _ _ _ _ Hst') as [Hi' _ _ Hl' _ _ _]. congruence.
Qed.

Lemma claim_done l A p sealed path de :
  session_ok l A p sealed → path_ok path → resolve path = Some de → op_done l A p sealed (claim_file path).
Proof.
  intros Hso Hp Hres. pose proof Hso as [Hj [C HC] Hf]. unfold op_done, run_op, citadel_file_claim_force.
  assert (cstring (terminated path) = path) as Hcs by (apply cstring_nul, Hp). rewrite Hcs.
  destruct (Hf path de Hres) as (ino & lab & Hst). pose proof (file_state_known _ _ _ _ _ _ _ _ _ Hst) as Hk.
  destruct (vfs_getxattr (k_disk (kernel_of (l_world l))) de (d_inode de) _CITADEL_XATTR_IDENTIFIER 0) as [rc v] eqn:Hv.
  destruct (probe_path base other resolve daemon me policy schedule fuel path 0 de ino lab rc v l Hres Hk Hv)
    as (l0 & E0 & F0 & B0 & W0). mstep E0. rewrite (claim_asks path l0 Hp).
  assert (lib_rep l0 C) as HC0 by (destruct HC, F0; split; [by eapply cr_ext|done]).
  assert (session_ok l0 A p sealed) as Hso0.
  { split; [apply (joined_local _ _ _ _ _ _ _ _ l); [done|apply F0|done..]|by exists C|by rewrite W0]. }
  destruct (decide (unknown_path l0 path CITADEL_OP_CLAIM C)) as [Hno|Hkn].
  - apply (labelling_done l0 A p sealed path _ _ _ de ino lab C); try done; [by rewrite W0|by left].
  - destruct (remembered l0 C path CITADEL_OP_CLAIM (Z.lor CITADEL_OP_CLAIM CITADEL_OP_OPEN) false Hp HC0 Hkn) as (l' & C' & E & F & HC').
    exists l', []. split_and!; [done| |done|cbn; lia]. eapply session_lib; [done|by exists C'|done].
Qed.

(** C2: sessions.  A process that has joined claims and opens files in any order,
    with a policy that lets it, a disk that takes labels, and different paths
    naming different files.  Every call succeeds; at the end, as between any two
    calls, library, daemon, enclave, module and disk agree on the label of every
    file, enclave and module share the session key, and the module's cache holds
    what it held before and at most one ticket for each call, all for this
    process. *)
Theorem sessions_succeed ops l A p sealed :
  session_ok l A p sealed → Forall (λ o, path_ok (op_path o) ∧ is_Some (resolve (op_path o))) ops →
  ∃ l' recs, run_session ops l = Ok (replicate (length ops) true, l') ∧
    session_ok l' (abs_inserts recs A) p sealed ∧ Forall own_ticket recs ∧ (length recs ≤ length ops)%nat.
Proof.
  intros Hso Hops. revert l A Hso. induction Hops as [|o ops [Hp [de Hres]] Hops IH]; intros l A Hso.
  - by exists l, [].
  - assert (op_done l A p sealed o) as (l1 & recs1 & E1 & Hso1 & Ho1 & Hl1)
      by (destruct o; [by eapply open_done|by eapply claim_done]).
    destruct (IH l1 _ Hso1) as (l2 & recs2 & E2 & Hso2 & Ho2 & Hl2).
    exists l2, (recs1 ++ recs2). cbn [run_session]. mstep E1. mstep E2. split_and!.
    + done.
    + unfold abs_inserts in *. by rewrite foldl_app.
    + by apply Forall_app.
    + rewrite length_app. cbn. lia.
Qed.
End sessions.
