(* ===== verification/SystemConcrete.v ===== *)
(** * A concrete system

    Instances of the parameters of the enclave, the daemon and the machine, and
    runs of the theorems on them: an SGX library that agrees with the concrete
    cipher of the kernel, RSA keys of 2048 bits, and an operating system that
    answers from a script and logs what is written to sockets. *)

From S2P Require Import Prelude Shared Hex RBTree Kernel Ring Tickets TicketsSpec CacheModel Access.
From S2P Require Import Crypto Concrete CacheTheorems PayloadIO FileIO Shm Hooks AccessSpec AccessTheorems LabelSpec ProtocolSpec ProtocolTheorems.
From S2P Require Import Ltc LtcRsa LtcSpec LtcTheorems LtcConcrete Der DerSeq LtcKeys DerPrims DerSeqSpec LtcKeysSpec Enclave Preparatory Daemon EnclaveSpec EnclaveTheorems.
From S2P Require Import System Boot SystemSpec SystemServe SystemTheorems Registration PreparatoryTheorems DaemonTheorems.

(** ** RSA *)
Lemma smooth_key_usable `{LtcEnv} : usable_key smooth_key.
Proof.
  split; [done|by vm_compute|done|done|apply smooth_key_power|].
  intros x s. unfold private_power. change (has_crt_parameters smooth_key) with false. cbn [negb]. apply mp_exptmod_ok; [done|by vm_compute].
Qed.

Lemma pads_bytes ps msg : pads ps msg → bytes_ok (eme_block ps msg).
Proof.
  intros [_ _ Hnz Hb _]. unfold eme_block, bytes_ok. rewrite !Forall_app. split_and!; [by repeat constructor| |by repeat constructor|done].
  eapply Forall_impl; [exact Hnz|]. unfold nonzero_byte, byte_ok. intros. lia.
Qed.

(** The block an encrypted block is decrypted to. *)
Definition rsa_open (key : LtcRsa.rsa_key) (c : bytes) : bytes := be_bytes 256 (be_value c ^ key_d key mod key_N key).
Lemma rsa_open_cipher key ps msg :
  0 < key_N key → 0 ≤ key_e key → 0 ≤ key_d key → mp_unsigned_bin_size (key_N key) = 256 →
  (∀ x, x ^ (key_e key * key_d key) mod key_N key = x mod key_N key) →
  pads ps msg → rsa_open key (rsa_cipher key (eme_block ps msg)) = eme_block ps msg.
Proof.
  intros HN He Hd Hsz Hinv Hp. pose proof (pads_bytes ps msg Hp) as Hb. pose proof (pd_length _ _ Hp) as Hl.
  assert (0 ≤ be_value (eme_block ps msg) < key_N key) as Hr.
  { apply (padded_value ([2] ++ ps ++ [0] ++ msg)); [done|by apply Forall_cons in Hb as [_ Hb]|].
    rewrite Hsz. unfold eme_block in Hl. cbn [app length] in *. lia. }
  pose proof (unsigned_bin_size_spec _ HN) as [_ Hs]. rewrite Hsz in Hs.
  unfold rsa_open, rsa_cipher. rewrite Hsz. change (Z.to_nat 256) with 256%nat.
  pose proof (Z.mod_pos_bound (be_value (eme_block ps msg) ^ key_e key) _ HN) as Hm.
  rewrite be_value_bytes, (Z.mod_small _ (256 ^ Z.of_nat 256)) by (split; [apply Hm|etrans; [apply Hm|exact Hs]]).
  rewrite <- Zpow_facts.Zpower_mod, <- Z.pow_mul_r, Hinv, Z.mod_small by done. rewrite <- Hl. by apply be_bytes_value.
Qed.
Abbreviation smooth_open := (rsa_open smooth_key).
Lemma smooth_cipher ps msg : pads ps msg → smooth_open (rsa_cipher smooth_key (eme_block ps msg)) = eme_block ps msg.
Proof. apply rsa_open_cipher; [by vm_compute|done|done|apply smooth_key_size|apply smooth_key_power]. Qed.

Fixpoint after_zero (b : bytes) : bytes :=
  match b with [] => [] | x :: b => if x =? 0 then b else after_zero b end.

Lemma after_zero_ps ps msg : Forall nonzero_byte ps → after_zero (ps ++ 0 :: msg) = msg.
Proof.
  induction 1 as [|x ps Hx _ IH]; [done|]. cbn. unfold nonzero_byte in Hx. by destruct (Z.eqb_spec x 0); [lia|].
Qed.

(** The kernel's half: padding with ones. *)
Definition ones_for (msg : bytes) : bytes := replicate (253 - length msg) 1.

Lemma ones_pad msg : bytes_ok msg → (0 < length msg ≤ 245)%nat → pads (ones_for msg) msg.
Proof.
  intros Hb Hl. split; [|unfold ones_for; rewrite length_replicate; lia|apply Forall_replicate; unfold nonzero_byte; lia|done|lia].
  unfold eme_block, ones_for. rewrite !length_app, length_replicate. cbn. lia.
Qed.

(** ** Sealed keys: the length and the data. *)
Definition demo_seal (data : bytes) : bytes := le_bytes 4 (Z.of_nat (length data)) ++ data.
Definition demo_unseal (b : bytes) : bytes := take (Z.to_nat (le_value (take 4 b))) (drop 4 b).
Lemma demo_unseal_seal data junk : Z.of_nat (length data) < 2 ^ 32 → demo_unseal (demo_seal data ++ junk) = data.
Proof.
  intros Hl. unfold demo_unseal, demo_seal. rewrite <- app_assoc.
  rewrite take_app_length', drop_app_length' by (by rewrite le_bytes_length).
  rewrite le_value_bytes, Z.mod_small by (cbn; lia). rewrite Nat2Z.id. apply take_app_length.
Qed.

Definition enclave_priv_bytes : bytes := der (private_value smooth_key).
Definition module_pub_bytes : bytes := der (spki_value smooth_key).
Definition sealed_plain : bytes :=
  le_bytes 2 (Z.of_nat (length enclave_priv_bytes)) ++ enclave_priv_bytes ++
  der (spki_value smooth_key) ++ der (public_value smooth_key) ++ module_pub_bytes ++ der (public_value smooth_key).

Definition pkcs_crypto : KernelCrypto := {|
  crypto_alloc_aead := 0;
  crypto_aead_setkey := λ key, if (length key =? 16)%nat then 0 else - EINVAL;
  crypto_aead_setauthsize := λ n, if (n =? 16)%nat then 0 else - EINVAL;
  crypto_aead_encrypt := demo_encrypt;
  crypto_aead_decrypt := demo_decrypt;
  crypto_alloc_akcipher := 0;
  crypto_akcipher_maxsize := 256;
  crypto_akcipher_encrypt := λ _ msg, Reply 0 [] (rsa_cipher smooth_key (eme_block (ones_for msg) msg));
  crypto_akcipher_decrypt := λ _ c, Reply (- EINPROGRESS) [0] (after_zero (drop 2 (smooth_open c)));
  lsm_key_pub := [1]; lsm_key_priv := [1]; enclave_key_pub := [2];
  enclave_keys_sealed := demo_seal sealed_plain |}.

Lemma pkcs_crypto_laws : @CryptoLaws pkcs_crypto.
Proof.
  split; try apply demo_crypto_laws. intros key data. split; cbn; eauto.
Qed.

(** ** SGX *)
Definition demo_sgx : Sgx := {|
  sgx_rand := λ n len, (λ i, (Z.of_nat n + Z.of_nat i + 1) mod 256) <$> seq 0 len;
  sgx_gcm_encrypt := λ key _ data, Some (data, demo_tag key);
  sgx_gcm_decrypt := λ key _ ct tag, if bytes_eqb tag (demo_tag key) then Some ct else None;
  sgx_gcm_rejected := λ _ _ ct _, replicate (length ct) 0;
  sgx_unseal_data := λ b _ _, (0, demo_unseal b);
  frame_slack := 15;
  frame_junk := λ _, [0; 0] |}.

Lemma demo_sgx_laws : @SgxLaws demo_sgx.
Proof.
  split; cbn [sgx_rand frame_junk demo_sgx].
  - intros n len. by rewrite length_fmap, length_seq.
  - intros n len. apply Forall_fmap, Forall_forall. intros i _. unfold byte_ok. cbn. apply Z.mod_pos_bound. lia.
  - done.
  - done.
Qed.

Lemma demo_interop : @GcmInterop demo_sgx pkcs_crypto.
Proof.
  assert (∀ key, length (demo_tag key) = 16%nat) as Htag by (intros key; unfold demo_tag; by rewrite fill_length).
  split.
  - intros key iv data _ _. exists data, (demo_tag key). by split_and!.
  - intros key iv ct tag _ _ Hl. cbn [sgx_gcm_decrypt demo_sgx crypto_aead_encrypt pkcs_crypto].
    destruct (bytes_eqb tag (demo_tag key)) eqn:E; [apply bytes_eqb_eq in E as ->; done|].
    apply bytes_eqb_neq in E. intros data Heq. cbn in Heq. apply app_inj_2 in Heq as [_ Ht]; [done|by rewrite Htag].
Qed.

Definition calm_ltc : LtcEnv := {|
  rng_bytes := @rng_bytes demo_ltc; rng_patience := 2; mpz_random := λ _ _, 1; xalloc := λ _, true |}.
Lemma calm_ltc_laws : @LtcLaws calm_ltc.
Proof. split; apply demo_ltc_laws. Qed.

Lemma demo_rsa_interop : @rsa_interop pkcs_crypto smooth_key smooth_key.
Proof.
  split; [apply smooth_key_size|apply smooth_key_size| |].
  - intros msg Hb Hl. exists (ones_for msg). pose proof (ones_pad msg Hb Hl) as Hp. by split_and!.
  - intros ps msg Hp. split; [done|]. cbn [crypto_akcipher_decrypt pkcs_crypto cr_out]. rewrite smooth_cipher by done.
    unfold eme_block. apply (after_zero_ps ps msg), Hp.
Qed.

(** ** The operating system *)
Definition script_sys (c : daemon_call) : M (list daemon_ret * list bytes) daemon_ret := λ o,
  let log := match c with d_write _ data _ => o.2 ++ [data] | _ => o.2 end in
  match o.1 with
  | r :: script => Ok (r, (script, log))
  | [] => Ok (DRet 0 0 [], ([], log))
  end.
Definition script_os : DaemonOS := {|
  os := list daemon_ret * list bytes;
  dsys := script_sys;
  dmem := λ _, true;
  dstack := λ _ len, replicate len 170;
  copies := λ _ _, false |}.

#[local] Existing Instances demo_kernel demo_laws rb_rotating pkcs_crypto pkcs_crypto_laws demo_sgx demo_sgx_laws
  demo_interop calm_ltc calm_ltc_laws.

(** The file system knows one file, the inode of AccessTheorems, and the socket
    is that file too. *)
Definition demo_dentry : dentry := Dentry 3 (Some demo_inode) (Some demo_inode).
Definition demo_resolve (path : bytes) : option dentry :=
  if bytes_eqb path [47; 102] || bytes_eqb path (cstring _CITADEL_IPC_FILE) then Some demo_dentry else None.
Definition the_daemon : task_struct := Task 99 (demo_cred 99).
Abbreviation demo_machine := (machine script_os demo_resolve the_daemon).

Lemma demo_files k : k_inodes k = demo_inodes → files_known demo_resolve k.
Proof.
  intros Hi path de Hde. assert (de = demo_dentry) as -> by (unfold demo_resolve in Hde; destruct (_ || _); congruence).
  exists 5%positive. split; [done|]. rewrite Hi. by eexists.
Qed.

Definition demo_enclave_at (key ptoken : bytes) (k : kstate) (script : list daemon_ret) : estate (@host demo_machine) :=
  EState true key ptoken (replicate 1200 0) 0 [] ltc_start 0 (Host demo_machine (k, (script, [])) 0).
Definition demo_daemon (e : estate (@host demo_machine)) : @dstate demo_machine := DState demo_machine e ∅ false 0 0 0.

Lemma demo_in_step script : in_step script_os demo_resolve the_daemon (demo_enclave_at demo_key demo_key session script) empty_cache.
Proof. split; [|done|done]. split; [done..|apply session_refines|by apply demo_files]. Qed.

(** A token of process 10, and its requests. *)
Definition demo_protected : citadel_ptoken_protected :=
  PTokenProtected challenge_signature 10 (replicate 8 21) (replicate 16 10).
Definition demo_sealed_token : bytes := seal demo_key (replicate 12 1) (enc_ptoken_protected demo_protected).
Definition demo_request (op : Z) : citadel_op_request :=
  OpRequest challenge_signature op (replicate 16 7) demo_sealed_token.

Lemma demo_request_ok op : is_u16 op → op_request_ok (demo_request op).
Proof. intros Ho. split_and!; [done|apply Ho..|done|done]. Qed.

Lemma demo_vouches op : vouches demo_key 10 (demo_request op) demo_protected.
Proof.
  exists (replicate 12 1), (enc_ptoken_protected demo_protected). split_and!; [done|done|done| |done|done].
  symmetry. by apply dec_enc_ptoken_protected.
Qed.

(** ** Witnesses: the enclave *)
Lemma requests_are_authenticated_witness :
  ∃ answer, handle_request asm_handle_request (replicate 90 0) 10 (Some 8%nat)
    (demo_enclave_at demo_key demo_key session []) = Ok ((answer, None), demo_enclave_at demo_key demo_key session []).
Proof.
  destruct (requests_are_authenticated asm_handle_request (replicate 90 0) 10 (demo_enclave_at demo_key demo_key session []))
    as [(p & Hwf & _)|(_ & answer & _ & He)]; [done|vm_compute in Hwf; done|by exists answer].
Defined.

Lemma ticket_needs_twelve_bytes_witness :
  obs (λ ok s, (ok, Enclave.aes_key s))
    (generate_ticket 10 (replicate 16 7) CITADEL_OP_OPEN (demo_enclave_at demo_key demo_key session [])) =
  Some (true, xor_bytes demo_key (sgx_rand 0 16)).
Proof.
  rewrite ticket_needs_twelve_bytes; [vm_compute; reflexivity|done|cbn; lia|vm_compute; by split|vm_compute; by split].
Defined.

Lemma dec_demo_request op : is_u16 op → dec_op_request (enc_op_request (demo_request op)) = demo_request op.
Proof.
  intros Ho. rewrite <- (app_nil_r (enc_op_request _)). apply dec_enc_op_request. by apply demo_request_ok.
Qed.

Lemma claim_without_path_faults_witness :
  handle_request asm_handle_request (enc_op_request (demo_request CITADEL_OP_CLAIM)) 10 (Some 8%nat)
    (demo_enclave_at demo_key demo_key session []) = Fault NullDeref.
Proof.
  apply (claim_without_path_faults asm_handle_request _ 10 demo_protected (demo_enclave_at demo_key demo_key session []));
    [done|done|cbn; lia|vm_compute; done|vm_compute; done| |done|].
  - rewrite dec_demo_request by (vm_compute; by split). apply demo_vouches.
  - rewrite dec_demo_request by (vm_compute; by split). done.
Defined.

Lemma hostile_daemon_keeps_shape_witness :
  let s := demo_enclave_at demo_key demo_key session [] in
  handle_request asm_handle_request (replicate 90 0) 10 (Some 8%nat) s = Ok ((CITADEL_OP_INVALID, None), s) ∧
  is_u8 CITADEL_OP_INVALID.
Proof.
  intros s. assert (handle_request asm_handle_request (replicate 90 0) 10 (Some 8%nat) s = Ok ((CITADEL_OP_INVALID, None), s)) as He
    by reflexivity.
  split; [exact He|]. apply (hostile_daemon_keeps_shape asm_handle_request (replicate 90 0) 10 (Some 8%nat) s _ _ s eq_refl He).
Defined.

(** A library that has memory for three numbers. *)
Definition tight_ltc : LtcEnv := {|
  rng_bytes := @rng_bytes demo_ltc; rng_patience := 2; mpz_random := λ _ _, 1; xalloc := λ i, (i <? 3)%nat |}.
Lemma out_of_memory_frees_twice_witness :
  @rsa_decrypt _ tight_ltc [] enclave_priv_bytes 300 256 (demo_enclave_at demo_key demo_key session []) = Fault BadAccess.
Proof.
  apply (@out_of_memory_frees_twice _ tight_ltc [] enclave_priv_bytes 300 256 (demo_enclave_at demo_key demo_key session [])).
  exists 3%nat. split; [lia|reflexivity].
Defined.

(** ** Witnesses: the system *)
Lemma demo_mem n : @kmem demo_kernel n = true.
Proof. done. Qed.
Lemma demo_slack : (12 ≤ @frame_slack demo_sgx)%nat.
Proof. cbn. lia. Qed.

(** Process 10 claims the file "/f" with access to it, then opens the object with
    its token; process 11 tries the same token. *)
Definition demo_claim : bytes :=
  enc_ext_request (ExtRequest (demo_request (Z.lor CITADEL_OP_CLAIM CITADEL_OP_OPEN)) false false
    (fill 4096 [47; 102])).
Definition demo_requests : list (bytes * Z) :=
  [(demo_claim, 10); (enc_op_request (demo_request CITADEL_OP_OPEN), 10);
   (enc_op_request (demo_request CITADEL_OP_OPEN), 11)].

Lemma demo_acceptable : Forall acceptable demo_requests.
Proof.
  assert (∀ data, forallb (λ b, (0 <=? b) && (b <? 256)) data = true → bytes_ok data) as Hb.
  { intros data Hd. apply Forall_forall. intros b Hin. rewrite forallb_forall in Hd.
    apply list_elem_of_In, Hd in Hin. apply andb_true_iff in Hin as [H1 H2]. unfold byte_ok. lia. }
  assert (∀ data pid, forallb (λ b, (0 <=? b) && (b <? 256)) data = true → is_pid pid →
    serviceable (dec_op_request data) (request_metadata data) (request_translate data) (request_success data) = true →
    acceptable (data, pid)) as Hacc by (intros data pid H1 H2 H3; split_and!; [by apply Hb|apply H2..|done]).
  apply Forall_cons; split; [|apply Forall_cons; split; [|apply Forall_singleton]];
    (apply Hacc; [vm_compute; reflexivity|unfold is_pid; lia|vm_compute; reflexivity]).
Qed.

Lemma requests_stay_in_step_witness :
  ∃ answers s' recs,
    run_requests script_os demo_resolve the_daemon asm_handle_request demo_requests (demo_enclave_at demo_key demo_key session []) =
      Ok (answers, s') ∧ length answers = 3%nat ∧
    in_step script_os demo_resolve the_daemon s' (abs_inserts recs empty_cache).
Proof.
  destruct (requests_stay_in_step script_os demo_resolve the_daemon asm_handle_request demo_mem
    demo_slack demo_requests (demo_enclave_at demo_key demo_key session []) empty_cache demo_acceptable (demo_in_step []))
    as (answers & s' & recs & He & Hl & Hs & _).
  exists answers, s', recs. split_and!; [exact He|exact Hl|exact Hs].
Defined.

(** The client's side of the script: the request, its sender, the reply, the
    end of the connection. *)
Definition open_data : bytes := enc_op_request (demo_request CITADEL_OP_OPEN).
Definition client_script : list daemon_ret :=
  [DRet 90 0 open_data; DRet 10 0 []; DRet 90 0 []; DRet 0 0 []].
Definition serving : @dstate demo_machine := demo_daemon (demo_enclave_at demo_key demo_key session client_script).

Lemma open_request_end_to_end_witness :
  ∃ d' reply k', handle_client_socket asm_handle_request 2 3 serving = Ok (tt, d') ∧
    rp_result (dec_op_reply reply) = CITADEL_OP_APPROVED ∧ rp_ptoken (dec_op_reply reply) = replicate 8 21 ∧
    trm_inode_permission (Task 10 (demo_cred 10)) demo_inode 4
      (set_nclk 10 (kern_of script_os demo_resolve the_daemon (d_enclave d'))) = Ok (0, k').
Proof.
  destruct (open_request_end_to_end script_os demo_resolve the_daemon asm_handle_request demo_mem demo_slack
    demo_cred 0 3 10 (replicate 16 7) demo_sealed_token demo_protected serving empty_cache
    (drop 2 client_script, []) (λ r, (drop 3 client_script, [r])) (λ r, ([], [r])))
    as (d' & reply & He & Hrest & Hsig & Htok & Hsub & Hres & Hs & Hopen).
  - apply demo_clock.
  - apply demo_in_step.
  - apply demo_ordered.
  - unfold is_pid. lia.
  - lia.
  - apply demo_request_ok. vm_compute. by split.
  - apply demo_vouches.
  - done.
  - split; [|done|done]. exists (drop 1 client_script, []). by split.
  - pose proof (ref_clock _ _ (rd_refines _ _ _ _ (is_ready _ _ _ _ _ Hs))) as Hc.
    destruct (Hopen demo_inode demo_label (demo_task 10) 4 10%nat) as (k' & Hk);
      [reflexivity|reflexivity|reflexivity|done|reflexivity|reflexivity| |vm_compute; reflexivity|].
    + eapply Nat.le_trans; [apply Nat.eq_le_incl, Hc|vm_compute; lia].
    + exists d', reply, k'. split_and!; [exact He|exact Hres|exact Htok|exact Hk].
Defined.

(** A kernel without memory. *)
Definition starved_kernel : Kernel := {|
  ktime := @ktime demo_kernel; kmem := λ _, false; krand := @krand demo_kernel; disk := attributes;
  vfs_getxattr := @vfs_getxattr demo_kernel; vfs_setxattr_noperm := @vfs_setxattr_noperm demo_kernel;
  vfs_removexattr := @vfs_removexattr demo_kernel; cap_inode_setxattr := λ _ _ _ _, 0; cap_inode_removexattr := λ _ _, 0;
  null_load_traps := true |}.
Definition starved_state : @kstate starved_kernel :=
  @KState starved_kernel ∅ 1%positive Leaf Leaf two_tasks demo_inodes ∅ (∅ : attributes) demo_pio true true 0%nat 0%nat 0%nat.
Abbreviation starved_machine := (@machine starved_kernel rb_rotating pkcs_crypto script_os demo_resolve the_daemon).
Definition starved_enclave : estate (@host starved_machine) :=
  EState true demo_key demo_key (replicate 1200 0) 0 [] ltc_start 0 (Host starved_machine (starved_state, ([], [])) 0).

Lemma lost_ticket_desynchronises_witness :
  ∃ s', generate_ticket 10 (replicate 16 7) CITADEL_OP_OPEN starved_enclave = Ok (true, s') ∧
    Enclave.aes_key s' ≠ demo_key.
Proof.
  destruct (@lost_ticket_desynchronises starved_kernel rb_rotating pkcs_crypto pkcs_crypto_laws demo_sgx demo_sgx_laws demo_interop
    script_os demo_resolve the_daemon 10 (replicate 16 7) CITADEL_OP_OPEN starved_enclave) as (s' & He & Hk & Hne);
    [apply demo_slack|done|cbn; lia|vm_compute; by split|vm_compute; by split|done|done|done|vm_compute; done|].
  exists s'. split; [exact He|]. intros Heq. apply Hne. rewrite Heq, Hk. reflexivity.
Defined.

(** ** Witnesses: registration *)

(** The socket is made without trouble, and the process number is 99. *)
Definition boot_script : list daemon_ret :=
  [DRet 3 0 []; DRet 0 0 []; DRet 0 0 []; DRet 0 0 []; DRet 0 0 []; DRet 0 0 []; DRet 0 0 []; DRet 99 0 []].
Definition booting (script : list daemon_ret) : @dstate demo_machine :=
  demo_daemon (demo_enclave_at [] [] demo_world script).

Lemma booting_socket : initialise_socket (booting boot_script) = Ok ((0, 3), booting [DRet 99 0 []]).
Proof. reflexivity. Qed.

Lemma demo_sealed_keys : sealed_keys smooth_key smooth_key.
Proof.
  assert (length (demo_seal sealed_plain) = 1481%nat) as Hl by (by vm_compute).
  split; [change enclave_keys_sealed with (demo_seal sealed_plain); lia|].
  exists (der (spki_value smooth_key)), (der (public_value smooth_key)), (der (public_value smooth_key)).
  split_and!; [apply Nat.leb_le; by vm_compute|by vm_compute..|].
  intros junk. change enclave_keys_sealed with (demo_seal sealed_plain). cbn [sgx_unseal_data demo_sgx].
  rewrite take_app_ge, demo_unseal_seal by (rewrite ?Hl; first [lia|by vm_compute]). done.
Qed.

Lemma calm_blinding l : Z.gcd (blinding smooth_key l) (key_N smooth_key) = 1.
Proof. change (blinding smooth_key l) with 1. apply Z.gcd_1_l. Qed.
Lemma calm_alloc i : @xalloc calm_ltc i = true.
Proof. done. Qed.

Lemma daemon_registers_witness :
  ∃ d' lab', start_daemon (booting boot_script) = Ok ((0, true, 3), d') ∧
    in_step script_os demo_resolve the_daemon (d_enclave d') empty_cache ∧
    carries (replicate 16 255) lab' ∧ known_file (kernel_of script_os demo_resolve the_daemon d') demo_dentry demo_inode lab'.
Proof.
  destruct (daemon_registers script_os demo_resolve the_daemon smooth_key smooth_key
    demo_rsa_interop smooth_key_usable smooth_key_usable calm_blinding calm_alloc demo_mem
    (booting boot_script) (booting [DRet 99 0 []]) empty_cache ([], []) 99 3)
    as (d' & He & Hs & _ & _ & Hl); [apply booting_socket|apply demo_sealed_keys|apply demo_slack| |by left|done|unfold is_pid; lia|].
  - split; [done|apply demo_world_refines|by apply demo_files].
  - destruct (Hl demo_dentry demo_inode demo_label (<[(3%positive, _CITADEL_XATTR_IDENTIFIER) := hex_body (replicate 16 255)]> ∅))
      as (lab' & Hk & Hc & _); [reflexivity|by split|reflexivity|]. exists d', lab'. split_and!; [exact He|exact Hs|exact Hc|exact Hk].
Defined.

(** The tool on a machine where nothing fails. *)
Definition demo_sealer : Sealer := {|
  sgx_create_enclave := λ _, 0;
  sgx_calc_sealed_data_size := λ _ n, n + 4;
  sgx_seal_data := λ _ data, if Z.of_nat (length data) <? 2 ^ 32 then (0, demo_seal data) else (1, []);
  tool_malloc := λ _, true; prep_malloc := λ _, true;
  may_read := λ _, true; may_write := λ _, true; write_fails := λ _, false |}.
Lemma demo_seal_laws : @SealLaws demo_sealer demo_sgx.
Proof.
  split; cbn [sgx_seal_data sgx_calc_sealed_data_size sgx_unseal_data demo_sealer demo_sgx]; intros text data blob.
  - destruct (Z.ltb_spec (Z.of_nat (length data)) (2 ^ 32)); intros [= <-]. unfold demo_seal.
    rewrite length_app, le_bytes_length. lia.
  - intros junk m n. destruct (Z.ltb_spec (Z.of_nat (length data)) (2 ^ 32)); intros [= <-] _ _. by rewrite demo_unseal_seal.
Qed.
Lemma smooth_2048 : rsa2048 smooth_key.
Proof. split; [split; [apply Z.leb_le|apply Z.ltb_lt]; by vm_compute|split; [apply Z.leb_le|apply Z.ltb_lt]; by vm_compute]. Qed.
Definition key_file_name : bytes := [107].

Lemma sealed_keys_are_loaded_witness :
  ∃ s', @Preparatory.main demo_sealer [[1]; key_file_name; decimal 5 347] (Tool {[key_file_name := enclave_keys smooth_key smooth_key]} 0 0) =
    Ok (0, s') ∧ t_files s' !! (key_file_name ++ sealed_suffix) = Some (demo_seal sealed_plain) ∧ sealed_keys smooth_key smooth_key ∧
    ∀ e : estate unit, ∃ e', process_sealed_keys (take 4096 (demo_seal sealed_plain)) e = Ok (0, e') ∧ lsm_key_padded_pub e' = lpub smooth_key.
Proof.
  destruct (@sealed_keys_are_loaded demo_sealer demo_sgx demo_seal_laws pkcs_crypto smooth_key smooth_key [1] key_file_name
    (demo_seal sealed_plain) (Tool {[key_file_name := enclave_keys smooth_key smooth_key]} 0 0)) as (s' & E & Hs & Hload & Hk & _);
    [by split|apply lookup_singleton_eq|done|apply smooth_2048|apply smooth_2048| | | |].
  - split; [apply Nat.ltb_lt|apply Nat.leb_le]; by vm_compute.
  - by vm_compute.
  - split; [apply Nat.ltb_lt|apply Nat.leb_le]; by vm_compute.
  - exists s'. split_and!; [exact E|exact Hs|by apply Hk|]. intros e. specialize (Hload unit e []). rewrite app_nil_r in Hload.
    eexists. split; [exact Hload|done].
Defined.

(** ** Witnesses: the daemon *)
Definition lone_daemon (script : list daemon_ret) : @dstate script_os :=
  DState script_os (EState true demo_key demo_key (replicate 1200 0) 0 [] ltc_start 0 (Host script_os (script, []) 0)) ∅ true 0 0 0.

(** One connection, and nothing is ever sent over it. *)
Lemma closed_connection_stops_server_witness :
  run_server asm_handle_request 5 1000 (lone_daemon [DRet 4 0 []]) = Fault OutOfFuel.
Proof.
  apply (closed_connection_stops_server (HOs := script_os) asm_handle_request 4 1000 4 ([], []) (lone_daemon [DRet 4 0 []])); done.
Defined.

(** The attribute of "/f" spells an identifier, with and without a terminator. *)
Definition demo_metadata : bytes := fill 4096 [47; 102].
Definition label_digits : bytes := hex_body (replicate 16 7).

Definition aged_daemon (script : list daemon_ret) : @dstate script_os :=
  let d := lone_daemon script in
  DState script_os (d_enclave d) {[ [47; 102] := Entry (replicate 16 9) 0 ]} true 0 0 0.
Definition much_later : Z := 10 ^ 10.

Lemma paths_are_translated_witness :
  (∃ d', metadata_path_to_identifier demo_metadata (lone_daemon [DRet 32 0 label_digits; DRet 5 0 []]) =
     Ok ((replicate 16 7 ++ drop 16 demo_metadata, true), d') ∧ d_cache d' !! [47; 102] = Some (Entry (replicate 16 7) 5)) ∧
  (∃ d', metadata_path_to_identifier demo_metadata
       (aged_daemon [DRet much_later 0 []; DRet much_later 0 []; DRet 33 0 (label_digits ++ [0])]) =
     Ok ((demo_metadata, false), d') ∧ d_cache d' = ∅).
Proof.
  split.
  - destruct (paths_are_translated (HOs := script_os) demo_metadata (lone_daemon [DRet 32 0 label_digits; DRet 5 0 []])) as (_ & H);
      [done|vm_compute; lia|done|].
    set (d := lone_daemon _) in *. assert (missed (cstring demo_metadata) d d) as Hmiss by by apply missed_absent.
    specialize (H d (DRet 32 0 label_digits) ([DRet 5 0 []], []) Hmiss eq_refl).
    replace (attribute_digits _) with (Some (replicate 16 7)) in H by (vm_compute; reflexivity).
    destruct (H 5 ([], []) eq_refl ltac:(lia)) as [Hok _]. by apply Hok.
  - destruct (paths_are_translated (HOs := script_os) demo_metadata
      (aged_daemon [DRet much_later 0 []; DRet much_later 0 []; DRet 33 0 (label_digits ++ [0])])) as (_ & H);
      [done|vm_compute; lia|done|].
    set (d := aged_daemon _) in *.
    pose proof (missed_expired (HOs := script_os) (cstring demo_metadata) d (Entry (replicate 16 9) 0) much_later
      ([DRet much_later 0 []; DRet 33 0 (label_digits ++ [0])], []) much_later ([DRet 33 0 (label_digits ++ [0])], [])
      ltac:(by vm_compute) eq_refl eq_refl ltac:(by vm_compute) eq_refl ltac:(by vm_compute) ltac:(by vm_compute) ltac:(by vm_compute)) as Hmiss.
    specialize (H _ (DRet 33 0 (label_digits ++ [0])) ([], []) Hmiss eq_refl).
    change (attribute_digits _) with (@None bytes) in H. destruct H as (d' & He & Hc). exists d'. split; [exact He|]. rewrite Hc. by vm_compute.
Defined.

(** The process of the daemon: without the name of an enclave; with an enclave that
    cannot be created; with keys that cannot be opened. *)
Example daemon_exits :
  let run argv script := obs (λ code d, code) (Daemon.main 5 argv (lone_daemon script)) in
  run [[1]] [] = Some (- 1) ∧
  run [[1]; [2]] [DRet 1 0 []; DRet 0 0 []; DRet 2 0 []] = Some (- 1) ∧
  run [[1]; [2]] [DRet 0 0 []; DRet 1 0 []; DRet 0 0 (1 :: replicate 1024 7)] = Some (- EPERM).
Proof. vm_compute. by split_and!. Qed.

(** ** Witnesses: the start of the module *)
Lemma securityfs_serves_paths_witness :
  (boot 0 (λ _, 0)).1 = 0 ∧ others_may (boot 0 (λ _, 0)).2 _CITADEL_SEALED_KEYS_PATH = true.
Proof.
  destruct (securityfs_serves_paths 0 (λ _, 0) the_daemon _CITADEL_SEALED_KEYS_PATH []) as (H0 & _ & _ & Ho); [lia|lia|].
  split; [exact H0|]. apply Ho. by right.
Defined.
