(* ===== verification/PlatformConcrete.v ===== *)
(** * A concrete platform

    The machine of SystemConcrete with process 10 on it: a daemon that gets to run
    at every third poll, and the file "/f" with its label on the disk. *)

From S2P Require Import LibState LibCache LibIpc LibClient Shim LibCacheSpec LibCacheOps LibCacheTheorems LibIpcTheorems LibClientSpec LibPaths.
From S2P Require Import Prelude Shared Hex RBTree Kernel Ring Tickets TicketsSpec CacheModel Access.
From S2P Require Import Crypto Concrete CacheTheorems PayloadIO FileIO Shm Hooks AccessSpec AccessTheorems LabelSpec ProtocolSpec ProtocolTheorems.
From S2P Require Import Ltc LtcRsa LtcConcrete Enclave Daemon EnclaveSpec System SystemSpec SystemServe Platform PlatformSpec PlatformCache PlatformServe PlatformTheorems Sessions SystemConcrete.

Definition calm_os : DaemonOS := {|
  os := unit;
  dsys := λ _ o, Ok (DRet 0 0 [], o);
  dmem := λ _, true;
  dstack := λ _ len, replicate len 170;
  copies := λ _ _, false |}.
Definition calm_posix : Posix := {|
  LibState.world := unit;
  LibState.sys := λ _ w, (SysRet 1 0 [] [], w);
  LibState.clock := λ n, Z.of_nat n;
  LibState.mem := λ _, true;
  LibState.stack := λ _ len, replicate len 170 |}.
Lemma calm_posix_laws : PosixLaws (H := calm_posix).
Proof. split. intros n len. apply length_replicate. Qed.

#[local] Existing Instances demo_kernel demo_laws rb_rotating pkcs_crypto pkcs_crypto_laws demo_sgx demo_sgx_laws
  demo_interop calm_ltc calm_ltc_laws calm_posix_laws.

Definition path_f : bytes := [47; 102].
Definition one_file (path : bytes) : option dentry := if bytes_eqb path path_f then Some demo_dentry else None.
Lemma one_file_known k : k_inodes k = demo_inodes → files_known one_file k.
Proof.
  intros Hi path de Hde. assert (de = demo_dentry) as -> by (unfold one_file in Hde; destruct (bytes_eqb _ _); congruence).
  exists 5%positive. split; [done|]. rewrite Hi. by eexists.
Qed.

Definition process_10 : task_struct := Task 10 (demo_cred 10).
Definition third_poll (n : nat) : bool := (n mod 3 =? 2)%nat.
Abbreviation demo_platform pol := (platform calm_os calm_posix one_file the_daemon process_10 pol third_poll 2).
Abbreviation platform_os := (machine (sockets calm_os process_10) one_file the_daemon).

Lemma third_poll_fair : fair third_poll.
Proof.
  intros n. exists (2 - n mod 3)%nat. pose proof (Nat.mod_upper_bound n 3) as Hm. split.
  - unfold LibIpc.ipc_timeout. lia.
  - unfold third_poll. apply Nat.eqb_eq. rewrite <- Nat.Div0.add_mod_idemp_l.
    replace (n mod 3 + (2 - n mod 3))%nat with 2%nat by lia. done.
Qed.

Lemma demo_environment : environment calm_os calm_posix process_10 third_poll 2.
Proof.
  split; [apply third_poll_fair|lia|unfold is_pid; cbn; lia|cbn; lia|done|apply demo_clock|apply demo_slack| |done|done].
  intros o. by exists 0, o.
Qed.

(** The label of "/f" is on the disk too. *)
Definition labelled : kstate := set_disk {[(3%positive, _CITADEL_XATTR_IDENTIFIER) := hex_body (replicate 16 7)]} session.
Definition platform_daemon (k : kstate) : @dstate platform_os :=
  DState platform_os (EState true demo_key demo_key (replicate 1200 0) 0 [] ltc_start 0
    (Host platform_os (k, Net (base := calm_os) false [] [] tt) 0)) ∅ true 0 0 0.
Definition platform_process pol (self : init_statics) (k : kstate) : @lstate (demo_platform pol) :=
  LState (demo_platform pol) ∅ 1%positive (λ _, None) self (replicate 4188 0) 0 0 0 0
    (Plat calm_os calm_posix one_file the_daemon process_10 (platform_daemon k) true 0 false tt) [].

Lemma platform_at_rest k :
  refines k empty_cache → k_pio k = demo_pio → k_rsa_available k = true → k_inodes k = demo_inodes →
  at_rest calm_os one_file the_daemon process_10 (platform_daemon k) empty_cache.
Proof.
  intros Hr Hp Ha Hi. split; [|done]. split; [|cbn; by rewrite Hp|done]. unfold kern_of. cbn.
  split; [cbn; by rewrite Hp|done|cbn; by rewrite Hp|done|done|by apply one_file_known].
Qed.
Lemma labelled_refines : refines labelled empty_cache.
Proof. eapply refines_ext; [apply session_refines|done..]. Qed.

(** ** Joining *)
Definition newcomer : init_statics := InitStatics 0 0 0 false (replicate 16 0) (replicate 16 0) None None.

Lemma citadel_init_joins_witness :
  ∃ l', citadel_init (platform_process asm_handle_request newcomer labelled) = Ok (true, l') ∧ is_Some (signed_ptoken (l_self l')).
Proof.
  destruct (citadel_init_joins calm_os calm_posix one_file the_daemon process_10 asm_handle_request third_poll 2
    (platform_process asm_handle_request newcomer labelled) empty_cache (demo_task 10)) as (l' & p & sealed & E & Hj & _).
  - apply demo_environment.
  - unfold is_pid. cbn. lia.
  - split; [done|apply platform_at_rest; [apply labelled_refines|done..]|done|done|done|done|cbn; lia].
  - intros a. cbn. rewrite lookup_empty. by intros [].
  - done.
  - done.
  - done.
  - exists l'. split; [exact E|]. exists sealed. apply (ht_sealed _ _ _ _ _ _ _ _ _ _ _ _ (jn_token _ _ _ _ _ _ _ _ _ _ _ _ Hj)).
Defined.

(** ** A process that has joined *)
Definition member : init_statics :=
  InitStatics 99 10 1 false (replicate 16 10) (replicate 16 0) (Some (replicate 8 21)) (Some demo_sealed_token).

Lemma member_joined pol :
  joined calm_os calm_posix one_file the_daemon process_10 pol third_poll 2
    (platform_process pol member labelled) empty_cache demo_protected demo_sealed_token.
Proof.
  split; [done|apply platform_at_rest; [apply labelled_refines|done..]|].
  split; [done|done|done|done| |cbn; lia]. intros rq Hrq.
  exists (replicate 12 1), (enc_ptoken_protected demo_protected). split_and!; [done|done|done| |done|done].
  symmetry. by apply dec_enc_ptoken_protected.
Qed.

Lemma member_cache pol : lib_rep (platform_process pol member labelled) (λ _, []).
Proof.
  split; [|by constructor]. split; try done; [intros; constructor|by intros ? ? ? ? ? ?%elem_of_nil|].
  intros a. cbn. rewrite lookup_empty. by intros [].
Qed.

Lemma labelled_known : known_file labelled demo_dentry demo_inode demo_label.
Proof. by split. Qed.

Lemma path_f_ok : path_ok path_f.
Proof. split; [by repeat constructor|cbn; lia]. Qed.

Lemma file_open_end_to_end_witness :
  ∃ l' k', citadel_file_open (terminated path_f) (path_length path_f) (platform_process asm_handle_request member labelled) = Ok (true, l') ∧
    trm_inode_permission process_10 demo_inode 4
      (set_nclk 10 (kernel_of calm_os calm_posix one_file the_daemon process_10 (l_world l'))) = Ok (0, k').
Proof.
  destruct (file_open_end_to_end calm_os calm_posix one_file the_daemon process_10 asm_handle_request third_poll 2
    demo_cred (platform_process asm_handle_request member labelled) (λ _, []) empty_cache demo_protected demo_sealed_token path_f (replicate 16 7)
    demo_dentry demo_inode demo_label (demo_task 10)) as (l' & C' & E & Hj & _ & _ & _ & Hopen).
  - apply demo_environment.
  - apply member_joined.
  - apply demo_ordered.
  - apply member_cache.
  - done.
  - apply path_f_ok.
  - done.
  - split; [apply Forall_replicate; unfold byte_ok; lia|done].
  - split_and!; [apply labelled_known|done|]. intros e. cbn. by rewrite lookup_empty.
  - done.
  - done.
  - done.
  - done.
  - destruct (Hopen 4 10%nat) as (k' & Hk); [|vm_compute; reflexivity|exists l', k'; split; [exact E|exact Hk]].
    rewrite (joined_clock _ _ _ _ _ _ _ _ _ _ _ _ Hj). vm_compute. lia.
Defined.

(** A policy that refuses everything. *)
Definition stern (pid : Z) (rq : citadel_op_request) (md : option bytes) : Z := CITADEL_OP_REJECTED.
Lemma refused_open_changes_nothing_witness :
  ∃ l', citadel_file_open (terminated path_f) (path_length path_f) (platform_process stern member labelled) = Ok (false, l') ∧
    kernel_of calm_os calm_posix one_file the_daemon process_10 (l_world l') = labelled.
Proof.
  destruct (refused_open_changes_nothing calm_os calm_posix one_file the_daemon process_10 stern third_poll 2
    (platform_process stern member labelled) (λ _, []) empty_cache demo_protected demo_sealed_token path_f (replicate 16 7) demo_dentry demo_inode demo_label)
    as (l' & C' & E & Hk & _).
  - apply demo_environment.
  - apply member_joined.
  - apply member_cache.
  - done.
  - apply path_f_ok.
  - done.
  - split; [apply Forall_replicate; unfold byte_ok; lia|done].
  - split_and!; [apply labelled_known|done|]. intros e. cbn. by rewrite lookup_empty.
  - done.
  - exists l'. split; [exact E|exact Hk].
Defined.

Lemma file_claim_end_to_end_witness :
  ∃ l' k', citadel_file_claim (terminated path_f) (path_length path_f) (platform_process asm_handle_request member labelled) = Ok (true, l') ∧
    trm_inode_permission process_10 demo_inode 4
      (set_nclk 10 (kernel_of calm_os calm_posix one_file the_daemon process_10 (l_world l'))) = Ok (0, k').
Proof.
  destruct (file_claim_end_to_end calm_os calm_posix one_file the_daemon process_10 asm_handle_request third_poll 2
    demo_cred (platform_process asm_handle_request member labelled) (λ _, []) empty_cache demo_protected demo_sealed_token path_f
    demo_dentry demo_inode demo_label (demo_task 10) 32 []
    (<[(3%positive, _CITADEL_XATTR_IDENTIFIER) := hex_body (sgx_rand 1 16)]> (k_disk labelled)))
    as (l' & C' & lab' & E & Hj & _ & _ & _ & _ & Hopen).
  - apply demo_environment.
  - apply member_joined.
  - apply demo_ordered.
  - apply member_cache.
  - done.
  - apply path_f_ok.
  - done.
  - apply labelled_known.
  - done.
  - done.
  - lia.
  - done.
  - done.
  - done.
  - destruct (Hopen 4 10%nat) as (k' & Hk); [|vm_compute; reflexivity|exists l', k'; split; [exact E|exact Hk]].
    rewrite (joined_clock _ _ _ _ _ _ _ _ _ _ _ _ Hj). vm_compute. lia.
Defined.

(** ** A session: "/f" is opened, claimed, and opened again. *)
Lemma one_file_separate : separate one_file.
Proof.
  intros path1 path2 de1 de2 H1 H2 Hne. unfold one_file in *.
  destruct (bytes_eqb path1 path_f) eqn:E1; [|done]. destruct (bytes_eqb path2 path_f) eqn:E2; [|done].
  apply bytes_eqb_eq in E1, E2. congruence.
Qed.

Lemma demo_permissive : permissive process_10 asm_handle_request.
Proof. by split. Qed.

Lemma member_session :
  session_ok calm_os calm_posix one_file the_daemon process_10 asm_handle_request third_poll 2
    (platform_process asm_handle_request member labelled) empty_cache demo_protected demo_sealed_token.
Proof.
  split; [apply member_joined|exists (λ _, []); apply member_cache|]. intros path de Hres. exists demo_inode, demo_label.
  assert (path = path_f ∧ de = demo_dentry) as [-> ->].
  { unfold one_file in Hres. destruct (bytes_eqb path path_f) eqn:E; [|done]. apply bytes_eqb_eq in E. split; congruence. }
  apply (with_label _ _ _ _ _ _ _ _ _ (replicate 16 7)); [|split; [apply Forall_replicate; unfold byte_ok; lia|done]|done|done].
  split_and!; [apply labelled_known|done|]. intros e. cbn. by rewrite lookup_empty.
Qed.

Lemma sessions_succeed_witness :
  ∃ l', run_session [open_file path_f; claim_file path_f; open_file path_f] (platform_process asm_handle_request member labelled) =
    Ok ([true; true; true], l').
Proof.
  destruct (sessions_succeed calm_os calm_posix one_file the_daemon process_10 asm_handle_request third_poll 2
    demo_environment demo_permissive one_file_separate
    [open_file path_f; claim_file path_f; open_file path_f] (platform_process asm_handle_request member labelled) empty_cache demo_protected
    demo_sealed_token member_session) as (l' & recs & E & _).
  - repeat (constructor; [split; [apply path_f_ok|by eexists]|]). constructor.
  - exists l'. exact E.
Defined.
